(* ===== verification/_CoqProject ===== *)
-Q . S2P
Prelude.v
Double.v
DoubleError.v
NtpTime.v
Packet.v
Net.v
Script.v
SntpTools.v
Server.v
CString.v
Printf.v
Setting.v
Config.v
ConfigWf.v
ConfigProps.v
ConfigTree.v
ConfigApi.v
ScanCtx.v
Scanner.v
ScannerSpec.v
ScanBuffer.v
BufferedLexer.v
BufferProps.v
MatchProps.v
RefillProps.v
RefillLoop.v
RefillToken.v
RefillSpec.v
SwitchProps.v
LexerProps.v
Tokens.v
Grammar.v
ParserProps.v
ConfigRead.v
BufferedParser.v
ParserSees.v
ConfigWrite.v
WriteTokens.v
WriteString.v
TreeWrite.v
ParserSafe.v
ScanProps.v
LexerRefines.v
LexerRuns.v
ReadRefines.v
ParseRuns.v
TreeParse.v
TreeMoves.v
ValueMoves.v
GroupMoves.v
RoundTrip.v
FloatText.v
Cxx.v
CxxProps.v
CxxCalls.v
CxxSafe.v
CxxIter.v
CxxException.v
Locale.v
SetupConfig.v
ServerMain.v
SettingsSpec.v
ServerMainSpec.v
Client.v
ClientSpec.v
ClockSpec.v
ManycastSpec.v
ClientMain.v
ClientSettings.v
ClientMainSpec.v
