(* ===== verification/Prelude.v ===== *)
(** * SNTP: a verification library

    The repository holds an SNTP client and an SNTP server in C
    (src/sntpclient.c, src/sntpserver.c), the code they share (src/sntptools.c,
    src/reusedlib.c), and the configuration library they read their settings
    with, libconfig 1.5 (src/libconfig-1.5/lib), whose scanner and parser are
    generated by flex and bison.  This library models these programs as Rocq
    functions and proves what makes them correct.

    ** How the parts fit together

    A program reads its settings file at start: setup_config_file calls
    config_init and config_read_file, which runs the parser; the parser asks the
    scanner for tokens, its actions add settings to the configuration's tree.
    Settings are then looked up by path.  The client overrides them by its
    command line.  The server waits for requests, checks them and answers with
    its clock.  The client sends a request (after finding a server by manycast,
    if asked to), checks the replies, retries, and computes the clock offset and
    its error bound.  config_write_file and the C++ classes of libconfig are used
    by neither program, but are part of the library's contract and modelled as
    well.

    ** Files

    Foundations.  Prelude (this file): machine integers, the state-and-outcome
    monad with its undefined behaviours, rules for total runs ([returns]) and for
    runs of any outcome ([wp]), loops with fuel.  Double: binary64 arithmetic and
    its conversions, on the Standard Library's SpecFloat.  DoubleError: its
    rounding errors.  CString, Printf: the
    parts of <string.h>, <ctype.h>, <stdlib.h>, <stdio.h> that are used.

    SNTP.  NtpTime (reusedlib.c: time conversions), Packet (struct ntp_packet and
    its 48 bytes), Net (the system calls, as a class [Kernel] over any kernel
    state, with the laws [KernelOk]), Script (a kernel that plays a script),
    SntpTools (sntptools.c, reusedlib.c), Server and ServerMain (sntpserver.c),
    Client and ClientMain (sntpclient.c); ClientSpec, ManycastSpec,
    ClockSpec, ClientSettings, SettingsSpec, ServerMainSpec, ClientMainSpec prove what client
    and server guarantee.

    libconfig's tree (libconfig.c, libconfig.h).  Setting: settings in a heap, a
    configuration as the state, pointers that can dangle.  Config: every
    operation.  ConfigWf, ConfigProps, ConfigTree: the well-formedness invariant,
    its preservation, subtrees.  ConfigApi: what callers rely on.

    libconfig's reading (scanner.l, scanner.c, grammar.y, grammar.c, scanctx.c,
    strbuf.c, config_read and its kin).  ScanCtx: string buffers, include files.
    Scanner: the generated tables, the matching loop, the rules, on texts at hand.
    ScannerSpec: the patterns as regular expressions.  LexerProps, ScanProps:
    progress and invariants of scanning.  ScanBuffer: the buffers of scanner.c
    with their memory, their refilling from streams, their stack, and the matching
    on that memory.  BufferedLexer: the actions on these buffers, the include
    stack of buffers and streams, and what __config_read does around a parse.
    BufferProps (rules for the current buffer), MatchProps (the automaton on lists
    of characters), RefillProps, RefillLoop (refilling keeps the text),
    RefillToken, RefillSpec (one token), SwitchProps (several buffers),
    LexerRefines (yylex), LexerRuns (from opening to closing): the scanner on
    buffers refines the one on texts.  Grammar: the generated automaton and the actions.
    ParserProps, ParserSafe: its invariants, termination.  ConfigRead,
    SetupConfig: the entry points, on texts.  BufferedParser: the parser on the
    scanner with buffers, and the entry points on streams, as they are in the code.
    ParserSees: what of the scanner the parser's actions depend on.  ReadRefines:
    reading from streams does what reading texts does.

    libconfig's writing.  ConfigWrite: config_write and what it calls.
    FloatText: the text of floats.  Tokens, WriteTokens, WriteString, TreeWrite:
    what the written text scans to.  ParseRuns, TreeParse, TreeMoves, ValueMoves,
    GroupMoves: what the parser does on the tokens of a tree.  RoundTrip: writing
    and reading put together.  Locale: the switch to the "C" locale around both,
    which the other files take for granted.

    libconfig's C++ classes (libconfigcpp.c++, libconfig.h++).  Cxx: Config,
    Setting, the exceptions and iterators, over the C model, with a store of the
    Setting objects that hooks point into.  CxxProps, CxxCalls, CxxSafe, CxxIter:
    their properties.  CxxException: the exceptions as objects that own their text,
    against the values that Cxx has for them.

    ** How code becomes definitions

    A C function is a function into [M state]: it takes the state and returns an
    outcome and the state reached.  The outcome tells a result ([Ret]) from
    exit(), abort(), undefined behaviour and exhausted fuel, so that "this call
    is safe" is a statement about outcomes.  C integers are [Z]; the definitions
    wrap where the code wraps and are undefined where the code overflows.
    Pointers to settings are locations of a heap; a freed location is absent, and
    following it is undefined.  Text is [string], without NUL where C says so.
    The setting->config pointers are one flag of the state: [moved] says that the
    structure they point to is gone, as it is after setup_config_file returns its
    config_t by value.  C++ exceptions are values of a sum.

    ** What is proved

    SNTP exchange: the server's loop refines a specification of the replies to
    each datagram (C1), for ever (C28), and never answers a reply (C29); the
    client's exchange and the manycast discovery refine specifications of the
    traffic (C2, C3); the offset that the client computes is the difference of the
    clocks within half of the network delay, rounding included (C4, C5); whole
    runs of the two programs, from their settings to their
    exit, are made of these (C6, C7), and repeated updates end with the averages
    of their samples (C8); the client accepts what the server sends (C9), with the
    sanity checks stated on the wire (C10); the time conversions invert each other
    up to a microsecond (C11, C12); packets and bytes correspond (C27).

    Settings: what the programs end up with, from file and command line (C21,
    C22), and an argument that makes the client hang (C26).

    libconfig: the scanner matches the longest prefix that a pattern matches
    (C13); reading any input ends, safely, with a well-formed configuration (C14);
    yylex on refilled buffers, through include files, does what the scanner on
    whole texts does (C15), token by token (C16), and so do config_read,
    config_read_string and config_read_file, with nothing of buffers and streams
    left in the end (C17): what C14, C22 and C30 say of texts holds of the files;
    calls of the interface are safe (C18); members are a finite map (C19, C20);
    destruction frees everything once (C24); paths descend the tree (C25);
    what is written reads back (C30), writing always ends (C31); buffers are
    large enough (C32, C33); the scanner keeps its invariants and its tokens
    carry values of their type (C34, C35).

    C++: programs that use objects they hold stay safe and objects correspond to
    settings (C36); paths of settings lead back to them (C37); typed access (C38);
    destruction deletes every object once (C39); iteration visits the children in
    order (C40); exception objects behave as values, but for two assignments (C23).

    ** Fuel and bounds

    Loops that are not structural take fuel.  Reading: ParserSafe gives a bound
    from the text's length, its quotes and the files it can include, at most ten
    deep (MAX_INCLUDE_DEPTH), and proves that this is enough for any input.
    Recursion on the tree uses [destroy_fuel], the number of locations ever
    allocated, which exceeds the depth of any setting; path lookup uses the
    length of the path.  A token takes eight steps per character and one per read
    of the stream ([token_fuel]).  The network loops may run for ever in C; the theorems
    about them hold for any fuel and say what a run that is cut off has done, or
    give the fuel that a deadline needs.

    ** Not modelled

    Failing allocations, but for newlocale's; the interactive branch of YY_INPUT, which
    never-interactive rules out; the debugging output of bison; the C++ overloads
    for std::string, which only call c_str().  The tests, examples, contributed
    bindings and the build system are outside the library. *)

From Stdlib Require Export ZArith Lia Ascii.
From stdpp Require Export base list strings gmap.

(** ** Machine integers

    C integers are [Z]; a value of a w-bit type is the reduction of the
    mathematical result.  Unsigned arithmetic and narrowing conversions wrap
    ([u8] ... [s64]); signed arithmetic that leaves its range is undefined and
    goes through [ckint] below. *)

Declare Scope c_scope.
Delimit Scope c_scope with C.
Local Open Scope Z_scope.

Definition uwrap (w z : Z) : Z := z mod 2 ^ w.
Definition swrap (w z : Z) : Z := (z + 2 ^ (w - 1)) mod 2 ^ w - 2 ^ (w - 1).

Abbreviation u8 := (uwrap 8).
Abbreviation u16 := (uwrap 16).
Abbreviation u32 := (uwrap 32).
Abbreviation u64 := (uwrap 64).
Abbreviation s8 := (swrap 8).
Abbreviation s16 := (swrap 16).
Abbreviation s32 := (swrap 32).
Abbreviation s64 := (swrap 64).

Definition INT_MAX : Z := 2147483647.
Definition INT_MIN : Z := -2147483648.
Definition LLONG_MAX : Z := 9223372036854775807.
Definition LLONG_MIN : Z := -9223372036854775808.
Definition ULLONG_MAX : Z := 18446744073709551615.

Definition is_int (z : Z) : bool := (INT_MIN <=? z) && (z <=? INT_MAX).

(** Truth of a C condition. *)
Definition b2i (b : bool) : Z := if b then 1 else 0.
Definition i2b (z : Z) : bool := negb (z =? 0).

(** ** Computations

    A C function that touches state is a function of type [M S A]: it takes
    the state and returns an outcome with the state reached.  [Undef] marks
    behaviour the C standard leaves undefined, [NoFuel] a loop that was cut off
    by the fuel given to it. *)

Inductive ub : Set :=
  | UB_null          (* a null pointer was dereferenced *)
  | UB_indeterminate (* an indeterminate pointer was dereferenced *)
  | UB_dangling      (* a freed object was accessed *)
  | UB_bounds        (* an array was written out of its bounds *)
  | UB_overflow      (* signed arithmetic overflowed *)
  | UB_float_cast    (* a floating value out of range was converted *)
  | UB_union         (* a union was read through another member *)
  | UB_io.           (* a library call was used against its contract *)

Inductive outcome (A : Type) : Type :=
  | Ret (a : A)
  | Exited (code : Z)
  | Aborted
  | Undef (why : ub)
  | NoFuel.
Arguments Ret {A} a.
Arguments Exited {A} code.
Arguments Aborted {A}.
Arguments Undef {A} why.
Arguments NoFuel {A}.

Definition M (S A : Type) : Type := S -> outcome A * S.

#[export] Instance M_ret S : MRet (M S) := fun A a s => (Ret a, s).
#[export] Instance M_bind S : MBind (M S) := fun A B f m s =>
  match m s with
  | (Ret a, s') => f a s'
  | (Exited c, s') => (Exited c, s')
  | (Aborted, s') => (Aborted, s')
  | (Undef w, s') => (Undef w, s')
  | (NoFuel, s') => (NoFuel, s')
  end.

Section Primitives.
Context {S : Type}.

Definition get : M S S := fun s => (Ret s, s).
Definition gets {A} (f : S -> A) : M S A := fun s => (Ret (f s), s).
Definition put (s : S) : M S unit := fun _ => (Ret tt, s).
Definition modify (f : S -> S) : M S unit := fun s => (Ret tt, f s).
Definition stop {A} (o : outcome A) : M S A := fun s => (o, s).
Definition undef {A} (w : ub) : M S A := stop (Undef w).
Definition exit_ {A} (c : Z) : M S A := stop (Exited c).
Definition abort_ {A} : M S A := stop Aborted.
Definition lift_opt {A} (w : ub) (o : option A) : M S A :=
  match o with Some a => mret a | None => undef w end.

(** A signed [int] result: undefined when it does not fit. *)
Definition ckint (z : Z) : M S Z :=
  if is_int z then mret z else undef UB_overflow.

(** Loops: the body maps the loop variables to new ones ([inl], the loop
    goes on) or to the loop's result ([inr]). *)
Fixpoint iter {B A} (fuel : nat) (body : B -> M S (B + A)) (b : B) : M S A :=
  match fuel with
  | O => stop NoFuel
  | Datatypes.S n =>
      r ← body b;
      match r with
      | inl b' => iter n body b'
      | inr a => mret a
      end
  end.
End Primitives.

(** ** Weakest preconditions: [wp c Q s] says that running [c] from [s] ends
    with an outcome and a state that satisfy [Q]. *)

Definition wp {S A} (c : M S A) (Q : outcome A -> S -> Prop) (s : S) : Prop :=
  let (o, s') := c s in Q o s'.

(** Postcondition of a bind: go on after a result, stop otherwise. *)
Definition then_ {S A B} (f : A -> M S B) (Q : outcome B -> S -> Prop)
    (o : outcome A) (s : S) : Prop :=
  match o with
  | Ret a => wp (f a) Q s
  | Exited c => Q (Exited c) s
  | Aborted => Q Aborted s
  | Undef w => Q (Undef w) s
  | NoFuel => Q NoFuel s
  end.

Section WpRules.
Context {S : Type}.
Implicit Types (s : S).

Lemma wp_ret {A} (a : A) Q s : Q (Ret a) s -> wp (mret a : M S A) Q s.
Proof. done. Qed.

Lemma wp_bind {A B} (m : M S A) (f : A -> M S B) Q s :
  wp m (then_ f Q) s -> wp (m ≫= f) Q s.
Proof.
  unfold wp, mbind, M_bind. destruct (m s) as [[] s']; simpl; auto.
Qed.

Lemma wp_bind_inv {A B} (m : M S A) (f : A -> M S B) Q s :
  wp (m ≫= f) Q s -> wp m (then_ f Q) s.
Proof.
  unfold wp, mbind, M_bind. destruct (m s) as [[] s']; simpl; auto.
Qed.

Lemma wp_mono {A} (m : M S A) (P Q : outcome A -> S -> Prop) s :
  (forall o s', P o s' -> Q o s') -> wp m P s -> wp m Q s.
Proof. unfold wp. destruct (m s); auto. Qed.

(** The outcome and the state that a run ends with. *)
Lemma wp_run {A} (m : M S A) Q s : wp m Q s -> exists o s', m s = (o, s') /\ Q o s'.
Proof. unfold wp. destruct (m s) as [o s']. by exists o, s'. Qed.

(** A computation whose result is known. *)
Lemma wp_result {A} (m : M S A) o s s' : wp m (fun o' t => (o', t) = (o, s')) s -> m s = (o, s').
Proof. unfold wp. by destruct (m s). Qed.

(** Loops: an invariant on the loop variables and the state, and a measure
    that every further round decreases; fuel above the measure suffices. *)
Lemma wp_iter {B A} (body : B -> M S (B + A)) (I : B -> S -> Prop)
    (mu : B -> S -> nat) (Q : outcome A -> S -> Prop) :
  (forall b s, I b s ->
     wp (body b) (fun o s' =>
       match o with
       | Ret (inl b') => I b' s' /\ (mu b' s' < mu b s)%nat
       | Ret (inr a) => Q (Ret a) s'
       | Exited c => Q (Exited c) s'
       | Aborted => Q Aborted s'
       | Undef w => Q (Undef w) s'
       | NoFuel => Q NoFuel s'
       end) s) ->
  forall fuel b s, I b s -> (mu b s < fuel)%nat ->
    wp (iter fuel body b) Q s.
Proof.
  intros Hbody fuel; induction fuel as [|fuel IH]; intros b s HI Hmu; [lia|].
  simpl. apply wp_bind. specialize (Hbody b s HI).
  unfold wp in *. destruct (body b s) as [[[b'|a]|c| |w|] s']; simpl; auto.
  destruct Hbody as [HI' Hlt]. unfold wp. apply IH; [done | lia].
Qed.

(** Loops whose rounds lower a rank that the invariant carries. *)
Lemma wp_iter_ranked {B A} (body : B -> M S (B + A)) (I : nat -> B -> S -> Prop) (Q : outcome A -> S -> Prop) :
  (forall n l s, I n l s -> wp (body l) (fun o s' =>
     match o with
     | Ret (inl l') => exists k, (k < n)%nat /\ I k l' s'
     | Ret (inr a) => Q (Ret a) s'
     | Exited c => Q (Exited c) s'
     | Aborted => Q Aborted s'
     | Undef w => Q (Undef w) s'
     | NoFuel => Q NoFuel s'
     end) s) ->
  forall fuel n l s, I n l s -> (n < fuel)%nat -> wp (iter fuel body l) Q s.
Proof.
  intros Hbody fuel. induction fuel as [|fuel IH]; intros n l s HI Hn; [lia|].
  cbn [iter]. apply wp_bind. eapply wp_mono; [|by apply Hbody].
  intros o s' Ho. destruct o as [[l'|a]| | | |]; try done. destruct Ho as (k & Hk & HI').
  cbn [then_]. apply (IH k); [done|lia].
Qed.
End WpRules.

(** Two loops in step: when each round of one does what the round of the other
    does, so does the loop, for as many rounds. *)
Lemma wp_iter_both {S T B A} (body : B -> M S (B + A)) (body' : B -> M T (B + A))
    (R : B -> S -> T -> Prop) (P : A -> S -> T -> Prop) :
  (forall b s t, R b s t -> exists r t', body' b t = (Ret r, t') /\
     wp (body b) (fun o s' => o = Ret r /\ match r with inl b' => R b' s' t' | inr a => P a s' t' end) s) ->
  forall n b s t a t', R b s t -> iter n body' b t = (Ret a, t') ->
    wp (iter n body b) (fun o s' => o = Ret a /\ P a s' t') s.
Proof.
  intros Hround n. induction n as [|n IH]; intros b s t a t' HR E; [done|]. cbn [iter] in E |- *.
  destruct (Hround b s t HR) as (r & t1 & E1 & Hw). unfold mbind, M_bind in E. rewrite E1 in E.
  apply wp_bind. eapply wp_mono; [|exact Hw]. intros o s1 [-> Hr]. cbn [then_].
  destruct r as [b'|a']; [by eapply IH|]. injection E as <- <-. by apply wp_ret.
Qed.

(** Runs a computation whose steps are known. *)
Ltac munfold :=
  cbv [mbind M_bind mret M_ret get gets put modify stop undef exit_ abort_
       lift_opt] in *; simpl.

(** One step of a weakest precondition: enter the continuation of a result that
    is known, and focus the first computation of a bind. *)
Ltac wnext :=
  lazymatch goal with |- then_ _ _ _ _ => cbn [then_] | _ => idtac end;
  lazymatch goal with |- wp (_ ≫= _) _ _ => apply wp_bind | _ => idtac end.

(** ** Runs that return

    [returns m s P]: from [s], [m] returns a value (nothing is undefined, no
    fuel is missing) and the value and the state satisfy [P]. *)

Section Returns.
Context {S : Type}.
Implicit Types (s : S).

Definition returns {A} (m : M S A) s (P : A -> S -> Prop) : Prop :=
  exists a s', m s = (Ret a, s') /\ P a s'.

Lemma returns_bind {A B} (m : M S A) (f : A -> M S B) s P :
  returns m s (fun a s' => returns (f a) s' P) -> returns (m ≫= f) s P.
Proof.
  intros (a & s' & E & b & s'' & E' & HP). exists b, s''. split; [|done].
  unfold mbind, M_bind. by rewrite E.
Qed.

Lemma returns_ret {A} (a : A) s (P : A -> S -> Prop) : P a s -> returns (mret a) s P.
Proof. intros HP. by exists a, s. Qed.

Lemma returns_mono {A} (m : M S A) s (P Q : A -> S -> Prop) :
  (forall a s', P a s' -> Q a s') -> returns m s P -> returns m s Q.
Proof. intros HPQ (a & s' & E & HP). exists a, s'. auto. Qed.

Lemma returns_lift {A} w (o : option A) a s (P : A -> S -> Prop) :
  o = Some a -> P a s -> returns (lift_opt w o) s P.
Proof. intros -> HP. by exists a, s. Qed.

Lemma returns_get s (P : S -> S -> Prop) : P s s -> returns get s P.
Proof. intros HP. by exists s, s. Qed.

Lemma returns_gets {A} (f : S -> A) s (P : A -> S -> Prop) : P (f s) s -> returns (gets f) s P.
Proof. intros HP. by exists (f s), s. Qed.

Lemma returns_put s s' (P : unit -> S -> Prop) : P tt s' -> returns (put s') s P.
Proof. intros HP. by exists tt, s'. Qed.

Lemma returns_modify f s (P : unit -> S -> Prop) : P tt (f s) -> returns (modify f) s P.
Proof. intros HP. by exists tt, (f s). Qed.

(** Runs, one computation at a time. *)
Lemma bind_ret {A B} (m : M S A) (f : A -> M S B) a s s' :
  m s = (Ret a, s') -> (m ≫= f) s = f a s'.
Proof. intros E. unfold mbind, M_bind. by rewrite E. Qed.

Lemma bind_undef {A B} (m : M S A) (f : A -> M S B) w s s' :
  m s = (Undef w, s') -> (m ≫= f) s = (Undef w, s').
Proof. intros E. unfold mbind, M_bind. by rewrite E. Qed.

Lemma bind_exited {A B} (m : M S A) (f : A -> M S B) z s s' :
  m s = (Exited z, s') -> (m ≫= f) s = (Exited z, s').
Proof. intros E. unfold mbind, M_bind. by rewrite E. Qed.

(** Loops, as wp_iter. *)
Lemma returns_iter {B A} (body : B -> M S (B + A)) (I : B -> S -> Prop) (mu : B -> S -> nat)
    (P : A -> S -> Prop) :
  (forall b s, I b s -> returns (body b) s (fun r s' =>
     match r with inl b' => I b' s' /\ (mu b' s' < mu b s)%nat | inr a => P a s' end)) ->
  forall fuel b s, I b s -> (mu b s < fuel)%nat -> returns (iter fuel body b) s P.
Proof.
  intros Hbody fuel. induction fuel as [|fuel IH]; intros b s HI Hmu; [lia|].
  simpl. apply returns_bind. eapply returns_mono; [|by apply Hbody].
  intros [b'|a] s' H; [|by apply returns_ret]. destruct H. apply IH; [done|lia].
Qed.
End Returns.

(** One step: the first computation of a bind, or the value returned. *)
Ltac rnext :=
  lazymatch goal with
  | |- returns (_ ≫= _) _ _ => apply returns_bind
  | |- returns (mret _) _ _ => apply returns_ret
  | _ => idtac
  end.

Create HintDb cint discriminated.

(** ** Generic lemmas: integers *)

Lemma uwrap_small w z : 0 <= z < 2 ^ w -> uwrap w z = z.
Proof. apply Z.mod_small. Qed.

Lemma uwrap_range w z : 0 <= w -> 0 <= uwrap w z < 2 ^ w.
Proof. intros. apply Z.mod_pos_bound. lia. Qed.

Lemma uwrap_idem w z : uwrap w (uwrap w z) = uwrap w z.
Proof. apply Zmod_mod. Qed.

Lemma swrap_small w z : 0 < w -> - 2 ^ (w - 1) <= z < 2 ^ (w - 1) -> swrap w z = z.
Proof.
  intros Hw Hz. unfold swrap.
  assert (2 ^ w = 2 * 2 ^ (w - 1)) as E
    by (rewrite <- Z.pow_succ_r by lia; f_equal; lia).
  rewrite Z.mod_small; lia.
Qed.

Lemma swrap_range w z : 0 < w -> - 2 ^ (w - 1) <= swrap w z < 2 ^ (w - 1).
Proof.
  intros Hw. unfold swrap.
  assert (2 ^ w = 2 * 2 ^ (w - 1)) as E
    by (rewrite <- Z.pow_succ_r by lia; f_equal; lia).
  pose proof (Z.mod_pos_bound (z + 2 ^ (w - 1)) (2 ^ w)). lia.
Qed.

Lemma is_int_spec z : is_int z = true <-> INT_MIN <= z <= INT_MAX.
Proof. unfold is_int. rewrite andb_true_iff, !Z.leb_le. lia. Qed.

Lemma s32_small z : is_int z = true -> s32 z = z.
Proof.
  rewrite is_int_spec. unfold INT_MIN, INT_MAX. intros.
  apply swrap_small; [lia|]. change (2 ^ (32 - 1)) with 2147483648. lia.
Qed.

#[export] Hint Resolve uwrap_small uwrap_range swrap_small : cint.
