(* ===== verification/Double.v ===== *)
(** * Binary64 arithmetic

    The C type [double] is the executable IEEE-754 specification of the Rocq
    core library ([spec_float] with 53 bits of precision), with the
    conversions the C code performs: integer to double (round to nearest even),
    and double to integer (truncation, undefined when out of range). *)

From Stdlib Require Import SpecFloat.
From S2P Require Import Prelude.
Local Open Scope Z_scope.

Abbreviation double := spec_float (only parsing).

Definition prec : Z := 53.
Definition emax : Z := 1024.

Definition dadd : double -> double -> double := SFadd prec emax.
Definition dsub : double -> double -> double := SFsub prec emax.
Definition dmul : double -> double -> double := SFmul prec emax.
Definition ddiv : double -> double -> double := SFdiv prec emax.
Definition d0 : double := S754_zero false.

(** (double) z *)
Definition double_of_Z (z : Z) : double := binary_normalize prec emax z 0 false.

(** The mathematical value of a finite double, truncated toward zero. *)
Definition trunc_mag (m : positive) (e : Z) : Z :=
  if 0 <=? e then Z.shiftl (Zpos m) e else Z.shiftr (Zpos m) (- e).

Definition double_trunc (x : double) : option Z :=
  match x with
  | S754_zero _ => Some 0
  | S754_finite s m e => Some (if s then - trunc_mag m e else trunc_mag m e)
  | _ => None
  end.

(** Conversion to an integer type with the given bounds (C11 6.3.1.4). *)
Definition double_to (lo hi : Z) (x : double) : option Z :=
  match double_trunc x with
  | Some z => if (lo <=? z) && (z <=? hi) then Some z else None
  | None => None
  end.

Definition double_to_u32 : double -> option Z := double_to 0 4294967295.
Definition double_to_int : double -> option Z := double_to INT_MIN INT_MAX.
Definition double_to_ll : double -> option Z := double_to LLONG_MIN LLONG_MAX.

(** The decimal constants of the code. *)
Definition d1e6 : double := double_of_Z 1000000.
Definition d1em6 : double := ddiv (double_of_Z 1) d1e6.
Definition d2p32 : double := double_of_Z (2 ^ 32).

(** The double nearest to [m * 10^e] (what strtod computes). *)
Definition double_of_decimal (neg : bool) (m e : Z) : double :=
  match m with
  | Zpos p =>
      if 0 <=? e then
        binary_round prec emax neg (p * Z.to_pos (10 ^ e)) 0
      else
        let '(q, e', l) := SFdiv_core_binary prec emax (Zpos p) 0 (10 ^ (- e)) 0 in
        binary_round_aux prec emax neg q e' l
  | _ => S754_zero neg
  end.

(** (float) z converted back to double: rounding to 24 bits first. *)
Definition float_of_Z (z : Z) : double := binary_normalize 24 128 z 0 false.

(** ** Rounding lemmas *)

Lemma iter_pos_nat {A} (f : A -> A) p x :
  SpecFloat.iter_pos f p x = Nat.iter (Pos.to_nat p) f x.
Proof.
  revert x. induction p as [p IH|p IH|]; intros x; cbn [SpecFloat.iter_pos]; [| |done].
  - rewrite !IH, Pos2Nat.inj_xI, <- Nat.iter_add.
    replace (S (2 * Pos.to_nat p))%nat with ((Pos.to_nat p + Pos.to_nat p) + 1)%nat by lia.
    by rewrite (Nat.iter_add _ 1).
  - rewrite !IH, Pos2Nat.inj_xO, <- Nat.iter_add. f_equal. lia.
Qed.

(** The record reached after shifting [m] right by [n]: quotient, round bit
    and sticky bit. *)
Definition shr_spec (m : Z) (n : nat) : shr_record :=
  match n with
  | O => {| shr_m := m; shr_r := false; shr_s := false |}
  | S k => {| shr_m := m / 2 ^ Z.of_nat n;
              shr_r := Z.odd (m / 2 ^ Z.of_nat k);
              shr_s := negb (m mod 2 ^ Z.of_nat k =? 0) |}
  end.

Lemma shr_1_spec m r s : 0 <= m ->
  shr_1 {| shr_m := m; shr_r := r; shr_s := s |} =
  {| shr_m := m / 2; shr_r := Z.odd m; shr_s := r || s |}.
Proof. intros. destruct m as [|[p|p|]|]; simpl; try done; f_equal;
  rewrite <- ?Z.div2_div; done. Qed.

Lemma pow2_succ k : 2 ^ Z.of_nat (S k) = 2 * 2 ^ Z.of_nat k.
Proof. rewrite Nat2Z.inj_succ, Z.pow_succ_r; lia. Qed.

Lemma mod_pow2_succ m k :
  m mod 2 ^ Z.of_nat (S k) =
  m mod 2 ^ Z.of_nat k + 2 ^ Z.of_nat k * ((m / 2 ^ Z.of_nat k) mod 2).
Proof.
  rewrite pow2_succ, Z.mul_comm.
  apply Z.rem_mul_r; [apply Z.pow_nonzero; lia | lia].
Qed.

Lemma shr_iter_spec m n : 0 <= m ->
  Nat.iter n shr_1 {| shr_m := m; shr_r := false; shr_s := false |} = shr_spec m n.
Proof.
  intros Hm. induction n as [|n IH]; [done|]. rewrite Nat.iter_succ, IH.
  assert (0 < 2 ^ Z.of_nat n) by (apply Z.pow_pos_nonneg; lia).
  destruct n as [|k]; simpl shr_spec.
  - rewrite shr_1_spec by done. simpl. by rewrite Z.div_1_r, Z.mod_1_r.
  - rewrite shr_1_spec by (apply Z.div_pos; lia). f_equal.
    + rewrite Z.div_div by lia. f_equal. rewrite (pow2_succ (S k)). lia.
    + rewrite (mod_pow2_succ m k), Zmod_odd.
      assert (0 < 2 ^ Z.of_nat k) by (apply Z.pow_pos_nonneg; lia).
      pose proof (Z.mod_pos_bound m (2 ^ Z.of_nat k)).
      destruct (Z.odd _); simpl.
      * symmetry. apply negb_true_iff, Z.eqb_neq. lia.
      * by rewrite Z.mul_0_r, Z.add_0_r.
Qed.

(** Round to nearest, ties to even, after dropping [n] bits. *)
Definition rne (m : Z) (n : nat) : Z :=
  round_nearest_even (shr_m (shr_spec m n)) (loc_of_shr_record (shr_spec m n)).

Lemma rne_bound m n : 0 <= m ->
  let d := 2 ^ Z.of_nat n in
  2 * m - d <= 2 * (rne m n * d) <= 2 * m + d.
Proof.
  intros Hm. cbv zeta. unfold rne. destruct n as [|k]; [simpl; lia|].
  simpl shr_spec. simpl shr_m.
  assert (0 < 2 ^ Z.of_nat k) by (apply Z.pow_pos_nonneg; lia).
  pose proof (Z.div_mod m (2 ^ Z.of_nat (S k))) as Edm.
  pose proof (mod_pow2_succ m k) as Em. rewrite Zmod_odd in Em.
  pose proof (Z.mod_pos_bound m (2 ^ Z.of_nat k)).
  rewrite pow2_succ in *.
  set (q := m / (2 * 2 ^ Z.of_nat k)) in *.
  destruct (Z.odd (m / 2 ^ Z.of_nat k)); destruct (Z.eqb_spec (m mod 2 ^ Z.of_nat k) 0);
    simpl; try destruct (Z.even q); nia.
Qed.

Lemma rne_exact q n : 0 <= q -> rne (q * 2 ^ Z.of_nat n) n = q.
Proof.
  intros. assert (0 < 2 ^ Z.of_nat n) by (apply Z.pow_pos_nonneg; lia).
  pose proof (rne_bound (q * 2 ^ Z.of_nat n) n) as B. cbv zeta in B.
  set (r := rne _ _) in *. set (d := 2 ^ Z.of_nat n) in *. clearbody r d.
  destruct (Z.lt_trichotomy r q) as [|[|]]; [exfalso|done|exfalso].
  - assert (r * d <= (q - 1) * d) by (apply Z.mul_le_mono_nonneg_r; lia). nia.
  - assert ((q + 1) * d <= r * d) by (apply Z.mul_le_mono_nonneg_r; lia). nia.
Qed.

Lemma digits2_pos_log2 p : Zpos (digits2_pos p) = Z.log2 (Zpos p) + 1.
Proof.
  induction p as [p IH|p IH|]; simpl digits2_pos; [| |done];
    rewrite Pos2Z.inj_succ, IH.
  - change (Zpos p~1) with (2 * Zpos p + 1). rewrite Z.log2_succ_double; lia.
  - change (Zpos p~0) with (2 * Zpos p). rewrite Z.log2_double; lia.
Qed.

Lemma Zdigits2_range m d : 0 < d -> 2 ^ (d - 1) <= m < 2 ^ d -> Zdigits2 m = d.
Proof.
  intros Hd Hm. assert (0 < 2 ^ (d - 1)) by (apply Z.pow_pos_nonneg; lia).
  destruct m as [|p|]; try lia. simpl. rewrite digits2_pos_log2.
  rewrite (Z.log2_unique _ (d - 1)); [lia|lia|].
  replace (Z.succ (d - 1)) with d by lia. lia.
Qed.

Lemma shr_fexp_normal m e d n :
  2 ^ (d - 1) <= m < 2 ^ d -> d = 53 + Z.of_nat n -> -1000 < e < 900 -> d < 400 ->
  shr_fexp prec emax m e loc_Exact = (shr_spec m n, e + Z.of_nat n).
Proof.
  intros Hm Hd He Hd2. unfold shr_fexp.
  rewrite (Zdigits2_range m d) by lia.
  unfold fexp, emin, prec, emax, shr. simpl shr_record_of_loc.
  replace (Z.max (d + e - 53) (3 - 1024 - 53) - e) with (Z.of_nat n) by lia.
  destruct n as [|k]; [f_equal; simpl; lia|].
  change (Z.of_nat (S k)) with (Zpos (Pos.of_succ_nat k)) at 1. cbv iota.
  rewrite iter_pos_nat, SuccNat2Pos.id_succ, shr_iter_spec; [done|].
  assert (0 < 2 ^ (d - 1)) by (apply Z.pow_pos_nonneg; lia). lia.
Qed.

(** Rounding a mantissa that keeps 53 bits. *)
Lemma binary_round_aux_normal m e n p :
  2 ^ (52 + Z.of_nat n) <= m < 2 ^ (53 + Z.of_nat n) -> (n < 60)%nat ->
  -1000 < e < 800 ->
  rne m n = Zpos p -> Zpos p < 2 ^ 53 ->
  binary_round_aux prec emax false m e loc_Exact = S754_finite false p (e + Z.of_nat n).
Proof.
  intros Hm Hn He Hp Hlt. unfold binary_round_aux.
  rewrite (shr_fexp_normal m e (53 + Z.of_nat n) n)
    by (try replace (53 + Z.of_nat n - 1) with (52 + Z.of_nat n) by lia; lia).
  fold (rne m n). rewrite Hp.
  assert (2 ^ 52 <= Zpos p).
  { pose proof (rne_bound m n) as B. cbv zeta in B. rewrite Hp in B.
    assert (0 < 2 ^ Z.of_nat n) by (apply Z.pow_pos_nonneg; lia).
    rewrite (Z.pow_add_r 2 52) in Hm by lia.
    change (2 ^ 52) with (2 * 2 ^ 51) in *. nia. }
  rewrite (shr_fexp_normal _ _ 53 0) by (simpl; lia). simpl.
  rewrite Z.add_0_r.
  replace (e + Z.of_nat n <=? emax - prec) with true; [done|].
  symmetry. apply Z.leb_le. unfold emax, prec. lia.
Qed.

(** The exact result when no bit is lost. *)
Lemma binary_round_aux_exact p e n :
  2 ^ 52 <= Zpos p < 2 ^ 53 -> (n < 60)%nat -> -1000 < e < 800 ->
  binary_round_aux prec emax false (Zpos p * 2 ^ Z.of_nat n) e loc_Exact =
  S754_finite false p (e + Z.of_nat n).
Proof.
  intros Hp Hn He. assert (0 < 2 ^ Z.of_nat n) by (apply Z.pow_pos_nonneg; lia).
  apply binary_round_aux_normal; [|done|done|by apply rne_exact|lia].
  rewrite !Z.pow_add_r by lia. nia.
Qed.

Lemma binary_round_aux_id p e :
  2 ^ 52 <= Zpos p < 2 ^ 53 -> -1000 < e < 800 ->
  binary_round_aux prec emax false (Zpos p) e loc_Exact = S754_finite false p e.
Proof.
  intros. pose proof (binary_round_aux_exact p e 0) as E.
  rewrite Z.pow_0_r, Z.mul_1_r, Z.add_0_r in E. apply E; lia.
Qed.

(** Truncating a rounded product that has a fractional part. *)
Lemma trunc_round_aux m e n :
  2 ^ (52 + Z.of_nat n) <= m < 2 ^ (53 + Z.of_nat n) -> (n < 60)%nat ->
  -1000 < e -> e + Z.of_nat n < 0 ->
  double_trunc (binary_round_aux prec emax false m e loc_Exact) =
  Some (rne m n / 2 ^ (- (e + Z.of_nat n))).
Proof.
  intros Hm Hn He Hneg.
  assert (2 ^ 52 <= rne m n <= 2 ^ 53) as Hr.
  { pose proof (rne_bound m n) as B. cbv zeta in B.
    assert (0 < 2 ^ Z.of_nat n) by (apply Z.pow_pos_nonneg; lia).
    rewrite (Z.pow_add_r 2 52), (Z.pow_add_r 2 53) in Hm by lia.
    set (r := rne m n) in *. set (d := 2 ^ Z.of_nat n) in *. clearbody r d.
    change (2 ^ 52) with (2 * 2 ^ 51) in *. change (2 ^ 53) with (2 * 2 ^ 52) in *.
    split; apply Z.nlt_ge; intros ?; [assert ((r + 1) * d <= 2 * 2 ^ 51 * d)
      | assert ((2 * 2 ^ 52 + 1) * d <= r * d)];
      try (apply Z.mul_le_mono_nonneg_r; lia); lia. }
  destruct (rne m n) as [|p|p] eqn:Ep; try lia.
  destruct (Z.eq_dec (Zpos p) (2 ^ 53)) as [E|E].
  - injection E as ->. unfold binary_round_aux.
    rewrite (shr_fexp_normal m e (53 + Z.of_nat n) n)
      by (try replace (53 + Z.of_nat n - 1) with (52 + Z.of_nat n) by lia; lia).
    fold (rne m n). rewrite Ep.
    change (2 ^ 53)%positive with 9007199254740992%positive.
    rewrite (shr_fexp_normal _ _ 54 1) by (simpl; lia).
    cbn [shr_m shr_spec].
    change (9007199254740992 / 2 ^ Z.of_nat 1) with 4503599627370496. cbv iota.
    replace (e + Z.of_nat n + Z.of_nat 1 <=? emax - prec) with true
      by (symmetry; apply Z.leb_le; unfold emax, prec; lia).
    simpl. f_equal. unfold trunc_mag. set (x := e + Z.of_nat n) in *.
    case_match eqn:Hx.
    + apply Z.leb_le in Hx. assert (x = -1) as -> by lia. done.
    + apply Z.leb_gt in Hx. rewrite Z.shiftr_div_pow2 by lia.
      replace (- x) with (1 + - (x + 1)) by lia.
      rewrite Z.pow_add_r, <- Z.div_div by (try apply Z.pow_nonzero; try apply Z.pow_pos_nonneg; lia). done.
  - erewrite binary_round_aux_normal by (eauto; lia). simpl. f_equal.
    unfold trunc_mag. rewrite (proj2 (Z.leb_gt _ _)) by lia.
    by rewrite Z.shiftr_div_pow2 by lia.
Qed.

(** ** Doubles that hold [z * 2^t] exactly *)

Definition drep (x : double) (z : Z) (j : nat) (t : Z) : Prop :=
  exists p, x = S754_finite false p (t - Z.of_nat j) /\
    Zpos p = z * 2 ^ Z.of_nat j /\ 2 ^ 52 <= Zpos p < 2 ^ 53.

Lemma Pos_iter_xO p q : Zpos (Pos.iter xO p q) = Zpos p * 2 ^ Zpos q.
Proof.
  induction q using Pos.peano_ind; [simpl; lia|].
  rewrite Pos.iter_succ, Pos2Z.inj_succ, Z.pow_succ_r by lia. lia.
Qed.

Lemma drep_of_Z z : 0 < z < 2 ^ 53 -> exists j, drep (double_of_Z z) z j 0.
Proof.
  intros Hz. destruct z as [|p|]; try lia.
  set (d := Zpos (digits2_pos p)).
  assert (2 ^ (d - 1) <= Zpos p < 2 ^ d) as Hd.
  { unfold d. rewrite digits2_pos_log2, Z.add_simpl_r.
    pose proof (Z.log2_spec (Zpos p)). lia. }
  assert (1 <= d <= 53) as Hd'.
  { split; [lia|]. apply Z.nlt_ge. intros ?.
    assert (2 ^ 53 <= 2 ^ (d - 1)) by (apply Z.pow_le_mono_r; lia). lia. }
  exists (Z.to_nat (53 - d)). unfold double_of_Z, binary_normalize, binary_round.
  fold d. unfold shl_align, fexp, emin.
  change (3 - emax) with (3 - 1024).
  replace (Z.max (d + 0 - prec) (3 - 1024 - prec)) with (- (53 - d)) by (unfold prec; lia).

  rewrite Z.sub_0_r. unfold drep. rewrite Z2Nat.id by lia.
  remember (53 - d) as c eqn:Ec.
  assert (2 ^ 52 <= Zpos p * 2 ^ c < 2 ^ 53) as Hb.
  { replace 52 with (d - 1 + c) by lia. replace 53 with (d + c) by lia.
    rewrite !Z.pow_add_r by lia.
    assert (0 < 2 ^ c) by (apply Z.pow_pos_nonneg; lia). nia. }
  destruct c as [|c|c]; try lia;
    [change (- 0) with 0|change (- Zpos c) with (Zneg c)]; cbv beta iota; unfold prec in *.
  - exists p. rewrite Z.pow_0_r, Z.mul_1_r in *.
    rewrite binary_round_aux_id by lia. split; [done|lia].
  - pose proof (Pos_iter_xO p c) as Ei. exists (Pos.iter xO p c).
    rewrite <- Ei in Hb.
    rewrite binary_round_aux_id by lia.
    split; [f_equal; simpl; lia|]. split; [done|lia].
Qed.

(** The length of a product of two full mantissas. *)
Lemma mant_mul_bits a b :
  2 ^ 52 <= a < 2 ^ 53 -> 2 ^ 52 <= b < 2 ^ 53 ->
  exists n, (n = 52 \/ n = 53)%nat /\
    2 ^ (52 + Z.of_nat n) <= a * b < 2 ^ (53 + Z.of_nat n).
Proof.
  intros Ha Hb.
  assert (2 ^ 52 * 2 ^ 52 <= a * b < 2 ^ 53 * 2 ^ 53) as H by nia.
  rewrite <- !Z.pow_add_r in H by lia. simpl Z.add in H.
  destruct (Z_lt_ge_dec (a * b) (2 ^ 105)); [exists 52%nat|exists 53%nat];
    (split; [lia|]); simpl; lia.
Qed.

Lemma drep_mul x a i t y b j u :
  drep x a i t -> drep y b j u -> 0 < a -> 0 < b -> a * b < 2 ^ 53 ->
  (i <= 53)%nat -> (j <= 53)%nat -> -300 < t < 300 -> -300 < u < 300 ->
  exists k, drep (dmul x y) (a * b) k (t + u).
Proof.
  intros (p & -> & Ep & Hp) (q & -> & Eq & Hq) Ha Hb Hab Hi Hj Ht Hu.
  destruct (mant_mul_bits _ _ Hp Hq) as (n & Hn & Hpq).
  assert (Zpos (p * q) = a * b * 2 ^ Z.of_nat (i + j)) as Em.
  { rewrite Pos2Z.inj_mul, Ep, Eq, Nat2Z.inj_add, Z.pow_add_r by lia. lia. }
  rewrite <- Pos2Z.inj_mul in Hpq.
  assert (n <= i + j)%nat as Hle.
  { apply Nat.nlt_ge. intros ?. rewrite Em in Hpq.
    assert (2 ^ Z.of_nat (i + j) <= 2 ^ (Z.of_nat n - 1)) by (apply Z.pow_le_mono_r; lia).
    replace (52 + Z.of_nat n) with (53 + (Z.of_nat n - 1)) in Hpq by lia.
    rewrite Z.pow_add_r in Hpq by lia.
    assert (0 < 2 ^ Z.of_nat (i + j)) by (apply Z.pow_pos_nonneg; lia). nia. }
  exists (i + j - n)%nat. unfold dmul, SFmul. simpl xorb. rewrite Em.
  assert (Z.of_nat (i + j) = Z.of_nat (i + j - n) + Z.of_nat n) as Eij by lia.
  rewrite Eij, Z.pow_add_r in Em by lia. rewrite Eij, Z.pow_add_r by lia.
  rewrite Z.mul_assoc in Em. rewrite Z.mul_assoc.
  assert (0 < 2 ^ Z.of_nat (i + j - n)) by (apply Z.pow_pos_nonneg; lia).
  assert (0 < a * b * 2 ^ Z.of_nat (i + j - n)) by nia.
  destruct (a * b * 2 ^ Z.of_nat (i + j - n)) as [|r|] eqn:Er; try lia.
  rewrite Em in Hpq. rewrite !Z.pow_add_r in Hpq by lia.
  assert (0 < 2 ^ Z.of_nat n) by (apply Z.pow_pos_nonneg; lia).
  assert (2 ^ 52 <= Zpos r < 2 ^ 53) as Hr by nia.
  rewrite binary_round_aux_exact by lia.
  exists r. split; [f_equal; lia|]. by rewrite Er.
Qed.

(** Division by 2^32 is exact. *)
Lemma drep_div_2p32 x a i t :
  drep x a i t -> (i <= 53)%nat -> -300 < t < 300 ->
  drep (ddiv x d2p32) a i (t - 32).
Proof.
  intros (p & -> & Ep & Hp) Hi Ht. exists p. split; [|done].
  change d2p32 with (S754_finite false 4503599627370496 (-20)).
  unfold ddiv, SFdiv, SFdiv_core_binary.
  rewrite (Zdigits2_range (Zpos p) 53) by (simpl; lia).
  change (Zdigits2 4503599627370496) with 53.
  set (e := t - Z.of_nat i) in *.
  unfold fexp, emin, prec, emax.
  replace (Z.min _ _) with (e - 33) by lia.
  replace (e - -20 - (e - 33)) with 53 by lia. cbv iota.
  rewrite Z.shiftl_mul_pow2 by lia.
  replace (Zpos p * 2 ^ 53) with (Zpos p * 2 * 4503599627370496) by lia.
  pose proof (Z.div_mul (Zpos p * 2) 4503599627370496) as Hdiv.
  pose proof (Z.mod_mul (Zpos p * 2) 4503599627370496) as Hmod.
  unfold Z.div, Z.modulo in Hdiv, Hmod.
  destruct (Z.div_eucl _ _) as [q r]. rewrite Hdiv, Hmod by lia.
  change (new_location 4503599627370496 0) with loc_Exact.
  change (Zpos p * 2) with (Zpos p * 2 ^ Z.of_nat 1). fold prec emax. simpl xorb.
  rewrite binary_round_aux_exact by (simpl; lia). f_equal. unfold e. simpl. lia.
Qed.

Lemma drep_trunc x a i t :
  drep x a i t -> 0 < a -> t <= 0 -> double_trunc x = Some (a / 2 ^ (- t)).
Proof.
  intros (p & -> & Ep & Hp) Ha Ht. simpl. f_equal. unfold trunc_mag.
  assert (0 < 2 ^ Z.of_nat i) by (apply Z.pow_pos_nonneg; lia).
  case_match eqn:H0.
  - apply Z.leb_le in H0. replace (t - Z.of_nat i) with 0 by lia.
    rewrite Z.shiftl_0_r. assert (i = 0%nat) as -> by lia.
    assert (t = 0) as -> by lia. rewrite Z.opp_0, Z.pow_0_r, Z.div_1_r. simpl in Ep. lia.
  - rewrite Z.shiftr_div_pow2 by (apply Z.leb_gt in H0; lia). rewrite Ep.
    replace (- (t - Z.of_nat i)) with (- t + Z.of_nat i) by lia.
    rewrite Z.pow_add_r by lia. rewrite Z.div_mul_cancel_r; [done| |lia].
    apply Z.pow_nonzero; lia.
Qed.
