(* ===== verification/DoubleError.v ===== *)
(** * Rounding errors of binary64 arithmetic

    The standard model of floating-point arithmetic, on integers: a double that
    holds [v * 2^-t] is added, subtracted, multiplied and halved with a relative
    error of at most [2^-53]. *)

From Stdlib Require Import SpecFloat.
From S2P Require Import Prelude Double.
Local Open Scope Z_scope.

(** [x] holds [v * 2^-t]. *)
Definition dval (t : Z) (x : double) (v : Z) : Prop :=
  match x with
  | S754_zero _ => v = 0
  | S754_finite s m e => 2 ^ 52 <= Zpos m < 2 ^ 53 /\ 0 <= e + t + 52 /\
      cond_Zopp s (Zpos m) * 2 ^ (e + t + 52) = v * 2 ^ 52
  | _ => False
  end.

(** [c] is a rounding of [v]. *)
Definition rounded (v c : Z) : Prop := 2 ^ 53 * Z.abs (c - v) <= Z.abs v.

Lemma rounded_refl v : rounded v v.
Proof. unfold rounded. rewrite Z.sub_diag. simpl. lia. Qed.

Lemma rounded_opp v c : rounded v c -> rounded (- v) (- c).
Proof. unfold rounded. lia. Qed.

(** ** Rounding a mantissa *)

Lemma round_aux_sign s m e l : binary_round_aux prec emax s m e l =
  if s then SFopp (binary_round_aux prec emax false m e l) else binary_round_aux prec emax false m e l.
Proof.
  destruct s; [|done]. unfold binary_round_aux. destruct (shr_fexp prec emax m e l) as [r1 e1].
  destruct (shr_fexp _ _ _ e1 _) as [r2 e2]. destruct (shr_m r2); [done| |done]. by destruct (_ <=? _).
Qed.

(** The mantissa is rounded to 53 bits, with one more in the exponent when all
    of them were set. *)
Lemma round_aux_cases m e n :
  2 ^ (52 + Z.of_nat n) <= m < 2 ^ (53 + Z.of_nat n) -> (n < 300)%nat -> -1000 < e < 600 ->
  exists p k, binary_round_aux prec emax false m e loc_Exact = S754_finite false p (e + Z.of_nat n + k) /\
    2 ^ 52 <= Zpos p < 2 ^ 53 /\ (k = 0 \/ k = 1) /\ rne m n = Zpos p * 2 ^ k.
Proof.
  intros Hm Hn He.
  assert (2 ^ 52 <= rne m n <= 2 ^ 53) as Hr.
  { pose proof (rne_bound m n) as B. cbv zeta in B.
    assert (0 < 2 ^ Z.of_nat n) by (apply Z.pow_pos_nonneg; lia).
    rewrite (Z.pow_add_r 2 52), (Z.pow_add_r 2 53) in Hm by lia.
    set (r := rne m n) in *. set (d := 2 ^ Z.of_nat n) in *. clearbody r d.
    change (2 ^ 52) with (2 * 2 ^ 51) in *. change (2 ^ 53) with (2 * 2 ^ 52) in *.
    split; apply Z.nlt_ge; intros ?; [assert ((r + 1) * d <= 2 * 2 ^ 51 * d)
      | assert ((2 * 2 ^ 52 + 1) * d <= r * d)];
      try (apply Z.mul_le_mono_nonneg_r; lia); lia. }
  unfold binary_round_aux.
  rewrite (shr_fexp_normal m e (53 + Z.of_nat n) n)
    by (try replace (53 + Z.of_nat n - 1) with (52 + Z.of_nat n) by lia; lia).
  fold (rne m n). destruct (rne m n) as [|q|q]; try lia.
  assert (forall x, x < 960 -> (x <=? emax - prec) = true) as Hx
    by (intros x; unfold emax, prec; rewrite Z.leb_le; lia).
  destruct (Z.eq_dec (Zpos q) (2 ^ 53)) as [E|E].
  - injection E as ->. exists (2 ^ 52)%positive, 1.
    change (2 ^ 53)%positive with 9007199254740992%positive.
    rewrite (shr_fexp_normal _ _ 54 1) by (simpl; lia). cbn [shr_m shr_spec].
    change (9007199254740992 / 2 ^ Z.of_nat 1) with 4503599627370496. cbv iota.
    rewrite Hx by lia. split_and!; [done|done|done|by right|done].
  - exists q, 0. rewrite (shr_fexp_normal _ _ 53 0) by (simpl; lia). simpl. rewrite Z.add_0_r.
    rewrite Hx by lia. rewrite Z.add_0_r, Z.mul_1_r. split_and!; try done; lia.
Qed.

(** The number of bits of a mantissa. *)
Lemma bits m : 0 < m -> exists d, 1 <= d /\ 2 ^ (d - 1) <= m < 2 ^ d.
Proof.
  intros Hm. exists (Z.log2 m + 1). pose proof (Z.log2_nonneg m). pose proof (Z.log2_spec m Hm).
  rewrite Z.add_simpl_r. lia.
Qed.

Section Scale.
Context (t : Z) (Ht : 0 <= t <= 200).
Implicit Types (x y : double) (v c : Z).

Lemma dval_opp x v : dval t x v -> dval t (SFopp x) (- v).
Proof.
  destruct x as [s|s| |s m e]; try done; cbn [dval SFopp]; [lia|].
  intros (Hm & He & E). split; [done|]. split; [done|].
  destruct s; cbn [negb cond_Zopp] in *; lia.
Qed.

(** A mantissa of at least 53 bits is rounded to a multiple of [2^-t]. *)
Lemma round_aux_dval m e v : 2 ^ 52 <= m -> 0 <= e + t + 52 -> v < 2 ^ 200 ->
  m * 2 ^ (e + t + 52) = v * 2 ^ 52 ->
  exists c, dval t (binary_round_aux prec emax false m e loc_Exact) c /\ rounded v c.
Proof.
  intros Hm He Hv E. destruct (bits m) as (d & Hd & Hmd); [lia|].
  assert (0 < 2 ^ (e + t + 52)) as Hpe by (apply Z.pow_pos_nonneg; lia).
  assert (53 <= d).
  { apply Z.nlt_ge. intros ?. assert (2 ^ d <= 2 ^ 52) by (apply Z.pow_le_mono_r; lia). lia. }
  assert (d - 1 + (e + t + 52) < 252) as Hsize.
  { apply (Z.pow_lt_mono_r_iff 2); [lia|lia|]. rewrite Z.pow_add_r by lia.
    change (2 ^ 252) with (2 ^ 200 * 2 ^ 52). nia. }
  set (n := Z.to_nat (d - 53)). assert (d = 53 + Z.of_nat n) as Ed by (unfold n; lia).
  replace (d - 1) with (52 + Z.of_nat n) in Hmd by lia. rewrite Ed in Hmd.
  destruct (Z_lt_ge_dec (e + t + 52 + Z.of_nat n) 52) as [Hsmall|Hbig].
  - (* nothing is lost *)
    set (a := 52 - (e + t + 52 + Z.of_nat n)).
    assert (m = v * 2 ^ a * 2 ^ Z.of_nat n) as Em.
    { apply (Z.mul_cancel_r _ _ (2 ^ (e + t + 52))); [lia|]. rewrite E, <- !Z.mul_assoc, <- !Z.pow_add_r by lia.
      do 2 f_equal. lia. }
    rewrite !Z.pow_add_r in Hmd by lia. assert (0 < 2 ^ Z.of_nat n) by (apply Z.pow_pos_nonneg; lia).
    assert (2 ^ 52 <= v * 2 ^ a < 2 ^ 53) as Hq by nia.
    destruct (v * 2 ^ a) as [|q|q] eqn:Eq; try lia.
    destruct (round_aux_cases m e n) as (p & k & -> & Hp & Hk & Er); [by rewrite !Z.pow_add_r by lia|lia|lia|].
    rewrite Em, rne_exact in Er by lia.
    exists v. split; [|apply rounded_refl]. split; [done|split; [lia|]]. cbn [cond_Zopp].
    assert (v * 2 ^ 52 = Zpos q * 2 ^ (e + t + 52 + Z.of_nat n)) as ->.
    { rewrite <- Eq, <- Z.mul_assoc, <- Z.pow_add_r by lia. do 2 f_equal. lia. }
    rewrite Er, <- Z.mul_assoc, <- Z.pow_add_r by lia. do 2 f_equal. lia.
  - destruct (round_aux_cases m e n) as (p & k & -> & Hp & Hk & Er); [done|lia|lia|].
    set (a := e + t + 52 + Z.of_nat n - 52).
    exists (Zpos p * 2 ^ (k + a)). split.
    + split; [done|split; [lia|]]. cbn [cond_Zopp]. rewrite <- Z.mul_assoc, <- Z.pow_add_r by lia.
      do 2 f_equal. lia.
    + pose proof (rne_bound m n) as B. cbv zeta in B. rewrite Er in B.
      rewrite Z.pow_add_r, Z.mul_assoc by lia. rewrite Z.pow_add_r in Hmd by lia.
      assert (2 ^ a * 2 ^ 52 = 2 ^ Z.of_nat n * 2 ^ (e + t + 52)) as Ea
        by (rewrite <- !Z.pow_add_r by lia; f_equal; lia).
      assert (0 < 2 ^ Z.of_nat n) by (apply Z.pow_pos_nonneg; lia).
      assert (0 < 2 ^ a) by (apply Z.pow_pos_nonneg; lia).
      set (r := Zpos p * 2 ^ k) in *. set (w := 2 ^ (e + t + 52)) in *. set (u := 2 ^ Z.of_nat n) in *.
      set (b := 2 ^ a) in *. clearbody r w u b. unfold rounded.
      change (2 ^ 52) with 4503599627370496 in *. change (2 ^ 53) with 9007199254740992.
      assert (2 * (m * w) - u * w <= 2 * (r * u * w) <= 2 * (m * w) + u * w) by nia.
      assert (4503599627370496 * (u * w) <= m * w) by nia.
      assert (r * u * w = r * b * 4503599627370496) by nia. lia.
Qed.

(** A mantissa of any length. *)
Lemma round_dval m e v : 0 <= e + t + 52 -> v < 2 ^ 200 -> Zpos m * 2 ^ (e + t + 52) = v * 2 ^ 52 ->
  exists c, dval t (binary_round prec emax false m e) c /\ rounded v c.
Proof.
  intros He Hv E. assert (0 < 2 ^ (e + t + 52)) as Hpe by (apply Z.pow_pos_nonneg; lia).
  assert (0 < v) as Hv0 by (change (2 ^ 52) with 4503599627370496 in E; nia).
  set (d := Zpos (digits2_pos m)).
  assert (1 <= d /\ 2 ^ (d - 1) <= Zpos m < 2 ^ d) as [Hd Hmd].
  { unfold d. rewrite digits2_pos_log2, Z.add_simpl_r. pose proof (Z.log2_nonneg (Zpos m)).
    pose proof (Z.log2_spec (Zpos m)). lia. }
  assert (52 < d + (e + t + 52)) as Hlow.
  { apply (Z.pow_lt_mono_r_iff 2); [lia|lia|]. rewrite Z.pow_add_r by lia. nia. }
  assert (d - 1 + (e + t + 52) < 252) as Hsize.
  { apply (Z.pow_lt_mono_r_iff 2); [lia|lia|]. rewrite Z.pow_add_r by lia.
    change (2 ^ 252) with (2 ^ 200 * 2 ^ 52). nia. }
  unfold binary_round. fold d. unfold shl_align, fexp, emin.
  replace (Z.max (d + e - prec) (3 - emax - prec)) with (d + e - 53) by (unfold prec, emax; lia).
  replace (d + e - 53 - e) with (d - 53) by lia.
  destruct (Z_lt_ge_dec d 53) as [Hlt|Hge].
  - destruct (d - 53) as [|b|b] eqn:Eb; try lia. pose proof (Pos_iter_xO m b) as Ei.
    assert (2 ^ 52 <= Zpos (Pos.iter xO m b)).
    { rewrite Ei. replace (2 ^ 52) with (2 ^ (d - 1) * 2 ^ Zpos b) by (rewrite <- Z.pow_add_r by lia; f_equal; lia). nia. }
    apply round_aux_dval; [done|lia|done|]. rewrite Ei, <- E, <- Z.mul_assoc, <- Z.pow_add_r by lia.
    do 2 f_equal. lia.
  - assert (2 ^ 52 <= Zpos m) by (pose proof (Z.pow_le_mono_r 2 52 (d - 1)); lia).
    destruct (d - 53) as [|b|b] eqn:Eb; [| |lia]; by apply round_aux_dval.
Qed.

Lemma round_sign s m e : binary_round prec emax s m e =
  if s then SFopp (binary_round prec emax false m e) else binary_round prec emax false m e.
Proof. unfold binary_round. destruct (shl_align _ _ _). apply round_aux_sign. Qed.

Lemma normalize_dval m e b v : 0 <= e + t + 52 -> Z.abs v < 2 ^ 200 -> m * 2 ^ (e + t + 52) = v * 2 ^ 52 ->
  exists c, dval t (binary_normalize prec emax m e b) c /\ rounded v c.
Proof.
  intros He Hv E. destruct m as [|m|m]; cbn [binary_normalize].
  - exists 0. assert (v = 0) as -> by lia. split; [done|apply rounded_refl].
  - apply round_dval; [done|lia|done].
  - rewrite round_sign. destruct (round_dval m e (- v)) as (c & Hc & Hr); [done|lia|lia|].
    exists (- c). split; [by apply dval_opp|]. rewrite <- (Z.opp_involutive v). by apply rounded_opp.
Qed.

(** ** The operations *)

Lemma shl_align_val m e e' : e' <= e -> Zpos (fst (shl_align m e e')) = Zpos m * 2 ^ (e - e').
Proof.
  intros He. unfold shl_align. destruct (e' - e) as [|b|b] eqn:Eb; [|lia|].
  - replace (e - e') with 0 by lia. simpl. lia.
  - rewrite (Pos_iter_xO m b : Zpos (fst (Pos.iter xO m b, e')) = _). do 2 f_equal. lia.
Qed.

Lemma cond_Zopp_mul s m k : cond_Zopp s m * k = cond_Zopp s (m * k).
Proof. destruct s; simpl; lia. Qed.

Theorem dadd_dval x y v w : dval t x v -> dval t y w -> Z.abs (v + w) < 2 ^ 200 ->
  exists c, dval t (dadd x y) c /\ rounded (v + w) c.
Proof.
  intros Hx Hy Hb. destruct x as [sx|sx| |sx mx ex], y as [sy|sy| |sy my ey]; try done.
  - exists 0. simpl in Hx, Hy. subst. split; [by destruct sx, sy|apply rounded_refl].
  - exists w. simpl in Hx. subst. split; [done|apply rounded_refl].
  - exists v. simpl in Hy. subst. rewrite Z.add_0_r. split; [done|apply rounded_refl].
  - destruct Hx as (Hmx & Hex & Ex), Hy as (Hmy & Hey & Ey). unfold dadd, SFadd.
    set (e := Z.min ex ey). apply normalize_dval; [lia|done|].
    rewrite !shl_align_val by lia. rewrite Z.mul_add_distr_r, !cond_Zopp_mul, <- !Z.mul_assoc, <- !Z.pow_add_r by lia.
    rewrite <- !cond_Zopp_mul.
    replace (ex - e + (e + t + 52)) with (ex + t + 52) by lia.
    replace (ey - e + (e + t + 52)) with (ey + t + 52) by lia. lia.
Qed.

Lemma dsub_dadd x y v w : dval t x v -> dval t y w -> dsub x y = dadd x (SFopp y).
Proof.
  intros Hx Hy. destruct x as [sx|sx| |sx mx ex], y as [sy|sy| |sy my ey]; try done.
  - by destruct sx, sy.
  - unfold dsub, dadd, SFsub, SFadd, SFopp. f_equal. destruct sy; simpl; lia.
Qed.

Theorem dsub_dval x y v w : dval t x v -> dval t y w -> Z.abs (v - w) < 2 ^ 200 ->
  exists c, dval t (dsub x y) c /\ rounded (v - w) c.
Proof.
  intros Hx Hy Hb. rewrite (dsub_dadd x y v w) by done. apply dadd_dval; [done|by apply dval_opp|done].
Qed.

(** Small integers are exact. *)
Lemma double_of_Z_dval z : 0 <= z < 2 ^ 53 -> dval t (double_of_Z z) (z * 2 ^ t).
Proof.
  intros Hz. destruct (Z.eq_dec z 0) as [->|Hnz]; [done|].
  destruct (drep_of_Z z) as (j & p & -> & Ep & Hp); [lia|].
  assert (j <= 52)%nat.
  { apply Nat.nlt_ge. intros ?. assert (2 ^ 53 <= 2 ^ Z.of_nat j) by (apply Z.pow_le_mono_r; lia). nia. }
  split; [done|split; [lia|]]. cbn [cond_Zopp]. rewrite Ep, <- !Z.mul_assoc, <- !Z.pow_add_r by lia.
  do 2 f_equal. lia.
Qed.

(** Halving is exact. *)
Lemma half_dval x v : dval t x v -> Z.abs v < 2 ^ 200 -> dval (t + 1) (ddiv x (double_of_Z 2)) v.
Proof.
  intros Hx Hv. change (double_of_Z 2) with (S754_finite false 4503599627370496 (-51)).
  destruct x as [s|s| |s m e]; try done. destruct Hx as (Hm & He & E).
  assert (e + t + 52 < 252) as Hsize.
  { apply (Z.pow_lt_mono_r_iff 2); [lia|lia|]. change (2 ^ 252) with (2 ^ 200 * 2 ^ 52).
    assert (0 < 2 ^ (e + t + 52)) by (apply Z.pow_pos_nonneg; lia).
    assert (Zpos m * 2 ^ (e + t + 52) = Z.abs v * 2 ^ 52) by (destruct s; simpl in E; lia). nia. }
  unfold ddiv, SFdiv, SFdiv_core_binary.
  rewrite (Zdigits2_range (Zpos m) 53) by (simpl; lia).
  change (Zdigits2 4503599627370496) with 53.
  unfold fexp, emin, prec, emax.
  replace (Z.min _ _) with (e - 2) by lia.
  replace (e - -51 - (e - 2)) with 53 by lia. cbv iota.
  rewrite Z.shiftl_mul_pow2 by lia.
  replace (Zpos m * 2 ^ 53) with (Zpos m * 2 * 4503599627370496) by lia.
  pose proof (Z.div_mul (Zpos m * 2) 4503599627370496) as Hdiv.
  pose proof (Z.mod_mul (Zpos m * 2) 4503599627370496) as Hmod.
  unfold Z.div, Z.modulo in Hdiv, Hmod.
  destruct (Z.div_eucl _ _) as [q r]. rewrite Hdiv, Hmod by lia.
  change (new_location 4503599627370496 0) with loc_Exact.
  change (Zpos m * 2) with (Zpos m * 2 ^ Z.of_nat 1). fold prec emax. rewrite xorb_false_r.
  rewrite round_aux_sign, binary_round_aux_exact by lia.
  assert (dval (t + 1) (S754_finite s m (e - 2 + Z.of_nat 1)) v) as Hd.
  { split; [done|split; [lia|]]. rewrite <- E. do 2 f_equal. lia. }
  by destruct s.
Qed.
End Scale.
