(* ===== verification/NtpTime.v ===== *)
(** * NTP and Unix time (src/reusedlib.c, src/reusedlib.h)

    The two timestamp conversions, with their [uint32_t] wrap-around and their
    floating-point fraction arithmetic. *)

From Stdlib Require Import SpecFloat.
From S2P Require Import Prelude Double.
Local Open Scope Z_scope.

(** struct ntp_time_t: two [uint32_t]. *)
Record ntp_time_t := { second : Z; fraction : Z }.

(** struct timeval of the C library: two 64-bit signed fields. *)
Record timeval := { tv_sec : Z; tv_usec : Z }.

#[export] Instance ntp_time_t_eq_dec : EqDecision ntp_time_t.
Proof. solve_decision. Defined.
#[export] Instance timeval_eq_dec : EqDecision timeval.
Proof. solve_decision. Defined.

(** 0x83AA7E80: seconds from 1 January 1900 to 1 January 1970. *)
Definition NTP_UNIX_OFFSET : Z := 2208988800.

(** Both conversions assign through pointers; the model returns the value
    assigned, and [None] when converting the [double] is undefined.  The sums
    are computed in 32 bits ([second] and the constant are [uint32_t]) and in
    64 bits ([tv_sec] is a [long], far from overflow) and stored in 64 and 32
    bits. *)
Definition convert_ntp_time_into_unix_time (ntp : ntp_time_t) : option timeval :=
  match double_to_u32 (ddiv (dmul (double_of_Z ntp.(fraction)) d1e6) d2p32) with
  | Some us => Some {| tv_sec := u32 (ntp.(second) - NTP_UNIX_OFFSET); tv_usec := us |}
  | None => None
  end.

Definition convert_unix_time_into_ntp_time (epoch : timeval) : option ntp_time_t :=
  match double_to_u32 (dmul (dmul (double_of_Z (epoch.(tv_usec) + 1)) d2p32) d1em6) with
  | Some f => Some {| second := u32 (epoch.(tv_sec) + NTP_UNIX_OFFSET); fraction := f |}
  | None => None
  end.

(** ** Integer form of the fraction arithmetic *)

Definition is_u32 (z : Z) : Prop := 0 <= z < 2 ^ 32.
Definition ntp_ok (t : ntp_time_t) : Prop := is_u32 t.(second) /\ is_u32 t.(fraction).
Definition timeval_ok (t : timeval) : Prop := 0 <= t.(tv_usec) < 1000000.

Lemma drep_j_le x a j t : drep x a j t -> 0 < a -> (j <= 52)%nat.
Proof.
  intros (p & _ & Ep & Hp) Ha. apply Nat.nlt_ge. intros ?.
  assert (2 ^ 53 <= 2 ^ Z.of_nat j) by (apply Z.pow_le_mono_r; lia). nia.
Qed.

Lemma d1e6_rep : drep d1e6 1000000 33 0.
Proof. exists 8589934592000000%positive. split; [done|]. simpl. lia. Qed.

Lemma d2p32_rep : drep d2p32 1 52 32.
Proof. exists 4503599627370496%positive. split; [done|]. simpl. lia. Qed.

Lemma d1em6_val : d1em6 = S754_finite false 4722366482869645 (-72).
Proof. reflexivity. Qed.

(** fraction * 1e6 / 2^32 loses nothing: the result is the integer quotient. *)
Lemma usec_of_fraction f : is_u32 f ->
  double_to_u32 (ddiv (dmul (double_of_Z f) d1e6) d2p32) = Some (f * 1000000 / 2 ^ 32).
Proof.
  unfold is_u32. intros Hf. destruct (Z.eq_dec f 0) as [->|Hnz]; [reflexivity|].
  destruct (drep_of_Z f) as [j Hj]; [lia|].
  pose proof (drep_j_le _ _ _ _ Hj ltac:(lia)).
  destruct (drep_mul _ f j 0 _ 1000000 33 0 Hj d1e6_rep) as [k Hk]; try lia.
  pose proof (drep_j_le _ _ _ _ Hk ltac:(lia)).
  apply drep_div_2p32 in Hk; [|lia|lia].
  unfold double_to_u32, double_to. rewrite (drep_trunc _ _ _ _ Hk) by lia.
  change (- (0 + 0 - 32)) with 32.
  assert (0 <= f * 1000000 / 2 ^ 32 <= 1000000) by
    (split; [apply Z.div_pos | apply Z.div_le_upper_bound]; lia).
  by rewrite (proj2 (Z.leb_le 0 _)), (proj2 (Z.leb_le _ 4294967295)) by lia.
Qed.

(** The rounded product [N * 2^32 * 1e-6] truncates to the integer quotient:
    the error of the constant and of the two roundings never crosses an
    integer, because the remainder of [N * 2^32] by [10^6] is a multiple of 64. *)
Lemma fraction_arith N k n q :
  0 < N <= 1000000 -> 2 ^ 52 <= N * 2 ^ Z.of_nat k < 2 ^ 53 ->
  (n = 52 \/ n = 53)%nat ->
  let P := N * 2 ^ Z.of_nat k * 4722366482869645 in
  2 ^ (52 + Z.of_nat n) <= P < 2 ^ (53 + Z.of_nat n) ->
  2 * P - 2 ^ Z.of_nat n <= 2 * (q * 2 ^ Z.of_nat n) <= 2 * P + 2 ^ Z.of_nat n ->
  q / 2 ^ (40 + Z.of_nat k - Z.of_nat n) = N * 2 ^ 32 / 1000000.
Proof.
  intros HN Hk Hn P HP Hq. unfold P in *.
  assert (33 <= k <= 52)%nat as Hkr.
  { split; apply Nat.nlt_ge; intros ?.
    - assert (2 ^ Z.of_nat k <= 2 ^ 32) by (apply Z.pow_le_mono_r; lia). nia.
    - assert (2 ^ 53 <= 2 ^ Z.of_nat k) by (apply Z.pow_le_mono_r; lia). nia. }
  set (K := N * 2 ^ 32 / 1000000).
  assert (N * 2 ^ 32 = 1000000 * K + (N * 2 ^ 32) mod 1000000) as EK by (apply Z.div_mod; lia).
  pose proof (Z.mod_pos_bound (N * 2 ^ 32) 1000000 ltac:(lia)) as HK.
  set (r := (N * 2 ^ 32) mod 1000000) in *. clearbody r K.
  symmetry. apply (Z.div_unique _ _ _ (q - 2 ^ (40 + Z.of_nat k - Z.of_nat n) * K)); [|lia].
  left.
  destruct Hn as [-> | ->];
  do 53 (destruct k as [|k]; [try lia; simpl in *; lia|]); lia.
Qed.

(** (usec + 1) * 2^32 * 1e-6 truncates to the integer quotient. *)
Lemma fraction_of_usec u : 0 <= u < 1000000 ->
  double_trunc (dmul (dmul (double_of_Z (u + 1)) d2p32) d1em6) =
  Some ((u + 1) * 2 ^ 32 / 1000000).
Proof.
  intros Hu. set (N := u + 1) in *.
  destruct (drep_of_Z N) as [j Hj]; [lia|].
  pose proof (drep_j_le _ _ _ _ Hj ltac:(lia)).
  destruct (drep_mul _ N j 0 _ 1 52 32 Hj d2p32_rep) as [k Hk]; try lia.
  rewrite Z.mul_1_r in Hk. pose proof (drep_j_le _ _ _ _ Hk ltac:(lia)).
  destruct Hk as (p & -> & Ep & Hp). rewrite d1em6_val. unfold dmul, SFmul. simpl xorb.
  destruct (mant_mul_bits (Zpos p) 4722366482869645 Hp ltac:(lia)) as (n & Hn & Hb).
  rewrite <- Pos2Z.inj_mul in Hb.
  assert (33 <= k)%nat.
  { apply Nat.nlt_ge; intros ?.
    assert (2 ^ Z.of_nat k <= 2 ^ 32) by (apply Z.pow_le_mono_r; lia). nia. }
  rewrite (trunc_round_aux _ _ n) by (try lia; done). f_equal.
  replace (- (_ + Z.of_nat n)) with (40 + Z.of_nat k - Z.of_nat n) by lia.
  rewrite Pos2Z.inj_mul, Ep in *.
  apply fraction_arith; try done; try lia. apply rne_bound. lia.
Qed.

(** ** Theorems *)

Lemma convert_ntp_exact t : ntp_ok t ->
  convert_ntp_time_into_unix_time t =
  Some {| tv_sec := u32 (second t - NTP_UNIX_OFFSET);
          tv_usec := fraction t * 1000000 / 2 ^ 32 |}.
Proof.
  intros [_ Hf]. unfold convert_ntp_time_into_unix_time. by rewrite usec_of_fraction.
Qed.

Lemma fraction_in_range u : 0 <= u < 1000000 ->
  ((u + 1) * 2 ^ 32 / 1000000 <=? 4294967295) = negb (u =? 999999).
Proof.
  intros. destruct (Z.eqb_spec u 999999) as [->|]; [reflexivity|].
  apply Z.leb_le, Z.lt_succ_r. apply Z.div_lt_upper_bound; lia.
Qed.

Lemma convert_unix_exact t : timeval_ok t ->
  convert_unix_time_into_ntp_time t =
  if tv_usec t =? 999999 then None
  else Some {| second := u32 (tv_sec t + NTP_UNIX_OFFSET);
               fraction := (tv_usec t + 1) * 2 ^ 32 / 1000000 |}.
Proof.
  intros Hu. unfold convert_unix_time_into_ntp_time, double_to_u32, double_to.
  rewrite fraction_of_usec, fraction_in_range by done.
  rewrite (proj2 (Z.leb_le 0 _)) by (apply Z.div_pos; unfold timeval_ok in Hu; lia).
  by destruct (tv_usec t =? 999999).
Qed.

Lemma convert_unix_ok t n :
  timeval_ok t -> convert_unix_time_into_ntp_time t = Some n -> ntp_ok n.
Proof.
  intros Ht. rewrite convert_unix_exact by done.
  pose proof (fraction_in_range (tv_usec t) Ht) as Hr.
  destruct (tv_usec t =? 999999); [done|]. intros [= <-]. split; simpl.
  - by apply uwrap_range.
  - apply Z.leb_le in Hr. unfold is_u32. split; [apply Z.div_pos; unfold timeval_ok in Ht; lia|].
    lia.
Qed.

(** The microsecond that comes back after a round trip through the NTP form. *)
Lemma usec_roundtrip u : 0 <= u < 999999 ->
  ((u + 1) * 2 ^ 32 / 1000000) * 1000000 / 2 ^ 32 =
  if (u + 1) mod 15625 =? 0 then u + 1 else u.
Proof.
  intros Hu. change (2 ^ 32) with 4294967296.
  destruct (Z.eqb_spec ((u + 1) mod 15625) 0); symmetry;
    pose proof (Z.div_mod (u + 1) 15625);
    pose proof (Z.div_mod ((u + 1) * 4294967296) 1000000);
    pose proof (Z.mod_pos_bound ((u + 1) * 4294967296) 1000000).
  - apply (Z.div_unique _ _ _ 0); lia.
  - apply (Z.div_unique _ _ _ (4294967296 - ((u + 1) * 4294967296) mod 1000000)); [|lia].
    left. split; [lia|].
    enough ((u + 1) * 4294967296 mod 1000000 <> 0) by lia.
    pose proof (Z.mod_pos_bound (u + 1) 15625).
    set (a := (u + 1) / 15625) in *. set (b := (u + 1) mod 15625) in *.
    set (K := (u + 1) * 4294967296 / 1000000) in *. clearbody a b K. lia.
Qed.

Lemma sec_roundtrip s : 0 <= s < 2 ^ 32 ->
  u32 (u32 (s + NTP_UNIX_OFFSET) - NTP_UNIX_OFFSET) = s.
Proof.
  intros. unfold uwrap. rewrite Zminus_mod_idemp_l.
  rewrite Z.add_simpl_r. by apply Z.mod_small.
Qed.

(** C11: Over every normalised Unix time whose seconds fit 32 bits, converting
    to NTP and back is undefined exactly at microsecond 999999 (the scaled
    fraction is 2^32, out of the range of [uint32_t]); otherwise it returns the
    seconds unchanged and the microseconds unchanged, or one too many when
    15625 divides [usec + 1] (64 values out of a million). *)
Theorem unix_ntp_unix_roundtrip t :
  timeval_ok t -> 0 <= tv_sec t < 2 ^ 32 ->
  convert_unix_time_into_ntp_time t ≫= convert_ntp_time_into_unix_time =
  if tv_usec t =? 999999 then None
  else Some {| tv_sec := tv_sec t;
               tv_usec := if (tv_usec t + 1) mod 15625 =? 0
                          then tv_usec t + 1 else tv_usec t |}.
Proof.
  intros Ht Hs. pose proof (convert_unix_ok t) as Hok. rewrite convert_unix_exact in * by done.
  destruct (Z.eqb_spec (tv_usec t) 999999); [done|]. simpl.
  rewrite convert_ntp_exact by eauto. simpl.
  rewrite sec_roundtrip, usec_roundtrip by (unfold timeval_ok in *; lia). done.
Qed.

Lemma unix_ntp_unix_roundtrip_witness :
  convert_unix_time_into_ntp_time {| tv_sec := 1480000000; tv_usec := 15624 |}
    ≫= convert_ntp_time_into_unix_time =
  Some {| tv_sec := 1480000000; tv_usec := 15625 |}.
Proof.
  apply (unix_ntp_unix_roundtrip {| tv_sec := 1480000000; tv_usec := 15624 |});
    unfold timeval_ok; simpl; lia.
Defined.

(** C12: Over every NTP timestamp, the conversion to Unix time is defined, gives
    a normalised time, and converting back (where defined) restores the seconds
    and gives a fraction that is never smaller and exceeds the original by at
    most 4294 units of 2^-32 s, i.e. less than one microsecond. *)
Theorem ntp_unix_ntp_roundtrip n : ntp_ok n ->
  exists t, convert_ntp_time_into_unix_time n = Some t /\ timeval_ok t /\
    0 <= tv_sec t < 2 ^ 32 /\
    (tv_usec t <> 999999 ->
     exists n', convert_unix_time_into_ntp_time t = Some n' /\
       second n' = second n /\ fraction n <= fraction n' <= fraction n + 4294).
Proof.
  intros Hn. pose proof Hn as [Hs Hf]. unfold is_u32 in *.
  rewrite convert_ntp_exact by done. eexists; split; [done|].
  assert (timeval_ok {| tv_sec := u32 (second n - NTP_UNIX_OFFSET);
      tv_usec := fraction n * 1000000 / 2 ^ 32 |}) as Ht.
  { unfold timeval_ok; simpl. split; [apply Z.div_pos; lia|].
    apply Z.div_lt_upper_bound; lia. }
  split; [done|]. split; [by apply uwrap_range|]. intros Hne.
  rewrite convert_unix_exact by done. simpl tv_usec in *.
  rewrite (proj2 (Z.eqb_neq _ _)) by done. eexists; split; [done|]. simpl. split.
  - unfold uwrap. rewrite Zplus_mod_idemp_l, Z.sub_add. by apply Z.mod_small.
  - change (2 ^ 32) with 4294967296 in *.
    pose proof (Z.div_mod (fraction n * 1000000) 4294967296).
    pose proof (Z.mod_pos_bound (fraction n * 1000000) 4294967296).
    set (u := fraction n * 1000000 / 4294967296) in *.
    split; [apply Z.div_le_lower_bound; lia|].
    apply Z.lt_succ_r, Z.div_lt_upper_bound; lia.
Qed.

Lemma ntp_unix_ntp_roundtrip_witness :
  ntp_ok {| second := 3689000000; fraction := 2147483648 |} /\
  exists t, convert_ntp_time_into_unix_time
              {| second := 3689000000; fraction := 2147483648 |} = Some t.
Proof.
  assert (ntp_ok {| second := 3689000000; fraction := 2147483648 |}) as H
    by (unfold ntp_ok, is_u32; simpl; lia).
  split; [exact H|].
  destruct (ntp_unix_ntp_roundtrip _ H) as (t & E & _). by exists t.
Defined.
