(* ===== verification/Packet.v ===== *)
(** * The SNTP packet (struct ntp_packet, src/sntptools.h)

    The structure as the program sees it (fields in host order, little-endian),
    its 48 bytes in memory, which are also the bytes sent and received, and the
    byte-order conversions [htonl] and [ntohl]. *)

From Stdlib Require Import Strings.Byte.
From S2P Require Import Prelude NtpTime.
Local Open Scope Z_scope.

(** ** Bytes *)

#[export] Instance byte_eq_dec : EqDecision byte := Byte.byte_eq_dec.

Definition b2z (b : byte) : Z := Z.of_N (Byte.to_N b).
Definition z2b (z : Z) : byte := default x00 (Byte.of_N (Z.to_N (uwrap 8 z))).

Lemma b2z_range b : 0 <= b2z b < 256.
Proof. unfold b2z. pose proof (Byte.to_N_bounded b). lia. Qed.

Lemma z2b_b2z b : z2b (b2z b) = b.
Proof.
  unfold z2b. rewrite uwrap_small by (pose proof (b2z_range b); lia).
  unfold b2z. by rewrite N2Z.id, Byte.of_to_N.
Qed.

Lemma b2z_z2b z : b2z (z2b z) = uwrap 8 z.
Proof.
  unfold z2b, b2z. pose proof (uwrap_range 8 z ltac:(lia)) as H.
  change (2 ^ 8) with 256 in H.
  destruct (Byte.of_N (Z.to_N (uwrap 8 z))) as [b|] eqn:E; simpl.
  - apply Byte.to_of_N in E. rewrite E. lia.
  - apply Byte.of_N_None_iff in E. lia.
Qed.

(** Little-endian words of [n] bytes. *)
Fixpoint le_decode (bs : list byte) : Z :=
  match bs with
  | [] => 0
  | b :: bs' => b2z b + 256 * le_decode bs'
  end.

Fixpoint le_encode (n : nat) (z : Z) : list byte :=
  match n with
  | O => []
  | S n' => z2b z :: le_encode n' (z / 256)
  end.

Lemma length_le_encode n z : length (le_encode n z) = n.
Proof. revert z; induction n; intros; simpl; auto. Qed.

Lemma le_decode_encode n z : le_decode (le_encode n z) = z mod 256 ^ Z.of_nat n.
Proof.
  revert z; induction n as [|n IH]; intros z; [by rewrite Z.mod_1_r|].
  cbn [le_encode le_decode]. rewrite b2z_z2b, IH, Nat2Z.inj_succ, Z.pow_succ_r by lia.
  unfold uwrap. change (2 ^ 8) with 256.
  rewrite Z.rem_mul_r; [done|lia|apply Z.pow_pos_nonneg; lia].
Qed.

Lemma le_decode_range bs : 0 <= le_decode bs < 256 ^ Z.of_nat (length bs).
Proof.
  induction bs as [|b bs IH]; cbn [le_decode length]; [simpl; lia|].
  rewrite Nat2Z.inj_succ, Z.pow_succ_r by lia. pose proof (b2z_range b). lia.
Qed.

Lemma le_encode_decode bs : le_encode (length bs) (le_decode bs) = bs.
Proof.
  induction bs as [|b bs IH]; [done|]. cbn [le_decode length le_encode].
  pose proof (b2z_range b). f_equal.
  - rewrite <- (z2b_b2z b) at 2. unfold z2b, uwrap. change (2 ^ 8) with 256.
    rewrite (Z.mul_comm 256), Z.mod_add by lia. done.
  - rewrite (Z.mul_comm 256), Z.div_add by lia. rewrite Z.div_small by lia. done.
Qed.

(** Big-endian (network order) bytes. *)
Definition be_encode (n : nat) (z : Z) : list byte := rev (le_encode n z).
Definition be_decode (bs : list byte) : Z := le_decode (rev bs).

(** htonl, ntohl on a little-endian host: the bytes of the word reversed. *)
Definition htonl (z : Z) : Z := le_decode (rev (le_encode 4 z)).
Definition ntohl : Z -> Z := htonl.

Lemma htonl_range z : is_u32 (htonl z).
Proof.
  unfold htonl, is_u32. pose proof (le_decode_range (rev (le_encode 4 z))).
  rewrite length_rev, length_le_encode in *. by simpl in *.
Qed.

Lemma htonl_bytes z : le_encode 4 (htonl z) = be_encode 4 z.
Proof.
  unfold htonl, be_encode. pose proof (le_encode_decode (rev (le_encode 4 z))) as E.
  by rewrite length_rev, length_le_encode in E.
Qed.

Lemma ntohl_htonl z : is_u32 z -> ntohl (htonl z) = z.
Proof.
  intros Hz. unfold ntohl. unfold htonl at 1. rewrite htonl_bytes.
  unfold be_encode. rewrite rev_involutive, le_decode_encode.
  by apply Z.mod_small.
Qed.

(** ** struct ntp_packet *)

Record ntp_packet := {
  li_vn_mode : Z;              (* uint8_t *)
  stratum : Z;                 (* uint8_t *)
  poll : Z;                    (* uint8_t *)
  precision : Z;               (* int8_t *)
  root_delay : Z;              (* int32_t *)
  root_dispersion : Z;         (* uint32_t *)
  reference_identifier : Z;    (* uint32_t *)
  reference_timestamp : ntp_time_t;
  originate_timestamp : ntp_time_t;
  receive_timestamp : ntp_time_t;
  transmit_timestamp : ntp_time_t
}.

Definition PACKET_SIZE : nat := 48.

Definition is_u8 (z : Z) : Prop := 0 <= z < 256.

(** Every field is in the range of its C type. *)
Definition packet_ok (p : ntp_packet) : Prop :=
  is_u8 p.(li_vn_mode) /\ is_u8 p.(stratum) /\ is_u8 p.(poll) /\
  -128 <= p.(precision) < 128 /\ - 2 ^ 31 <= p.(root_delay) < 2 ^ 31 /\
  is_u32 p.(root_dispersion) /\ is_u32 p.(reference_identifier) /\
  ntp_ok p.(reference_timestamp) /\ ntp_ok p.(originate_timestamp) /\
  ntp_ok p.(receive_timestamp) /\ ntp_ok p.(transmit_timestamp).

Definition zero_ntp : ntp_time_t := {| second := 0; fraction := 0 |}.

(** memset(pkt, 0, sizeof *pkt) *)
Definition zero_packet : ntp_packet :=
  {| li_vn_mode := 0; stratum := 0; poll := 0; precision := 0; root_delay := 0;
     root_dispersion := 0; reference_identifier := 0;
     reference_timestamp := zero_ntp; originate_timestamp := zero_ntp;
     receive_timestamp := zero_ntp; transmit_timestamp := zero_ntp |}.

(** The object representation: each field at its offset, no padding. *)
Definition ntp_time_bytes (t : ntp_time_t) : list byte :=
  le_encode 4 t.(second) ++ le_encode 4 t.(fraction).

Definition bytes_of_packet (p : ntp_packet) : list byte :=
  le_encode 1 p.(li_vn_mode) ++ le_encode 1 p.(stratum) ++ le_encode 1 p.(poll) ++
  le_encode 1 p.(precision) ++ le_encode 4 p.(root_delay) ++
  le_encode 4 p.(root_dispersion) ++ le_encode 4 p.(reference_identifier) ++
  ntp_time_bytes p.(reference_timestamp) ++ ntp_time_bytes p.(originate_timestamp) ++
  ntp_time_bytes p.(receive_timestamp) ++ ntp_time_bytes p.(transmit_timestamp).

Definition word_at (bs : list byte) (off len : nat) : Z :=
  le_decode (take len (drop off bs)).

Definition ntp_time_at (bs : list byte) (off : nat) : ntp_time_t :=
  {| second := word_at bs off 4; fraction := word_at bs (off + 4) 4 |}.

Definition packet_of_bytes (bs : list byte) : ntp_packet :=
  {| li_vn_mode := word_at bs 0 1; stratum := word_at bs 1 1; poll := word_at bs 2 1;
     precision := s8 (word_at bs 3 1); root_delay := s32 (word_at bs 4 4);
     root_dispersion := word_at bs 8 4; reference_identifier := word_at bs 12 4;
     reference_timestamp := ntp_time_at bs 16;
     originate_timestamp := ntp_time_at bs 24;
     receive_timestamp := ntp_time_at bs 32;
     transmit_timestamp := ntp_time_at bs 40 |}.

(** What memory holds after the structure was zeroed and [bs] (at most 48
    bytes) written over its start. *)
Definition overlay (bs : list byte) : list byte :=
  bs ++ replicate (PACKET_SIZE - length bs) x00.

(** ** Round trips *)

Lemma le_encode_mod n z z' :
  z mod 256 ^ Z.of_nat n = z' mod 256 ^ Z.of_nat n -> le_encode n z = le_encode n z'.
Proof.
  intros E. rewrite <- (le_decode_encode n z), <- (le_decode_encode n z') in E.
  rewrite <- (le_encode_decode (le_encode n z)), <- (le_encode_decode (le_encode n z')).
  by rewrite E, !length_le_encode.
Qed.

Lemma swrap_mod w z : 0 < w -> swrap w z mod 2 ^ w = z mod 2 ^ w.
Proof.
  intros. unfold swrap. rewrite Zminus_mod_idemp_l. f_equal. lia.
Qed.

Lemma word_roundtrip n z : 0 <= z < 256 ^ Z.of_nat n -> le_decode (le_encode n z) = z.
Proof. intros. rewrite le_decode_encode. by apply Z.mod_small. Qed.

Lemma word_signed_roundtrip n w z :
  w = 8 * Z.of_nat n -> 0 < w -> - 2 ^ (w - 1) <= z < 2 ^ (w - 1) ->
  swrap w (le_decode (le_encode n z)) = z.
Proof.
  intros -> Hw Hz. rewrite le_decode_encode.
  change 256 with (2 ^ 8). rewrite <- Z.pow_mul_r by lia.
  unfold swrap. rewrite Zplus_mod_idemp_l. fold (swrap (8 * Z.of_nat n) z).
  by apply swrap_small.
Qed.

Lemma length_ntp_time_bytes t : length (ntp_time_bytes t) = 8%nat.
Proof. done. Qed.

Lemma length_bytes_of_packet p : length (bytes_of_packet p) = PACKET_SIZE.
Proof. done. Qed.

Lemma ntp_time_roundtrip t : ntp_ok t ->
  {| second := le_decode (le_encode 4 (second t));
     fraction := le_decode (le_encode 4 (fraction t)) |} = t.
Proof.
  intros [? ?]. rewrite !word_roundtrip by done. by destruct t.
Qed.

Lemma packet_of_bytes_of_packet p : packet_ok p ->
  packet_of_bytes (bytes_of_packet p) = p.
Proof.
  intros (?&?&?&?&?&?&?&?&?&?&?).
  transitivity {|
    li_vn_mode := le_decode (le_encode 1 (li_vn_mode p));
    stratum := le_decode (le_encode 1 (stratum p));
    poll := le_decode (le_encode 1 (poll p));
    precision := s8 (le_decode (le_encode 1 (precision p)));
    root_delay := s32 (le_decode (le_encode 4 (root_delay p)));
    root_dispersion := le_decode (le_encode 4 (root_dispersion p));
    reference_identifier := le_decode (le_encode 4 (reference_identifier p));
    reference_timestamp := {| second := le_decode (le_encode 4 (second (reference_timestamp p)));
      fraction := le_decode (le_encode 4 (fraction (reference_timestamp p))) |};
    originate_timestamp := {| second := le_decode (le_encode 4 (second (originate_timestamp p)));
      fraction := le_decode (le_encode 4 (fraction (originate_timestamp p))) |};
    receive_timestamp := {| second := le_decode (le_encode 4 (second (receive_timestamp p)));
      fraction := le_decode (le_encode 4 (fraction (receive_timestamp p))) |};
    transmit_timestamp := {| second := le_decode (le_encode 4 (second (transmit_timestamp p)));
      fraction := le_decode (le_encode 4 (fraction (transmit_timestamp p))) |} |};
    [reflexivity|].
  rewrite !ntp_time_roundtrip by done.
  rewrite (word_signed_roundtrip 1 8), (word_signed_roundtrip 4 32) by (simpl; lia).
  rewrite !word_roundtrip by (unfold is_u8, is_u32 in *; simpl; lia).
  by destruct p.
Qed.

Lemma packet_of_bytes_ok bs : packet_ok (packet_of_bytes bs).
Proof.
  assert (forall off len, 0 <= word_at bs off len < 256 ^ Z.of_nat len) as H.
  { intros off len. unfold word_at.
    pose proof (le_decode_range (take len (drop off bs))) as [? ?].
    split; [done|]. eapply Z.lt_le_trans; [done|].
    apply Z.pow_le_mono_r; [lia|]. rewrite length_take. lia. }
  pose proof (fun off => H off 1%nat) as H1. pose proof (fun off => H off 4%nat) as H4.
  change (256 ^ Z.of_nat 1) with 256 in H1. change (256 ^ Z.of_nat 4) with (2 ^ 32) in H4.
  unfold packet_ok, ntp_ok, is_u8, is_u32; simpl.
  pose proof (swrap_range 8 (word_at bs 3 1) ltac:(lia)).
  pose proof (swrap_range 32 (word_at bs 4 4) ltac:(lia)).
  split_and!; try apply H1; try apply H4; simpl in *; lia.
Qed.

Lemma bytes_of_packet_of_bytes bs : length bs = PACKET_SIZE ->
  bytes_of_packet (packet_of_bytes bs) = bs.
Proof.
  intros H. do 48 (destruct bs as [|? bs]; [done|]). destruct bs; [|done]. clear H.
  assert (forall n w z, w = 8 * Z.of_nat n -> 0 < w -> le_encode n (swrap w z) = le_encode n z) as Hs.
  { intros n w z -> ?. apply le_encode_mod. change 256 with (2 ^ 8).
    rewrite <- Z.pow_mul_r by lia. by apply swrap_mod. }
  unfold bytes_of_packet, packet_of_bytes, ntp_time_bytes, ntp_time_at, word_at.
  cbn [li_vn_mode stratum poll precision root_delay root_dispersion
    reference_identifier reference_timestamp originate_timestamp receive_timestamp
    transmit_timestamp second fraction take drop Nat.add].
  rewrite (Hs 1%nat 8), (Hs 4%nat 32) by lia.
  assert (forall l, le_encode (length l) (le_decode l) = l) as E by apply le_encode_decode.
  pose proof (fun a => E [a]) as E1. pose proof (fun a b c d => E [a; b; c; d]) as E4.
  cbn [length] in E1, E4. rewrite !E1, !E4. reflexivity.
Qed.


