(* ===== verification/Net.v ===== *)
(** * The operating system and network library

    The programs reach the kernel, the resolver and the clock through calls of
    the C library.  What they return is not in the repository: the class
    [Kernel] is the interface the programs use, over any kernel state [K], and
    [KernelOk] states what its documentation promises.  The state of a process
    adds the static buffer of [inet_ntoa] and a trace of the calls made and of
    the text printed.  Pure library functions ([inet_ntoa], [inet_pton],
    [htons]) are defined. *)

From Stdlib Require Import SpecFloat Strings.Byte.
From S2P Require Import Prelude Double NtpTime Packet.
Local Open Scope Z_scope.

(** ** Addresses *)

(** struct sockaddr_in: the port and the address hold network-order bytes. *)
Record sockaddr_in := { sin_family : Z; sin_port : Z; sin_addr : Z }.

#[export] Instance sockaddr_in_eq_dec : EqDecision sockaddr_in.
Proof. solve_decision. Defined.

Definition AF_INET : Z := 2.
Definition INADDR_ANY : Z := 0.
Definition zero_addr : sockaddr_in := {| sin_family := 0; sin_port := 0; sin_addr := 0 |}.

Definition htons (z : Z) : Z := le_decode (rev (le_encode 2 z)).

(** Decimal digits of a number below 1000. *)
Definition digit (z : Z) : ascii := ascii_of_N (Z.to_N (48 + z)).
Definition octet_string (z : Z) : string :=
  if z <? 10 then String (digit z) ""
  else if z <? 100 then String (digit (z / 10)) (String (digit (z mod 10)) "")
  else String (digit (z / 100)) (String (digit ((z / 10) mod 10)) (String (digit (z mod 10)) "")).

Definition ntoa_bytes (bs : list byte) : string :=
  match bs with
  | [a; b; c; d] =>
      octet_string (b2z a) +:+ String "." (octet_string (b2z b) +:+ String "."
      (octet_string (b2z c) +:+ String "." (octet_string (b2z d))))
  | _ => ""
  end.

(** The text inet_ntoa formats. *)
Definition ntoa_string (addr : Z) : string := ntoa_bytes (le_encode 4 addr).

Definition is_digit (c : ascii) : bool := (48 <=? N_of_ascii c)%N && (N_of_ascii c <=? 57)%N.
Definition digit_val (c : ascii) : Z := Z.of_N (N_of_ascii c) - 48.

(** A decimal octet: one to three digits, no leading zero, at most 255. *)
Definition octet_of_string (s : string) : option Z :=
  match s with
  | String a "" => if is_digit a then Some (digit_val a) else None
  | String a (String b "") =>
      if is_digit a && is_digit b && negb (digit_val a =? 0)
      then Some (10 * digit_val a + digit_val b) else None
  | String a (String b (String c "")) =>
      let v := 100 * digit_val a + 10 * digit_val b + digit_val c in
      if is_digit a && is_digit b && is_digit c && negb (digit_val a =? 0) && (v <=? 255)
      then Some v else None
  | _ => None
  end.

Fixpoint split_dots (s : string) : list string :=
  match s with
  | EmptyString => [""]
  | String c s' =>
      if (c =? ".")%char then "" :: split_dots s'
      else match split_dots s' with
           | w :: ws => String c w :: ws
           | [] => [String c ""]
           end
  end.

(** inet_pton(AF_INET, s): the address, when [s] is a dotted quad. *)
Definition inet_pton (s : string) : option Z :=
  match split_dots s with
  | [a; b; c; d] =>
      a ← octet_of_string a; b ← octet_of_string b;
      c ← octet_of_string c; d ← octet_of_string d;
      Some (le_decode [z2b a; z2b b; z2b c; z2b d])
  | _ => None
  end.

(** ** The kernel *)

Inductive sockopt :=
  | SO_RCVTIMEO (tv : timeval)
  | SO_REUSEADDR (v : Z)
  | IP_ADD_MEMBERSHIP (multiaddr interface : Z)
  | IP_MULTICAST_TTL (ttl : Z).

Class Kernel (K : Type) := {
  k_gettimeofday : K -> timeval * K;
  k_socket : K -> Z * K;
  k_setsockopt : Z -> sockopt -> K -> Z * K;
  k_bind : Z -> sockaddr_in -> K -> Z * K;
  (* at most the given number of bytes; None stands for -1 *)
  k_recvfrom : Z -> nat -> K -> option (list byte * sockaddr_in) * K;
  k_sendto : Z -> list byte -> sockaddr_in -> K -> Z * K;
  k_close : Z -> K -> K;
  (* access(path, F_OK) *)
  k_access : string -> K -> Z * K;
  (* the text of a regular file that can be opened *)
  k_read_file : string -> K -> option string * K;
  (* the name and the first address of the host entry *)
  k_gethostbyaddr : Z -> K -> option (string * Z) * K;
  k_gethostbyname : string -> K -> option (string * Z) * K;
  k_inet_addr : string -> Z;
  (* localtime and strftime with %Y-%m-%d %H:%M:%S, in the local time zone *)
  k_localtime : Z -> string
}.

Class KernelOk (K : Type) `{Kernel K} := {
  gettimeofday_ok : forall k, timeval_ok (k_gettimeofday k).1;
  recvfrom_len : forall fd n k bs a,
    (k_recvfrom fd n k).1 = Some (bs, a) -> (length bs <= n)%nat
}.

(** ** The process *)

Inductive fd := Stdout | Stderr.

(** Arguments of printf, as values. *)
Inductive arg :=
  | AInt (z : Z)
  | AStr (s : string)
  | ADbl (d : spec_float)
  | AFmt (fmt : string) (args : list arg).

(** What the process did, in order. *)
Inductive event :=
  | EPrint (f : fd) (fmt : string) (args : list arg)
  | ERecv (sock : Z) (r : option (list byte * sockaddr_in))
  | ESend (sock : Z) (bs : list byte) (to : sockaddr_in) (ret : Z)
  | EClose (sock : Z).

(** char pointers: null, a string that is never overwritten while the pointer
    is used, the buffer of inet_ntoa, or an uninitialised pointer. *)
Inductive cstr := Null | Lit (s : string) | Ntoa | Indeterminate.

Record proc (K : Type) := Proc {
  kern : K;
  ntoa_buf : string;
  trace : list event
}.
Arguments Proc {K} kern ntoa_buf trace.
Arguments kern {K} _.
Arguments ntoa_buf {K} _.
Arguments trace {K} _.

Section Calls.
Context {K : Type} `{Kernel K}.

Definition call {A} (f : K -> A * K) : M (proc K) A := fun p =>
  let (a, k) := f p.(kern) in (Ret a, Proc k p.(ntoa_buf) p.(trace)).

Definition emit (e : event) : M (proc K) unit :=
  modify (fun p => Proc p.(kern) p.(ntoa_buf) (p.(trace) ++ [e])).

Definition fprintf (f : fd) (fmt : string) (args : list arg) : M (proc K) unit :=
  emit (EPrint f fmt args).

Definition gettimeofday : M (proc K) timeval := call k_gettimeofday.
Definition socket : M (proc K) Z := call k_socket.
Definition setsockopt (s : Z) (o : sockopt) : M (proc K) Z := call (k_setsockopt s o).
Definition bind (s : Z) (a : sockaddr_in) : M (proc K) Z := call (k_bind s a).
Definition access (path : string) : M (proc K) Z := call (k_access path).
Definition gethostbyaddr (a : Z) : M (proc K) (option (string * Z)) :=
  call (k_gethostbyaddr a).
Definition gethostbyname (s : string) : M (proc K) (option (string * Z)) :=
  call (k_gethostbyname s).

Definition recvfrom (s : Z) (n : nat) : M (proc K) (option (list byte * sockaddr_in)) :=
  r ← call (k_recvfrom s n); emit (ERecv s r);; mret r.

Definition sendto (s : Z) (bs : list byte) (a : sockaddr_in) : M (proc K) Z :=
  r ← call (k_sendto s bs a); emit (ESend s bs a r);; mret r.

Definition close (s : Z) : M (proc K) unit :=
  call (fun k => (tt, k_close s k));; emit (EClose s).

(** Formats into the static buffer and returns a pointer to it. *)
Definition inet_ntoa (addr : Z) : M (proc K) cstr :=
  modify (fun p => Proc p.(kern) (ntoa_string addr) p.(trace));; mret Ntoa.

(** The characters a pointer points to. *)
Definition load (c : cstr) : M (proc K) string :=
  match c with
  | Null => undef UB_null
  | Lit s => mret s
  | Ntoa => gets ntoa_buf
  | Indeterminate => undef UB_indeterminate
  end.
End Calls.

(** ** inet_pton reads back what inet_ntoa prints *)

Lemma octet_roundtrip z : 0 <= z < 256 -> octet_of_string (octet_string z) = Some z.
Proof.
  intros Hz. rewrite <- (Z2Nat.id z) by lia.
  assert (Z.to_nat z < 256)%nat as Hn by lia. revert Hn. generalize (Z.to_nat z). intros n Hn.
  assert (forallb (fun n => match octet_of_string (octet_string (Z.of_nat n)) with
    Some v => v =? Z.of_nat n | None => false end) (seq 0 256) = true) as H by reflexivity.
  rewrite forallb_forall in H. specialize (H n). rewrite in_seq in H.
  specialize (H ltac:(lia)). destruct (octet_of_string _); [|done].
  apply Z.eqb_eq in H. by subst.
Qed.

Fixpoint no_dot (s : string) : bool :=
  match s with EmptyString => true | String c s' => negb (c =? ".")%char && no_dot s' end.

Lemma octet_no_dot z : 0 <= z < 256 -> no_dot (octet_string z) = true.
Proof.
  intros Hz. rewrite <- (Z2Nat.id z) by lia.
  assert (Z.to_nat z < 256)%nat as Hn by lia. revert Hn. generalize (Z.to_nat z). intros n Hn.
  assert (forallb (fun n => no_dot (octet_string (Z.of_nat n))) (seq 0 256) = true)
    as H by reflexivity.
  rewrite forallb_forall in H. apply H, in_seq. lia.
Qed.

Lemma split_dots_cons s t : no_dot s = true ->
  split_dots (s +:+ String "." t) = s :: split_dots t.
Proof.
  induction s as [|c s IH]; simpl; [done|].
  destruct (c =? ".")%char; [done|]. simpl. intros Hs. by rewrite (IH Hs).
Qed.

Lemma split_dots_one s : no_dot s = true -> split_dots s = [s].
Proof.
  induction s as [|c s IH]; simpl; [done|].
  destruct (c =? ".")%char; [done|]. simpl. intros Hs. by rewrite (IH Hs).
Qed.

Lemma inet_pton_ntoa a : is_u32 a -> inet_pton (ntoa_string a) = Some a.
Proof.
  intros Ha. unfold ntoa_string. set (bs := le_encode 4 a).
  assert (le_decode bs = a) as Ed by (unfold bs; rewrite le_decode_encode; by apply Z.mod_small).
  destruct bs as [|b0 [|b1 [|b2 [|b3 [|]]]]] eqn:Eb; try done.
  pose proof (b2z_range b0); pose proof (b2z_range b1);
    pose proof (b2z_range b2); pose proof (b2z_range b3).
  unfold inet_pton, ntoa_bytes.
  rewrite !split_dots_cons, split_dots_one by (by apply octet_no_dot).
  rewrite !octet_roundtrip by done. simpl. by rewrite !z2b_b2z, <- Ed.
Qed.

(** ** The clock

    Time in microseconds, as the kernel passes through its calls: every reading
    of the clock shows it and takes at least a microsecond, no call takes more
    than 2^28 seconds (eight years), and no call turns the clock back. *)

Definition CALL_TIME : Z := 2 ^ 28 * 1000000.

Class Clock (K : Type) `{Kernel K} := {
  clock : K -> Z;
  clock_nonneg k : 0 <= clock k;
  clock_reads k : (k_gettimeofday k).1 =
    {| tv_sec := clock k / 1000000; tv_usec := clock k mod 1000000 |};
  clock_ticks k : clock k < clock (k_gettimeofday k).2 <= clock k + CALL_TIME;
  clock_recvfrom s n k : clock k <= clock (k_recvfrom s n k).2 <= clock k + CALL_TIME;
  clock_sendto s bs a k : clock k <= clock (k_sendto s bs a k).2 <= clock k + CALL_TIME
}.
