(* ===== verification/Script.v ===== *)
(** * A scripted kernel

    A concrete instance of [Kernel], used to run the programs on given inputs:
    a clock that advances by one second per reading, a list of datagrams to
    receive (a timeout after the last), sends that all succeed or all fail,
    host tables and files. *)

From Stdlib Require Import Strings.Byte.
From S2P Require Import Prelude NtpTime Packet Net.
Local Open Scope Z_scope.

Record script := Script {
  now : N;
  inbox : list (option (list byte * sockaddr_in));
  send_ok : bool;
  hosts : list (string * Z);
  files : list (string * string)
}.

Definition find_host (k : script) (s : string) : option (string * Z) :=
  match List.find (fun h => String.eqb h.1 s) k.(hosts) with
  | Some (n, a) => Some (n, a)
  | None => None
  end.

Definition find_addr (k : script) (a : Z) : option (string * Z) :=
  match List.find (fun h => h.2 =? a) k.(hosts) with
  | Some (n, a) => Some (n, a)
  | None => None
  end.

Definition find_file (k : script) (s : string) : option string :=
  snd <$> List.find (fun h => String.eqb h.1 s) k.(files).

(** UTC, from the number of days since 1970-01-01. *)
Definition two_digits (z : Z) : string := String (digit (z / 10)) (String (digit (z mod 10)) "").
Definition calendar (t : Z) : string :=
  let z := t / 86400 + 719468 in
  let era := z / 146097 in
  let doe := z mod 146097 in
  let yoe := (doe - doe / 1460 + doe / 36524 - doe / 146096) / 365 in
  let doy := doe - (365 * yoe + yoe / 4 - yoe / 100) in
  let mp := (5 * doy + 2) / 153 in
  let d := doy - (153 * mp + 2) / 5 + 1 in
  let m := if mp <? 10 then mp + 3 else mp - 9 in
  let y := yoe + era * 400 + (if m <=? 2 then 1 else 0) in
  two_digits (y / 100) +:+ two_digits (y mod 100) +:+ "-" +:+ two_digits m +:+ "-" +:+
  two_digits d +:+ " " +:+ two_digits ((t mod 86400) / 3600) +:+ ":" +:+
  two_digits ((t mod 3600) / 60) +:+ ":" +:+ two_digits (t mod 60).

#[export] Instance script_kernel : Kernel script := {
  k_gettimeofday k :=
    ({| tv_sec := Z.of_N k.(now); tv_usec := 0 |},
     Script (N.succ k.(now)) k.(inbox) k.(send_ok) k.(hosts) k.(files));
  k_socket k := (3, k);
  k_setsockopt _ _ k := (0, k);
  k_bind _ _ k := (0, k);
  k_recvfrom _ n k :=
    match k.(inbox) with
    | [] => (None, k)
    | r :: rs =>
        (match r with Some (bs, a) => Some (take n bs, a) | None => None end,
         Script k.(now) rs k.(send_ok) k.(hosts) k.(files))
    end;
  k_sendto _ bs _ k := (if k.(send_ok) then Z.of_nat (length bs) else -1, k);
  k_close _ k := k;
  k_access path k := (match find_file k path with Some _ => 0 | None => -1 end, k);
  k_read_file path k := (find_file k path, k);
  k_gethostbyaddr a k := (find_addr k a, k);
  k_gethostbyname s k := (find_host k s, k);
  k_inet_addr s := default 4294967295 (inet_pton s);
  k_localtime t := calendar t
}.

#[export] Instance script_kernel_ok : KernelOk script.
Proof.
  split.
  - intros k. unfold timeval_ok. simpl. lia.
  - intros fd n k bs a. simpl. destruct (inbox k) as [|[[bs' a']|]]; simpl; try done.
    intros [= <- <-]. rewrite length_take. lia.
Qed.

Definition boot (k : script) : proc script := Proc k "" [].

(** The same kernel behind a network that carries no datagram longer than a
    packet. *)
Record short_script := Short { long : script }.

Definition on_long {A} (f : script -> A * script) (k : short_script) : A * short_script :=
  let (a, k') := f k.(long) in (a, Short k').

#[export] Instance short_kernel : Kernel short_script := {
  k_gettimeofday := on_long k_gettimeofday;
  k_socket := on_long k_socket;
  k_setsockopt s o := on_long (k_setsockopt s o);
  k_bind s a := on_long (k_bind s a);
  k_recvfrom s n := on_long (k_recvfrom s (n `min` PACKET_SIZE));
  k_sendto s bs a := on_long (k_sendto s bs a);
  k_close s k := Short (k_close s k.(long));
  k_access path := on_long (k_access path);
  k_read_file path := on_long (k_read_file path);
  k_gethostbyaddr a := on_long (k_gethostbyaddr a);
  k_gethostbyname s := on_long (k_gethostbyname s);
  k_inet_addr s := default 4294967295 (inet_pton s);
  k_localtime t := calendar t
}.

Lemma short_recv s n k bs a :
  (k_recvfrom (K := short_script) s n k).1 = Some (bs, a) ->
  (length bs <= n `min` PACKET_SIZE)%nat.
Proof.
  intros E. apply (recvfrom_len (K := script) s _ (long k) bs a). revert E.
  unfold k_recvfrom at 1, short_kernel, on_long.
  by destruct (k_recvfrom _ _ _).
Qed.

#[export] Instance short_kernel_ok : KernelOk short_script.
Proof.
  split.
  - intros k. unfold timeval_ok. simpl. lia.
  - intros fd n k bs a E. apply short_recv in E. lia.
Qed.

#[export] Instance script_clock : Clock script.
Proof.
  refine {| clock k := Z.of_N (now k) * 1000000 |}; unfold CALL_TIME.
  - intros. lia.
  - intros. rewrite Z.div_mul, Z.mod_mul by lia. done.
  - intros. simpl. lia.
  - intros. simpl. destruct (inbox k); simpl; lia.
  - intros. simpl. lia.
Defined.

#[export] Instance short_clock : Clock short_script.
Proof.
  refine {| clock k := clock (long k) |}.
  - intros. apply (clock_nonneg (K := script)).
  - intros k. exact (clock_reads (K := script) (long k)).
  - intros k. exact (clock_ticks (K := script) (long k)).
  - intros s n k. change (k_recvfrom s n k) with
      (on_long (k_recvfrom (K := script) s (n `min` PACKET_SIZE)) k). unfold on_long.
    pose proof (clock_recvfrom (K := script) s (n `min` PACKET_SIZE) (long k)) as Hc.
    destruct (k_recvfrom (K := script) _ _ _). exact Hc.
  - intros s bs a k. change (k_sendto s bs a k) with
      (on_long (k_sendto (K := script) s bs a) k). unfold on_long.
    pose proof (clock_sendto (K := script) s bs a (long k)) as Hc.
    destruct (k_sendto (K := script) _ _ _). exact Hc.
Defined.
