(* ===== verification/SntpTools.v ===== *)
(** * Shared client and server code (src/sntptools.c, src/reusedlib.c)

    Debug output, the receive timeout, the current NTP time, and receiving and
    sending one packet. *)

From Stdlib Require Import SpecFloat Strings.Byte.
From S2P Require Import Prelude Double NtpTime Packet Net.
Local Open Scope Z_scope.

(** struct host_info *)
Record host_info := { name : cstr; addr : sockaddr_in }.

(** MAXBUFLEN - 1: the length given to recvfrom. *)
Definition MAXBUFLEN : nat := 200.

(** Arguments of a printf-like call, before pointers are followed. *)
Inductive parg := PInt (z : Z) | PPtr (c : cstr) | PDbl (d : spec_float).

Section Tools.
Context {K : Type} `{Kernel K}.

Definition load_arg (a : parg) : M (proc K) arg :=
  match a with
  | PInt z => mret (AInt z)
  | PPtr c => s ← load c; mret (AStr s)
  | PDbl d => mret (ADbl d)
  end.

Fixpoint load_args (l : list parg) : M (proc K) (list arg) :=
  match l with
  | [] => mret []
  | a :: l' => v ← load_arg a; vs ← load_args l'; mret (v :: vs)
  end.

Definition printf_to (f : fd) (fmt : string) (args : list parg) : M (proc K) unit :=
  vs ← load_args args; fprintf f fmt vs.

Definition print_debug (enable_debug : Z) (fmt : string) (args : list parg)
    : M (proc K) unit :=
  if negb (enable_debug =? 1) then mret tt
  else vs ← load_args args; fprintf Stdout "DEBUG: %s\n" [AFmt fmt vs].

Definition set_socket_recvfrom_timeout (sockfd seconds debug : Z) : M (proc K) Z :=
  let tv := {| tv_sec := seconds; tv_usec := 0 |} in
  r ← setsockopt sockfd (SO_RCVTIMEO tv);
  if negb (r =? 0) then mret 1 else mret 0.

Definition get_ntp_time_of_day : M (proc K) ntp_time_t :=
  ts_unix ← gettimeofday;
  lift_opt UB_float_cast (convert_unix_time_into_ntp_time ts_unix).

(** Returns the code with the new contents of [*pkt], [*addr] and
    [*dest_time]; [dest] is [None] when the caller passes a null pointer.
    recvfrom may write up to 199 bytes into the 48-byte structure: a longer
    datagram than the structure overruns it. *)
Definition recieve_SNTP_packet (sockfd : Z) (addr0 : sockaddr_in)
    (dest : option timeval) (debug : Z)
    : M (proc K) (Z * ntp_packet * sockaddr_in * option timeval) :=
  r ← recvfrom sockfd (MAXBUFLEN - 1);
  match r with
  | None =>
      print_debug debug "socket recv timeout" [];;
      mret (1, zero_packet, addr0, dest)
  | Some (bs, from) =>
      if (PACKET_SIZE <? length bs)%nat then undef UB_bounds
      else
        t ← gettimeofday;
        p ← inet_ntoa from.(sin_addr);
        print_debug debug "got packet from %s" [PPtr p];;
        mret (0, packet_of_bytes (overlay bs), from, (fun _ => t) <$> dest)
  end.

Definition send_SNTP_packet (pkt : ntp_packet) (sockfd : Z) (addr : sockaddr_in)
    (debug : Z) : M (proc K) Z :=
  numbytes ← sendto sockfd (bytes_of_packet pkt) addr;
  if numbytes =? -1 then
    print_debug debug "error with sending packet" [];; mret 1
  else
    p ← inet_ntoa addr.(sin_addr);
    print_debug debug "sent %d bytes to %s" [PInt numbytes; PPtr p];;
    mret 0.
End Tools.

(** ** Proof rules

    [io] forgets what was printed; [quiet p p'] says that only printing
    happened between [p] and [p'] (and the kernel was not called). *)

Definition is_io (e : event) : bool := match e with EPrint _ _ _ => false | _ => true end.
Definition io (t : list event) : list event := List.filter is_io t.

Lemma io_app t u : io (t ++ u) = io t ++ io u.
Proof. apply List.filter_app. Qed.

Definition quiet {K} (p p' : proc K) : Prop :=
  kern p' = kern p /\ ntoa_buf p' = ntoa_buf p /\ io (trace p') = io (trace p).

#[export] Instance quiet_refl {K} : Reflexive (@quiet K).
Proof. intros p. by split_and!. Qed.
#[export] Instance quiet_trans {K} : Transitive (@quiet K).
Proof. intros p q r (?&?&?) (?&?&?). split_and!; congruence. Qed.

Definition loadable (a : parg) : bool :=
  match a with PPtr Null | PPtr Indeterminate => false | _ => true end.

Section ToolLemmas.
Context {K : Type} `{Kernel K}.
Implicit Types (p : proc K).

Lemma load_arg_ok a p : loadable a -> exists v, load_arg a p = (Ret v, p).
Proof. destruct a as [|[]|]; simpl; try done; intros; eexists; reflexivity. Qed.

Lemma load_args_ok l p : forallb loadable l -> exists vs, load_args l p = (Ret vs, p).
Proof.
  induction l as [|a l IH]; simpl; [by exists []|].
  intros [Ha Hl]%andb_True. destruct (IH Hl) as [vs E], (load_arg_ok a p Ha) as [v Hv].
  exists (v :: vs). unfold mbind, M_bind. by rewrite Hv, E.
Qed.

Lemma wp_printf_to f fmt l Q p : forallb loadable l ->
  (forall p', quiet p p' -> Q (Ret tt) p') -> wp (printf_to f fmt l) Q p.
Proof.
  intros Hl HQ. unfold wp, printf_to. destruct (load_args_ok l p Hl) as [vs E].
  unfold mbind, M_bind. rewrite E. apply HQ. split_and!; [done|done|]. simpl.
  by rewrite io_app, app_nil_r.
Qed.

Lemma wp_fprintf f fmt l Q p :
  (forall p', quiet p p' -> Q (Ret tt) p') -> wp (fprintf f fmt l) Q p.
Proof. intros HQ. apply HQ. split_and!; [done|done|]. simpl. by rewrite io_app, app_nil_r. Qed.

Lemma wp_print_debug d fmt l Q p : forallb loadable l ->
  (forall p', quiet p p' -> Q (Ret tt) p') -> wp (print_debug d fmt l) Q p.
Proof.
  intros Hl HQ. unfold print_debug. destruct (negb (d =? 1)); [by apply HQ|].
  destruct (load_args_ok l p Hl) as [vs E]. unfold wp, mbind, M_bind. rewrite E.
  apply HQ. split_and!; [done|done|]. simpl. by rewrite io_app, app_nil_r.
Qed.

Lemma wp_inet_ntoa a Q p :
  Q (Ret Ntoa) (Proc (kern p) (ntoa_string a) (trace p)) -> wp (inet_ntoa a) Q p.
Proof. done. Qed.

Lemma wp_call {A} (f : K -> A * K) Q p :
  Q (Ret (f (kern p)).1) (Proc (f (kern p)).2 (ntoa_buf p) (trace p)) -> wp (call f) Q p.
Proof. unfold wp, call. by destruct (f (kern p)). Qed.

Lemma wp_recvfrom s n r k1 Q p :
  k_recvfrom s n (kern p) = (r, k1) ->
  Q (Ret r) (Proc k1 (ntoa_buf p) (trace p ++ [ERecv s r])) -> wp (recvfrom s n) Q p.
Proof.
  intros E. unfold wp, recvfrom, call, mbind, M_bind. by rewrite E.
Qed.

Lemma wp_sendto s bs a r k1 Q p :
  k_sendto s bs a (kern p) = (r, k1) ->
  Q (Ret r) (Proc k1 (ntoa_buf p) (trace p ++ [ESend s bs a r])) ->
  wp (sendto s bs a) Q p.
Proof.
  intros E. unfold wp, sendto, call, mbind, M_bind. by rewrite E.
Qed.

Lemma wp_load c Q p : loadable (PPtr c) ->
  (forall s, Q (Ret s) p) -> wp (load c) Q p.
Proof. destruct c; simpl; try done; intros ? HQ; apply HQ. Qed.

Lemma wp_lift_opt {A} w (o : option A) Q p :
  match o with Some a => Q (Ret a) p | None => Q (Undef w) p end ->
  wp (lift_opt w o : M (proc K) A) Q p.
Proof. by destruct o. Qed.

Lemma wp_gettimeofday Q p :
  Q (Ret (k_gettimeofday (kern p)).1)
    (Proc (k_gettimeofday (kern p)).2 (ntoa_buf p) (trace p)) -> wp gettimeofday Q p.
Proof. apply wp_call. Qed.

(** The current NTP time: undefined when the clock reads microsecond 999999. *)
Lemma wp_get_ntp_time_of_day Q p :
  let t := (k_gettimeofday (kern p)).1 in
  let p' := Proc (k_gettimeofday (kern p)).2 (ntoa_buf p) (trace p) in
  match convert_unix_time_into_ntp_time t with
  | Some n => Q (Ret n) p'
  | None => Q (Undef UB_float_cast) p'
  end -> wp get_ntp_time_of_day Q p.
Proof. intros t p' HQ. unfold get_ntp_time_of_day. wnext. apply wp_gettimeofday. wnext. apply wp_lift_opt, HQ. Qed.

(** Receiving: timeout or error, overrun of the packet, or a packet with its
    arrival time. *)
Lemma wp_recieve_SNTP_packet s a0 dest d r k1 Q p :
  k_recvfrom s (MAXBUFLEN - 1) (kern p) = (r, k1) ->
  (forall p', kern p' = match r with
                        | Some (bs, _) => if (PACKET_SIZE <? length bs)%nat then k1
                                          else (k_gettimeofday k1).2
                        | None => k1
                        end ->
     io (trace p') = io (trace p) ++ [ERecv s r] ->
     match r with
     | None => ntoa_buf p' = ntoa_buf p -> Q (Ret (1, zero_packet, a0, dest)) p'
     | Some (bs, from) =>
         if (PACKET_SIZE <? length bs)%nat then Q (Undef UB_bounds) p'
         else ntoa_buf p' = ntoa_string (sin_addr from) ->
              Q (Ret (0, packet_of_bytes (overlay bs), from,
                      (fun _ => (k_gettimeofday k1).1) <$> dest)) p'
     end) ->
  wp (recieve_SNTP_packet s a0 dest d) Q p.
Proof.
  intros Er HQ. unfold recieve_SNTP_packet. wnext.
  apply (wp_recvfrom _ _ _ _ _ _ Er). wnext. destruct r as [[bs from]|].
  - destruct (PACKET_SIZE <? length bs)%nat.
    + apply HQ; [done|]. simpl. by rewrite io_app.
    + wnext. apply wp_gettimeofday. wnext. apply wp_inet_ntoa. wnext.
      apply wp_print_debug; [done|]. intros p' (Hk & Hn & Ht). simpl in *.
      apply HQ; [done| |done]. by rewrite Ht, io_app.
  - wnext. apply wp_print_debug; [done|]. intros p' (Hk & Hn & Ht). simpl in *.
    apply HQ; [done| |done]. by rewrite Ht, io_app.
Qed.

Lemma wp_send_SNTP_packet pkt s a d n k1 Q p :
  k_sendto s (bytes_of_packet pkt) a (kern p) = (n, k1) ->
  (forall p', kern p' = k1 ->
     io (trace p') = io (trace p) ++ [ESend s (bytes_of_packet pkt) a n] ->
     (n <> -1 -> ntoa_buf p' = ntoa_string (sin_addr a)) ->
     Q (Ret (if n =? -1 then 1 else 0)) p') ->
  wp (send_SNTP_packet pkt s a d) Q p.
Proof.
  intros Es HQ. unfold send_SNTP_packet. wnext.
  apply (wp_sendto _ _ _ _ _ _ _ Es). wnext.
  destruct (Z.eqb_spec n (-1)).
  - wnext. apply wp_print_debug; [done|]. intros p' (Hk & _ & Ht). simpl in *.
    apply HQ; [done| |done]. by rewrite Ht, io_app.
  - wnext. apply wp_inet_ntoa. wnext. apply wp_print_debug; [done|].
    intros p' (Hk & Hn & Ht). simpl in *. apply HQ; [done| |done]. by rewrite Ht, io_app.
Qed.
End ToolLemmas.
