(* ===== verification/Server.v ===== *)
(** * The server (src/sntpserver.c): requests and replies

    Checking a request, building the reply, setting up the sockets, and one
    round of the request loop.  The settings and [main] are in ServerMain. *)

From Stdlib Require Import SpecFloat Strings.Byte.
From S2P Require Import Prelude Double NtpTime Packet Net Script SntpTools.
Local Open Scope Z_scope.

(** struct sntp_request *)
Record sntp_request := {
  client : host_info;
  pkt : ntp_packet;
  time_of_request : ntp_time_t
}.

(** struct server_settings *)
Record server_settings := {
  server_port : Z;
  debug : Z;
  manycast_enabled : Z;
  manycast_address : cstr
}.

Section Server.
Context {K : Type} `{Kernel K}.

Definition check_packet (c_req : sntp_request) (debug : Z) : M (proc K) Z :=
  let msg_strt := Lit "check failed failed on -" in
  let mode := Z.land c_req.(pkt).(li_vn_mode) 7 in
  let vn := Z.land (Z.shiftr c_req.(pkt).(li_vn_mode) 3) 7 in
  if negb (mode =? 3) then
    print_debug debug "%s packet is not of mode client 3(mode=%i)"
      [PPtr msg_strt; PInt mode];; mret 1
  else if (vn <? 1) || (4 <? vn) then
    print_debug debug "%s packet version is not in range 1 to 4(vn=%i)"
      [PPtr msg_strt; PInt vn];; mret 1
  else mret 0.

(** The reply, before its transmit time is read: every field of [reply_pkt]
    up to the call of get_ntp_time_of_day. *)
Definition create_reply_packet (c_req : sntp_request) : M (proc K) ntp_packet :=
  let req_version := Z.land (Z.shiftr c_req.(pkt).(li_vn_mode) 3) 7 in
  transmit_ts_ntp ← get_ntp_time_of_day;
  mret {|
    li_vn_mode := u8 (Z.lor (Z.shiftl req_version 3) 4);
    stratum := 2;
    poll := c_req.(pkt).(poll);
    precision := s8 (- Z.log2 32);
    root_delay := 0;
    root_dispersion := 0;
    reference_identifier := 0;
    reference_timestamp := zero_ntp;
    originate_timestamp :=
      {| second := c_req.(pkt).(transmit_timestamp).(second);
         fraction := c_req.(pkt).(transmit_timestamp).(fraction) |};
    receive_timestamp :=
      {| second := htonl c_req.(time_of_request).(second);
         fraction := htonl c_req.(time_of_request).(fraction) |};
    transmit_timestamp :=
      {| second := htonl transmit_ts_ntp.(second);
         fraction := htonl transmit_ts_ntp.(fraction) |}
  |}.

(** Returns the code with the socket and the new [cn->addr]. *)
Definition initialise_server (port : Z) (cn : host_info) (debug : Z)
    : M (proc K) (Z * Z * host_info) :=
  sockfd ← socket;
  if sockfd =? -1 then
    print_debug debug "error creating a socket" [];; mret (1, sockfd, cn)
  else
    r ← setsockopt sockfd (SO_REUSEADDR 1);
    if r <? 0 then
      print_debug debug "error setting up reuseable address" [];; mret (1, sockfd, cn)
    else
      let a := {| sin_family := AF_INET; sin_port := htons port;
                  sin_addr := INADDR_ANY |} in
      let cn := {| name := cn.(name); addr := a |} in
      b ← bind sockfd a;
      if b =? -1 then
        print_debug debug "error binding to socket" [];; mret (1, sockfd, cn)
      else mret (0, sockfd, cn).

Definition setup_manycast (sockfd : Z) (manycast_address : cstr) (debug : Z)
    : M (proc K) Z :=
  s ← load manycast_address;
  r ← setsockopt sockfd (IP_ADD_MEMBERSHIP (k_inet_addr s) (htonl INADDR_ANY));
  if r <? 0 then
    print_debug debug "unable to setup socket for manycast" [];; mret 1
  else mret 0.

(** The local variables the request loop reads and writes. *)
Record server_vars := { client_req : sntp_request; request_t_unix : timeval }.

(** One round of [while(1)] in main; [continue] ends the round. *)
Definition serve_request (s_set : server_settings) (sockfd : Z) (v : server_vars)
    : M (proc K) server_vars :=
  r ← recieve_SNTP_packet sockfd v.(client_req).(client).(addr)
        (Some v.(request_t_unix)) s_set.(debug);
  let '(code, pkt, a, dest) := r in
  let req := {| client := {| name := v.(client_req).(client).(name); addr := a |};
                pkt := pkt; time_of_request := v.(client_req).(time_of_request) |} in
  let t := default v.(request_t_unix) dest in
  if negb (code =? 0) then
    fprintf Stderr "error while listening for requests\n" [];;
    mret {| client_req := req; request_t_unix := t |}
  else
    p ← inet_ntoa a.(sin_addr);
    printf_to Stdout "recieved a packet from %s\n" [PPtr p];;
    tor ← lift_opt UB_float_cast (convert_unix_time_into_ntp_time t);
    let req := {| client := req.(client); pkt := pkt; time_of_request := tor |} in
    let v' := {| client_req := req; request_t_unix := t |} in
    c ← check_packet req s_set.(debug);
    if negb (c =? 0) then
      p ← inet_ntoa a.(sin_addr);
      printf_to Stderr "packet check failed, ignoring request for %s\n" [PPtr p];;
      mret v'
    else
      reply_pkt ← create_reply_packet req;
      s ← send_SNTP_packet reply_pkt sockfd a s_set.(debug);
      (if s =? 0 then
         p ← inet_ntoa a.(sin_addr);
         printf_to Stdout "succesffuly sent reply packet to %s\n" [PPtr p]
       else mret tt);;
      mret v'.

(** [while(1)], for a number of rounds. *)
Definition serve (s_set : server_settings) (sockfd : Z) (fuel : nat) (v : server_vars)
    : M (proc K) Empty_set :=
  iter fuel (fun v => v' ← serve_request s_set sockfd v; mret (inl v')) v.
End Server.

(** ** Specification, in terms of the bytes on the wire *)

(** The first byte of a datagram (a missing byte reads as zero). *)
Definition head_byte (bs : list byte) : Z := b2z (hd x00 bs).

(** Client mode, version 1 to 4. *)
Definition valid_request (bs : list byte) : Prop :=
  head_byte bs mod 8 = 3 /\ 1 <= (head_byte bs / 8) mod 8 <= 4.

#[export] Instance valid_request_dec bs : Decision (valid_request bs).
Proof. unfold valid_request. apply _. Defined.

(** The reply to the datagram [bs], received at [rt] and answered at [xt]. *)
Definition reply_wire (bs : list byte) (rt xt : ntp_time_t) : list byte :=
  [z2b (8 * ((head_byte bs / 8) mod 8) + 4); z2b 2; nth 2 (overlay bs) x00; z2b (-5)] ++
  replicate 20 x00 ++
  take 8 (drop 40 (overlay bs)) ++
  be_encode 4 rt.(second) ++ be_encode 4 rt.(fraction) ++
  be_encode 4 xt.(second) ++ be_encode 4 xt.(fraction).

(** One round of the loop, as the events it may show. *)
Inductive round_spec (sockfd : Z) : list event -> Prop :=
  | round_error : round_spec sockfd [ERecv sockfd None]
  | round_reject bs from :
      (length bs <= PACKET_SIZE)%nat -> ~ valid_request bs ->
      round_spec sockfd [ERecv sockfd (Some (bs, from))]
  | round_reply bs from t1 rt t2 xt n :
      (length bs <= PACKET_SIZE)%nat -> valid_request bs ->
      convert_unix_time_into_ntp_time t1 = Some rt ->
      convert_unix_time_into_ntp_time t2 = Some xt ->
      round_spec sockfd
        [ERecv sockfd (Some (bs, from)); ESend sockfd (reply_wire bs rt xt) from n].

(** ** The fields of the first byte *)

Lemma mode_arith z : Z.land z 7 = z mod 8.
Proof. change 7 with (Z.ones 3). by rewrite Z.land_ones by lia. Qed.

Lemma vn_arith z : Z.land (Z.shiftr z 3) 7 = (z / 8) mod 8.
Proof. by rewrite mode_arith, Z.shiftr_div_pow2 by lia. Qed.

Lemma head_arith vn : 0 <= vn < 8 -> u8 (Z.lor (Z.shiftl vn 3) 4) = 8 * vn + 4.
Proof.
  intros. assert (vn = 0 \/ vn = 1 \/ vn = 2 \/ vn = 3 \/ vn = 4 \/ vn = 5 \/ vn = 6 \/ vn = 7)
    as Hv by lia. by repeat (destruct Hv as [-> | Hv]; [done|]); subst.
Qed.

Lemma length_overlay bs : (length bs <= PACKET_SIZE)%nat -> length (overlay bs) = PACKET_SIZE.
Proof. intros. unfold overlay. rewrite length_app, length_replicate. lia. Qed.

Lemma packet_of_bytes_head bs : (length bs <= PACKET_SIZE)%nat ->
  li_vn_mode (packet_of_bytes (overlay bs)) = head_byte bs.
Proof.
  intros. unfold packet_of_bytes, word_at, head_byte. simpl. destruct bs as [|b bs]; simpl; lia.
Qed.

(** The bytes of the reply structure. *)
Lemma reply_bytes bs rt xt : (length bs <= PACKET_SIZE)%nat ->
  bytes_of_packet {|
    li_vn_mode := u8 (Z.lor (Z.shiftl (Z.land (Z.shiftr
      (li_vn_mode (packet_of_bytes (overlay bs))) 3) 7) 3) 4);
    stratum := 2; poll := poll (packet_of_bytes (overlay bs));
    precision := s8 (- Z.log2 32); root_delay := 0; root_dispersion := 0;
    reference_identifier := 0; reference_timestamp := zero_ntp;
    originate_timestamp :=
      {| second := second (transmit_timestamp (packet_of_bytes (overlay bs)));
         fraction := fraction (transmit_timestamp (packet_of_bytes (overlay bs))) |};
    receive_timestamp := {| second := htonl (second rt); fraction := htonl (fraction rt) |};
    transmit_timestamp := {| second := htonl (second xt); fraction := htonl (fraction xt) |}
  |} = reply_wire bs rt xt.
Proof.
  intros Hl. rewrite vn_arith, head_arith by (apply Z.mod_pos_bound; lia).
  rewrite packet_of_bytes_head by done.
  unfold bytes_of_packet, ntp_time_bytes, reply_wire.
  cbn [li_vn_mode stratum poll precision root_delay root_dispersion
    reference_identifier reference_timestamp originate_timestamp receive_timestamp
    transmit_timestamp second fraction].
  rewrite !htonl_bytes. pose proof (length_overlay bs Hl) as Ho.
  unfold packet_of_bytes, ntp_time_at, word_at.
  cbn [poll transmit_timestamp second fraction].
  destruct (overlay bs) as [|o0 ov]; [done|]. do 47 (destruct ov as [|? ov]; [done|]).
  destruct ov; [|done]. cbn [take drop nth Nat.add].
  assert (forall l, le_encode (length l) (le_decode l) = l) as E by apply le_encode_decode.
  pose proof (fun a => E [a]) as E1. pose proof (fun a b c d => E [a; b; c; d]) as E4.
  cbn [length] in E1, E4. rewrite !E1, !E4. reflexivity.
Qed.

Section ServerRules.
Context {K : Type} `{Kernel K}.
Implicit Types (p : proc K).

Definition request_ok (z : Z) : bool := (z mod 8 =? 3) && (1 <=? (z / 8) mod 8) && ((z / 8) mod 8 <=? 4).

Lemma request_ok_spec bs : request_ok (head_byte bs) = bool_decide (valid_request bs).
Proof.
  apply Bool.eq_iff_eq_true. rewrite bool_decide_eq_true. unfold request_ok, valid_request.
  rewrite !andb_true_iff, Z.eqb_eq, !Z.leb_le. lia.
Qed.

Lemma wp_check_packet c_req d Q p :
  (forall p', quiet p p' ->
     Q (Ret (if request_ok (li_vn_mode (pkt c_req)) then 0 else 1)) p') ->
  wp (check_packet c_req d) Q p.
Proof.
  intros HQ. unfold check_packet, request_ok in *. rewrite mode_arith, vn_arith.
  set (z := li_vn_mode (pkt c_req)) in *.
  destruct (Z.eqb_spec (z mod 8) 3) as [E|E]; simpl in HQ; simpl negb; cbv iota.
  - replace (((z / 8) mod 8 <? 1) || (4 <? (z / 8) mod 8))
      with (negb ((1 <=? (z / 8) mod 8) && ((z / 8) mod 8 <=? 4))) by lia.
    destruct (_ && _); simpl.
    + apply HQ. reflexivity.
    + wnext. apply wp_print_debug; [done|]. intros p' Hq. apply HQ, Hq.
  - wnext. apply wp_print_debug; [done|]. intros p' Hq. apply HQ, Hq.
Qed.

Lemma wp_create_reply_packet c_req bs Q p :
  pkt c_req = packet_of_bytes (overlay bs) -> (length bs <= PACKET_SIZE)%nat ->
  (forall p', kern p' = (k_gettimeofday (kern p)).2 -> trace p' = trace p ->
     match convert_unix_time_into_ntp_time (k_gettimeofday (kern p)).1 with
     | None => Q (Undef UB_float_cast) p'
     | Some xt => forall r, bytes_of_packet r = reply_wire bs (time_of_request c_req) xt ->
         Q (Ret r) p'
     end) ->
  wp (create_reply_packet c_req) Q p.
Proof.
  intros Eb Hl HQ. unfold create_reply_packet. wnext. apply wp_get_ntp_time_of_day.
  specialize (HQ (Proc (k_gettimeofday (kern p)).2 (ntoa_buf p) (trace p))
    eq_refl eq_refl).
  destruct (convert_unix_time_into_ntp_time _) as [xt|]; [|exact HQ]. wnext.
  apply wp_ret, HQ. rewrite Eb. by apply reply_bytes.
Qed.
End ServerRules.

Section Serve.
Context {K : Type} `{Kernel K}.
Implicit Types (p : proc K).

(** Why a round may stop: a datagram longer than the structure, or a clock
    reading that has no NTP form. *)
Definition stop_reason (sockfd : Z) (w : ub) (es : list event) : Prop :=
  match w with
  | UB_bounds => exists bs from (k : K),
      es = [ERecv sockfd (Some (bs, from))] /\ (PACKET_SIZE < length bs)%nat /\
      (k_recvfrom sockfd (MAXBUFLEN - 1) k).1 = Some (bs, from)
  | UB_float_cast => exists k : K,
      convert_unix_time_into_ntp_time (k_gettimeofday k).1 = None
  | _ => False
  end.

Definition round_post {A} (sockfd : Z) p (o : outcome A) (p' : proc K) : Prop :=
  exists es, io (trace p') = io (trace p) ++ es /\
    match o with
    | Ret _ => round_spec sockfd es
    | Undef w => stop_reason sockfd w es
    | _ => False
    end.

Lemma serve_request_round s_set sockfd v p :
  wp (serve_request s_set sockfd v) (round_post sockfd p) p.
Proof.
  unfold serve_request. wnext.
  destruct (k_recvfrom sockfd (MAXBUFLEN - 1) (kern p)) as [r k1] eqn:Er.
  apply (wp_recieve_SNTP_packet _ _ _ _ _ _ _ _ Er). intros p1 _ Ht1.
  destruct r as [[bs from]|].
  2:{ intros _. wnext. simpl. apply wp_bind, wp_fprintf. intros p2 (_ & _ & Ht2). wnext.
      apply wp_ret. exists [ERecv sockfd None]. rewrite Ht2. split; [done | constructor]. }
  destruct (Nat.ltb_spec PACKET_SIZE (length bs)) as [Hlt|Hle].
  { eexists. split; [done|]. exists bs, from, (kern p). by rewrite Er. }
  intros _. wnext. set (t1 := (k_gettimeofday k1).1). simpl.
  apply wp_bind, wp_inet_ntoa. wnext.
  apply wp_printf_to; [done|]. intros p2 (_ & _ & Ht2). wnext.
  apply wp_lift_opt. simpl in Ht2.
  destruct (convert_unix_time_into_ntp_time t1) as [rt|] eqn:Et1; cycle 1.
  { eexists. rewrite Ht2, Ht1. split; [done|]. simpl. eauto. }
  wnext. apply wp_check_packet. intros p3 (_ & _ & Ht3). wnext. simpl pkt.
  rewrite packet_of_bytes_head, request_ok_spec by done. case_bool_decide as Hv; simpl.
  - apply wp_bind, (wp_create_reply_packet _ bs); [done|done|]. simpl.
    intros p4 _ Ht4.
    destruct (convert_unix_time_into_ntp_time (k_gettimeofday (kern p3)).1)
      as [xt|] eqn:Et2; cycle 1.
    { eexists. rewrite Ht4, Ht3, Ht2. simpl. rewrite Ht1. split; [done|]. simpl. eauto. }
    intros reply Hreply. wnext.
    destruct (k_sendto sockfd (bytes_of_packet reply) from (kern p4)) as [n k5] eqn:Es.
    apply (wp_send_SNTP_packet _ _ _ _ _ _ _ _ Es). intros p5 _ Ht5 _. wnext.
    assert (io (trace p5) = io (trace p) ++ [ERecv sockfd (Some (bs, from));
      ESend sockfd (reply_wire bs rt xt) from n]) as Hio.
    { rewrite Ht5, Ht4, Ht3, Ht2, Hreply. simpl. rewrite Ht1. by rewrite <- app_assoc. }
    assert (round_spec sockfd [ERecv sockfd (Some (bs, from));
      ESend sockfd (reply_wire bs rt xt) from n]) as Hr by (by econstructor).
    destruct (n =? -1); simpl.
    + by eexists.
    + apply wp_bind, wp_bind, wp_inet_ntoa. wnext. apply wp_printf_to; [done|].
      intros p6 (_ & _ & Ht6). wnext. apply wp_ret. eexists.
      rewrite Ht6. simpl. by split.
  - apply wp_bind, wp_inet_ntoa. wnext. apply wp_printf_to; [done|].
    intros p4 (_ & _ & Ht4). wnext. apply wp_ret. simpl in Ht4.
    eexists. rewrite Ht4, Ht3, Ht2. simpl. rewrite Ht1. split; [done|]. by constructor.
Qed.
End Serve.

Lemma reply_head bs rt xt :
  head_byte (reply_wire bs rt xt) = 8 * ((head_byte bs / 8) mod 8) + 4.
Proof.
  unfold reply_wire, head_byte at 1. simpl. rewrite b2z_z2b.
  pose proof (Z.mod_pos_bound (head_byte bs / 8) 8). apply uwrap_small. simpl. lia.
Qed.

Lemma length_reply bs rt xt : (length bs <= PACKET_SIZE)%nat ->
  length (reply_wire bs rt xt) = PACKET_SIZE.
Proof.
  intros. unfold reply_wire, be_encode. rewrite !length_app, !length_rev, !length_le_encode.
  rewrite length_take, length_drop, length_overlay by done. done.
Qed.

Section ServeTheorems.
Context {K : Type} `{Kernel K}.

Lemma serve_rounds s_set sockfd fuel v (p : proc K) :
  wp (serve s_set sockfd fuel v) (fun o p' =>
    exists rounds rest, Forall (round_spec sockfd) rounds /\
      io (trace p') = io (trace p) ++ concat rounds ++ rest /\
      match o with
      | NoFuel => length rounds = fuel /\ rest = []
      | Undef w => (length rounds < fuel)%nat /\ stop_reason (K := K) sockfd w rest
      | _ => False
      end) p.
Proof.
  revert v p. induction fuel as [|fuel IH]; intros v p.
  { exists [], []. simpl. by rewrite app_nil_r. }
  unfold serve. simpl. apply wp_bind, wp_bind.
  eapply wp_mono, serve_request_round. intros o p1 (es & Hio & Hr).
  destruct o as [v'|c| |w|]; try done; simpl.
  - apply wp_bind_inv, wp_bind, wp_ret. simpl.
    eapply wp_mono, (IH v' p1). intros o p2 (rounds & rest & Hall & Hio2 & Ho).
    exists (es :: rounds), rest. split; [by constructor|].
    rewrite Hio2, Hio. simpl. rewrite <- !app_assoc. split; [done|].
    destruct o; simpl in *; try done; destruct Ho as [? ?]; split; [lia|done|lia|done].
  - exists [], es. split; [done|]. simpl. split; [done|]. split; [lia|done].
Qed.


(** C28: If datagrams never exceed 48 bytes and the clock never reads
    microsecond 999999, the server serves for ever: every number of rounds is
    completed, whatever the requests, the receive errors and the send errors. *)
Theorem serve_forever `{!KernelOk K} s_set sockfd fuel v (p : proc K) :
  (forall (k : K), tv_usec (k_gettimeofday k).1 <> 999999) ->
  (forall s n (k : K) bs a, (k_recvfrom s n k).1 = Some (bs, a) ->
     (length bs <= PACKET_SIZE)%nat) ->
  (serve s_set sockfd fuel v p).1 = NoFuel.
Proof.
  intros Hclock Hlen. pose proof (serve_rounds s_set sockfd fuel v p) as Hw. unfold wp in Hw.
  destruct (serve s_set sockfd fuel v p) as [o p'].
  destruct Hw as (rounds & rest & _ & Hio & Ho).
  destruct o as [[]|c| |w|]; try done. exfalso. destruct w; destruct Ho as [_ Ho]; try done.
  - destruct Ho as (bs & from & k & _ & Hlt & Hr). apply Hlen in Hr. lia.
  - destruct Ho as [k Hk]. rewrite convert_unix_exact in Hk by apply gettimeofday_ok.
    rewrite (proj2 (Z.eqb_neq _ _)) in Hk by done. done.
Qed.
End ServeTheorems.

Definition junk_vars : server_vars :=
  {| client_req := {| client := {| name := Null; addr := zero_addr |};
                      pkt := zero_packet; time_of_request := zero_ntp |};
     request_t_unix := {| tv_sec := 0; tv_usec := 0 |} |}.

(** A datagram of version 4 and client mode whose transmit time is set. *)
Definition sample_request : list byte :=
  x23 :: replicate 39 x00 ++ [xdb; x00; x00; x01; x00; x00; x00; x02].

Definition sample_peer : sockaddr_in :=
  {| sin_family := AF_INET; sin_port := htons 40000; sin_addr := 16777343 |}.

Lemma serve_forever_witness :
  (serve (K := short_script) {| server_port := 123; debug := 0; manycast_enabled := 0;
       manycast_address := Null |} 3 2 junk_vars
     (Proc (Short (Script 1480000000 [Some (sample_request, sample_peer)] true [] []))
        "" [])).1 = NoFuel.
Proof.
  apply serve_forever.
  - intros k. simpl. lia.
  - intros s n k bs a E. apply short_recv in E. lia.
Defined.


