(* ===== verification/CString.v ===== *)
(** * C strings and characters

    The parts of <string.h>, <ctype.h> and <stdlib.h> that libconfig uses, on
    [string] (a C string without its terminator): [strchr], [isalpha],
    [isdigit], [strcmp], [atoi], [strtol], and decimal and hexadecimal
    printing. *)

From S2P Require Import Prelude.
Local Open Scope Z_scope.

(** The code of a character, as unsigned and as (signed) char. *)
Definition uchar (c : ascii) : Z := Z.of_N (N_of_ascii c).
Definition schar (c : ascii) : Z := s8 (uchar c).
Definition chr (z : Z) : ascii := ascii_of_N (Z.to_N (u8 z)).

Lemma uchar_inj c d : uchar c = uchar d -> c = d.
Proof. unfold uchar. intros H%N2Z.inj. by rewrite <- (ascii_N_embedding c), H, ascii_N_embedding. Qed.

Definition NUL : ascii := chr 0.

Definition between (lo hi : Z) (c : ascii) : bool := (lo <=? uchar c) && (uchar c <=? hi).
Definition isdigit (c : ascii) : bool := between 48 57 c.
Definition isalpha (c : ascii) : bool := between 65 90 c || between 97 122 c.
Definition isspace (c : ascii) : bool := between 9 13 c || (uchar c =? 32).

Fixpoint mem_char (c : ascii) (s : string) : bool :=
  match s with
  | EmptyString => false
  | String d s' => (c =? d)%char || mem_char c s'
  end.

(** strchr(s, c) != NULL: the terminator counts as a character of [s]. *)
Definition strchr (s : string) (c : ascii) : bool := (c =? NUL)%char || mem_char c s.

(** strcmp(a, b) == 0 *)
Definition streq (a b : string) : bool := String.eqb a b.

(** The first character at a pointer, the terminator at the end. *)
Definition head_char (s : string) : ascii :=
  match s with EmptyString => NUL | String c _ => c end.

Fixpoint skip_while (f : ascii -> bool) (s : string) : string :=
  match s with
  | EmptyString => EmptyString
  | String c s' => if f c then skip_while f s' else s
  end.

Fixpoint take_while (f : ascii -> bool) (s : string) : string :=
  match s with
  | EmptyString => EmptyString
  | String c s' => if f c then String c (take_while f s') else EmptyString
  end.

Fixpoint all_chars (f : ascii -> bool) (s : string) : bool :=
  match s with EmptyString => true | String c s' => f c && all_chars f s' end.

(** The value of a hexadecimal (or decimal) digit. *)
Definition digit_value (c : ascii) : Z :=
  if isdigit c then uchar c - 48
  else if between 65 70 c then uchar c - 55
  else if between 97 102 c then uchar c - 87
  else -1.

Definition is_digit_of (base : Z) (c : ascii) : bool :=
  (0 <=? digit_value c) && (digit_value c <? base).

Fixpoint digits_value (base acc : Z) (s : string) : Z :=
  match s with
  | EmptyString => acc
  | String c s' =>
      if is_digit_of base c then digits_value base (base * acc + digit_value c) s' else acc
  end.

(** An optional sign. *)
Definition sign_of (s : string) : bool * string :=
  match s with
  | String "-" s' => (true, s')
  | String "+" s' => (false, s')
  | _ => (false, s)
  end.

(** An optional 0x prefix (base 16), only when a digit follows. *)
Definition skip_0x (s : string) : string :=
  match s with
  | String "0" (String x (String d s')) =>
      if ((x =? "x")%char || (x =? "X")%char) && is_digit_of 16 d then String d s' else s
  | _ => s
  end.

Definition parse_integer (base : Z) (s : string) : bool * Z :=
  let (neg, s) := sign_of (skip_while isspace s) in
  (neg, digits_value base 0 (if base =? 16 then skip_0x s else s)).

Definition clamp (lo hi z : Z) : Z := Z.max lo (Z.min hi z).

(** strtol, strtoll: saturating at the 64-bit range. *)
Definition strtol (base : Z) (s : string) : Z :=
  let (neg, v) := parse_integer base s in
  clamp LLONG_MIN LLONG_MAX (if neg then - v else v).

Definition atoi (s : string) : Z := s32 (strtol 10 s).
Definition atoll (s : string) : Z := strtol 10 s.

(** strtoul, strtoull: saturating; a minus sign negates modulo 2^64. *)
Definition strtoul (base : Z) (s : string) : Z :=
  let (neg, v) := parse_integer base s in
  if ULLONG_MAX <? v then ULLONG_MAX else u64 (if neg then - v else v).

(** Printing. *)
Definition digit_char (z : Z) : ascii := if z <? 10 then chr (48 + z) else chr (55 + z).

Fixpoint digits_aux (base : Z) (fuel : nat) (z : Z) (acc : string) : string :=
  match fuel with
  | O => acc
  | S n =>
      let acc' := String (digit_char (z mod base)) acc in
      if z <? base then acc' else digits_aux base n (z / base) acc'
  end.

(** The digits of [z >= 0] without leading zeros; 70 digits cover 64 bits. *)
Definition digits (base z : Z) : string := digits_aux base 70 z "".

(** %d, %lld *)
Definition print_dec (z : Z) : string :=
  if z <? 0 then String "-" (digits 10 (- z)) else digits 10 z.

(** %X of a w-bit value *)
Definition print_hex (w z : Z) : string := digits 16 (uwrap w z).

(** %02X of a byte *)
Definition print_hex2 (z : Z) : string :=
  String (digit_char (z / 16)) (String (digit_char (z mod 16)) "").

Fixpoint repeat_string (n : nat) (s : string) : string :=
  match n with O => "" | S m => s +:+ repeat_string m s end.

(** ** Digits: what is printed reads back *)

Lemma digit_char_ok z : 0 <= z < 16 -> digit_value (digit_char z) = z /\
  (z < 10 -> isdigit (digit_char z) = true) /\ digit_char z <> NUL.
Proof.
  intros Hz. assert (z = 0 \/ z = 1 \/ z = 2 \/ z = 3 \/ z = 4 \/ z = 5 \/ z = 6 \/ z = 7 \/
    z = 8 \/ z = 9 \/ z = 10 \/ z = 11 \/ z = 12 \/ z = 13 \/ z = 14 \/ z = 15) as H by lia.
  repeat destruct H as [-> |H]; try subst z; vm_compute; split_and!; done.
Qed.

Lemma digits_aux_value base n z acc a : 2 <= base <= 16 -> 0 <= z < base ^ Z.of_nat n ->
  (0 < n)%nat -> exists k, 0 <= k /\
  digits_value base a (digits_aux base n z acc) = digits_value base (a * base ^ k + z) acc.
Proof.
  intros Hb. revert z acc. induction n as [|n IH]; intros z acc Hz Hn; [lia|]. simpl.
  pose proof (Z.mod_pos_bound z base ltac:(lia)) as Hm.
  pose proof (digit_char_ok (z mod base) ltac:(lia)) as (Hv & _).
  assert (is_digit_of base (digit_char (z mod base)) = true) as Hd
    by (unfold is_digit_of; rewrite Hv; lia).
  destruct (Z.ltb_spec z base).
  - exists 1. split; [lia|]. simpl. rewrite Hd, Hv, Z.mod_small by lia. f_equal. lia.
  - assert (0 < n)%nat as Hn'.
    { destruct n; [|lia]. rewrite Z.pow_1_r in Hz. lia. }
    destruct (IH (z / base) (String (digit_char (z mod base)) acc)) as (k & Hk & E); [|done|].
    { split; [apply Z.div_pos; lia|]. apply Z.div_lt_upper_bound; [lia|].
      rewrite <- Z.pow_succ_r by lia. rewrite <- Nat2Z.inj_succ. lia. }
    exists (k + 1). split; [lia|]. rewrite E. simpl. rewrite Hd, Hv. f_equal.
    rewrite Z.pow_add_r, Z.pow_1_r by lia. pose proof (Z.div_mod z base ltac:(lia)). nia.
Qed.

Lemma digits_aux_app base n z acc tail :
  digits_aux base n z acc +:+ tail = digits_aux base n z (acc +:+ tail).
Proof. revert z acc. induction n as [|n IH]; intros z acc; simpl; [done|]. destruct (z <? base); [done|]. by rewrite IH. Qed.

Lemma digits_value_app base z tail : 2 <= base <= 16 -> 0 <= z < base ^ 70 ->
  is_digit_of base (head_char tail) = false ->
  digits_value base 0 (digits base z +:+ tail) = z.
Proof.
  intros Hb Hz Ht. unfold digits. rewrite digits_aux_app.
  destruct (digits_aux_value base 70 z ("" +:+ tail) 0) as (k & _ & ->); [done|done|lia|].
  simpl. replace (0 * base ^ k + z) with z by lia. destruct tail; simpl in *; [done|]. by rewrite Ht.
Qed.

Lemma digits_aux_head base n z acc : 2 <= base <= 10 -> 0 <= z < base ^ Z.of_nat n -> (0 < n)%nat ->
  exists c s, digits_aux base n z acc = String c s /\ isdigit c = true.
Proof.
  intros Hb. revert z acc. induction n as [|n IH]; intros z acc Hz Hn; [lia|]. simpl.
  pose proof (Z.mod_pos_bound z base ltac:(lia)) as Hm.
  pose proof (digit_char_ok (z mod base) ltac:(lia)) as (_ & Hd & _).
  destruct (Z.ltb_spec z base); [eexists _, _; split; [done|]; apply Hd; lia|].
  apply IH.
  - split; [apply Z.div_pos; lia|]. apply Z.div_lt_upper_bound; [lia|].
    rewrite <- Z.pow_succ_r by lia. rewrite <- Nat2Z.inj_succ. lia.
  - destruct n; [|lia]. rewrite Z.pow_1_r in Hz. lia.
Qed.

(** Any property all digits have holds of the characters printed. *)
Lemma skip_digits f n z acc : (forall d, 0 <= d < 10 -> f (digit_char d) = true) ->
  skip_while f (digits_aux 10 n z acc) = skip_while f acc.
Proof.
  intros Hf. revert z acc. induction n as [|n IH]; intros z acc; simpl; [done|].
  pose proof (Z.mod_pos_bound z 10 ltac:(lia)).
  destruct (z <? 10); [simpl; by rewrite Hf|]. rewrite IH. simpl. by rewrite Hf.
Qed.

Lemma isdigit_inv c : isdigit c = true -> isspace c = false /\ c <> "-"%char /\ c <> "+"%char /\
  is_digit_of 10 c = true.
Proof.
  destruct c as [[] [] [] [] [] [] [] []]; vm_compute; intros H; try done; split_and!; congruence.
Qed.

Lemma atoi_print_dec z tail : 0 <= z <= INT_MAX -> is_digit_of 10 (head_char tail) = false ->
  atoi (print_dec z +:+ tail) = z.
Proof.
  unfold INT_MAX. intros Hz Ht. unfold atoi, print_dec. rewrite (proj2 (Z.ltb_ge z 0)) by lia.
  assert (0 <= z < 10 ^ 70) as Hz' by (assert (2 ^ 31 < 10 ^ 70) by done; lia).
  pose proof (digits_value_app 10 z tail ltac:(lia) Hz' Ht) as Hv.
  unfold digits in *. rewrite digits_aux_app in *.
  destruct (digits_aux_head 10 70 z ("" +:+ tail)) as (c & s & E & Hc); [lia|done|lia|].
  rewrite E in *. destruct (isdigit_inv c Hc) as (Hs & Hm & Hp & _).
  unfold strtol, parse_integer. simpl skip_while. rewrite Hs.
  assert (sign_of (String c s) = (false, String c s)) as ->.
  { unfold sign_of. destruct c as [[] [] [] [] [] [] [] []]; try done. }
  change (10 =? 16) with false. cbv iota. rewrite Hv.
  replace (clamp _ _ z) with z by (unfold clamp, LLONG_MIN, LLONG_MAX; lia).
  apply s32_small, is_int_spec. unfold INT_MIN, INT_MAX. lia.
Qed.

Lemma app_nil_string s : s +:+ "" = s.
Proof. induction s as [|c s IH]; [done|]. by change (String c (s +:+ "") = String c s); rewrite IH. Qed.

Lemma string_app_assoc a b c : (a +:+ b) +:+ c = a +:+ b +:+ c.
Proof. induction a as [|x a IH]; [done|]. change (String x ((a +:+ b) +:+ c) = String x (a +:+ b +:+ c)). by rewrite IH. Qed.

Lemma all_chars_app f a b : all_chars f (a +:+ b) = all_chars f a && all_chars f b.
Proof.
  induction a as [|c a IH]; [done|]. change (String c a +:+ b) with (String c (a +:+ b)). simpl.
  by rewrite IH, andb_assoc.
Qed.

(** ** Printed numbers read back *)

Lemma digits_aux_all f base n z acc : 2 <= base <= 16 -> 0 <= z ->
  (forall d, 0 <= d < base -> f (digit_char d) = true) -> all_chars f acc = true ->
  all_chars f (digits_aux base n z acc) = true.
Proof.
  intros Hb. revert z acc. induction n as [|n IH]; intros z acc Hz Hf Hacc; [done|]. simpl.
  pose proof (Z.mod_pos_bound z base ltac:(lia)).
  assert (all_chars f (String (digit_char (z mod base)) acc) = true) as Ha
    by (simpl; rewrite Hf by done; done).
  destruct (z <? base); [done|]. apply IH; [apply Z.div_pos; lia|done..].
Qed.

Lemma digits_aux_nonempty base n z acc : (0 < n)%nat -> digits_aux base n z acc <> "".
Proof.
  intros Hn. assert (forall m z acc, acc <> "" -> digits_aux base m z acc <> "") as H.
  { clear. intros m. induction m as [|m IH]; intros z acc Ha; [done|]. simpl.
    destruct (z <? base); [done|]. by apply IH. }
  destruct n as [|n]; [lia|]. simpl. destruct (z <? base); [done|]. by apply H.
Qed.

Lemma digits_nonempty base z : digits base z <> "".
Proof. apply digits_aux_nonempty. lia. Qed.

Definition hex_digit (c : ascii) : bool := is_digit_of 16 c && negb (between 97 102 c).

Lemma digit_char_decimal d : 0 <= d < 10 -> isdigit (digit_char d) = true.
Proof. intros Hd. apply digit_char_ok; lia. Qed.

Lemma digit_char_hex d : 0 <= d < 16 -> hex_digit (digit_char d) = true.
Proof.
  intros Hd. assert (forallb (fun n => hex_digit (digit_char (Z.of_nat n))) (seq 0 16) = true) as H
    by (vm_compute; reflexivity).
  rewrite forallb_forall in H. specialize (H (Z.to_nat d)). rewrite Z2Nat.id in H by lia.
  apply H, in_seq. lia.
Qed.

Lemma digits_decimal z : 0 <= z -> all_chars isdigit (digits 10 z) = true.
Proof. intros. apply digits_aux_all; [lia|done|apply digit_char_decimal|done]. Qed.

Lemma digits_hex z : 0 <= z -> all_chars hex_digit (digits 16 z) = true.
Proof. intros. apply digits_aux_all; [lia|done|apply digit_char_hex|done]. Qed.

(** The head of a text whose characters all have [f]. *)
Lemma all_chars_head f s : all_chars f s = true -> s <> "" -> exists c s', s = String c s' /\ f c = true.
Proof. destruct s as [|c s]; [done|]. intros [? ?]%andb_prop _. eauto. Qed.

Lemma wide_bound z : 0 <= z < 2 ^ 64 -> 0 <= z < 10 ^ 70 /\ 0 <= z < 16 ^ 70.
Proof. assert (2 ^ 64 < 10 ^ 70) by done. assert (2 ^ 64 < 16 ^ 70) by done. lia. Qed.

Lemma strtol_print_dec z tail : LLONG_MIN <= z <= LLONG_MAX ->
  is_digit_of 10 (head_char tail) = false -> strtol 10 (print_dec z +:+ tail) = z.
Proof.
  unfold LLONG_MIN, LLONG_MAX. intros Hz Ht.
  assert (strtol 10 (print_dec z +:+ tail) = clamp LLONG_MIN LLONG_MAX z) as ->;
    [|unfold clamp, LLONG_MIN, LLONG_MAX; lia].
  unfold print_dec. destruct (Z.ltb_spec z 0).
  - change (String "-" (digits 10 (- z)) +:+ tail) with (String "-" (digits 10 (- z) +:+ tail)).
    unfold strtol, parse_integer. simpl skip_while. change (isspace "-") with false. cbv iota.
    simpl sign_of. change (10 =? 16) with false. cbv iota beta.
    rewrite digits_value_app; [f_equal; lia|lia|apply wide_bound; lia|done].
  - pose proof (digits_value_app 10 z tail ltac:(lia) (proj1 (wide_bound z ltac:(lia))) Ht) as Hv.
    destruct (all_chars_head isdigit (digits 10 z)) as (c & s & E & Hc);
      [by apply digits_decimal|apply digits_nonempty|].
    rewrite E in *. change (String c s +:+ tail) with (String c (s +:+ tail)) in *.
    destruct (isdigit_inv c Hc) as (Hs & Hm & Hp & _).
    unfold strtol, parse_integer. simpl skip_while. rewrite Hs.
    assert (sign_of (String c (s +:+ tail)) = (false, String c (s +:+ tail))) as ->.
    { unfold sign_of. destruct c as [[] [] [] [] [] [] [] []]; done. }
    change (10 =? 16) with false. cbv iota. by rewrite Hv.
Qed.

Lemma strtoul_print_hex z tail : 0 <= z < 2 ^ 64 -> is_digit_of 16 (head_char tail) = false ->
  strtoul 16 ("0x" +:+ digits 16 z +:+ tail) = z.
Proof.
  intros Hz Ht.
  pose proof (digits_value_app 16 z tail ltac:(lia) (proj2 (wide_bound z ltac:(lia))) Ht) as Hv.
  destruct (all_chars_head hex_digit (digits 16 z)) as (c & s & E & Hc);
    [apply digits_hex; lia|apply digits_nonempty|].
  rewrite E in *. change (String c s +:+ tail) with (String c (s +:+ tail)) in *.
  change ("0x" +:+ String c (s +:+ tail)) with (String "0" (String "x" (String c (s +:+ tail)))).
  unfold strtoul, parse_integer. simpl skip_while. change (isspace "0") with false. cbv iota.
  simpl sign_of. change (16 =? 16) with true. cbv iota.
  assert (skip_0x (String "0" (String "x" (String c (s +:+ tail)))) = String c (s +:+ tail)) as ->.
  { unfold skip_0x. unfold hex_digit in Hc. apply andb_prop in Hc as [-> _]. done. }
  rewrite Hv. unfold ULLONG_MAX. rewrite (proj2 (Z.ltb_ge _ z)) by lia.
  apply uwrap_small. lia.
Qed.

Lemma s32_of_u32 z : is_int z = true -> s32 (u32 z) = z.
Proof.
  rewrite is_int_spec. unfold INT_MIN, INT_MAX. intros Hz. unfold swrap, uwrap.
  change (2 ^ (32 - 1)) with 2147483648. rewrite Zplus_mod_idemp_l, Z.mod_small; lia.
Qed.

Definition is_int64 (z : Z) : bool := (LLONG_MIN <=? z) && (z <=? LLONG_MAX).

Lemma is_int64_spec z : is_int64 z = true <-> LLONG_MIN <= z <= LLONG_MAX.
Proof. unfold is_int64. rewrite andb_true_iff, !Z.leb_le. lia. Qed.

Lemma s64_of_u64 z : is_int64 z = true -> s64 (u64 z) = z.
Proof.
  rewrite is_int64_spec. unfold LLONG_MIN, LLONG_MAX. intros Hz. unfold swrap, uwrap.
  change (2 ^ (64 - 1)) with 9223372036854775808. rewrite Zplus_mod_idemp_l, Z.mod_small; lia.
Qed.

(** What the conversions return is in the range of their types. *)
Lemma s32_is_int z : is_int (s32 z) = true.
Proof.
  apply is_int_spec. unfold swrap, uwrap, INT_MIN, INT_MAX. change (2 ^ (32 - 1)) with 2147483648.
  pose proof (Z.mod_pos_bound (z + 2147483648) (2 ^ 32)). lia.
Qed.

Lemma s64_is_int64 z : is_int64 (s64 z) = true.
Proof.
  apply is_int64_spec. unfold swrap, uwrap, LLONG_MIN, LLONG_MAX. change (2 ^ (64 - 1)) with 9223372036854775808.
  pose proof (Z.mod_pos_bound (z + 9223372036854775808) (2 ^ 64)). lia.
Qed.

Lemma strtol_is_int64 base s : is_int64 (strtol base s) = true.
Proof.
  apply is_int64_spec. unfold strtol. destruct (parse_integer base s) as [neg v]. unfold clamp, LLONG_MIN, LLONG_MAX. lia.
Qed.
