(* ===== verification/Printf.v ===== *)
(** * Printing of doubles

    The conversion %.*g of <stdio.h> for binary64 values, in the C locale, with
    the 15 digits (DBL_DIG) that libconfig asks for: the exact value is rounded to
    15 significant digits, half to even, and laid out with or without an
    exponent. *)

From Stdlib Require Import SpecFloat.
From S2P Require Import Prelude Double CString.
Local Open Scope Z_scope.

Definition DBL_DIG : Z := 15.

(** 10^x * den <= num, for x of either sign. *)
Definition pow10_le (x num den : Z) : bool :=
  if 0 <=? x then 10 ^ x * den <=? num else den <=? num * 10 ^ (- x).

(** num / den * 10^k, rounded to an integer, ties to even. *)
Definition scaled_round (num den k : Z) : Z :=
  let num := if 0 <=? k then num * 10 ^ k else num in
  let den := if 0 <=? k then den else den * 10 ^ (- k) in
  let q := num / den in
  match 2 * (num mod den) ?= den with
  | Lt => q
  | Gt => q + 1
  | Eq => if Z.even q then q else q + 1
  end.

(** The largest x below [x0 + fuel] with 10^x <= num/den, when 10^x0 is below. *)
Fixpoint climb (fuel : nat) (x num den : Z) : Z :=
  match fuel with
  | O => x
  | S n => if pow10_le (x + 1) num den then climb n (x + 1) num den else x
  end.

(** An exponent below the decimal logarithm: 1233/4096 is just above log10 2. *)
Definition low_exponent (num den : Z) : Z :=
  (Z.log2 num - Z.log2 den) * 1233 / 4096 - 2.

Definition decimal_exponent (num den : Z) : Z := climb 6 (low_exponent num den) num den.

(** The significant digits, as an integer, and the decimal exponent X of the
    first: the value is about digits * 10^(X - DBL_DIG + 1). *)
Definition significand (num den : Z) : Z * Z :=
  let x := decimal_exponent num den in
  let d := scaled_round num den (DBL_DIG - 1 - x) in
  if d =? 10 ^ DBL_DIG then (10 ^ (DBL_DIG - 1), x + 1) else (d, x).

(** Exactly [n] decimal digits. *)
Fixpoint pad_digits (n : nat) (z : Z) : string :=
  match n with
  | O => ""
  | S m => pad_digits m (z / 10) +:+ String (digit_char (z mod 10)) ""
  end.

(** %g removes the zeros at the end of a fraction. *)
Fixpoint strip_zeros (s : string) : string :=
  match s with
  | EmptyString => EmptyString
  | String c s' =>
      match strip_zeros s' with
      | EmptyString => if (c =? "0")%char then EmptyString else String c EmptyString
      | t => String c t
      end
  end.

Definition with_fraction (int frac : string) : string :=
  match strip_zeros frac with
  | EmptyString => int
  | f => int +:+ String "." f
  end.

(** Digits with a decimal point: [d / 10^k]. *)
Definition fixed (d k : Z) : string :=
  with_fraction (digits 10 (d / 10 ^ k)) (pad_digits (Z.to_nat k) (d mod 10 ^ k)).

(** At least two digits, with a sign. *)
Definition print_exponent (x : Z) : string :=
  (if x <? 0 then "-" else "+") +:+
  (if Z.abs x <? 10 then "0" else "") +:+ digits 10 (Z.abs x).

Definition magnitude (num den : Z) : string :=
  let (d, x) := significand num den in
  if (-4 <=? x) && (x <? DBL_DIG) then fixed d (DBL_DIG - 1 - x)
  else fixed d (DBL_DIG - 1) +:+ "e" +:+ print_exponent x.

Definition sign_text (s : bool) : string := if s then "-" else "".

(** printf("%.*g", DBL_DIG, d) *)
Definition print_g (d : spec_float) : string :=
  match d with
  | S754_nan => "nan"
  | S754_infinity s => sign_text s +:+ "inf"
  | S754_zero s => sign_text s +:+ "0"
  | S754_finite s m e =>
      sign_text s +:+
      (if 0 <=? e then magnitude (Zpos m * 2 ^ e) 1 else magnitude (Zpos m) (2 ^ (- e)))
  end.

(** ** The shape of what is printed *)

Lemma pad_digits_decimal n z : all_chars isdigit (pad_digits n z) = true.
Proof.
  revert z. induction n as [|n IH]; intros z; [done|]. simpl. rewrite all_chars_app, IH. simpl.
  rewrite digit_char_decimal; [done|]. apply Z.mod_pos_bound. lia.
Qed.

Lemma strip_zeros_all f s : all_chars f s = true -> all_chars f (strip_zeros s) = true.
Proof.
  induction s as [|c s IH]; [done|]. simpl. intros [Hc Hs]%andb_prop. specialize (IH Hs).
  destruct (strip_zeros s) as [|d t].
  - destruct (c =? "0")%char; [done|]. simpl. by rewrite Hc.
  - simpl in *. by rewrite Hc.
Qed.

(** What is stripped stays when something is put before it. *)
Lemma strip_zeros_app a s : strip_zeros s = s -> s <> "" -> strip_zeros (a +:+ s) = a +:+ s.
Proof.
  intros Hs Hn. induction a as [|c a IH]; [done|].
  change (String c a +:+ s) with (String c (a +:+ s)). simpl. rewrite IH.
  destruct (a +:+ s) eqn:E; [|done]. destruct a; [|done]. by destruct s.
Qed.

Lemma strip_zeros_idem s : strip_zeros (strip_zeros s) = strip_zeros s.
Proof.
  induction s as [|c s IH]; [done|]. simpl. destruct (strip_zeros s) as [|d t] eqn:E.
  - destruct (c =? "0")%char eqn:Hc; [done|]. simpl. by rewrite Hc.
  - change (strip_zeros (String c "" +:+ String d t) = String c "" +:+ String d t).
    by apply strip_zeros_app.
Qed.

Lemma scaled_round_nonneg num den k : 0 <= num -> 0 < den -> 0 <= scaled_round num den k.
Proof.
  intros Hn Hd. unfold scaled_round.
  set (n := if 0 <=? k then _ else num). set (d := if 0 <=? k then den else _).
  assert (0 <= n) by (unfold n; destruct (Z.leb_spec 0 k); [pose proof (Z.pow_nonneg 10 k); nia|done]).
  assert (0 < d) by (unfold d; destruct (Z.leb_spec 0 k);
    [done|pose proof (Z.pow_pos_nonneg 10 (- k)); nia]).
  pose proof (Z.div_pos n d ltac:(done) ltac:(done)).
  destruct (_ ?= _); [destruct (Z.even _)|..]; lia.
Qed.

(** Digits, one at least. *)
Definition decimal (w : string) : Prop := w <> "" /\ all_chars isdigit w = true.

Lemma decimal_digits z : 0 <= z -> decimal (digits 10 z).
Proof. split; [apply digits_nonempty|by apply digits_decimal]. Qed.

(** A fraction: nothing, or a point and digits the last of which is no zero. *)
Inductive fraction : string -> Prop :=
  | no_fraction : fraction ""
  | some_fraction f : decimal f -> strip_zeros f = f -> fraction (String "." f).

Definition exponent_sign (b : bool) : string := if b then "-" else "+".

Inductive exponent : string -> Prop :=
  | no_exponent : exponent ""
  | some_exponent b x : decimal x -> exponent ("e" +:+ exponent_sign b +:+ x).

Lemma with_fraction_shape i f : all_chars isdigit f = true ->
  exists fr, with_fraction i f = i +:+ fr /\ fraction fr.
Proof.
  intros Hf. unfold with_fraction. pose proof (strip_zeros_idem f) as Hs.
  pose proof (strip_zeros_all isdigit f Hf) as Hd. destruct (strip_zeros f) as [|c t] eqn:E.
  - exists "". split; [by rewrite app_nil_string|constructor].
  - exists (String "." (String c t)). split; [done|]. by constructor.
Qed.

Lemma fixed_shape d k : 0 <= d -> 0 <= k ->
  exists i fr, fixed d k = i +:+ fr /\ decimal i /\ fraction fr.
Proof.
  intros Hd Hk. unfold fixed.
  destruct (with_fraction_shape (digits 10 (d / 10 ^ k)) (pad_digits (Z.to_nat k) (d mod 10 ^ k)))
    as (fr & E & Hfr); [apply pad_digits_decimal|].
  eexists _, fr. split_and!; [exact E| |done].
  apply decimal_digits, Z.div_pos; [done|]. apply Z.pow_pos_nonneg; lia.
Qed.

Lemma exponent_shape x : exponent ("e" +:+ print_exponent x).
Proof.
  unfold print_exponent.
  assert (decimal ((if Z.abs x <? 10 then "0" else "") +:+ digits 10 (Z.abs x))) as H.
  { destruct (decimal_digits (Z.abs x)) as [H1 H2]; [lia|]. split.
    - destruct (Z.abs x <? 10); [done|exact H1].
    - rewrite all_chars_app, H2. by destruct (Z.abs x <? 10). }
  destruct (x <? 0); [exact (some_exponent true _ H)|exact (some_exponent false _ H)].
Qed.

Definition is_finite (d : spec_float) : bool :=
  match d with S754_zero _ | S754_finite _ _ _ => true | _ => false end.

Lemma magnitude_shape num den : 0 <= num -> 0 < den ->
  exists i fr ex, magnitude num den = i +:+ fr +:+ ex /\ decimal i /\ fraction fr /\ exponent ex.
Proof.
  intros Hn Hd. unfold magnitude.
  assert (0 <= (significand num den).1) as Hs.
  { unfold significand. destruct (_ =? _); [done|]. by apply scaled_round_nonneg. }
  destruct (significand num den) as [d x]. simpl in Hs.
  destruct ((-4 <=? x) && (x <? DBL_DIG)) eqn:E.
  - destruct (fixed_shape d (DBL_DIG - 1 - x)) as (i & fr & -> & Hi & Hf); [done|unfold DBL_DIG in *; lia|].
    exists i, fr, "". rewrite app_nil_string. split_and!; [done..|constructor].
  - destruct (fixed_shape d (DBL_DIG - 1)) as (i & fr & -> & Hi & Hf); [done|done|].
    exists i, fr, ("e" +:+ print_exponent x). rewrite string_app_assoc. split_and!; [done..|].
    apply exponent_shape.
Qed.

Lemma print_g_shape d : is_finite d = true -> exists s i fr ex,
  print_g d = sign_text s +:+ i +:+ fr +:+ ex /\ decimal i /\ fraction fr /\ exponent ex.
Proof.
  destruct d as [s|s| |s m e]; [|done|done|]; intros _.
  - exists s, "0", "", "". split_and!; [done|done|constructor|constructor].
  - simpl. destruct (Z.leb_spec 0 e).
    + destruct (magnitude_shape (Zpos m * 2 ^ e) 1) as (i & fr & ex & -> & Hx);
        [pose proof (Z.pow_nonneg 2 e); lia|done|]. exists s, i, fr, ex. by split.
    + destruct (magnitude_shape (Zpos m) (2 ^ (- e))) as (i & fr & ex & -> & Hx);
        [lia|apply Z.pow_pos_nonneg; lia|]. exists s, i, fr, ex. by split.
Qed.
