(* ===== verification/Setting.v ===== *)
(** * libconfig's data (lib/libconfig.h, lib/parsectx.h)

    Settings live in a heap: a [config_setting_t *] is a location, [NULL] is
    [None], and reading a location that was freed is undefined.  Strings are
    owned copies and kept by value.  The value union remembers the member last
    stored; [VZero] is the all-zero union [calloc] leaves, which every member
    reads as zero. *)

From Stdlib Require Import SpecFloat.
From S2P Require Import Prelude Double CString.
Local Open Scope Z_scope.

Abbreviation loc := positive (only parsing).

(** CONFIG_TYPE_NONE .. CONFIG_TYPE_LIST *)
Inductive ctype :=
  | T_NONE | T_GROUP | T_INT | T_INT64 | T_FLOAT | T_STRING | T_BOOL | T_ARRAY | T_LIST.

#[export] Instance ctype_eq_dec : EqDecision ctype.
Proof. solve_decision. Defined.

Definition ctype_of_Z (z : Z) : option ctype :=
  match z with
  | 0 => Some T_NONE | 1 => Some T_GROUP | 2 => Some T_INT | 3 => Some T_INT64
  | 4 => Some T_FLOAT | 5 => Some T_STRING | 6 => Some T_BOOL | 7 => Some T_ARRAY
  | 8 => Some T_LIST | _ => None
  end.

Definition Z_of_ctype (t : ctype) : Z :=
  match t with
  | T_NONE => 0 | T_GROUP => 1 | T_INT => 2 | T_INT64 => 3 | T_FLOAT => 4
  | T_STRING => 5 | T_BOOL => 6 | T_ARRAY => 7 | T_LIST => 8
  end.

Definition FORMAT_DEFAULT : Z := 0.
Definition FORMAT_HEX : Z := 1.

Definition OPTION_AUTOCONVERT : Z := 1.
Definition OPTION_SEMICOLON_SEPARATORS : Z := 2.
Definition OPTION_COLON_ASSIGNMENT_FOR_GROUPS : Z := 4.
Definition OPTION_COLON_ASSIGNMENT_FOR_NON_GROUPS : Z := 8.
Definition OPTION_OPEN_BRACE_ON_SEPARATE_LINE : Z := 16.

Definition CONFIG_TRUE : Z := 1.
Definition CONFIG_FALSE : Z := 0.

(** config_list_t: the elements in use and the allocated number of slots. *)
Record config_list := { elements : list loc; capacity : Z }.

Definition list_length (l : config_list) : Z := Z.of_nat (length l.(elements)).

(** config_value_t *)
Inductive value :=
  | VZero
  | VInt (ival : Z)
  | VInt64 (llval : Z)
  | VFloat (fval : spec_float)
  | VString (sval : option string)
  | VList (list : config_list).

(** config_setting_t, without its [config] pointer (see [moved] below). *)
Record setting := {
  s_name : option string;
  s_type : ctype;
  s_format : Z;
  s_value : value;
  s_parent : option loc;
  s_hook : option Z;
  s_line : Z;
  s_file : option string
}.

Inductive error_t := ERR_NONE | ERR_FILE_IO | ERR_PARSE.

(** config_t with the heap its settings live in; [destroyed] records the hooks
    passed to the destructor.  Every setting points back to the config_t it was
    created in: [moved] says that the structure was copied away from there, so
    that these pointers dangle. *)
Record config := {
  heap : gmap positive setting;
  next : positive;
  root : option loc;
  destructor : bool;
  destroyed : list Z;
  options : Z;
  tab_width : Z;
  default_format : Z;
  include_dir : option string;
  error_text : option string;
  error_file : option string;
  error_line : Z;
  error_type : error_t;
  filenames : list string;
  moved : bool
}.

Definition with_heap (h : gmap positive setting) (c : config) : config :=
  {| heap := h; next := c.(next); root := c.(root); destructor := c.(destructor);
     destroyed := c.(destroyed); options := c.(options); tab_width := c.(tab_width);
     default_format := c.(default_format); include_dir := c.(include_dir);
     error_text := c.(error_text); error_file := c.(error_file);
     error_line := c.(error_line); error_type := c.(error_type);
     filenames := c.(filenames); moved := c.(moved) |}.

Definition with_options (o : Z) (c : config) : config :=
  {| heap := c.(heap); next := c.(next); root := c.(root); destructor := c.(destructor);
     destroyed := c.(destroyed); options := o; tab_width := c.(tab_width);
     default_format := c.(default_format); include_dir := c.(include_dir);
     error_text := c.(error_text); error_file := c.(error_file);
     error_line := c.(error_line); error_type := c.(error_type);
     filenames := c.(filenames); moved := c.(moved) |}.

Definition with_destroyed (d : list Z) (c : config) : config :=
  {| heap := c.(heap); next := c.(next); root := c.(root); destructor := c.(destructor);
     destroyed := d; options := c.(options); tab_width := c.(tab_width);
     default_format := c.(default_format); include_dir := c.(include_dir);
     error_text := c.(error_text); error_file := c.(error_file);
     error_line := c.(error_line); error_type := c.(error_type);
     filenames := c.(filenames); moved := c.(moved) |}.

Definition with_error (txt file : option string) (line : Z) (ty : error_t) (c : config) : config :=
  {| heap := c.(heap); next := c.(next); root := c.(root); destructor := c.(destructor);
     destroyed := c.(destroyed); options := c.(options); tab_width := c.(tab_width);
     default_format := c.(default_format); include_dir := c.(include_dir);
     error_text := txt; error_file := file; error_line := line; error_type := ty;
     filenames := c.(filenames); moved := c.(moved) |}.

(** Field updates of a setting. *)
Definition set_value (v : value) (s : setting) : setting :=
  {| s_name := s.(s_name); s_type := s.(s_type); s_format := s.(s_format); s_value := v;
     s_parent := s.(s_parent); s_hook := s.(s_hook); s_line := s.(s_line); s_file := s.(s_file) |}.

Definition set_type (t : ctype) (s : setting) : setting :=
  {| s_name := s.(s_name); s_type := t; s_format := s.(s_format); s_value := s.(s_value);
     s_parent := s.(s_parent); s_hook := s.(s_hook); s_line := s.(s_line); s_file := s.(s_file) |}.

Definition set_format (f : Z) (s : setting) : setting :=
  {| s_name := s.(s_name); s_type := s.(s_type); s_format := f; s_value := s.(s_value);
     s_parent := s.(s_parent); s_hook := s.(s_hook); s_line := s.(s_line); s_file := s.(s_file) |}.

Definition set_hook (h : option Z) (s : setting) : setting :=
  {| s_name := s.(s_name); s_type := s.(s_type); s_format := s.(s_format); s_value := s.(s_value);
     s_parent := s.(s_parent); s_hook := h; s_line := s.(s_line); s_file := s.(s_file) |}.

Definition set_pos (line : Z) (file : option string) (s : setting) : setting :=
  {| s_name := s.(s_name); s_type := s.(s_type); s_format := s.(s_format); s_value := s.(s_value);
     s_parent := s.(s_parent); s_hook := s.(s_hook); s_line := line; s_file := file |}.

(** ** The heap *)

Abbreviation CM := (M config).

Definition deref (l : loc) : CM setting :=
  c ← get; lift_opt UB_dangling (c.(heap) !! l).

Definition store (l : loc) (s : setting) : CM unit :=
  modify (fun c => with_heap (<[l := s]> c.(heap)) c).

Definition update (l : loc) (f : setting -> setting) : CM unit :=
  s ← deref l; store l (f s).

(** setting->config, followed. *)
Definition setting_config : CM config :=
  c ← get; if c.(moved) then undef UB_dangling else mret c.

Definition nonnull {A} (o : option A) : CM A := lift_opt UB_null o.

(** calloc of a setting, then its fields. *)
Definition alloc (s : setting) : CM loc := fun c =>
  let l := c.(next) in
  (Ret l, {| heap := <[l := s]> c.(heap); next := Pos.succ l; root := c.(root);
     destructor := c.(destructor); destroyed := c.(destroyed); options := c.(options);
     tab_width := c.(tab_width); default_format := c.(default_format);
     include_dir := c.(include_dir); error_text := c.(error_text);
     error_file := c.(error_file); error_line := c.(error_line);
     error_type := c.(error_type); filenames := c.(filenames); moved := c.(moved) |}).

Definition free (l : loc) : CM unit :=
  c ← get;
  match c.(heap) !! l with
  | Some _ => put (with_heap (delete l c.(heap)) c)
  | None => undef UB_dangling
  end.

(** ** Reading the union through a member *)

Definition as_ival (v : value) : option Z :=
  match v with VZero => Some 0 | VInt z => Some z | _ => None end.
Definition as_llval (v : value) : option Z :=
  match v with VZero => Some 0 | VInt64 z => Some z | _ => None end.
Definition as_fval (v : value) : option spec_float :=
  match v with VZero => Some d0 | VFloat d => Some d | _ => None end.
Definition as_sval (v : value) : option (option string) :=
  match v with VZero => Some None | VString s => Some s | _ => None end.
Definition as_list (v : value) : option (option config_list) :=
  match v with VZero => Some None | VList l => Some (Some l) | _ => None end.

Definition is_aggregate (t : ctype) : bool :=
  match t with T_GROUP | T_ARRAY | T_LIST => true | _ => false end.

(** The list of a setting whose type says it is an aggregate. *)
Definition list_of (s : setting) : CM (option config_list) :=
  lift_opt UB_union (as_list s.(s_value)).
