(* ===== verification/Config.v ===== *)
(** * libconfig's settings (lib/libconfig.c)

    Every operation on the setting tree: lists, creation and destruction,
    getters and setters with their conversions, element access, lookup of
    members and paths, addition and removal. *)

From Stdlib Require Import SpecFloat.
From S2P Require Import Prelude Double CString Setting.
Local Open Scope Z_scope.

Definition PATH_TOKENS : string := ":./".
Definition CHUNK_SIZE : Z := 16.

Definition has_option (c : config) (o : Z) : bool := negb (Z.land c.(options) o =? 0).

(** ** Names *)

Fixpoint config_name_compare (a b : string) : Z :=
  let p := head_char a in
  let q := head_char b in
  let pd := (p =? NUL)%char || strchr PATH_TOKENS p in
  let qd := (q =? NUL)%char || strchr PATH_TOKENS q in
  if pd && qd then 0
  else if pd then -1
  else if qd then 1
  else if schar p <? schar q then -1
  else if schar q <? schar p then 1
  else match a, b with
       | String _ a', String _ b' => config_name_compare a' b'
       | _, _ => 0
       end.

Definition name_char (c : ascii) : bool := isalpha c || isdigit c || strchr "*_-" c.

Definition config_validate_name (name : string) : bool :=
  match name with
  | EmptyString => false
  | String c s =>
      if negb (isalpha c) && negb (c =? "*")%char then false else all_chars name_char s
  end.

(** ** Lists *)

(** The slot written must be one of the allocated ones. *)
Definition config_list_add (l : config_list) (s : loc) : CM config_list :=
  let cap := if list_length l mod CHUNK_SIZE =? 0 then list_length l + CHUNK_SIZE
             else l.(capacity) in
  if list_length l <? cap
  then mret {| elements := l.(elements) ++ [s]; capacity := cap |}
  else undef UB_bounds.

(** The name argument may be a null pointer, which is only followed when an
    element has a name. *)
Fixpoint list_search (els : list loc) (i : Z) (name : option string) : CM (option (loc * Z)) :=
  match els with
  | [] => mret None
  | l :: els' =>
      s ← deref l;
      match s.(s_name) with
      | None => list_search els' (i + 1) name
      | Some n =>
          nm ← nonnull name;
          if config_name_compare nm n =? 0 then mret (Some (l, i))
          else list_search els' (i + 1) name
      end
  end.

Definition config_list_search (l : option config_list) (name : option string)
    : CM (option (loc * Z)) :=
  match l with
  | None => mret None
  | Some l => list_search l.(elements) 0 name
  end.

(** The removed element and the list without it; the capacity is kept. *)
Definition config_list_remove (l : config_list) (idx : Z) : CM (loc * config_list) :=
  match l.(elements) !! Z.to_nat idx with
  | Some r => mret (r, {| elements := take (Z.to_nat idx) l.(elements) ++
                                      drop (S (Z.to_nat idx)) l.(elements);
                          capacity := l.(capacity) |})
  | None => undef UB_bounds
  end.

(** Destroys a setting and what it owns; the fuel bounds the depth. *)
Fixpoint config_setting_destroy (fuel : nat) (setting : option loc) : CM unit :=
  match setting with
  | None => mret tt
  | Some l =>
      match fuel with
      | O => stop NoFuel
      | S n =>
          s ← deref l;
          (if is_aggregate s.(s_type) then
             lst ← list_of s;
             match lst with
             | None => mret tt
             | Some lst =>
                 (fix destroy_all (els : list loc) : CM unit :=
                    match els with
                    | [] => mret tt
                    | e :: els' => config_setting_destroy n (Some e);; destroy_all els'
                    end) lst.(elements)
             end
           else if decide (s.(s_type) = T_STRING) then
             _ ← lift_opt UB_union (as_sval s.(s_value)); mret tt
           else mret tt);;
          match s.(s_hook) with
          | Some h =>
              c ← setting_config;
              if c.(destructor) then put (with_destroyed (c.(destroyed) ++ [h]) c)
              else mret tt
          | None => mret tt
          end;;
          free l
      end
  end.

(** Depth of a tree is below the number of locations handed out. *)
Definition destroy_fuel (c : config) : nat := Pos.to_nat c.(next).

(** The element type a vector accepts. *)
Definition config_vector_checktype (vector : loc) (type : ctype) : CM bool :=
  v ← deref vector;
  lst ← list_of v;
  match lst with
  | None => mret true
  | Some lst =>
      if list_length lst =? 0 then mret true
      else if decide (v.(s_type) = T_LIST) then mret true
      else
        match lst.(elements) with
        | e :: _ => s ← deref e; mret (bool_decide (s.(s_type) = type))
        | [] => undef UB_bounds
        end
  end.

(** ** Configurations *)

(** memset to zero, a root group, the default options. *)
Definition new_setting (t : ctype) : setting :=
  {| s_name := None; s_type := t; s_format := 0; s_value := VZero; s_parent := None;
     s_hook := None; s_line := 0; s_file := None |}.

Definition config_zero (c : config) : config :=
  {| heap := c.(heap); next := c.(next); root := None; destructor := false;
     destroyed := c.(destroyed); options := 0; tab_width := 0; default_format := 0;
     include_dir := None; error_text := None; error_file := None; error_line := 0;
     error_type := ERR_NONE; filenames := []; moved := false |}.

Definition DEFAULT_OPTIONS : Z :=
  Z.lor (Z.lor OPTION_SEMICOLON_SEPARATORS OPTION_COLON_ASSIGNMENT_FOR_GROUPS)
        OPTION_OPEN_BRACE_ON_SEPARATE_LINE.

Definition config_init : CM unit :=
  modify config_zero;;
  r ← alloc (new_setting T_GROUP);
  modify (fun c =>
    {| heap := c.(heap); next := c.(next); root := Some r; destructor := c.(destructor);
       destroyed := c.(destroyed); options := DEFAULT_OPTIONS; tab_width := 2;
       default_format := c.(default_format); include_dir := c.(include_dir);
       error_text := c.(error_text); error_file := c.(error_file);
       error_line := c.(error_line); error_type := c.(error_type);
       filenames := c.(filenames); moved := c.(moved) |}).

Definition config_destroy : CM unit :=
  c ← get;
  config_setting_destroy (destroy_fuel c) c.(root);;
  modify config_zero.

Definition config_set_auto_convert (flag : Z) : CM unit :=
  modify (fun c =>
    if i2b flag then with_options (Z.lor c.(options) OPTION_AUTOCONVERT) c
    else with_options (Z.land c.(options) (Z.lnot OPTION_AUTOCONVERT)) c).

Definition config_get_auto_convert : CM bool := gets (fun c => has_option c OPTION_AUTOCONVERT).

(** config_get_auto_convert(setting->config) *)
Definition setting_auto_convert : CM bool :=
  c ← setting_config; mret (has_option c OPTION_AUTOCONVERT).

Definition config_set_options (o : Z) : CM unit := modify (with_options o).
Definition config_get_options : CM Z := gets options.

Definition config_set_destructor (d : bool) : CM unit := modify (fun c =>
  {| heap := c.(heap); next := c.(next); root := c.(root); destructor := d;
     destroyed := c.(destroyed); options := c.(options); tab_width := c.(tab_width);
     default_format := c.(default_format); include_dir := c.(include_dir);
     error_text := c.(error_text); error_file := c.(error_file);
     error_line := c.(error_line); error_type := c.(error_type);
     filenames := c.(filenames); moved := c.(moved) |}).

Definition config_set_include_dir (dir : string) : CM unit := modify (fun c =>
  {| heap := c.(heap); next := c.(next); root := c.(root); destructor := c.(destructor);
     destroyed := c.(destroyed); options := c.(options); tab_width := c.(tab_width);
     default_format := c.(default_format); include_dir := Some dir;
     error_text := c.(error_text); error_file := c.(error_file);
     error_line := c.(error_line); error_type := c.(error_type);
     filenames := c.(filenames); moved := c.(moved) |}).

(** ** Creating settings *)

Definition config_setting_create (parent : loc) (name : option string) (type : ctype)
    : CM (option loc) :=
  p ← deref parent;
  if negb (is_aggregate p.(s_type)) then mret None
  else
    l ← alloc {| s_name := name; s_type := type; s_format := 0; s_value := VZero;
                 s_parent := Some parent; s_hook := None; s_line := 0; s_file := None |};
    lst ← list_of p;
    let lst := default {| elements := []; capacity := 0 |} lst in
    lst' ← config_list_add lst l;
    update parent (set_value (VList lst'));;
    mret (Some l).

(** ** Getters; [None] leaves the caller's variable as it was *)

Definition get_int (setting : loc) : CM (option Z) :=
  s ← deref setting;
  match s.(s_type) with
  | T_INT => z ← lift_opt UB_union (as_ival s.(s_value)); mret (Some z)
  | T_INT64 =>
      z ← lift_opt UB_union (as_llval s.(s_value));
      mret (Some (if (INT_MAX <? z) || (z <? INT_MIN) then 0 else z))
  | T_FLOAT =>
      a ← setting_auto_convert;
      if a : bool then
        d ← lift_opt UB_union (as_fval s.(s_value));
        z ← lift_opt UB_float_cast (double_to_int d);
        mret (Some z)
      else mret None
  | _ => mret None
  end.

Definition config_setting_get_int (setting : loc) : CM Z :=
  v ← get_int setting; mret (default 0 v).

Definition get_int64 (setting : loc) : CM (option Z) :=
  s ← deref setting;
  match s.(s_type) with
  | T_INT64 => z ← lift_opt UB_union (as_llval s.(s_value)); mret (Some z)
  | T_INT => z ← lift_opt UB_union (as_ival s.(s_value)); mret (Some z)
  | T_FLOAT =>
      a ← setting_auto_convert;
      if a : bool then
        d ← lift_opt UB_union (as_fval s.(s_value));
        z ← lift_opt UB_float_cast (double_to_ll d);
        mret (Some z)
      else mret None
  | _ => mret None
  end.

Definition config_setting_get_int64 (setting : loc) : CM Z :=
  v ← get_int64 setting; mret (default 0 v).

Definition get_float (setting : loc) : CM (option spec_float) :=
  s ← deref setting;
  match s.(s_type) with
  | T_FLOAT => d ← lift_opt UB_union (as_fval s.(s_value)); mret (Some d)
  | T_INT =>
      a ← setting_auto_convert;
      if a : bool then
        z ← lift_opt UB_union (as_ival s.(s_value)); mret (Some (double_of_Z z))
      else mret None
  | T_INT64 =>
      a ← setting_auto_convert;
      if a : bool then
        z ← lift_opt UB_union (as_llval s.(s_value)); mret (Some (double_of_Z z))
      else mret None
  | _ => mret None
  end.

Definition config_setting_get_float (setting : loc) : CM spec_float :=
  v ← get_float setting; mret (default d0 v).

Definition config_setting_get_bool (setting : loc) : CM Z :=
  s ← deref setting;
  match s.(s_type) with
  | T_BOOL => lift_opt UB_union (as_ival s.(s_value))
  | _ => mret 0
  end.

Definition config_setting_get_string (setting : loc) : CM (option string) :=
  s ← deref setting;
  match s.(s_type) with
  | T_STRING => lift_opt UB_union (as_sval s.(s_value))
  | _ => mret None
  end.

Definition config_setting_get_format (setting : loc) : CM Z :=
  s ← deref setting;
  if negb (s.(s_format) =? 0) then mret s.(s_format)
  else c ← setting_config; mret c.(default_format).

(** ** Setters *)

(** Type [t] taken by a setting that has none yet. *)
Definition adopt (t : ctype) (s : setting) : setting :=
  match s.(s_type) with T_NONE => set_type t s | _ => s end.

Definition config_setting_set_int (setting : loc) (v : Z) : CM bool :=
  s ← deref setting;
  match s.(s_type) with
  | T_NONE | T_INT => store setting (set_value (VInt v) (adopt T_INT s));; mret true
  | T_FLOAT =>
      a ← setting_auto_convert;
      if a : bool then store setting (set_value (VFloat (float_of_Z v)) s);; mret true
      else mret false
  | _ => mret false
  end.

Definition config_setting_set_int64 (setting : loc) (v : Z) : CM bool :=
  s ← deref setting;
  match s.(s_type) with
  | T_NONE | T_INT64 => store setting (set_value (VInt64 v) (adopt T_INT64 s));; mret true
  | T_INT =>
      store setting (set_value (VInt (if (INT_MAX <? v) || (v <? INT_MIN) then 0 else v)) s);;
      mret true
  | T_FLOAT =>
      a ← setting_auto_convert;
      if a : bool then store setting (set_value (VFloat (float_of_Z v)) s);; mret true
      else mret false
  | _ => mret false
  end.

Definition config_setting_set_float (setting : loc) (v : spec_float) : CM bool :=
  s ← deref setting;
  match s.(s_type) with
  | T_NONE | T_FLOAT => store setting (set_value (VFloat v) (adopt T_FLOAT s));; mret true
  | T_INT =>
      a ← setting_auto_convert;
      if a : bool then
        z ← lift_opt UB_float_cast (double_to_int v);
        store setting (set_value (VInt z) s);; mret true
      else mret false
  | T_INT64 =>
      a ← setting_auto_convert;
      if a : bool then
        z ← lift_opt UB_float_cast (double_to_ll v);
        store setting (set_value (VInt64 z) s);; mret true
      else mret false
  | _ => mret false
  end.

Definition config_setting_set_bool (setting : loc) (v : Z) : CM bool :=
  s ← deref setting;
  match s.(s_type) with
  | T_NONE | T_BOOL => store setting (set_value (VInt v) (adopt T_BOOL s));; mret true
  | _ => mret false
  end.

(** The old string is read from the union and freed before the new is stored. *)
Definition config_setting_set_string (setting : loc) (v : option string) : CM bool :=
  s ← deref setting;
  match s.(s_type) with
  | T_NONE | T_STRING =>
      _ ← lift_opt UB_union (as_sval s.(s_value));
      store setting (set_value (VString v) (adopt T_STRING s));; mret true
  | _ => mret false
  end.

Definition config_setting_set_format (setting : loc) (format : Z) : CM bool :=
  s ← deref setting;
  if (negb (bool_decide (s.(s_type) = T_INT)) && negb (bool_decide (s.(s_type) = T_INT64)))
     || (negb (format =? FORMAT_DEFAULT) && negb (format =? FORMAT_HEX))
  then mret false
  else store setting (set_format format s);; mret true.

Definition config_setting_set_hook (setting : loc) (hook : option Z) : CM unit :=
  update setting (set_hook hook).

(** ** Elements and members *)

(** [idx] is an [unsigned int]. *)
Definition config_setting_get_elem (vector : loc) (idx : Z) : CM (option loc) :=
  v ← deref vector;
  if negb (is_aggregate v.(s_type)) then mret None
  else
    lst ← list_of v;
    match lst with
    | None => mret None
    | Some lst =>
        if list_length lst <=? u32 idx then mret None
        else match lst.(elements) !! Z.to_nat (u32 idx) with
             | Some e => mret (Some e)
             | None => undef UB_bounds
             end
    end.

Definition config_setting_get_member (setting : loc) (name : option string) : CM (option loc) :=
  s ← deref setting;
  if decide (s.(s_type) = T_GROUP) then
    lst ← list_of s;
    r ← config_list_search lst name;
    mret (fst <$> r)
  else mret None.

Definition config_setting_length (setting : loc) : CM Z :=
  s ← deref setting;
  if negb (is_aggregate s.(s_type)) then mret 0
  else
    lst ← list_of s;
    mret (match lst with None => 0 | Some l => list_length l end).

Fixpoint index_of (els : list loc) (l : loc) (i : Z) : Z :=
  match els with
  | [] => -1
  | e :: els' => if (e =? l)%positive then i else index_of els' l (i + 1)
  end.

(** The parent's list is followed without a null check. *)
Definition config_setting_index (setting : loc) : CM Z :=
  s ← deref setting;
  match s.(s_parent) with
  | None => mret (-1)
  | Some p =>
      ps ← deref p;
      lst ← list_of ps;
      lst ← nonnull lst;
      mret (index_of lst.(elements) setting 0)
  end.

(** ** Lookup of members by name, with a type *)

Definition config_setting_lookup_int (setting : loc) (name : string) : CM (option Z) :=
  m ← config_setting_get_member setting (Some name);
  match m with None => mret None | Some m => get_int m end.

Definition config_setting_lookup_int64 (setting : loc) (name : string) : CM (option Z) :=
  m ← config_setting_get_member setting (Some name);
  match m with None => mret None | Some m => get_int64 m end.

Definition config_setting_lookup_float (setting : loc) (name : string) : CM (option spec_float) :=
  m ← config_setting_get_member setting (Some name);
  match m with None => mret None | Some m => get_float m end.

Definition typed_string (s : loc) : CM (option (option string)) :=
  st ← deref s;
  if decide (st.(s_type) = T_STRING) then
    v ← config_setting_get_string s; mret (Some v)
  else mret None.

Definition typed_bool (s : loc) : CM (option Z) :=
  st ← deref s;
  if decide (st.(s_type) = T_BOOL) then
    v ← config_setting_get_bool s; mret (Some v)
  else mret None.

Definition config_setting_lookup_string (setting : loc) (name : string)
    : CM (option (option string)) :=
  m ← config_setting_get_member setting (Some name);
  match m with None => mret None | Some m => typed_string m end.

Definition config_setting_lookup_bool (setting : loc) (name : string) : CM (option Z) :=
  m ← config_setting_get_member setting (Some name);
  match m with None => mret None | Some m => typed_bool m end.

(** ** Lookup of paths *)

Definition is_path_token (c : ascii) : bool := mem_char c PATH_TOKENS.

(** The loop of config_setting_lookup; [p] is the rest of the path. *)
Fixpoint lookup_loop (fuel : nat) (setting : loc) (p : string) : CM (option loc) :=
  match fuel with
  | O => stop NoFuel
  | S n =>
      let p := skip_while is_path_token p in
      match p with
      | EmptyString => mret (Some setting)
      | String c p1 =>
          let p' := if (c =? "[")%char then p1 else p in
          found ← (if (c =? "[")%char
                   then config_setting_get_elem setting (atoi p1)
                   else config_setting_get_member setting (Some p));
          match found with
          | None => mret (match p' with EmptyString => Some setting | _ => None end)
          | Some f => lookup_loop n f (skip_while (fun c => negb (strchr PATH_TOKENS c)) p')
          end
      end
  end.

(** Every round consumes a character. *)
Definition config_setting_lookup (setting : loc) (path : string) : CM (option loc) :=
  lookup_loop (S (String.length path)) setting path.

Definition config_lookup (path : string) : CM (option loc) :=
  c ← get; r ← nonnull c.(root); config_setting_lookup r path.

Definition config_lookup_string (path : string) : CM (option (option string)) :=
  s ← config_lookup path;
  match s with None => mret None | Some s => typed_string s end.

Definition config_lookup_int (path : string) : CM (option Z) :=
  s ← config_lookup path;
  match s with None => mret None | Some s => get_int s end.

Definition config_lookup_int64 (path : string) : CM (option Z) :=
  s ← config_lookup path;
  match s with None => mret None | Some s => get_int64 s end.

Definition config_lookup_float (path : string) : CM (option spec_float) :=
  s ← config_lookup path;
  match s with None => mret None | Some s => get_float s end.

Definition config_lookup_bool (path : string) : CM (option Z) :=
  s ← config_lookup path;
  match s with None => mret None | Some s => typed_bool s end.

(** ** Elements of vectors *)

Definition is_vector (t : ctype) : bool := match t with T_ARRAY | T_LIST => true | _ => false end.

(** The element that a set_*_elem call writes: a new one for a negative index
    (when the vector accepts the type), an existing one otherwise. *)
Definition elem_to_set (vector : loc) (idx : Z) (t : ctype) : CM (option loc) :=
  v ← deref vector;
  if negb (is_vector v.(s_type)) then mret None
  else if idx <? 0 then
    ok ← config_vector_checktype vector t;
    if ok : bool then config_setting_create vector None t else mret None
  else config_setting_get_elem vector idx.

Definition config_setting_get_int_elem (vector : loc) (idx : Z) : CM Z :=
  e ← config_setting_get_elem vector idx;
  match e with None => mret 0 | Some e => config_setting_get_int e end.

Definition config_setting_set_int_elem (vector : loc) (idx v : Z) : CM (option loc) :=
  e ← elem_to_set vector idx T_INT;
  match e with
  | None => mret None
  | Some e => ok ← config_setting_set_int e v; mret (if ok : bool then Some e else None)
  end.

Definition config_setting_get_int64_elem (vector : loc) (idx : Z) : CM Z :=
  e ← config_setting_get_elem vector idx;
  match e with None => mret 0 | Some e => config_setting_get_int64 e end.

Definition config_setting_set_int64_elem (vector : loc) (idx v : Z) : CM (option loc) :=
  e ← elem_to_set vector idx T_INT64;
  match e with
  | None => mret None
  | Some e => ok ← config_setting_set_int64 e v; mret (if ok : bool then Some e else None)
  end.

Definition config_setting_get_float_elem (vector : loc) (idx : Z) : CM spec_float :=
  e ← config_setting_get_elem vector idx;
  match e with None => mret d0 | Some e => config_setting_get_float e end.

Definition config_setting_set_float_elem (vector : loc) (idx : Z) (v : spec_float)
    : CM (option loc) :=
  e ← elem_to_set vector idx T_FLOAT;
  match e with
  | None => mret None
  | Some e => ok ← config_setting_set_float e v; mret (if ok : bool then Some e else None)
  end.

Definition config_setting_get_bool_elem (vector : loc) (idx : Z) : CM Z :=
  e ← config_setting_get_elem vector idx;
  match e with None => mret CONFIG_FALSE | Some e => config_setting_get_bool e end.

Definition config_setting_set_bool_elem (vector : loc) (idx v : Z) : CM (option loc) :=
  e ← elem_to_set vector idx T_BOOL;
  match e with
  | None => mret None
  | Some e => ok ← config_setting_set_bool e v; mret (if ok : bool then Some e else None)
  end.

Definition config_setting_get_string_elem (vector : loc) (idx : Z) : CM (option string) :=
  e ← config_setting_get_elem vector idx;
  match e with None => mret None | Some e => config_setting_get_string e end.

Definition config_setting_set_string_elem (vector : loc) (idx : Z) (v : option string)
    : CM (option loc) :=
  e ← elem_to_set vector idx T_STRING;
  match e with
  | None => mret None
  | Some e => ok ← config_setting_set_string e v; mret (if ok : bool then Some e else None)
  end.

(** ** Adding and removing settings *)

Definition config_setting_add (parent : option loc) (name : option string) (type : Z)
    : CM (option loc) :=
  match ctype_of_Z type, parent with
  | None, _ => mret None
  | _, None => mret None
  | Some t, Some parent =>
      p ← deref parent;
      let name := if is_vector p.(s_type) then None else name in
      if match name with Some n => negb (config_validate_name n) | None => false end
      then mret None
      else
        m ← config_setting_get_member parent name;
        match m with
        | Some _ => mret None
        | None => config_setting_create parent name t
        end
  end.

Definition config_setting_remove (parent : option loc) (name : option string) : CM bool :=
  match parent with
  | None => mret false
  | Some parent =>
      p ← deref parent;
      if decide (p.(s_type) = T_GROUP) then
        lst ← list_of p;
        r ← config_list_search lst name;
        match r, lst with
        | Some (setting, idx), Some lst =>
            rl ← config_list_remove lst idx;
            update parent (set_value (VList rl.2));;
            c ← get;
            config_setting_destroy (destroy_fuel c) (Some setting);;
            mret true
        | _, _ => mret false
        end
      else mret false
  end.

Definition config_setting_remove_elem (parent : option loc) (idx : Z) : CM bool :=
  match parent with
  | None => mret false
  | Some parent =>
      p ← deref parent;
      if negb (is_aggregate p.(s_type)) then mret false
      else
        lst ← list_of p;
        match lst with
        | None => mret false
        | Some lst =>
            if list_length lst <=? u32 idx then mret false
            else
              rl ← config_list_remove lst (u32 idx);
              update parent (set_value (VList rl.2));;
              c ← get;
              config_setting_destroy (destroy_fuel c) (Some rl.1);;
              mret true
        end
  end.

(** ** A fresh configuration *)

Definition blank : config :=
  {| heap := ∅; next := 1%positive; root := None; destructor := false; destroyed := [];
     options := 0; tab_width := 0; default_format := 0; include_dir := None;
     error_text := None; error_file := None; error_line := 0; error_type := ERR_NONE;
     filenames := []; moved := false |}.
