(* ===== verification/ConfigWf.v ===== *)
(** * Well-formed configurations

    The invariant of the setting tree and the basic lemmas about it: what the
    heap operations do on a well-formed configuration, names and their
    comparison, the search of a member, and the general preservation lemma. *)

From Stdlib Require Import SpecFloat.
From S2P Require Import Prelude Double CString Setting Config.
Local Open Scope Z_scope.

Definition children (s : setting) : list loc :=
  match s.(s_value) with VList l => l.(elements) | _ => [] end.

(** A list fits its capacity, which is a multiple of the chunk size. *)
Definition list_ok (l : config_list) : Prop :=
  (CHUNK_SIZE | l.(capacity)) /\ list_length l <= l.(capacity).

(** The union member in use agrees with the type tag. *)
Definition value_ok (t : ctype) (v : value) : Prop :=
  match t, v with
  | _, VZero => True
  | T_INT, VInt _ | T_BOOL, VInt _ | T_INT64, VInt64 _ | T_FLOAT, VFloat _
  | T_STRING, VString _ => True
  | (T_GROUP | T_ARRAY | T_LIST), VList l => list_ok l
  | _, _ => False
  end.

(** No NUL inside a C string. *)
Fixpoint c_string (s : string) : bool :=
  match s with EmptyString => true | String c s' => negb (c =? NUL)%char && c_string s' end.

Definition valid_name (n : string) : Prop := config_validate_name n = true /\ c_string n = true.

(** Members of groups have valid names, elements of vectors have none. *)
Definition name_ok (t : ctype) (name : option string) : Prop :=
  match t with
  | T_GROUP => exists n, name = Some n /\ valid_name n
  | _ => name = None
  end.

Record wf (c : config) : Prop := {
  wf_next : forall l s, heap c !! l = Some s -> (l < next c)%positive;
  wf_value : forall l s, heap c !! l = Some s -> value_ok (s_type s) (s_value s);
  wf_nodup : forall l s, heap c !! l = Some s -> NoDup (children s);
  wf_child : forall l s e, heap c !! l = Some s -> e ∈ children s ->
    exists se, heap c !! e = Some se /\ s_parent se = Some l /\ name_ok (s_type s) (s_name se);
  wf_parent : forall l s p, heap c !! l = Some s -> s_parent s = Some p ->
    (p < l)%positive /\ exists sp, heap c !! p = Some sp /\ l ∈ children sp;
  wf_unique : forall l s e1 e2 s1 s2, heap c !! l = Some s -> s_type s = T_GROUP ->
    e1 ∈ children s -> e2 ∈ children s -> heap c !! e1 = Some s1 -> heap c !! e2 = Some s2 ->
    s_name s1 = s_name s2 -> e1 = e2;
  wf_root : exists r sr, root c = Some r /\ heap c !! r = Some sr /\
    s_parent sr = None /\ s_type sr = T_GROUP /\ s_name sr = None;
  wf_orphan : forall l s, heap c !! l = Some s -> s_parent s = None -> root c = Some l
}.

(** ** Heap operations *)

Lemma deref_live l s c : heap c !! l = Some s -> deref l c = (Ret s, c).
Proof. intros E. unfold deref. munfold. by rewrite E. Qed.

Lemma store_eq l s c : store l s c = (Ret tt, with_heap (<[l := s]> (heap c)) c).
Proof. done. Qed.

Lemma update_live l f s c : heap c !! l = Some s ->
  update l f c = (Ret tt, with_heap (<[l := f s]> (heap c)) c).
Proof. intros E. unfold update. munfold. unfold deref. munfold. by rewrite E. Qed.

Lemma free_live l s c : heap c !! l = Some s ->
  free l c = (Ret tt, with_heap (delete l (heap c)) c).
Proof. intros E. unfold free. munfold. by rewrite E. Qed.

#[export] Instance value_aggregate_list s : Decision (is_aggregate s = true).
Proof. apply _. Defined.

Lemma list_of_ok s c : is_aggregate (s_type s) = true -> value_ok (s_type s) (s_value s) ->
  exists o, list_of s c = (Ret o, c) /\
    match o with Some l => s_value s = VList l | None => s_value s = VZero end.
Proof.
  intros Ha Hv. unfold list_of. destruct (s_type s), (s_value s); try done; simpl;
    eexists; split; reflexivity.
Qed.

(** ** Names *)

Definition is_delim (c : ascii) : bool := (c =? NUL)%char || strchr PATH_TOKENS c.

(** The part of a string that names are compared on. *)
Definition name_key (s : string) : string := take_while (fun c => negb (is_delim c)) s.

Lemma uchar_range c : 0 <= uchar c < 256.
Proof.
  unfold uchar. destruct c as [[] [] [] [] [] [] [] []]; vm_compute; split; congruence.
Qed.

Lemma schar_inj a b : schar a = schar b -> a = b.
Proof.
  unfold schar, swrap. intros E. apply uchar_inj.
  pose proof (uchar_range a). pose proof (uchar_range b).
  change (2 ^ (8 - 1)) with 128 in E. change (2 ^ 8) with 256 in E.
  assert ((uchar a + 128) mod 256 = (uchar b + 128) mod 256) as Em by lia.
  destruct (Z_lt_ge_dec (uchar a) 128), (Z_lt_ge_dec (uchar b) 128);
    rewrite ?(Z.mod_small (uchar a + 128)), ?(Z.mod_small (uchar b + 128)) in Em by lia;
    rewrite <- ?(Z.mod_unique (uchar a + 128) 256 1 (uchar a - 128)) in Em by lia;
    rewrite <- ?(Z.mod_unique (uchar b + 128) 256 1 (uchar b - 128)) in Em by lia; lia.
Qed.

Lemma name_compare_key a b : config_name_compare a b = 0 <-> name_key a = name_key b.
Proof.
  revert b. induction a as [|x a IH]; intros b.
  { destruct b as [|y b]; [done|]. simpl config_name_compare. unfold name_key. simpl.
    fold (is_delim y). by destruct (is_delim y). }
  destruct b as [|y b]; simpl config_name_compare; unfold name_key; simpl;
    fold (is_delim x); fold (is_delim NUL); try fold (is_delim y).
  { change (is_delim NUL) with true. by destruct (is_delim x). }
  destruct (is_delim x), (is_delim y); simpl; try done.
  destruct (Z.ltb_spec (schar x) (schar y)); [split; [done|intros [= -> _]; lia]|].
  destruct (Z.ltb_spec (schar y) (schar x)); [split; [done|intros [= -> _]; lia]|].
  assert (x = y) as -> by (apply schar_inj; lia). rewrite IH. unfold name_key.
  split; [by intros ->|by intros [= ->]].
Qed.

Lemma name_char_not_delim c : (name_char c && negb (c =? NUL)%char)%bool = true ->
  is_delim c = false.
Proof. destruct c as [[] [] [] [] [] [] [] []]; vm_compute; congruence. Qed.

Lemma name_key_all_chars s : all_chars name_char s = true -> c_string s = true ->
  name_key s = s.
Proof.
  induction s as [|c s IH]; [done|]. simpl. rewrite !andb_true_iff. intros [Hc Hs] [Hn Hs'].
  unfold name_key. simpl. rewrite name_char_not_delim by (by rewrite Hc, Hn). simpl.
  f_equal. by apply IH.
Qed.

Lemma valid_name_key n : valid_name n -> name_key n = n.
Proof.
  intros [Hv Hc]. apply name_key_all_chars; [|done].
  destruct n as [|c n]; [done|]. simpl in *.
  destruct (isalpha c) eqn:Ha; simpl in *.
  - unfold name_char. by rewrite Ha.
  - destruct (c =? "*")%char eqn:Es; [|done]. apply Ascii.eqb_eq in Es. by subst.
Qed.

(** ** Searching a list *)

Section Search.
Variable c : config.

(** The element named like [name], as the loop finds it. *)
Fixpoint find_named (els : list loc) (name : string) : option loc :=
  match els with
  | [] => None
  | l :: els' =>
      match heap c !! l with
      | Some s =>
          match s_name s with
          | Some n => if decide (name_key name = name_key n) then Some l
                      else find_named els' name
          | None => find_named els' name
          end
      | None => None
      end
  end.

Lemma list_search_named els i name :
  (forall e, e ∈ els -> is_Some (heap c !! e)) ->
  exists r, list_search els i (Some name) c = (Ret r, c) /\ fst <$> r = find_named els name /\
    (forall e j, r = Some (e, j) -> i <= j /\ els !! Z.to_nat (j - i) = Some e).
Proof.
  revert i. induction els as [|l els IH]; intros i Hlive; simpl.
  { exists None. by split_and!. }
  destruct (Hlive l) as [s Hs]; [by constructor|].
  destruct (IH (i + 1)) as (r & Er & Hr & Hj); [intros; apply Hlive; by constructor|].
  assert (forall e j, r = Some (e, j) -> i <= j /\ (l :: els) !! Z.to_nat (j - i) = Some e) as Hj'.
  { intros e j E. destruct (Hj e j E) as [? He]. split; [lia|].
    replace (Z.to_nat (j - i)) with (S (Z.to_nat (j - (i + 1)))) by lia. done. }
  rewrite (bind_ret _ _ _ _ _ (deref_live l s c Hs)), Hs.
  destruct (s_name s) as [n|]; [|by exists r].
  unfold nonnull, lift_opt. simpl. unfold mbind, M_bind, mret at 1, M_ret at 1.
  destruct (Z.eqb_spec (config_name_compare name n) 0) as [E|E]; rewrite name_compare_key in E.
  - rewrite decide_True by done. exists (Some (l, i)). split_and!; [done|done|].
    intros e j [= <- <-]. split; [lia|]. by rewrite Z.sub_diag.
  - rewrite decide_False by done. by exists r.
Qed.

Lemma list_search_unnamed els i :
  (forall e, e ∈ els -> exists s, heap c !! e = Some s /\ s_name s = None) ->
  list_search els i None c = (Ret None, c).
Proof.
  revert i. induction els as [|l els IH]; intros i Hlive; simpl; [done|].
  destruct (Hlive l) as (s & Hs & Hn); [by constructor|].
  rewrite (bind_ret _ _ _ _ _ (deref_live l s c Hs)), Hn.
  apply IH. intros; apply Hlive. by constructor.
Qed.

Lemma find_named_Some els name e :
  find_named els name = Some e ->
  e ∈ els /\ exists s n, heap c !! e = Some s /\ s_name s = Some n /\ name_key name = name_key n.
Proof.
  induction els as [|l els IH]; simpl; [done|].
  destruct (heap c !! l) as [s|] eqn:Hs; [|done].
  destruct (s_name s) as [n|] eqn:Hn.
  - case_decide as Hk.
    + intros [= <-]. split; [by constructor|]. eauto.
    + intros [? ?]%IH. split; [by constructor|done].
  - intros [? ?]%IH. split; [by constructor|done].
Qed.

Lemma find_named_None els name :
  (forall e, e ∈ els -> is_Some (heap c !! e)) -> find_named els name = None ->
  forall e s n, e ∈ els -> heap c !! e = Some s -> s_name s = Some n ->
    name_key name <> name_key n.
Proof.
  induction els as [|l els IH]; intros Hlive Hf e s n He Hs Hn; [by apply not_elem_of_nil in He|].
  simpl in Hf. destruct (Hlive l) as [sl Hsl]; [by constructor|]. rewrite Hsl in Hf.
  assert (forall e, e ∈ els -> is_Some (heap c !! e)) as Hl' by (intros; apply Hlive; by constructor).
  apply elem_of_cons in He as [-> | He].
  - rewrite Hs in Hsl. injection Hsl as <-. rewrite Hn in Hf. by case_decide.
  - destruct (s_name sl); [case_decide; [done|]|]; by eapply IH.
Qed.
End Search.

(** ** Members *)

Lemma children_list s l : s_value s = VList l -> children s = elements l.
Proof. unfold children. by intros ->. Qed.

Lemma children_zero s : s_value s = VZero -> children s = [].
Proof. unfold children. by intros ->. Qed.

(** The member of a group that a name selects. *)
Definition member (c : config) (l : loc) (name : string) : option loc :=
  match heap c !! l with
  | Some s => if decide (s_type s = T_GROUP) then find_named c (children s) name else None
  | None => None
  end.

Lemma live_children c l s : wf c -> heap c !! l = Some s ->
  forall e, e ∈ children s -> is_Some (heap c !! e).
Proof. intros Hwf Hs e He. destruct (wf_child c Hwf l s e Hs He) as (? & ? & _). eauto. Qed.

Lemma get_member_ok c l s name : wf c -> heap c !! l = Some s ->
  config_setting_get_member l (Some name) c = (Ret (member c l name), c).
Proof.
  intros Hwf Hs. unfold config_setting_get_member, member. rewrite Hs.
  rewrite (bind_ret _ _ _ _ _ (deref_live l s c Hs)).
  destruct (decide (s_type s = T_GROUP)) as [Et|]; [|done].
  destruct (list_of_ok s c) as (o & Eo & Ho); [by rewrite Et|by eapply wf_value|].
  rewrite (bind_ret _ _ _ _ _ Eo). unfold config_list_search.
  destruct o as [lst|].
  - pose proof (live_children c l s Hwf Hs) as Hlive.
    rewrite (children_list s lst Ho) in *.
    destruct (list_search_named c (elements lst) 0 name Hlive) as (r & Er & Hr & _).
    rewrite (bind_ret _ _ _ _ _ Er). by rewrite <- Hr.
  - rewrite (children_zero s Ho). done.
Qed.

Lemma get_member_null c l s : heap c !! l = Some s -> s_type s <> T_GROUP ->
  config_setting_get_member l None c = (Ret None, c).
Proof.
  intros Hs Ht. unfold config_setting_get_member.
  rewrite (bind_ret _ _ _ _ _ (deref_live l s c Hs)). by rewrite decide_False.
Qed.

Lemma member_Some c l name e : member c l name = Some e ->
  exists s se n, heap c !! l = Some s /\ s_type s = T_GROUP /\ e ∈ children s /\
    heap c !! e = Some se /\ s_name se = Some n /\ name_key name = name_key n.
Proof.
  unfold member. destruct (heap c !! l) as [s|] eqn:Hs; [|done].
  case_decide; [|done]. intros (? & ? & ? & ? & ? & ?)%find_named_Some. eauto 10.
Qed.
