(* ===== verification/ConfigProps.v ===== *)
(** * Operations on well-formed configurations

    Every operation of the setting tree runs without undefined behaviour on a
    well-formed configuration and leaves it well formed: stores, creation,
    setters, elements of vectors, and what lookups find afterwards. *)

From Stdlib Require Import SpecFloat.
From S2P Require Import Prelude Double CString Setting Config ConfigWf.
Local Open Scope Z_scope.

(** ** Stores *)

Lemma heap_with h c : heap (with_heap h c) = h.
Proof. done. Qed.

(** A setting may be overwritten when its place in the tree stays. *)
Record same_place (s s' : setting) : Prop := {
  sp_children : children s' = children s;
  sp_parent : s_parent s' = s_parent s;
  sp_name : s_name s' = s_name s;
  sp_type : s_type s' = s_type s \/ children s = [] /\ s_type s <> T_GROUP;
  sp_value : value_ok (s_type s') (s_value s')
}.

Lemma wf_store c l s s' : wf c -> heap c !! l = Some s -> same_place s s' ->
  wf (with_heap (<[l := s']> (heap c)) c).
Proof.
  intros Hwf Hs [Hch Hpar Hname Htype Hval].
  assert (forall k sk, <[l := s']> (heap c) !! k = Some sk ->
    exists sk0, heap c !! k = Some sk0 /\ children sk = children sk0 /\
      s_parent sk = s_parent sk0 /\ s_name sk = s_name sk0 /\
      (s_type sk = s_type sk0 \/ children sk0 = [] /\ s_type sk0 <> T_GROUP)) as Hold.
  { intros k sk. destruct (decide (k = l)) as [->|].
    - rewrite lookup_insert_eq. intros [= <-]. eauto 10.
    - rewrite lookup_insert_ne by done. eauto 10. }
  assert (forall k sk0, heap c !! k = Some sk0 -> exists sk, <[l := s']> (heap c) !! k = Some sk /\
      children sk = children sk0 /\ s_parent sk = s_parent sk0 /\ s_name sk = s_name sk0) as Hnew.
  { intros k sk0 Hk. destruct (decide (k = l)) as [->|].
    - rewrite lookup_insert_eq. rewrite Hs in Hk. injection Hk as <-. eauto 10.
    - rewrite lookup_insert_ne by done. eauto 10. }
  split; simpl.
  - intros k sk Hk. destruct (Hold k sk Hk) as (? & ? & _). by eapply wf_next.
  - intros k sk Hk. destruct (decide (k = l)) as [->|].
    + rewrite lookup_insert_eq in Hk. by injection Hk as <-.
    + rewrite lookup_insert_ne in Hk by done. by eapply wf_value.
  - intros k sk Hk. destruct (Hold k sk Hk) as (? & ? & -> & _). by eapply wf_nodup.
  - intros k sk e Hk He. destruct (Hold k sk Hk) as (sk0 & Hk0 & Ec & _ & _ & Ht).
    rewrite Ec in He. destruct (wf_child c Hwf k sk0 e Hk0 He) as (se & Hse & Hp & Hn).
    destruct (Hnew e se Hse) as (se' & Hse' & _ & Hp' & Hn').
    exists se'. split_and!; [done|congruence|]. rewrite Hn'.
    destruct Ht as [->|[E _]]; [done|]. rewrite E in He. by apply not_elem_of_nil in He.
  - intros k sk p Hk Hp. destruct (Hold k sk Hk) as (sk0 & Hk0 & _ & Ep & _).
    rewrite Ep in Hp. destruct (wf_parent c Hwf k sk0 p Hk0 Hp) as (? & sp & Hsp & Hin).
    split; [done|]. destruct (Hnew p sp Hsp) as (sp' & Hsp' & Ec & _). exists sp'. by rewrite Ec.
  - intros k sk e1 e2 s1 s2 Hk Ht He1 He2 Hs1 Hs2 Hn.
    destruct (Hold k sk Hk) as (sk0 & Hk0 & Ec & _ & _ & Htk). rewrite Ec in He1, He2.
    destruct (Hold e1 s1 Hs1) as (s10 & Hs10 & _ & _ & En1 & _).
    destruct (Hold e2 s2 Hs2) as (s20 & Hs20 & _ & _ & En2 & _).
    destruct Htk as [Et|[E _]]; [|rewrite E in He1; by apply not_elem_of_nil in He1].
    eapply (wf_unique c Hwf k sk0 e1 e2 s10 s20); congruence.
  - destruct (wf_root c Hwf) as (r & sr & Hr & Hsr & Hp & Ht & Hnm).
    destruct (Hnew r sr Hsr) as (sr' & Hsr' & _ & Hp' & _). exists r, sr'.
    destruct (Hold r sr' Hsr') as (sr0 & Hsr0 & _ & _ & Hn' & Ht').
    split_and!; [done|done|congruence| |congruence].
    destruct Ht' as [->|[_ Hne]]; congruence.
  - intros k sk Hk Hp. destruct (Hold k sk Hk) as (sk0 & Hk0 & _ & Ep & _).
    eapply wf_orphan; [done|done|congruence].
Qed.

(** The common case: a field other than the value changes. *)
Lemma same_place_value s v : children s = [] -> value_ok (s_type s) v ->
  children (set_value v s) = [] -> same_place s (set_value v s).
Proof. intros Hc Hv Hc'. split; simpl; try done; [congruence|by left]. Qed.

Lemma scalar_no_children s : is_aggregate (s_type s) = false -> value_ok (s_type s) (s_value s) ->
  children s = [].
Proof. unfold children. by destruct (s_type s), (s_value s). Qed.

(** ** Lists *)

Lemma list_add_ok lst s c : list_ok lst ->
  exists lst', config_list_add lst s c = (Ret lst', c) /\ list_ok lst' /\
    elements lst' = elements lst ++ [s].
Proof.
  intros [Hd Hl]. unfold config_list_add.
  assert (list_length lst < (if list_length lst mod CHUNK_SIZE =? 0
    then list_length lst + CHUNK_SIZE else capacity lst)) as Hlt.
  { destruct (Z.eqb_spec (list_length lst mod CHUNK_SIZE) 0) as [|Hne]; [unfold CHUNK_SIZE; lia|].
    destruct (Z.eq_dec (list_length lst) (capacity lst)) as [E|]; [|lia].
    exfalso. apply Hne. rewrite E. by apply Z.mod_divide. }
  rewrite (proj2 (Z.ltb_lt _ _) Hlt). eexists. split; [done|]. split; [|done].
  split; simpl.
  - destruct (Z.eqb_spec (list_length lst mod CHUNK_SIZE) 0) as [E|]; [|done].
    apply Z.divide_add_r; [|apply Z.divide_refl]. by apply Z.mod_divide.
  - unfold list_length in *. simpl. rewrite length_app. simpl. lia.
Qed.

(** ** Creating a setting *)

Definition created (p : loc) (name : option string) (t : ctype) : setting :=
  {| s_name := name; s_type := t; s_format := 0; s_value := VZero; s_parent := Some p;
     s_hook := None; s_line := 0; s_file := None |}.

(** No member of this name yet. *)
Definition fresh_name (c : config) (ps : setting) (name : option string) : Prop :=
  s_type ps = T_GROUP -> forall e se, e ∈ children ps -> heap c !! e = Some se -> s_name se <> name.

Section Create.
Context (c : config) (p : loc) (ps ps' : setting) (name : option string) (t : ctype) (c' : config).
Context (Hwf : wf c) (Hp : heap c !! p = Some ps).
Context (Et : s_type ps' = s_type ps) (Ep : s_parent ps' = s_parent ps) (En : s_name ps' = s_name ps).
Context (Ech : children ps' = children ps ++ [next c]).
Context (Eh : heap c' = <[p := ps']> (<[next c := created p name t]> (heap c))).

Lemma create_fresh : heap c !! next c = None /\ p <> next c.
Proof using Hwf Hp.
  assert (heap c !! next c = None) as Hl; [|split; congruence].
  destruct (heap c !! next c) as [s|] eqn:E; [|done]. pose proof (wf_next c Hwf _ s E). lia.
Qed.

Lemma create_lookup : heap c' !! p = Some ps' /\ heap c' !! next c = Some (created p name t) /\
  (forall k, k <> p -> k <> next c -> heap c' !! k = heap c !! k).
Proof using Hwf Hp Eh.
  destruct create_fresh as [_ Hpl]. rewrite Eh. split_and!.
  - by rewrite lookup_insert_eq.
  - by rewrite lookup_insert_ne, lookup_insert_eq.
  - intros. by rewrite !lookup_insert_ne.
Qed.

(** Every setting other than the new one was there. *)
Lemma create_old k sk : heap c' !! k = Some sk -> k = next c /\ sk = created p name t \/
  exists sk0, heap c !! k = Some sk0 /\ s_type sk = s_type sk0 /\ s_parent sk = s_parent sk0 /\
    s_name sk = s_name sk0 /\ (k <> p /\ sk = sk0 \/ k = p /\ sk = ps' /\ sk0 = ps).
Proof using Hwf Hp Et Ep En Eh.
  destruct create_lookup as (Hp' & Hl' & Hk'). intros Hk. destruct (decide (k = p)) as [->|].
  - right. rewrite Hp' in Hk. injection Hk as <-. exists ps. auto 10.
  - destruct (decide (k = next c)) as [->|]; [left; split; congruence|]. right. rewrite Hk' in Hk by done.
    exists sk. auto 10.
Qed.

Lemma create_new k sk0 : heap c !! k = Some sk0 -> exists sk, heap c' !! k = Some sk /\
  s_parent sk = s_parent sk0 /\ s_name sk = s_name sk0 /\ (forall e, e ∈ children sk0 -> e ∈ children sk).
Proof using Hwf Hp Ep En Ech Eh.
  destruct create_lookup as (Hp' & Hl' & Hk'). destruct create_fresh as [Hl _].
  intros Hk. destruct (decide (k = p)) as [->|].
  - exists ps'. rewrite Hp in Hk. injection Hk as <-. split_and!; try done.
    intros e He. rewrite Ech. apply elem_of_app. by left.
  - exists sk0. rewrite Hk' by congruence. auto.
Qed.

Lemma create_child k sk e : heap c' !! k = Some sk -> e ∈ children sk ->
  e = next c /\ k = p /\ sk = ps' \/ exists sk0, heap c !! k = Some sk0 /\ s_type sk = s_type sk0 /\ e ∈ children sk0.
Proof using Hwf Hp Et Ep En Ech Eh.
  intros Hk He. destruct (create_old k sk Hk) as [[-> ->]|(sk0 & Hk0 & Ht & _ & _ & [[_ ->]|(-> & -> & ->)])].
  - by apply not_elem_of_nil in He.
  - right. eauto.
  - rewrite Ech in He. apply elem_of_app in He as [He|He%list_elem_of_singleton]; [right; eauto|left; auto].
Qed.

(** No other member has the name of the new one. *)
Lemma create_name_new e se : fresh_name c ps name -> e ∈ children ps -> heap c' !! e = Some se -> s_type ps' = T_GROUP ->
  s_name se <> name.
Proof using Hwf Hp Et Ep En Ech Eh.
  intros Hfresh He Hse Hg. destruct (wf_child c Hwf p ps e Hp He) as (se0 & Hse0 & _).
  destruct (create_new e se0 Hse0) as (se1 & Hse1 & _ & Hn1 & _).
  assert (se = se1) as -> by congruence. rewrite Hn1. eapply Hfresh; [congruence|done|done].
Qed.

Lemma create_unique k sk e1 e2 s1 s2 : fresh_name c ps name -> heap c' !! k = Some sk -> s_type sk = T_GROUP ->
  e1 ∈ children sk -> e2 ∈ children sk -> heap c' !! e1 = Some s1 -> heap c' !! e2 = Some s2 ->
  s_name s1 = s_name s2 -> e1 = e2.
Proof using Hwf Hp Et Ep En Ech Eh.
  intros Hfresh Hk Htg He1 He2 Hs1 Hs2 Hn. destruct create_lookup as (_ & Hl' & _).
  destruct (create_child k sk e1 Hk He1) as [(E1 & Ek1 & Esk1)|(sk1 & Hk1 & Ht1 & He1')],
    (create_child k sk e2 Hk He2) as [(E2 & Ek & Esk)|(sk2 & Hk2 & Ht2 & He2')].
  - congruence.
  - subst. rewrite Hl' in Hs1. injection Hs1 as <-. simpl in Hn. exfalso.
    rewrite Hp in Hk2. injection Hk2 as <-. by apply (create_name_new e2 s2).
  - subst. rewrite Hl' in Hs2. injection Hs2 as <-. simpl in Hn. exfalso.
    rewrite Hp in Hk1. injection Hk1 as <-. by apply (create_name_new e1 s1).
  - destruct (wf_child c Hwf k sk1 e1 Hk1 He1') as (t1 & Ht1' & _).
    destruct (wf_child c Hwf k sk2 e2 Hk2 He2') as (t2 & Ht2' & _).
    destruct (create_new e1 t1 Ht1') as (u1 & Hu1 & _ & Hn1 & _).
    destruct (create_new e2 t2 Ht2') as (u2 & Hu2 & _ & Hn2 & _).
    eapply (wf_unique c Hwf k sk1 e1 e2 t1 t2); congruence.
Qed.

Lemma wf_create : name_ok (s_type ps) name -> fresh_name c ps name -> value_ok (s_type ps') (s_value ps') ->
  next c' = Pos.succ (next c) -> root c' = root c -> wf c'.
Proof using Hwf Hp Et Ep En Ech Eh.
  intros Hname Hfresh Hval Enx Er. destruct create_lookup as (Hp' & Hl' & _). destruct create_fresh as [Hl _]. split.
  - intros k sk Hk. rewrite Enx. destruct (create_old k sk Hk) as [[-> _]|(sk0 & Hk0 & _)]; [lia|].
    pose proof (wf_next c Hwf k sk0 Hk0). lia.
  - intros k sk Hk. destruct (create_old k sk Hk) as [[_ ->]|(sk0 & Hk0 & _ & _ & _ & [[_ ->]|(_ & -> & _)])];
      [by destruct t|by eapply wf_value|done].
  - intros k sk Hk. destruct (create_old k sk Hk) as [[_ ->]|(sk0 & Hk0 & _ & _ & _ & [[_ ->]|(_ & -> & ->)])];
      [constructor|by eapply wf_nodup|].
    rewrite Ech. apply NoDup_app. split_and!; [by eapply wf_nodup| |by apply NoDup_singleton].
    intros e Hin ->%list_elem_of_singleton. destruct (wf_child c Hwf p ps _ Hp Hin) as (? & ? & _). congruence.
  - intros k sk e Hk He. destruct (create_child k sk e Hk He) as [(-> & -> & ->)|(sk0 & Hk0 & Ht & He0)].
    + exists (created p name t). split_and!; [done|done|]. simpl. by rewrite Et.
    + destruct (wf_child c Hwf k sk0 e Hk0 He0) as (se & Hse & Hpar & Hn).
      destruct (create_new e se Hse) as (se' & Hse' & Hpar' & Hn' & _).
      exists se'. split_and!; [done|congruence|]. by rewrite Ht, Hn'.
  - intros k sk q Hk Hq. destruct (create_old k sk Hk) as [[-> ->]|(sk0 & Hk0 & _ & Hpar & _)].
    + injection Hq as <-. split; [by eapply wf_next|].
      exists ps'. split; [done|]. rewrite Ech. apply elem_of_app. right. by apply list_elem_of_singleton.
    + rewrite Hpar in Hq. destruct (wf_parent c Hwf k sk0 q Hk0 Hq) as (? & sq & Hsq & Hin).
      split; [done|]. destruct (create_new q sq Hsq) as (sq' & Hsq' & _ & _ & Hin'). eauto.
  - intros k sk e1 e2 s1 s2. by apply create_unique.
  - destruct (wf_root c Hwf) as (r & sr & Hr & Hsr & Hpr & Htr & Hnmr).
    destruct (create_new r sr Hsr) as (sr' & Hsr' & Hpr' & Hn' & _). exists r, sr'.
    split_and!; [congruence|done|congruence| |congruence].
    destruct (create_old r sr' Hsr') as [[-> _]|(sr0 & Hsr0 & Ht & _)]; congruence.
  - intros k sk Hk Hpar. destruct (create_old k sk Hk) as [[-> ->]|(sk0 & Hk0 & _ & Hpar0 & _)]; [done|].
    rewrite Er. eapply wf_orphan; [done|done|congruence].
Qed.
End Create.

(** ** Runs on the heap *)

Lemma returns_deref l s c P : heap c !! l = Some s -> P s c -> returns (deref l) c P.
Proof. intros E HP. exists s, c. by rewrite (deref_live l s c E). Qed.

Lemma returns_store l s c (P : unit -> config -> Prop) :
  P tt (with_heap (<[l := s]> (heap c)) c) -> returns (store l s) c P.
Proof. intros HP. eexists _, _. by split; [apply store_eq|]. Qed.

Lemma returns_update l f s c (P : unit -> config -> Prop) : heap c !! l = Some s ->
  P tt (with_heap (<[l := f s]> (heap c)) c) -> returns (update l f) c P.
Proof. intros E HP. eexists _, _. by split; [apply (update_live l f s c E)|]. Qed.

(** ** Growth

    What every operation other than removal does: settings stay, with their
    parents, and aggregates keep their types. *)
Record grows (c c' : config) : Prop := {
  gr_wf : wf c';
  gr_moved : moved c' = moved c;
  gr_root : root c' = root c;
  gr_options : options c' = options c;
  gr_keeps : forall l s, heap c !! l = Some s -> exists s', heap c' !! l = Some s' /\
    s_parent s' = s_parent s /\ s_name s' = s_name s /\
    (is_aggregate (s_type s) = true -> s_type s' = s_type s)
}.

Lemma grows_refl c : wf c -> grows c c.
Proof. intros Hwf. split; try done. eauto 10. Qed.

Lemma grows_trans c1 c2 c3 : grows c1 c2 -> grows c2 c3 -> grows c1 c3.
Proof.
  intros [_ M1 R1 O1 K1] [W2 M2 R2 O2 K2]. split; try congruence.
  intros l s Hl. destruct (K1 l s Hl) as (s2 & Hs2 & P2 & N2 & T2).
  destruct (K2 l s2 Hs2) as (s3 & Hs3 & P3 & N3 & T3). exists s3.
  split_and!; [done|congruence|congruence|]. intros Ha. rewrite T3; [by apply T2|]. by rewrite T2.
Qed.

Lemma grows_store c l s s' : wf c -> heap c !! l = Some s -> same_place s s' ->
  (is_aggregate (s_type s) = true -> s_type s' = s_type s) ->
  grows c (with_heap (<[l := s']> (heap c)) c).
Proof.
  intros Hwf Hs Hsp Ht. split; try done; [by apply (wf_store c l s s')|].
  intros k sk Hk. simpl. destruct (decide (k = l)) as [->|].
  - rewrite lookup_insert_eq. exists s'. split_and!; [done|..].
    + rewrite (sp_parent _ _ Hsp). congruence.
    + rewrite (sp_name _ _ Hsp). congruence.
    + intros Ha. assert (sk = s) as -> by congruence. auto.
  - rewrite lookup_insert_ne by done. eauto 10.
Qed.

(** ** Creation *)

Lemma returns_create c p ps name t (P : option loc -> config -> Prop) :
  wf c -> heap c !! p = Some ps -> is_aggregate (s_type ps) = true ->
  name_ok (s_type ps) name -> fresh_name c ps name ->
  (forall c', grows c c' -> heap c' !! next c = Some (created p name t) ->
     heap c !! next c = None ->
     (exists ps', heap c' !! p = Some ps' /\ children ps' = children ps ++ [next c]) ->
     P (Some (next c)) c') ->
  returns (config_setting_create p name t) c P.
Proof.
  intros Hwf Hp Ha Hn Hf HP. unfold config_setting_create.
  destruct (list_of_ok ps) with (c := c) as (o & Eo & Ho); [done|by eapply wf_value|].
  assert (heap c !! next c = None) as Hl.
  { destruct (heap c !! next c) as [s|] eqn:E; [|done]. pose proof (wf_next c Hwf _ s E). lia. }
  assert (p <> next c) as Hpl by congruence.
  rnext. apply (returns_deref p ps); [done|]. rewrite Ha. simpl negb. cbv iota.
  rnext. eexists _, _. split; [reflexivity|]. rnext.
  match goal with |- returns _ ?d _ => set (c1 := d) end.
  exists o, c1. split.
  { revert Eo. unfold list_of, lift_opt. destruct (as_list (s_value ps)); [|done].
    by intros [= ->]. }
  rnext. set (lst := default _ o).
  assert (list_ok lst /\ elements lst = children ps) as [Hlst Hels].
  { destruct o as [l0|]; simpl in Ho |- *.
    - split; [|by rewrite (children_list ps l0)]. pose proof (wf_value c Hwf p ps Hp) as Hv.
      rewrite Ho in Hv. unfold lst. simpl. by destruct (s_type ps).
    - unfold lst. simpl. rewrite (children_zero ps Ho). split; [|done].
      split; simpl; [apply Z.divide_0_r|done]. }
  destruct (list_add_ok lst (next c) c1 Hlst) as (lst' & E' & Hok' & Hel').
  exists lst', c1. split; [done|].
  assert (heap c1 !! p = Some ps) as Hp1 by (unfold c1; simpl; by rewrite lookup_insert_ne).
  rnext. apply (returns_update p _ ps); [done|]. rnext.
  set (ps' := set_value (VList lst') ps).
  set (c' := with_heap _ c1).
  assert (children ps' = children ps ++ [next c]) as Ech
    by (unfold ps', children at 1; simpl; by rewrite Hel', Hels).
  assert (heap c' = <[p := ps']> (<[next c := created p name t]> (heap c))) as Eh by done.
  assert (wf c') as Hwf'.
  { apply (wf_create c p ps ps' name t c'); try done.
    unfold ps'. simpl. by destruct (s_type ps). }
  apply HP; [|by rewrite Eh, lookup_insert_ne, lookup_insert_eq|done|].
  - split; try done. intros k sk Hk. rewrite Eh. destruct (decide (k = p)) as [->|].
    + rewrite lookup_insert_eq. exists ps'. split_and!; [done|..]; rewrite Hp in Hk; by injection Hk as <-.
    + rewrite !lookup_insert_ne by congruence. eauto 10.
  - exists ps'. by rewrite Eh, lookup_insert_eq.
Qed.

(** ** Setters *)

(** A scalar that takes a value, and possibly a type. *)
Definition with_scalar (t : ctype) (v : value) (s : setting) : setting := set_value v (set_type t s).

Lemma adopt_value t v s : set_value v (adopt t s) = with_scalar (s_type (adopt t s)) v s.
Proof. unfold adopt. by destruct s as [? [] ? ? ? ? ? ?]. Qed.

Lemma same_value v s : set_value v s = with_scalar (s_type s) v s.
Proof. by destruct s. Qed.

(** Back pointers are followed to read the options only. *)
Lemma returns_auto_convert c (P : bool -> config -> Prop) :
  moved c = false -> P (has_option c OPTION_AUTOCONVERT) c -> returns setting_auto_convert c P.
Proof.
  intros Hm HP. unfold setting_auto_convert, setting_config. exists (has_option c OPTION_AUTOCONVERT), c.
  split; [|done]. munfold. by rewrite Hm.
Qed.

Section Setters.
Context (c : config) (l : loc) (s : setting).
Context (Hwf : wf c) (Hs : heap c !! l = Some s).

(** What a setter does: nothing, or the scalar changes and the tree grows. *)
Definition set_post (ok : bool) (c' : config) : Prop :=
  if ok then grows c c' /\ exists t v, heap c' !! l = Some (with_scalar t v s) else c' = c.

Lemma set_post_grows ok c' : set_post ok c' -> grows c c'.
Proof. destruct ok; simpl; [by intros []|]. intros ->. by apply grows_refl. Qed.

Lemma returns_set_scalar t v (P : bool -> config -> Prop) :
  is_aggregate (s_type s) = false -> value_ok t v -> (forall lst, v <> VList lst) ->
  (forall c', grows c c' -> heap c' !! l = Some (with_scalar t v s) -> P true c') ->
  returns (store l (with_scalar t v s);; mret true) c P.
Proof.
  intros Ha Hv Hnl HP.
  pose proof (scalar_no_children s Ha (wf_value c Hwf l s Hs)) as Hc.
  assert (same_place s (with_scalar t v s)) as Hsp.
  { split; try done.
    - rewrite Hc. unfold children. simpl. destruct v; try done. by destruct (Hnl list).
    - right. split; [done|]. intros E. by rewrite E in Ha. }
  rnext. apply returns_store. rnext. apply HP.
  - apply (grows_store c l s); try done. congruence.
  - simpl. by rewrite lookup_insert_eq.
Qed.

Hypothesis Hm : moved c = false.

Ltac scalar_type :=
  unfold adopt; match goal with E : s_type s = _ |- _ => rewrite ?E; simpl; rewrite ?E end.

(** The steps of a setter; a cast of a double may be left. *)
Ltac setter_step :=
  first
  [ apply returns_ret; done
  | apply returns_auto_convert; [done|]
  | rewrite ?adopt_value, ?(same_value _ s); apply returns_set_scalar;
      [by scalar_type|by scalar_type|done|intros c' ? ?; split; [done|by eauto]]
  | match goal with |- returns (if ?b then _ else _) _ _ => destruct b end
  | match goal with |- returns (_ ≫= _) _ _ => rnext end ].

Ltac setter := intros; rnext; apply (returns_deref l s); [done|];
  destruct (s_type s) eqn:?; repeat setter_step.

Lemma returns_set_int v : returns (config_setting_set_int l v) c set_post.
Proof. unfold config_setting_set_int. setter. Qed.

Lemma returns_set_int64 v : returns (config_setting_set_int64 l v) c set_post.
Proof. unfold config_setting_set_int64. setter. Qed.

Lemma returns_set_bool v : returns (config_setting_set_bool l v) c set_post.
Proof. unfold config_setting_set_bool. setter. Qed.

(** The float fits the integer it is converted to. *)
Definition float_fits (d : spec_float) : Prop :=
  has_option c OPTION_AUTOCONVERT = true ->
  match s_type s with
  | T_INT => is_Some (double_to_int d)
  | T_INT64 => is_Some (double_to_ll d)
  | _ => True
  end.

Lemma returns_set_float d : float_fits d -> returns (config_setting_set_float l d) c set_post.
Proof.
  unfold float_fits, config_setting_set_float. intros Hd. setter.
  all: destruct Hd as [z Ez]; [done|].
  all: apply (returns_lift _ _ z); [done|].
  all: repeat setter_step.
Qed.

Lemma returns_set_string v : returns (config_setting_set_string l v) c set_post.
Proof.
  unfold config_setting_set_string. pose proof (wf_value c Hwf l s Hs) as Hv. setter;
    destruct (s_value s); try done; (eapply returns_lift; [done|]; repeat setter_step).
Qed.

(** Other fields than the value. *)
Lemma grows_field s' : children s' = children s -> s_parent s' = s_parent s ->
  s_name s' = s_name s -> s_type s' = s_type s -> s_value s' = s_value s ->
  grows c (with_heap (<[l := s']> (heap c)) c).
Proof.
  intros Ec Ep En Et Ev. apply (grows_store c l s); try done. split; try done; [by left|].
  rewrite Et, Ev. by apply (wf_value c Hwf l).
Qed.

Lemma returns_set_format f :
  returns (config_setting_set_format l f) c (fun _ c' => grows c c').
Proof.
  unfold config_setting_set_format. rnext. apply (returns_deref l s); [done|]. cbv beta.
  match goal with |- returns (if ?b then _ else _) _ _ => destruct b end.
  - apply returns_ret. by apply grows_refl.
  - rnext. apply returns_store. apply returns_ret. by apply grows_field.
Qed.

Lemma returns_set_hook h :
  returns (config_setting_set_hook l h) c (fun _ c' => grows c c').
Proof. apply (returns_update l _ s); [done|]. by apply grows_field. Qed.
End Setters.

(** ** Elements *)

Definition elem_at (s : setting) (idx : Z) : option loc :=
  if is_aggregate (s_type s) then children s !! Z.to_nat (u32 idx) else None.

Lemma get_elem_ok c l s idx : wf c -> heap c !! l = Some s ->
  config_setting_get_elem l idx c = (Ret (elem_at s idx), c).
Proof.
  intros Hwf Hs. unfold config_setting_get_elem, elem_at.
  rewrite (bind_ret _ _ _ _ _ (deref_live l s c Hs)).
  destruct (is_aggregate (s_type s)) eqn:Ha; simpl; [|done].
  destruct (list_of_ok s c) as (o & Eo & Ho); [done|by eapply wf_value|].
  rewrite (bind_ret _ _ _ _ _ Eo). destruct o as [lst|].
  - rewrite (children_list s lst Ho).
    pose proof (uwrap_range 32 idx ltac:(lia)) as Hu. unfold list_length.
    destruct (Z.leb_spec (Z.of_nat (length (elements lst))) (u32 idx)).
    + by rewrite lookup_ge_None_2 by lia.
    + by destruct (lookup_lt_is_Some_2 (elements lst) (Z.to_nat (u32 idx))) as [e ->]; [lia|].
  - by rewrite (children_zero s Ho).
Qed.

Lemma elem_at_child s idx e : elem_at s idx = Some e -> e ∈ children s.
Proof. unfold elem_at. destruct (is_aggregate _); [|done]. apply list_elem_of_lookup_2. Qed.

Lemma vector_checktype_ok c v s t : wf c -> heap c !! v = Some s ->
  is_aggregate (s_type s) = true ->
  exists b, config_vector_checktype v t c = (Ret b, c).
Proof.
  intros Hwf Hs Ha. unfold config_vector_checktype.
  rewrite (bind_ret _ _ _ _ _ (deref_live v s c Hs)).
  destruct (list_of_ok s c) as (o & Eo & Ho); [done|by eapply wf_value|].
  rewrite (bind_ret _ _ _ _ _ Eo). destruct o as [lst|]; [|by eexists].
  unfold list_length. destruct (elements lst) as [|e els] eqn:El; [by eexists|].
  replace (Z.of_nat (length (e :: els)) =? 0) with false by done.
  case_decide; [by eexists|].
  destruct (wf_child c Hwf v s e Hs) as (se & Hse & _).
  { rewrite (children_list s lst Ho), El. by constructor. }
  rewrite (bind_ret _ _ _ _ _ (deref_live e se c Hse)). by eexists.
Qed.

(** The element a set_*_elem call writes to is live and, when it is new, has
    the type the caller is about to set. *)
Lemma returns_elem_to_set c v s idx t :
  wf c -> moved c = false -> heap c !! v = Some s ->
  returns (elem_to_set v idx t) c (fun e c' => grows c c' /\ moved c' = false /\
    options c' = options c /\
    match e with
    | None => c' = c
    | Some e => exists se, heap c' !! e = Some se /\ s_parent se = Some v /\
        (s_type se = t \/ 0 <= idx /\ heap c !! e = Some se /\ elem_at s idx = Some e)
    end).
Proof.
  intros Hwf Hm Hs. unfold elem_to_set. rnext. apply (returns_deref v s); [done|].
  destruct (is_vector (s_type s)) eqn:Hv; simpl negb; cbv iota;
    [|apply returns_ret; split_and!; try done; by apply grows_refl].
  assert (is_aggregate (s_type s) = true) as Ha by (by destruct (s_type s)).
  destruct (Z.ltb_spec idx 0).
  - rnext. destruct (vector_checktype_ok c v s t Hwf Hs Ha) as [b Eb].
    exists b, c. split; [done|]. destruct b; [|apply returns_ret; split_and!; try done; by apply grows_refl].
    apply (returns_create c v s None t); try done.
    + by destruct (s_type s).
    + intros E. by rewrite E in Hv.
    + intros c' Hg Hn _ _. split_and!; [done|by rewrite (gr_moved _ _ Hg)|apply Hg|].
      eexists. split; [done|]. split; [done|by left].
  - exists (elem_at s idx), c. split; [by apply get_elem_ok|].
    split_and!; try done; [by apply grows_refl|].
    destruct (elem_at s idx) as [e|] eqn:E; [|done].
    destruct (wf_child c Hwf v s e Hs (elem_at_child _ _ _ E)) as (se & Hse & Hp & _). eauto 10.
Qed.


(** The common body of the set_*_elem functions. *)
Lemma returns_set_elem c v s idx t (set : loc -> CM bool) :
  wf c -> moved c = false -> heap c !! v = Some s ->
  (forall c' e se, wf c' -> moved c' = false -> heap c' !! e = Some se ->
     options c' = options c ->
     s_type se = t \/ 0 <= idx /\ heap c !! e = Some se /\ elem_at s idx = Some e ->
     returns (set e) c' (set_post c' e se)) ->
  returns (e ← elem_to_set v idx t;
           match e with
           | None => mret None
           | Some e => ok ← set e; mret (if ok : bool then Some e else None)
           end) c (fun r c' => grows c c' /\ forall e, r = Some e -> is_Some (heap c' !! e)).
Proof.
  intros Hwf Hm Hs Hset. rnext.
  eapply returns_mono; [|by apply (returns_elem_to_set c v s idx t)].
  intros [e|] c1 (Hg & Hm1 & Ho & He); cbv beta iota; [|apply returns_ret; by subst].
  destruct He as (se & Hse & _ & Ht). rnext.
  pose proof (gr_wf _ _ Hg) as Hwf1.
  eapply returns_mono; [|by apply (Hset c1 e se)].
  intros ok c2 Hp. apply returns_ret. split; [eapply grows_trans; [done|]; by eapply set_post_grows|].
  intros e' He'. destruct ok; [|done]. injection He' as <-. destruct Hp as (_ & t' & v' & ->). by eexists.
Qed.

(** ** Adding *)

Definition add_name (s : setting) (name : option string) : option string :=
  if is_vector (s_type s) then None else name.

Lemma returns_add c p ps name ty (P : option loc -> config -> Prop) :
  wf c -> heap c !! p = Some ps ->
  (s_type ps = T_GROUP -> name <> None) ->
  (forall n, name = Some n -> c_string n = true) ->
  (ctype_of_Z ty = None \/ is_aggregate (s_type ps) = false \/
     (exists n, name = Some n /\ (config_validate_name n = false \/ is_Some (member c p n))) -> P None c) ->
  (forall t c', ctype_of_Z ty = Some t -> is_aggregate (s_type ps) = true -> grows c c' ->
     name_ok (s_type ps) (add_name ps name) -> fresh_name c ps (add_name ps name) ->
     heap c !! next c = None ->
     heap c' !! next c = Some (created p (add_name ps name) t) ->
     (exists ps', heap c' !! p = Some ps' /\ children ps' = children ps ++ [next c]) ->
     P (Some (next c)) c') ->
  returns (config_setting_add (Some p) name ty) c P.
Proof.
  intros Hwf Hp Hnn Hcs HN HS. unfold config_setting_add.
  destruct (ctype_of_Z ty) as [t|] eqn:Ety; [|by apply returns_ret, HN; left].
  rnext. apply (returns_deref p ps); [done|]. cbv zeta. fold (add_name ps name).
  match goal with |- returns (if ?b then _ else _) _ _ => destruct b eqn:Hval end.
  { apply returns_ret, HN. destruct (is_aggregate (s_type ps)); [|by right; left].
    right; right. unfold add_name in Hval. destruct (is_vector (s_type ps)); [done|].
    destruct name as [n|]; [|done]. exists n. split; [done|]. left. by apply negb_true_iff. }
  rnext. destruct (decide (s_type ps = T_GROUP)) as [Eg|Ng].
  - assert (add_name ps name = name) as En by (unfold add_name; by rewrite Eg).
    rewrite En in *. destruct name as [n|]; [|by destruct (Hnn Eg)].
    apply negb_false_iff in Hval.
    assert (valid_name n) as Hv by (split; auto).
    exists (member c p n), c. split; [by apply (get_member_ok c p ps)|].
    destruct (member c p n) eqn:Em.
    { apply returns_ret, HN. right; right. exists n. rewrite Em. eauto. }
    assert (fresh_name c ps (Some n)) as Hf.
    { intros _ e se He Hse Hn. unfold member in Em. rewrite Hp, decide_True in Em by done.
      by apply (find_named_None c (children ps) n (live_children c p ps Hwf Hp) Em e se n He Hse Hn). }
    assert (name_ok (s_type ps) (Some n)) by (rewrite Eg; by exists n).
    apply (returns_create c p ps (Some n) t); try done; [by rewrite Eg|].
    intros. apply (HS t); try done. by rewrite Eg.
  - assert (config_setting_get_member p (add_name ps name) c = (Ret None, c)) as E.
    { unfold config_setting_get_member. rewrite (bind_ret _ _ _ _ _ (deref_live p ps c Hp)).
      by rewrite decide_False. }
    exists None, c. split; [done|].
    destruct (is_aggregate (s_type ps)) eqn:Ha.
    + assert (add_name ps name = None) as En by (unfold add_name; by destruct (s_type ps)).
      rewrite En in *. assert (name_ok (s_type ps) None) by (by destruct (s_type ps)).
      assert (fresh_name c ps None) by (intros Eg; by destruct (Ng Eg)).
      apply (returns_create c p ps None t); try done.
      intros. by apply (HS t).
    + unfold config_setting_create. rnext. apply (returns_deref p ps); [done|]. rewrite Ha.
      by apply returns_ret, HN; right; left.
Qed.
