(* ===== verification/ConfigTree.v ===== *)
(** * Subtrees: destruction and removal

    What lies below a setting, the order in which destruction visits it, and
    the proof that destroying or removing a setting frees exactly its subtree,
    calls the destructor once for every hook in it and leaves the rest of the
    configuration well formed. *)

From Stdlib Require Import SpecFloat.
From S2P Require Import Prelude Double CString Setting Config ConfigWf ConfigProps.
Local Open Scope Z_scope.

(** ** What lies below a setting *)

Section Below.
Variable c : config.

Inductive below (l : loc) : loc -> Prop :=
  | below_refl : below l l
  | below_up k s p : heap c !! k = Some s -> s_parent s = Some p -> below l p -> below l k.

(** Children first, then the setting: the order destruction frees in. *)
Fixpoint postorder (fuel : nat) (l : loc) : list loc :=
  match fuel, heap c !! l with
  | S n, Some s => (children s ≫= postorder n) ++ [l]
  | _, _ => []
  end.

Definition hook_of (l : loc) : option Z := s ← heap c !! l; s_hook s.

Hypothesis Hwf : wf c.

Lemma below_le l k : below l k -> (l <= k)%positive.
Proof.
  induction 1 as [|k s p Hk Hp _ IH]; [lia|]. destruct (wf_parent c Hwf k s p Hk Hp). lia.
Qed.

Lemma below_child l s e k : heap c !! l = Some s -> e ∈ children s -> below e k -> below l k.
Proof.
  intros Hs He. destruct (wf_child c Hwf l s e Hs He) as (se & Hse & Hp & _).
  induction 1 as [|k sk p Hk Hpk _ IH]; [|by eapply below_up].
  eapply below_up; [done|done|constructor].
Qed.

(** Going down: the setting itself or something below one of its children. *)
Lemma below_inv l s k : heap c !! l = Some s -> below l k ->
  k = l \/ exists e, e ∈ children s /\ below e k.
Proof.
  intros Hs. induction 1 as [|k sk p Hk Hp Hb [-> |(e & He & Hbe)]]; [by left| |].
  - right. exists k. split; [|constructor].
    destruct (wf_parent c Hwf k sk l Hk Hp) as (_ & sp & Hsp & Hin). congruence.
  - right. exists e. split; [done|]. by eapply below_up.
Qed.

Lemma below_chain e1 e2 k : below e1 k -> below e2 k -> below e1 e2 \/ below e2 e1.
Proof.
  induction 1 as [|k s p Hk Hp Hb IH]; intros H2; [by right|].
  inversion H2 as [|k' s' p' Hk' Hp' Hb']; subst.
  - left. by eapply below_up.
  - apply IH. congruence.
Qed.

(** The subtrees of different children are disjoint. *)
Lemma below_disjoint l s e1 e2 k : heap c !! l = Some s -> e1 ∈ children s -> e2 ∈ children s ->
  below e1 k -> below e2 k -> e1 = e2.
Proof.
  intros Hs H1 H2 B1 B2.
  assert (forall a b, a ∈ children s -> b ∈ children s -> below a b -> a = b) as Hab.
  { intros a b Ha Hb Hbelow. destruct (wf_child c Hwf l s a Hs Ha) as (sa & Hsa & Hpa & _).
    destruct (wf_child c Hwf l s b Hs Hb) as (sb & Hsb & Hpb & _).
    inversion Hbelow as [|b' sb' p Hb' Hp Hb2]; subst; [done|].
    assert (p = l) as -> by congruence.
    pose proof (below_le a l Hb2). destruct (wf_parent c Hwf a sa l Hsa Hpa). lia. }
  destruct (below_chain e1 e2 k B1 B2); [by apply Hab|symmetry; by apply Hab].
Qed.

(** Enough fuel visits the whole subtree. *)
Lemma postorder_below fuel l k : (Pos.to_nat (next c) < fuel + Pos.to_nat l)%nat ->
  k ∈ postorder fuel l <-> is_Some (heap c !! l) /\ below l k.
Proof.
  revert l k. induction fuel as [|n IH]; intros l k Hf; simpl.
  { split; [intros []%not_elem_of_nil|]. intros [[s Hs] _]. pose proof (wf_next c Hwf l s Hs). lia. }
  destruct (heap c !! l) as [s|] eqn:Hs; [|split; [intros []%not_elem_of_nil|by intros [[] _]]].
  assert (forall e, e ∈ children s -> is_Some (heap c !! e) /\ (Pos.to_nat l < Pos.to_nat e)%nat) as Hch.
  { intros e He. destruct (wf_child c Hwf l s e Hs He) as (se & Hse & Hp & _).
    destruct (wf_parent c Hwf e se l Hse Hp). split; [eauto|lia]. }
  rewrite elem_of_app, list_elem_of_singleton, list_elem_of_bind. split.
  - intros [(e & He & Hin)| ->]; [|split; [eauto|constructor]].
    apply IH in He; [|destruct (Hch e Hin); lia]. split; [eauto|].
    destruct He as [_ Hb]. by eapply below_child.
  - intros [_ [-> |(e & Hin & Hb)]%(below_inv l s)]; [by right| |done].
    left. exists e. split; [|done]. apply IH; [destruct (Hch e Hin); lia|]. split; [by apply Hch|done].
Qed.
End Below.

(** Every setting is visited once. *)
Lemma postorder_nodup c fuel l : wf c -> (Pos.to_nat (next c) < fuel + Pos.to_nat l)%nat ->
  NoDup (postorder c fuel l).
Proof.
  intros Hwf. revert l. induction fuel as [|n IH]; intros l Hf; simpl; [constructor|].
  destruct (heap c !! l) as [s|] eqn:Hs; [|constructor].
  assert (forall e, e ∈ children s -> exists se, heap c !! e = Some se /\ s_parent se = Some l /\
    (Pos.to_nat (next c) < n + Pos.to_nat e)%nat) as Hch.
  { intros e He. destruct (wf_child c Hwf l s e Hs He) as (se & Hse & Hp & _).
    destruct (wf_parent c Hwf e se l Hse Hp). exists se. split_and!; [done|done|lia]. }
  apply NoDup_app. split_and!.
  - apply NoDup_bind; [|intros e He; apply IH; by destruct (Hch e He) as (? & _ & _ & ?)|by eapply wf_nodup].
    intros e1 e2 k H1 H2 K1 K2. destruct (Hch e1 H1) as (? & _ & _ & F1), (Hch e2 H2) as (? & _ & _ & F2).
    apply (postorder_below c Hwf) in K1 as [_ B1], K2 as [_ B2]; [|done..].
    by eapply below_disjoint.
  - intros k (e & Hk & He)%list_elem_of_bind ->%list_elem_of_singleton.
    destruct (Hch e He) as (se & Hse & Hp & F). apply (postorder_below c Hwf) in Hk as [_ Hb]; [|done].
    pose proof (below_le c Hwf _ _ Hb). destruct (wf_parent c Hwf e se l Hse Hp). lia.
  - apply NoDup_singleton.
Qed.

(** ** Destruction *)

Section Destroy.
Context (c0 : config).

(** [c] after the settings [ks] of [c0] were destroyed in this order. *)
Definition clear (ks : list loc) (c : config) : config :=
  with_destroyed (destroyed c ++ (if destructor c then omap (hook_of c0) ks else []))
    (with_heap (foldl (fun h k => delete k h) (heap c) ks) c).

Lemma clear_nil c : clear [] c = c.
Proof. destruct c as [???[]???????????]; unfold clear, with_destroyed, with_heap; simpl; by rewrite app_nil_r. Qed.

Lemma clear_app ks1 ks2 c : clear (ks1 ++ ks2) c = clear ks2 (clear ks1 c).
Proof.
  unfold clear, with_destroyed, with_heap; simpl. rewrite foldl_app.
  destruct (destructor c); [|by rewrite !app_nil_r]. by rewrite omap_app, app_assoc.
Qed.

Lemma clear_lookup ks c k : heap (clear ks c) !! k = if decide (k ∈ ks) then None else heap c !! k.
Proof.
  unfold clear. simpl. generalize (heap c). induction ks as [|x ks IH]; intros h; simpl; [done|].
  rewrite IH. repeat case_decide; set_unfold; try done; try tauto.
  - destruct H0 as [->|]; [by rewrite lookup_delete_eq|done].
  - rewrite lookup_delete_ne; [done|]. intros ->. tauto.
Qed.

(** Back pointers are only followed to call the destructor. *)
Definition hooks_reachable (c : config) : Prop :=
  moved c = false \/ forall l, hook_of c0 l = None.

Hypothesis Hwf : wf c0.

(** [c] still has what is below [l]. *)
Definition agrees (c : config) (l : loc) : Prop :=
  forall k, below c0 l k -> heap c !! k = heap c0 !! k.

Lemma agrees_clear c l ks : agrees c l -> (forall k, k ∈ ks -> ~ below c0 l k) ->
  agrees (clear ks c) l.
Proof.
  intros Ha Hks k Hk. rewrite clear_lookup, decide_False by (intros Hin; by apply (Hks k)). by apply Ha.
Qed.

Lemma destroy_step c l s : heap c !! l = Some s -> heap c0 !! l = Some s -> hooks_reachable c ->
  (match s_hook s with
   | Some h =>
       c ← setting_config;
       if destructor c then put (with_destroyed (destroyed c ++ [h]) c) else mret tt
   | None => mret tt
   end;; free l) c = (Ret tt, clear [l] c).
Proof.
  intros Hs Hs0 Hh.
  assert (hook_of c0 l = s_hook s) as Ehook by (unfold hook_of; by rewrite Hs0).
  assert (forall c1, heap c1 = heap c -> free l c1 = (Ret tt, with_heap (delete l (heap c)) c1)) as Hfree.
  { intros c1 E. rewrite <- E. apply (free_live l s). by rewrite E. }
  unfold clear. simpl. rewrite Ehook. destruct (s_hook s) as [h|].
  - assert (setting_config c = (Ret c, c)) as Ec.
    { unfold setting_config. munfold. destruct Hh as [-> | Hn]; [done|]. by rewrite Hn in Ehook. }
    unfold mbind, M_bind at 1. unfold mbind, M_bind. rewrite Ec.
    destruct (destructor c) eqn:Ed; simpl; rewrite Hfree by done; [done|].
    rewrite app_nil_r. unfold with_destroyed, with_heap. simpl. by destruct c.
  - unfold mbind, M_bind. simpl. rewrite Hfree by done.
    destruct (destructor c); rewrite app_nil_r; unfold with_destroyed, with_heap; simpl; by destruct c.
Qed.

(** The loop over the elements of a list. *)
Lemma destroy_all_ok n l s els c : heap c0 !! l = Some s ->
  (forall e c se, e ∈ children s -> heap c0 !! e = Some se -> agrees c e -> hooks_reachable c ->
     config_setting_destroy n (Some e) c = (Ret tt, clear (postorder c0 n e) c)) ->
  (forall e, e ∈ children s -> forall k, k ∈ postorder c0 n e -> below c0 e k) ->
  NoDup els -> (forall e, e ∈ els -> e ∈ children s /\ agrees c e) -> hooks_reachable c ->
  (fix destroy_all (els : list loc) : CM unit :=
     match els with
     | [] => mret tt
     | e :: els' => config_setting_destroy n (Some e);; destroy_all els'
     end) els c = (Ret tt, clear (els ≫= postorder c0 n) c).
Proof.
  intros Hs IH Hpost Hnd. revert c. induction Hnd as [|e els Hne Hnd IHels]; intros c Hels Hh.
  { simpl. by rewrite clear_nil. }
  destruct (Hels e) as [He Hae]; [by constructor|].
  destruct (wf_child c0 Hwf l s e Hs He) as (se & Hse & _).
  rewrite (bind_ret _ _ _ _ _ (IH e c se He Hse Hae Hh)), bind_cons, clear_app.
  apply IHels; [|by destruct Hh; [left|right]].
  intros e' He'. destruct (Hels e') as [Hc' Hae']; [by constructor|]. split; [done|].
  apply agrees_clear; [done|]. intros k Hk Hb. apply Hne.
  by rewrite (below_disjoint c0 Hwf l s e e' k); auto.
Qed.

Lemma destroy_ok n : forall l c s, (Pos.to_nat (next c0) < n + Pos.to_nat l)%nat ->
  heap c0 !! l = Some s -> agrees c l -> hooks_reachable c ->
  config_setting_destroy n (Some l) c = (Ret tt, clear (postorder c0 n l) c).
Proof.
  induction n as [|n IH]; intros l c s Hf Hs Ha Hh.
  { pose proof (wf_next c0 Hwf l s Hs). lia. }
  assert (heap c !! l = Some s) as Hsc by (rewrite (Ha l); [done|constructor]).
  simpl. rewrite Hs. rewrite (bind_ret _ _ _ _ _ (deref_live l s c Hsc)), clear_app.
  set (c1 := clear (children s ≫= postorder c0 n) c).
  assert (forall e, e ∈ children s -> exists se, heap c0 !! e = Some se /\ s_parent se = Some l /\
    (l < e)%positive) as Hch.
  { intros e He. destruct (wf_child c0 Hwf l s e Hs He) as (se & Hse & Hp & _).
    destruct (wf_parent c0 Hwf e se l Hse Hp). eauto. }
  assert (forall e, e ∈ children s -> forall k, k ∈ postorder c0 n e -> below c0 e k) as Hpost.
  { intros e He k Hk. destruct (Hch e He) as (? & _ & _ & ?).
    apply (postorder_below c0 Hwf) in Hk as [_ ?]; [done|lia]. }
  rewrite (bind_ret _ _ tt c c1).
  - apply (destroy_step c1 l s); [|done|by destruct Hh; [left|right]].
    unfold c1. rewrite clear_lookup, decide_False; [done|].
    intros (e & Hk & He)%list_elem_of_bind. apply Hpost in Hk; [|done].
    pose proof (below_le c0 Hwf _ _ Hk). destruct (Hch e He) as (_ & _ & _ & ?). lia.
  - destruct (is_aggregate (s_type s)) eqn:Hagg.
    + destruct (list_of_ok s c) as (o & Eo & Ho); [done|by eapply wf_value|].
      rewrite (bind_ret _ _ _ _ _ Eo). unfold c1. destruct o as [lst|].
      2:{ by rewrite (children_zero s Ho), clear_nil. }
      rewrite <- (children_list s lst Ho). apply (destroy_all_ok n l s); auto.
      * intros e c' se He Hse. destruct (Hch e He) as (_ & _ & _ & ?). apply (IH e c' se); [lia|done].
      * by eapply wf_nodup.
      * intros e He. split; [done|]. intros k Hk. apply Ha. by eapply below_child.
    + pose proof (wf_value c0 Hwf l s Hs) as Hv. unfold c1.
      rewrite (scalar_no_children s Hagg Hv). simpl. rewrite clear_nil.
      case_decide as Et; [|done]. rewrite Et in Hv. by destruct (s_value s).
Qed.
End Destroy.

(** Everything is below the root. *)
Lemma below_root c l s r : wf c -> root c = Some r -> heap c !! l = Some s -> below c r l.
Proof.
  intros Hwf Hr. revert s. induction l as [l IH] using (well_founded_induction (Wf_nat.well_founded_ltof _ Pos.to_nat)).
  intros s Hs. destruct (s_parent s) as [p|] eqn:Hp.
  - destruct (wf_parent c Hwf l s p Hs Hp) as (Hlt & sp & Hsp & _).
    eapply below_up; [done|done|]. apply (IH p) with sp; [unfold Wf_nat.ltof; lia|done].
  - pose proof (wf_orphan c Hwf l s Hs Hp). assert (l = r) as -> by congruence. constructor.
Qed.

(** Children are visited before their parent. *)
Lemma postorder_children_first c n l k s p : wf c ->
  (Pos.to_nat (next c) < n + Pos.to_nat l)%nat -> heap c !! k = Some s -> s_parent s = Some p ->
  p ∈ postorder c n l -> exists xs ys zs, postorder c n l = xs ++ k :: ys ++ p :: zs.
Proof.
  intros Hwf. revert l. induction n as [|n IH]; intros l Hf Hk Hp Hin; [by apply not_elem_of_nil in Hin|].
  simpl in *. destruct (heap c !! l) as [sl|] eqn:Hl; [|by apply not_elem_of_nil in Hin].
  destruct (wf_parent c Hwf k s p Hk Hp) as (_ & sp & Hsp & Hkin).
  assert (forall e, e ∈ children sl -> (Pos.to_nat (next c) < n + Pos.to_nat e)%nat) as Hch.
  { intros e He. destruct (wf_child c Hwf l sl e Hl He) as (se & Hse & Hpe & _).
    destruct (wf_parent c Hwf e se l Hse Hpe). lia. }
  apply elem_of_app in Hin as [(e & Hin & He)%list_elem_of_bind | ->%list_elem_of_singleton].
  - destruct (IH e (Hch e He) Hk Hp Hin) as (xs & ys & zs & E).
    apply list_elem_of_split in He as (l1 & l2 & ->).
    exists ((l1 ≫= postorder c n) ++ xs), ys, (zs ++ (l2 ≫= postorder c n) ++ [l]).
    rewrite bind_app, bind_cons, E. by rewrite <- !app_assoc, <- !app_comm_cons, <- !app_assoc.
  - assert (sp = sl) as -> by congruence.
    assert (k ∈ children sl ≫= postorder c n) as Hk'.
    { apply list_elem_of_bind. exists k. split; [|done]. apply (postorder_below c Hwf); [by apply Hch|].
      split; [eauto|constructor]. }
    apply list_elem_of_split in Hk' as (xs & ys & ->). exists xs, ys, [].
    by rewrite <- app_assoc, <- app_comm_cons.
Qed.

Lemma destroy_config_ok c : wf c -> hooks_reachable c c ->
  exists order c', config_destroy c = (Ret tt, c') /\ heap c' = ∅ /\ root c' = None /\
    destroyed c' = destroyed c ++ (if destructor c then omap (hook_of c) order else []) /\
    NoDup order /\ (forall l, l ∈ order <-> is_Some (heap c !! l)) /\
    (forall l s p, heap c !! l = Some s -> s_parent s = Some p ->
       exists xs ys zs, order = xs ++ l :: ys ++ p :: zs) /\ next c' = next c.
Proof.
  intros Hwf Hh. destruct (wf_root c Hwf) as (r & sr & Hr & Hsr & _).
  assert (Pos.to_nat (next c) < destroy_fuel c + Pos.to_nat r)%nat as Hf by (unfold destroy_fuel; lia).
  set (order := postorder c (destroy_fuel c) r).
  assert (forall l, l ∈ order <-> is_Some (heap c !! l)) as Hall.
  { intros l. unfold order. rewrite (postorder_below c Hwf) by done. split.
    - intros [_ Hb]. inversion Hb; subst; eauto.
    - intros [s Hs]. split; [eauto|]. by eapply below_root. }
  exists order, (config_zero (clear c order c)). split_and!.
  - unfold config_destroy. rewrite (bind_ret get _ c c c) by done. rewrite Hr.
    rewrite (bind_ret _ _ _ _ _ (destroy_ok c Hwf (destroy_fuel c) r c sr Hf Hsr (fun k _ => eq_refl) Hh)).
    done.
  - apply map_eq. intros l. simpl. rewrite lookup_empty.
    pose proof (clear_lookup c order c l) as E. simpl in E. rewrite E.
    case_decide as Hin; [done|]. destruct (heap c !! l) eqn:E'; [|done].
    exfalso. apply Hin, Hall. eauto.
  - done.
  - done.
  - by apply postorder_nodup.
  - done.
  - intros l s p Hs Hp. eapply postorder_children_first; try done.
    apply Hall. destruct (wf_parent c Hwf l s p Hs Hp) as (_ & sp & -> & _). eauto.
  - done.
Qed.

(** ** Removal *)

Section Removed.
Context (c : config) (p : loc) (ps ps' : setting) (e : loc) (c' : config).
Context (Hwf : wf c) (Hp : heap c !! p = Some ps) (He : e ∈ children ps).
Context (Et : s_type ps' = s_type ps) (Ep : s_parent ps' = s_parent ps) (En : s_name ps' = s_name ps).
Context (Hch : forall k, k ∈ children ps' <-> k ∈ children ps /\ k <> e).
Context (Hgone : forall k, below c e k -> heap c' !! k = None) (Hp' : heap c' !! p = Some ps').
Context (Hkeep : forall k, k <> p -> ~ below c e k -> heap c' !! k = heap c !! k).

Lemma removed_old k sk : heap c' !! k = Some sk -> ~ below c e k /\ exists sk0, heap c !! k = Some sk0 /\
  s_type sk = s_type sk0 /\ s_parent sk = s_parent sk0 /\ s_name sk = s_name sk0 /\
  (forall x, x ∈ children sk <-> x ∈ children sk0 /\ x <> e).
Proof using Hwf Hp He Et Ep En Hch Hgone Hp' Hkeep.
  destruct (wf_child c Hwf p ps e Hp He) as (se & Hse & Hpe & _).
  intros Hk. assert (~ below c e k) as Hnb by (intros Hb; rewrite Hgone in Hk; done).
  split; [done|]. destruct (decide (k = p)) as [->|].
  - assert (sk = ps') as -> by congruence. exists ps. auto.
  - exists sk. rewrite Hkeep in Hk by done. split_and!; try done. intros x.
    split; [|by intros []]. intros Hx. split; [done|]. intros ->.
    destruct (wf_child c Hwf k sk e Hk Hx) as (? & ? & ? & _). congruence.
Qed.

Lemma removed_new k sk0 : heap c !! k = Some sk0 -> ~ below c e k -> exists sk, heap c' !! k = Some sk /\
  s_type sk = s_type sk0 /\ s_parent sk = s_parent sk0 /\ s_name sk = s_name sk0 /\
  (forall x, x ∈ children sk0 -> x <> e -> x ∈ children sk).
Proof using Hp Et Ep En Hch Hp' Hkeep.
  intros Hk Hnb. destruct (decide (k = p)) as [->|].
  - assert (sk0 = ps) as -> by congruence. exists ps'. split_and!; try done. intros x Hx Hxe. by apply Hch.
  - exists sk0. by rewrite Hkeep.
Qed.

(** A setting of the new tree is the parent, or was there. *)
Lemma removed_cases k sk : heap c' !! k = Some sk -> k = p /\ sk = ps' \/ heap c !! k = Some sk.
Proof using Hwf Hp He Et Ep En Hch Hgone Hp' Hkeep.
  intros Hk. destruct (removed_old k sk Hk) as [Hnb _]. destruct (decide (k = p)) as [->|]; [left; split; congruence|].
  right. by rewrite Hkeep in Hk.
Qed.

(** What is left: the parent without the element, nothing of the subtree. *)
Lemma wf_removed : value_ok (s_type ps') (s_value ps') -> NoDup (children ps') -> next c' = next c -> root c' = root c -> wf c'.
Proof using Hwf Hp He Et Ep En Hch Hgone Hp' Hkeep.
  intros Hval Hnd Enx Er. destruct (wf_child c Hwf p ps e Hp He) as (se & Hse & Hpe & _). split.
  - intros k sk Hk. destruct (removed_old k sk Hk) as (_ & ? & ? & _). rewrite Enx. by eapply wf_next.
  - intros k sk Hk. destruct (removed_cases k sk Hk) as [[-> ->]|Hk0]; [done|by eapply wf_value].
  - intros k sk Hk. destruct (removed_cases k sk Hk) as [[-> ->]|Hk0]; [done|by eapply wf_nodup].
  - intros k sk x Hk Hx. destruct (removed_old k sk Hk) as (Hnb & sk0 & Hk0 & Ht & _ & _ & Hc).
    apply Hc in Hx as [Hx Hxe]. destruct (wf_child c Hwf k sk0 x Hk0 Hx) as (sx & Hsx & Hpx & Hn).
    assert (~ below c e x) as Hnx.
    { intros Hb. inversion Hb as [|? s' q Hs' Hq Hbq]; subst; [done|]. apply Hnb. congruence. }
    destruct (removed_new x sx Hsx Hnx) as (sx' & Hsx' & _ & Epx & Enx' & _). exists sx'. rewrite Epx, Enx', Ht. auto.
  - intros k sk q Hk Hq. destruct (removed_old k sk Hk) as (Hnb & sk0 & Hk0 & _ & Epk & _).
    rewrite Epk in Hq. destruct (wf_parent c Hwf k sk0 q Hk0 Hq) as (Hlt & sq & Hsq & Hin).
    split; [done|]. assert (~ below c e q) as Hnq by (intros Hb; apply Hnb; by eapply below_up).
    destruct (removed_new q sq Hsq Hnq) as (sq' & Hsq' & _ & _ & _ & Hc). exists sq'. split; [done|].
    apply Hc; [done|]. intros ->. apply Hnb. constructor.
  - intros k sk e1 e2 s1 s2 Hk Hg H1 H2 Hs1 Hs2 Hn. destruct (removed_old k sk Hk) as (_ & sk0 & Hk0 & Ht & _ & _ & Hc).
    apply Hc in H1 as [H1 _], H2 as [H2 _]. destruct (removed_old e1 s1 Hs1) as (_ & t1 & Ht1 & _ & _ & N1 & _).
    destruct (removed_old e2 s2 Hs2) as (_ & t2 & Ht2 & _ & _ & N2 & _).
    eapply (wf_unique c Hwf k sk0 e1 e2 t1 t2); congruence.
  - destruct (wf_root c Hwf) as (r & sr & Hr & Hsr & Hpr & Htr & Hnmr). assert (~ below c e r) as Hnr.
    { intros Hb. inversion Hb as [|? s' q Hs' Hq _]; subst; congruence. }
    destruct (removed_new r sr Hsr Hnr) as (sr' & Hsr' & ? & ? & ? & _). exists r, sr'. split_and!; congruence.
  - intros k sk Hk Hpk. destruct (removed_old k sk Hk) as (_ & sk0 & Hk0 & _ & Epk & _).
    rewrite Er. eapply wf_orphan; [done|done|congruence].
Qed.
End Removed.

(** What a removal of element [e] of [p] leaves. *)
Record removed (c : config) (p e : loc) (c' : config) : Prop := {
  rm_wf : wf c';
  rm_moved : moved c' = moved c;
  rm_options : options c' = options c;
  rm_root : root c' = root c;
  rm_gone : forall k, below c e k -> heap c' !! k = None;
  rm_kept : forall k, k <> p -> ~ below c e k -> heap c' !! k = heap c !! k;
  rm_parent : forall ps, heap c !! p = Some ps -> exists l1 l2 ps', children ps = l1 ++ e :: l2 /\
    heap c' !! p = Some ps' /\ children ps' = l1 ++ l2 /\ s_type ps' = s_type ps;
  rm_hooks : exists order, NoDup order /\ (forall k, k ∈ order <-> below c e k) /\
    destroyed c' = destroyed c ++ (if destructor c then omap (hook_of c) order else []);
  rm_destructor : destructor c' = destructor c;
  rm_hook : forall ps ps', heap c !! p = Some ps -> heap c' !! p = Some ps' -> s_hook ps' = s_hook ps
}.

Lemma NoDup_middle (l1 l2 : list loc) e : NoDup (l1 ++ e :: l2) ->
  NoDup (l1 ++ l2) /\ forall k, k ∈ l1 ++ l2 <-> k ∈ l1 ++ e :: l2 /\ k <> e.
Proof.
  rewrite !NoDup_app, NoDup_cons. intros (H1 & Hd & H2 & H3). split.
  - split_and!; try done. intros k Hk. specialize (Hd k Hk). by intros Hk'; apply Hd; constructor.
  - intros k. specialize (Hd k). rewrite !elem_of_app, elem_of_cons.
    split; [|tauto]. intros [Hk|Hk]; (split; [tauto|]); intros ->; [|done].
    apply Hd; [done|by constructor].
Qed.

Section Detach.
Context (c : config) (p e : loc) (ps : setting) (lst : config_list) (i : nat).
Context (Hwf : wf c) (Hh : hooks_reachable c c) (Hp : heap c !! p = Some ps).
Context (Hv : s_value ps = VList lst) (Ha : is_aggregate (s_type ps) = true).
Context (He : elements lst !! i = Some e).

(** The list, the parent and the configuration without the element. *)
Definition shorter : config_list :=
  {| elements := take i (elements lst) ++ drop (S i) (elements lst); capacity := capacity lst |}.
Definition detached : config := with_heap (<[p := set_value (VList shorter) ps]> (heap c)) c.

Lemma detach_child : e ∈ children ps /\ exists se, heap c !! e = Some se /\ s_parent se = Some p /\
  (p < e)%positive.
Proof using Hwf Hp Hv He.
  assert (e ∈ children ps) as Hin
    by (rewrite (children_list ps lst Hv); by eapply list_elem_of_lookup_2).
  split; [done|]. destruct (wf_child c Hwf p ps e Hp Hin) as (se & Hse & Hpe & _).
  destruct (wf_parent c Hwf e se p Hse Hpe). eauto.
Qed.

Lemma detach_split : children ps = take i (elements lst) ++ e :: drop (S i) (elements lst).
Proof using Hv He. rewrite (children_list ps lst Hv). by rewrite take_drop_middle. Qed.

Lemma shorter_ok : value_ok (s_type ps) (VList shorter).
Proof using Hwf Hp Hv Ha He.
  pose proof (wf_value c Hwf p ps Hp) as Hok. rewrite Hv in Hok.
  assert (list_ok lst) as [Hd Hl] by (by destruct (s_type ps)).
  assert (list_ok shorter); [|by destruct (s_type ps)]. split; [done|].
  pose proof (take_drop_middle (elements lst) i e He) as E. unfold list_length in *.
  rewrite <- E, length_app in Hl. simpl in *. rewrite length_app. lia.
Qed.

Lemma detached_agrees : agrees c detached e.
Proof using Hwf Hp Hv He.
  intros k Hk%(below_le c Hwf). destruct detach_child as (_ & se & _ & _ & ?).
  unfold detached. simpl. rewrite lookup_insert_ne; [done|]. intros ->. lia.
Qed.

Lemma removed_clear fuel : (Pos.to_nat (next c) < fuel + Pos.to_nat e)%nat ->
  removed c p e (clear c (postorder c fuel e) detached).
Proof using All.
  intros Hf. set (order := postorder c fuel e). destruct detach_child as (Hin & se & Hse & Hpe & Hlt).
  assert (forall k, k ∈ order <-> below c e k) as Hord.
  { intros k. unfold order. rewrite (postorder_below c Hwf fuel e k Hf). split; [tauto|intros; split; [by eexists|done]]. }
  assert (p ∉ order) as Hpo by (intros Hb%Hord%(below_le c Hwf); lia).
  assert (forall k, below c e k -> heap (clear c order detached) !! k = None) as Hgone.
  { intros k Hk. rewrite clear_lookup. case_decide as Hno; [done|]. by destruct Hno; apply Hord. }
  assert (heap (clear c order detached) !! p = Some (set_value (VList shorter) ps)) as Hp'
    by (rewrite clear_lookup, decide_False by done; apply lookup_insert_eq).
  assert (forall k, k <> p -> ~ below c e k -> heap (clear c order detached) !! k = heap c !! k) as Hkeep.
  { intros k Hkp Hk. rewrite clear_lookup, decide_False by (intros ?%Hord; done).
    unfold detached. simpl. by rewrite lookup_insert_ne. }
  destruct (NoDup_middle (take i (elements lst)) (drop (S i) (elements lst)) e) as [Hnd Hmem].
  { rewrite <- detach_split. by eapply wf_nodup. }
  split; try done.
  - apply (wf_removed c p ps (set_value (VList shorter) ps) e); try done; [|apply shorter_ok].
    intros k. rewrite detach_split. apply Hmem.
  - intros ps0 Hps0. assert (ps0 = ps) as -> by congruence.
    eexists _, _, _. split_and!; [apply detach_split|done|done|done].
  - exists order. split_and!; [by apply postorder_nodup|done|done].
  - intros ps0 ps' Hps0 Hps'. assert (ps0 = ps) as -> by congruence. rewrite Hp' in Hps'. by injection Hps' as <-.
Qed.

(** The tail the two removal functions share. *)
Lemma returns_detach idx (target : loc * config_list -> loc) : i = Z.to_nat idx ->
  target (e, shorter) = e ->
  returns (rl ← config_list_remove lst idx;
           update p (set_value (VList rl.2));;
           c ← get;
           config_setting_destroy (destroy_fuel c) (Some (target rl));;
           mret true) c (fun ok c' => ok = true /\ removed c p e c').
Proof using All.
  intros Hi Ht. unfold config_list_remove. rewrite <- Hi, He. rnext. apply returns_ret. fold shorter.
  rnext. apply (returns_update p _ ps); [done|]. fold detached. rnext.
  exists detached, detached. split; [done|]. rnext. rewrite Ht.
  destruct detach_child as (Hin & se & Hse & Hpe & Hlt).
  assert (Pos.to_nat (next c) < destroy_fuel detached + Pos.to_nat e)%nat as Hf
    by (unfold destroy_fuel, detached; simpl; lia).
  eexists tt, _. split.
  - apply (destroy_ok c Hwf _ e detached se Hf Hse detached_agrees). by destruct Hh; [left|right].
  - apply returns_ret. split; [done|]. by apply removed_clear.
Qed.
End Detach.

Lemma returns_remove c p ps name (P : bool -> config -> Prop) :
  wf c -> hooks_reachable c c -> heap c !! p = Some ps ->
  (member c p name = None -> P false c) ->
  (forall e c', member c p name = Some e -> removed c p e c' -> P true c') ->
  returns (config_setting_remove (Some p) (Some name)) c P.
Proof.
  intros Hwf Hh Hp HN HS. unfold config_setting_remove. rnext. apply (returns_deref p ps); [done|].
  unfold member in HN, HS. rewrite Hp in HN, HS.
  destruct (decide (s_type ps = T_GROUP)) as [Eg|]; [|by apply returns_ret, HN].
  destruct (list_of_ok ps c) as (o & Eo & Ho); [by rewrite Eg|by eapply wf_value|].
  rnext. exists o, c. split; [done|]. rnext. unfold config_list_search.
  destruct o as [lst|].
  - pose proof (live_children c p ps Hwf Hp) as Hlive. rewrite (children_list ps lst Ho) in *.
    destruct (list_search_named c (elements lst) 0 name Hlive) as (r & Er & Hr & Hj).
    exists r, c. split; [done|]. rewrite <- Hr in HN, HS.
    destruct r as [[e j]|]; simpl in HN, HS; [|by apply returns_ret, HN].
    destruct (Hj e j eq_refl) as [Hj0 He]. rewrite Z.sub_0_r in He.
    eapply returns_mono; [|eapply (returns_detach c p e ps lst _ Hwf Hh Hp Ho _ He j (fun _ => e)); done].
    intros ok c' [-> Hrm]. by apply (HS e).
  - exists None, c. split; [done|]. apply returns_ret, HN. by rewrite (children_zero ps Ho).
  Unshelve. by rewrite Eg.
Qed.

Lemma returns_remove_elem c p ps idx (P : bool -> config -> Prop) :
  wf c -> hooks_reachable c c -> heap c !! p = Some ps ->
  (elem_at ps idx = None -> P false c) ->
  (forall e c', elem_at ps idx = Some e -> removed c p e c' -> P true c') ->
  returns (config_setting_remove_elem (Some p) idx) c P.
Proof.
  intros Hwf Hh Hp HN HS. unfold config_setting_remove_elem. rnext. apply (returns_deref p ps); [done|].
  unfold elem_at in HN, HS.
  destruct (is_aggregate (s_type ps)) eqn:Ha; simpl negb; cbv iota; [|by apply returns_ret, HN].
  destruct (list_of_ok ps c) as (o & Eo & Ho); [done|by eapply wf_value|].
  rnext. exists o, c. split; [done|].
  destruct o as [lst|]; [|apply returns_ret, HN; by rewrite (children_zero ps Ho)].
  rewrite (children_list ps lst Ho) in *. unfold list_length.
  pose proof (uwrap_range 32 idx ltac:(lia)).
  destruct (Z.leb_spec (Z.of_nat (length (elements lst))) (u32 idx)).
  - apply returns_ret, HN. apply lookup_ge_None_2. lia.
  - destruct (lookup_lt_is_Some_2 (elements lst) (Z.to_nat (u32 idx))) as [e He]; [lia|].
    eapply returns_mono; [|eapply (returns_detach c p e ps lst _ Hwf Hh Hp Ho Ha He _ fst); done].
    intros ok c' [-> Hrm]. by apply (HS e).
Qed.
