(* ===== verification/ConfigApi.v ===== *)
(** * What libconfig promises its callers

    The calls of the public interface as data, and the theorems a caller relies
    on: calls on live settings never run into undefined behaviour and keep the
    configuration well formed; adding, removing and looking up members behave
    like operations on a finite map of valid names; what a setter stores, the
    getter returns; destruction frees everything, once. *)

From Stdlib Require Import SpecFloat.
From S2P Require Import Prelude Double CString Setting Config ConfigWf ConfigProps ConfigTree.
Local Open Scope Z_scope.

(** ** Calls *)

Inductive call :=
  | Set_int (l : loc) (v : Z) | Set_int64 (l : loc) (v : Z) | Set_float (l : loc) (v : spec_float)
  | Set_bool (l : loc) (v : Z) | Set_string (l : loc) (v : option string)
  | Set_format (l : loc) (f : Z) | Set_hook (l : loc) (h : option Z)
  | Set_int_elem (l : loc) (i v : Z) | Set_int64_elem (l : loc) (i v : Z)
  | Set_float_elem (l : loc) (i : Z) (v : spec_float) | Set_bool_elem (l : loc) (i v : Z)
  | Set_string_elem (l : loc) (i : Z) (v : option string)
  | Add (l : loc) (name : option string) (type : Z)
  | Remove (l : loc) (name : string) | Remove_elem (l : loc) (i : Z)
  | Get_int (l : loc) | Get_int64 (l : loc) | Get_float (l : loc) | Get_bool (l : loc)
  | Get_string (l : loc) | Get_format (l : loc)
  | Get_member (l : loc) (name : string) | Get_elem (l : loc) (i : Z)
  | Length (l : loc) | Index (l : loc).

(** The setting a call is made on. *)
Definition target (o : call) : loc :=
  match o with
  | Set_int l _ | Set_int64 l _ | Set_float l _ | Set_bool l _ | Set_string l _
  | Set_format l _ | Set_hook l _ | Set_int_elem l _ _ | Set_int64_elem l _ _
  | Set_float_elem l _ _ | Set_bool_elem l _ _ | Set_string_elem l _ _ | Add l _ _
  | Remove l _ | Remove_elem l _ | Get_int l | Get_int64 l | Get_float l | Get_bool l
  | Get_string l | Get_format l | Get_member l _ | Get_elem l _ | Length l | Index l => l
  end.

Definition ignore {A} (m : CM A) : CM unit := _ ← m; mret tt.

Definition run_call (o : call) : CM unit :=
  match o with
  | Set_int l v => ignore (config_setting_set_int l v)
  | Set_int64 l v => ignore (config_setting_set_int64 l v)
  | Set_float l v => ignore (config_setting_set_float l v)
  | Set_bool l v => ignore (config_setting_set_bool l v)
  | Set_string l v => ignore (config_setting_set_string l v)
  | Set_format l f => ignore (config_setting_set_format l f)
  | Set_hook l h => ignore (config_setting_set_hook l h)
  | Set_int_elem l i v => ignore (config_setting_set_int_elem l i v)
  | Set_int64_elem l i v => ignore (config_setting_set_int64_elem l i v)
  | Set_float_elem l i v => ignore (config_setting_set_float_elem l i v)
  | Set_bool_elem l i v => ignore (config_setting_set_bool_elem l i v)
  | Set_string_elem l i v => ignore (config_setting_set_string_elem l i v)
  | Add l name t => ignore (config_setting_add (Some l) name t)
  | Remove l name => ignore (config_setting_remove (Some l) (Some name))
  | Remove_elem l i => ignore (config_setting_remove_elem (Some l) i)
  | Get_int l => ignore (config_setting_get_int l)
  | Get_int64 l => ignore (config_setting_get_int64 l)
  | Get_float l => ignore (config_setting_get_float l)
  | Get_bool l => ignore (config_setting_get_bool l)
  | Get_string l => ignore (config_setting_get_string l)
  | Get_format l => ignore (config_setting_get_format l)
  | Get_member l name => ignore (config_setting_get_member l (Some name))
  | Get_elem l i => ignore (config_setting_get_elem l i)
  | Length l => ignore (config_setting_length l)
  | Index l => ignore (config_setting_index l)
  end.

Definition run_calls (os : list call) : CM unit := foldr (fun o k => run_call o;; k) (mret tt) os.

(** A double that fits a 64-bit integer, or a NaN or so that is never cast. *)
Definition castable (v : spec_float) : Prop := is_Some (double_to_int v) /\ is_Some (double_to_ll v).

(** What the interface asks of its callers beyond a live setting: no casts of
    doubles out of range, and a name, without NUL, for a member of a group. *)
Definition call_ok (c : config) (o : call) : Prop :=
  exists s, heap c !! target o = Some s /\
  match o with
  | Set_float _ v => float_fits c s v
  | Set_float_elem _ _ v => has_option c OPTION_AUTOCONVERT = true -> castable v
  | Add _ name _ => (s_type s = T_GROUP -> name <> None) /\ forall n, name = Some n -> c_string n = true
  | Get_int _ => has_option c OPTION_AUTOCONVERT = true -> s_type s = T_FLOAT ->
      forall v, as_fval (s_value s) = Some v -> is_Some (double_to_int v)
  | Get_int64 _ => has_option c OPTION_AUTOCONVERT = true -> s_type s = T_FLOAT ->
      forall v, as_fval (s_value s) = Some v -> is_Some (double_to_ll v)
  | _ => True
  end.

(** A sequence of calls each of which is allowed where it is made. *)
Fixpoint calls_ok (c : config) (os : list call) : Prop :=
  match os with
  | [] => True
  | o :: os' => call_ok c o /\ forall c', run_call o c = (Ret tt, c') -> calls_ok c' os'
  end.

(** The same, decided. *)
Definition is_some {A} (o : option A) : bool := match o with Some _ => true | None => false end.

Definition call_okb (c : config) (o : call) : bool :=
  match heap c !! target o with
  | None => false
  | Some s =>
      match o with
      | Set_float _ v | Set_float_elem _ _ v =>
          negb (has_option c OPTION_AUTOCONVERT) || is_some (double_to_int v) && is_some (double_to_ll v)
      | Add _ name _ =>
          match name with Some n => c_string n | None => negb (bool_decide (s_type s = T_GROUP)) end
      | Get_int _ | Get_int64 _ => negb (has_option c OPTION_AUTOCONVERT)
      | _ => true
      end
  end.

Fixpoint calls_okb (c : config) (os : list call) : bool :=
  match os with
  | [] => true
  | o :: os' => call_okb c o && match run_call o c with (Ret _, c') => calls_okb c' os' | _ => true end
  end.

Lemma is_some_ok {A} (o : option A) : is_some o = true -> is_Some o.
Proof. destruct o; by eauto. Qed.

Lemma call_okb_ok c o : call_okb c o = true -> call_ok c o.
Proof.
  unfold call_okb, call_ok. destruct (heap c !! target o) as [s|] eqn:Hs; [|done]. intros H.
  exists s. split; [done|]. destruct o; try done; try apply orb_true_iff in H as [H|H];
    try apply negb_true_iff in H; try (intros Ha; congruence);
    try (apply andb_true_iff in H as [H1%is_some_ok H2%is_some_ok]).
  - intros _. by destruct (s_type s).
  - by intros _.
  - destruct name as [n|]; [split; [done|]; by intros ? [= <-]|].
    split; [|done]. intros E _. by rewrite bool_decide_true in H.
Qed.

Lemma calls_okb_ok os : forall c, calls_okb c os = true -> calls_ok c os.
Proof.
  induction os as [|o os IH]; intros c; simpl; [done|].
  intros [Ho Hos]%andb_true_iff. split; [by apply call_okb_ok|].
  intros c' E. rewrite E in Hos. by apply IH.
Qed.

(** ** Every call returns and keeps the configuration well formed *)

Definition sound (c : config) : Prop := wf c /\ moved c = false.

Lemma sound_grows c c' : moved c = false -> grows c c' -> sound c'.
Proof. intros Hm Hg. split; [apply Hg|]. by rewrite (gr_moved _ _ Hg). Qed.

Lemma ignore_returns {A} (m : CM A) c (P : config -> Prop) :
  returns m c (fun _ c' => P c') -> returns (ignore m) c (fun _ c' => P c').
Proof. intros H. apply returns_bind. eapply returns_mono; [|done]. intros a c' HP. by apply returns_ret. Qed.

(** A computation that reads: it returns and changes nothing. *)
Definition reads {A} (m : CM A) (c : config) : Prop := exists a, m c = (Ret a, c).

Lemma reads_returns {A} (m : CM A) c (P : config -> Prop) :
  reads m c -> P c -> returns m c (fun _ c' => P c').
Proof. intros [a E] HP. by exists a, c. Qed.

Lemma reads_bind {A B} (m : CM A) (f : A -> CM B) c :
  reads m c -> (forall a, m c = (Ret a, c) -> reads (f a) c) -> reads (m ≫= f) c.
Proof. intros [a E] H. destruct (H a E) as [b E']. exists b. by rewrite (bind_ret _ _ _ _ _ E). Qed.

Lemma reads_ret {A} (a : A) c : reads (mret a) c.
Proof. by exists a. Qed.

Section Reads.
Context (c : config) (l : loc) (s : setting).
Context (Hwf : wf c) (Hm : moved c = false) (Hs : heap c !! l = Some s).

Lemma reads_deref : reads (deref l) c.
Proof using Hs. exists s. by apply deref_live. Qed.

Lemma reads_setting_config : reads setting_config c.
Proof using Hm. exists c. unfold setting_config. munfold. by rewrite Hm. Qed.

Lemma reads_auto_convert : reads setting_auto_convert c.
Proof using Hm. apply reads_bind; [apply reads_setting_config|]. intros. apply reads_ret. Qed.

(** The value agrees with the type: reading the member in use is defined. *)
Ltac reading :=
  intros; apply reads_bind; [apply reads_deref|]; intros a Ea;
  rewrite (deref_live l s c Hs) in Ea; injection Ea as <-;
  pose proof (wf_value c Hwf l s Hs) as Hv;
  destruct (s_type s) eqn:Et; try apply reads_ret; destruct (s_value s) eqn:Ev; try done; simpl;
  repeat match goal with
  | |- reads (_ ≫= _) _ => apply reads_bind; [first [apply reads_ret | apply reads_auto_convert]|intros]
  | |- reads (mret _) _ => apply reads_ret
  | |- reads (if ?b then _ else _) _ => destruct b eqn:?
  end.

Lemma auto_convert_value a : setting_auto_convert c = (Ret a, c) -> has_option c OPTION_AUTOCONVERT = a.
Proof using Hm. unfold setting_auto_convert, setting_config. munfold. rewrite Hm. by intros [= ->]. Qed.

(** A cast that is defined. *)
Lemma reads_cast (o : option Z) w : is_Some o -> reads (z ← lift_opt w o; mret (Some z)) c.
Proof. intros [z ->]. by exists (Some z). Qed.

Ltac cast Hd :=
  match goal with H : mret ?d c = (Ret ?v, c) |- _ => assert (d = v) as <- by (by injection H) end;
  apply reads_cast, Hd; [by eapply auto_convert_value|done|done].

Lemma reads_get_int : call_ok c (Get_int l) -> reads (get_int l) c.
Proof using All.
  intros (s' & Hs' & Hd). simpl in Hs'. assert (s' = s) as -> by congruence. unfold get_int.
  reading; cast Hd.
Qed.

Lemma reads_get_int64 : call_ok c (Get_int64 l) -> reads (get_int64 l) c.
Proof using All.
  intros (s' & Hs' & Hd). simpl in Hs'. assert (s' = s) as -> by congruence. unfold get_int64.
  reading; cast Hd.
Qed.

Lemma reads_get_float : reads (get_float l) c.
Proof using All. unfold get_float. reading. Qed.

Lemma reads_get_bool : reads (config_setting_get_bool l) c.
Proof using All. unfold config_setting_get_bool. reading; eexists; done. Qed.

Lemma reads_get_string : reads (config_setting_get_string l) c.
Proof using All. unfold config_setting_get_string. reading; eexists; done. Qed.

Lemma reads_get_format : reads (config_setting_get_format l) c.
Proof using All.
  apply reads_bind; [apply reads_deref|]. intros a _. destruct (negb _); [apply reads_ret|].
  apply reads_bind; [apply reads_setting_config|]. intros. apply reads_ret.
Qed.

Lemma reads_get_member name : reads (config_setting_get_member l (Some name)) c.
Proof using All. eexists. by apply (get_member_ok c l s). Qed.

Lemma reads_get_elem i : reads (config_setting_get_elem l i) c.
Proof using All. eexists. by apply (get_elem_ok c l s). Qed.

Lemma reads_length : reads (config_setting_length l) c.
Proof using All.
  apply reads_bind; [apply reads_deref|]. intros a Ea.
  rewrite (deref_live l s c Hs) in Ea. injection Ea as <-.
  destruct (is_aggregate (s_type s)) eqn:Ha; simpl; [|apply reads_ret].
  destruct (list_of_ok s c) as (o & Eo & _); [done|by eapply wf_value|].
  apply reads_bind; [by eexists|]. intros. apply reads_ret.
Qed.

Lemma reads_index : reads (config_setting_index l) c.
Proof using All.
  apply reads_bind; [apply reads_deref|]. intros a Ea.
  rewrite (deref_live l s c Hs) in Ea. injection Ea as <-.
  destruct (s_parent s) as [p|] eqn:Ep; [|apply reads_ret].
  destruct (wf_parent c Hwf l s p Hs Ep) as (_ & sp & Hsp & Hin).
  assert (exists lst, s_value sp = VList lst) as [lst Ev].
  { unfold children in Hin. destruct (s_value sp); try by apply not_elem_of_nil in Hin. eauto. }
  apply reads_bind; [eexists; by apply deref_live|]. intros a Ea.
  rewrite (deref_live p sp c Hsp) in Ea. injection Ea as <-.
  unfold list_of. rewrite Ev. by eexists.
Qed.
End Reads.

(** One call. *)
Lemma call_sound c o : sound c -> call_ok c o -> returns (run_call o) c (fun _ c' => sound c').
Proof.
  intros [Hwf Hm] Hok. pose proof Hok as (s & Hs & Hspec).
  assert (forall c', grows c c' -> sound c') as Hg by (intros; by eapply sound_grows).
  assert (hooks_reachable c c) as Hh by (by left).
  destruct o; simpl in Hs, Hspec |- *; apply ignore_returns.
  1-5: eapply returns_mono;
    [intros ok c' Hp; apply Hg; exact (set_post_grows c l s Hwf ok c' Hp)|].
  16-25: apply reads_returns; [|done].
  13: apply (returns_add c l s); try done; [by apply Hspec|by apply Hspec|intros; by apply Hg].
  13: apply (returns_remove c l s); try done; intros e c' _ Hr;
    split; [apply Hr|by rewrite (rm_moved _ _ _ _ Hr)].
  13: apply (returns_remove_elem c l s); try done; intros e c' _ Hr;
    split; [apply Hr|by rewrite (rm_moved _ _ _ _ Hr)].
  6-12: eapply returns_mono; [intros ok c'; by apply Hg|].
  8-12: apply (returns_mono _ _ (fun r c' => grows c c' /\ forall e, r = Some e -> is_Some (heap c' !! e)));
    [by intros r c' []|].
  8-12: apply (returns_set_elem c l s i); try done; intros c' e se Hwf' Hm' He Ho Ht.
  - by apply returns_set_int.
  - by apply returns_set_int64.
  - by apply returns_set_float.
  - by apply returns_set_bool.
  - by apply returns_set_string.
  - by apply (returns_set_format c l s).
  - by apply (returns_set_hook c l s).
  - by apply returns_set_int.
  - by apply returns_set_int64.
  - apply returns_set_float; try done. intros Ha. unfold has_option in *. rewrite Ho in Ha.
    destruct (Hspec Ha). by destruct (s_type se).
  - by apply returns_set_bool.
  - by apply returns_set_string.
  - apply reads_bind; [by apply (reads_get_int c l s)|]. intros. apply reads_ret.
  - apply reads_bind; [by apply (reads_get_int64 c l s)|]. intros. apply reads_ret.
  - apply reads_bind; [by apply (reads_get_float c l s)|]. intros. apply reads_ret.
  - by apply (reads_get_bool c l s).
  - by apply (reads_get_string c l s).
  - by apply (reads_get_format c l s).
  - by apply (reads_get_member c l s).
  - by apply (reads_get_elem c l s).
  - by apply (reads_length c l s).
  - by apply (reads_index c l s).
Qed.

Lemma calls_sound os : forall c, sound c -> calls_ok c os ->
  returns (run_calls os) c (fun _ c' => sound c').
Proof.
  induction os as [|o os IH]; intros c Hc Hok; simpl; [by apply returns_ret|].
  destruct Hok as [Ho Hos]. destruct (call_sound c o Hc Ho) as ([] & c' & E & Hc').
  apply returns_bind. exists tt, c'. split; [done|]. by apply IH, Hos.
Qed.

(** ** Members as a finite map *)

Lemma member_iff c p ps m e : wf c -> heap c !! p = Some ps -> s_type ps = T_GROUP ->
  member c p m = Some e <->
  e ∈ children ps /\ exists se, heap c !! e = Some se /\ s_name se = Some (name_key m).
Proof.
  intros Hwf Hp Hg.
  assert (forall e, e ∈ children ps -> exists se n, heap c !! e = Some se /\ s_name se = Some n /\
    name_key n = n) as Hch.
  { intros x Hx. destruct (wf_child c Hwf p ps x Hp Hx) as (sx & Hsx & _ & Hn).
    rewrite Hg in Hn. destruct Hn as (n & Hn & Hv). exists sx, n. split_and!; try done.
    by apply valid_name_key. }
  split.
  - intros (s & se & n & Hs & _ & Hin & Hse & Hn & Hk)%member_Some.
    assert (s = ps) as -> by congruence. split; [done|]. exists se. split; [done|].
    destruct (Hch e Hin) as (se' & n' & Hse' & Hn' & Hk'). congruence.
  - intros (Hin & se & Hse & Hn). destruct (member c p m) as [e'|] eqn:Hm.
    + apply member_Some in Hm as (s & se' & n & Hs & _ & Hin' & Hse' & Hn' & Hk).
      assert (s = ps) as -> by congruence.
      destruct (Hch e' Hin') as (se'' & n'' & Hse'' & Hn'' & Hk'').
      f_equal. eapply (wf_unique c Hwf p ps e' e se' se); try done. congruence.
    + exfalso. unfold member in Hm. rewrite Hp, decide_True in Hm by done.
      destruct (Hch e Hin) as (se'' & n'' & Hse'' & Hn'' & Hk'').
      eapply (find_named_None c (children ps) m (live_children c p ps Hwf Hp) Hm e se); try done.
      assert (n'' = name_key m) as <- by congruence. by rewrite Hk''.
Qed.

Lemma add_member_ok c p ps n ty : wf c -> heap c !! p = Some ps -> s_type ps = T_GROUP ->
  c_string n = true ->
  exists r c', config_setting_add (Some p) (Some n) ty c = (Ret r, c') /\ wf c' /\
    match r with
    | None => c' = c /\ (ctype_of_Z ty = None \/ config_validate_name n = false \/ is_Some (member c p n))
    | Some e => member c p n = None /\ heap c !! e = None /\
        (exists t, ctype_of_Z ty = Some t /\ heap c' !! e = Some (created p (Some n) t)) /\
        forall m, member c' p m = if decide (name_key m = n) then Some e else member c p m
    end.
Proof.
  intros Hwf Hp Hg Hc.
  cut (returns (config_setting_add (Some p) (Some n) ty) c (fun r c' => wf c' /\
    match r with
    | None => c' = c /\ (ctype_of_Z ty = None \/ config_validate_name n = false \/ is_Some (member c p n))
    | Some e => member c p n = None /\ heap c !! e = None /\
        (exists t, ctype_of_Z ty = Some t /\ heap c' !! e = Some (created p (Some n) t)) /\
        forall m, member c' p m = if decide (name_key m = n) then Some e else member c p m
    end)); [done|].
  assert (add_name ps (Some n) = Some n) as En by (unfold add_name; by rewrite Hg).
  apply (returns_add c p ps); try done; [by intros ? [= <-]| |].
  { intros Hr. split; [done|]. split; [done|]. rewrite Hg in Hr.
    destruct Hr as [?|[?|(n' & [= <-] & ?)]]; [by left|done|by right]. }
  rewrite En. intros t c' Ht _ Hgr Hn Hf Hfree He (ps' & Hp' & Hch').
  pose proof (gr_wf _ _ Hgr) as Hwf'. rewrite Hg in Hn. destruct Hn as (n' & [= <-] & Hv).
  destruct (gr_keeps _ _ Hgr p ps Hp) as (ps'' & Hp'' & _ & _ & Ht').
  assert (ps'' = ps') as -> by congruence. rewrite Hg in Ht'.
  assert (s_type ps' = T_GROUP) as Hg' by auto.
  assert (forall m x, member c p m = Some x -> name_key m <> n) as Hne.
  { intros m x (Hin & sx & Hsx & Hnx)%(member_iff c p ps m x Hwf Hp Hg) Hm.
    apply (Hf Hg x sx Hin Hsx). by rewrite Hnx, Hm. }
  split_and!; try done; [|by eauto|].
  - destruct (member c p n) eqn:E; [|done]. by apply Hne in E; rewrite valid_name_key in E.
  - intros m. apply option_eq. intros x. rewrite (member_iff c' p ps' m x Hwf' Hp' Hg'), Hch'.
    rewrite elem_of_app, list_elem_of_singleton. case_decide as Hm.
    + split.
      * intros ([Hin | ->] & sx & Hsx & Hnx); [|done]. exfalso.
        destruct (wf_child c Hwf p ps x Hp Hin) as (sx0 & Hsx0 & _).
        destruct (gr_keeps _ _ Hgr x sx0 Hsx0) as (sx' & Hsx' & _ & Nx & _).
        apply (Hf Hg x sx0 Hin Hsx0). congruence.
      * intros [= <-]. split; [by right|]. eexists. split; [done|]. by rewrite Hm.
    + rewrite (member_iff c p ps m x Hwf Hp Hg). split.
      * intros ([Hin | ->] & sx & Hsx & Hnx); [|rewrite He in Hsx; injection Hsx as <-; simpl in Hnx; congruence].
        split; [done|]. destruct (wf_child c Hwf p ps x Hp Hin) as (sx0 & Hsx0 & _).
        destruct (gr_keeps _ _ Hgr x sx0 Hsx0) as (sx' & Hsx' & _ & Nx & _).
        exists sx0. split; [done|]. congruence.
      * intros (Hin & sx & Hsx & Hnx). split; [by left|].
        destruct (gr_keeps _ _ Hgr x sx Hsx) as (sx' & Hsx' & _ & Nx & _). exists sx'. split; [done|]. congruence.
Qed.

Lemma remove_member_ok c p ps n : sound c -> heap c !! p = Some ps -> s_type ps = T_GROUP ->
  exists r c', config_setting_remove (Some p) (Some n) c = (Ret r, c') /\ sound c' /\
    match member c p n with
    | None => r = false /\ c' = c
    | Some e => r = true /\ removed c p e c' /\
        forall m, member c' p m = if decide (name_key m = name_key n) then None else member c p m
    end.
Proof.
  intros [Hwf Hm] Hp Hg. assert (hooks_reachable c c) as Hh by (by left).
  cut (returns (config_setting_remove (Some p) (Some n)) c (fun r c' => sound c' /\
    match member c p n with
    | None => r = false /\ c' = c
    | Some e => r = true /\ removed c p e c' /\
        forall m, member c' p m = if decide (name_key m = name_key n) then None else member c p m
    end)); [done|].
  apply (returns_remove c p ps); try done; [by intros ->|]. intros e c' E Hr. rewrite E.
  pose proof (rm_wf _ _ _ _ Hr) as Hwf'.
  split; [split; [done|by rewrite (rm_moved _ _ _ _ Hr)]|]. split_and!; [done..|].
  destruct (rm_parent _ _ _ _ Hr ps Hp) as (l1 & l2 & ps' & Hch & Hp' & Hch' & Ht').
  rewrite Hg in Ht'. apply (member_iff c p ps n e Hwf Hp Hg) in E as (Hin & se & Hse & Hn).
  assert (NoDup (l1 ++ e :: l2)) as Hnd by (rewrite <- Hch; by apply (wf_nodup c Hwf p)).
  destruct (NoDup_middle l1 l2 e Hnd) as [_ Hmem]. rewrite <- Hch, <- Hch' in Hmem.
  assert (forall x, x ∈ children ps -> x <> e -> heap c' !! x = heap c !! x) as Hkept.
  { intros x Hx Hxe. destruct (wf_child c Hwf p ps x Hp Hx) as (sx & Hsx & Hpx & _).
    destruct (wf_parent c Hwf x sx p Hsx Hpx). apply (rm_kept _ _ _ _ Hr); [by intros ->; lia|].
    intros Hb. apply Hxe. eapply (below_disjoint c Hwf p ps x e x); try done. constructor. }
  intros m. apply option_eq. intros x. rewrite (member_iff c' p ps' m x Hwf' Hp' Ht'), Hmem.
  case_decide as Hk.
  - split; [|done]. intros ((Hx & Hxe) & sx & Hsx & Hnx). exfalso. apply Hxe.
    rewrite Hkept in Hsx by done. eapply (wf_unique c Hwf p ps x e sx se); try done. congruence.
  - rewrite (member_iff c p ps m x Hwf Hp Hg). split.
    + intros ((Hx & Hxe) & sx & Hsx & Hnx). rewrite Hkept in Hsx by done. eauto.
    + intros (Hx & sx & Hsx & Hnx). assert (x <> e) as Hxe by (intros ->; congruence).
      split; [done|]. rewrite Hkept by done. eauto.
Qed.

(** ** Paths *)

(** A path in the abstract: members by name, elements by index. *)
Inductive path_step := Member (n : string) | Elem (i : Z).

Definition step_ok (st : path_step) : Prop :=
  match st with Member n => valid_name n | Elem i => 0 <= i <= INT_MAX end.

Definition step_text (st : path_step) : string :=
  match st with Member n => n | Elem i => "[" +:+ print_dec i +:+ "]" end.

(** Each further step follows a separator, one of the path tokens. *)
Fixpoint rest_text (steps : list (ascii * path_step)) : string :=
  match steps with
  | [] => ""
  | (sep, st) :: steps' => String sep (step_text st +:+ rest_text steps')
  end.

Definition child_at (c : config) (l : loc) (st : path_step) : option loc :=
  match st with
  | Member n => member c l n
  | Elem i => s ← heap c !! l; elem_at s i
  end.

Fixpoint descend (c : config) (l : loc) (steps : list path_step) : option loc :=
  match steps with
  | [] => Some l
  | st :: steps' => l' ← child_at c l st; descend c l' steps'
  end.

Lemma member_key c l a b : name_key a = name_key b -> member c l a = member c l b.
Proof.
  intros E. unfold member. destruct (heap c !! l) as [s|]; [|done]. case_decide; [|done].
  induction (children s) as [|x els IH]; simpl; [done|]. by rewrite E, IH.
Qed.

(** The text of a path stops names: it is empty or starts with a separator. *)
Lemma rest_text_head steps : Forall (fun x => is_path_token x.1 = true) steps ->
  rest_text steps = "" \/ exists sep s, rest_text steps = String sep s /\ is_path_token sep = true.
Proof. intros [|[sep st] steps' Hsep _]; [by left|]. right. simpl in *. eauto. Qed.

Lemma path_token_delim c : is_path_token c = true -> is_delim c = true /\ strchr PATH_TOKENS c = true /\
  is_digit_of 10 c = false.
Proof. destruct c as [[] [] [] [] [] [] [] []]; vm_compute; intros E; done. Qed.

Lemma name_text n tail : valid_name n ->
  (tail = "" \/ exists sep s, tail = String sep s /\ is_path_token sep = true) ->
  name_key (n +:+ tail) = n /\
  skip_while (fun c => negb (strchr PATH_TOKENS c)) (n +:+ tail) = tail.
Proof.
  intros Hv Ht. rewrite <- (valid_name_key n Hv) at 2. destruct Hv as [Hv Hc].
  assert (all_chars (fun c => negb (is_delim c)) n = true) as Hall.
  { assert (name_key n = n) as E by (by apply valid_name_key).
    clear Hv Hc. unfold name_key in E. induction n as [|c n IH]; [done|]. simpl in *.
    destruct (negb (is_delim c)); [|done]. simpl. injection E as E. by apply IH. }
  clear Hv Hc. induction n as [|c n IH]; simpl in *.
  - destruct Ht as [-> |(sep & s & -> & Hsep)]; [done|].
    destruct (path_token_delim sep Hsep) as (Hd & Hs & _). unfold name_key. simpl. by rewrite Hd, Hs.
  - apply andb_true_iff in Hall as [Hc Hall]. destruct (IH Hall) as [E1 E2].
    unfold name_key in *. simpl. rewrite Hc, E1. split; [done|].
    assert (strchr PATH_TOKENS c = false) as ->; [|done].
    apply negb_true_iff, orb_false_iff in Hc. by destruct Hc.
Qed.

Lemma lookup_loop_tokens n l p p' c : skip_while is_path_token p = skip_while is_path_token p' ->
  lookup_loop n l p c = lookup_loop n l p' c.
Proof. destruct n; simpl; [done|]. by intros ->. Qed.

Lemma append_assoc (a b c : string) : (a +:+ b) +:+ c = a +:+ (b +:+ c).
Proof. induction a as [|x a IH]; [done|]. change (String x ((a +:+ b) +:+ c) = String x (a +:+ (b +:+ c))). by f_equal. Qed.

Lemma name_start x : (isalpha x || (x =? "*")%char)%bool = true ->
  is_path_token x = false /\ (x =? "[")%char = false.
Proof. destruct x as [[] [] [] [] [] [] [] []]; vm_compute; intros; split; done. Qed.

(** One round of the loop goes down one step. *)
Lemma lookup_loop_step c l s n st tail : wf c -> heap c !! l = Some s -> step_ok st ->
  (tail = "" \/ exists sep s, tail = String sep s /\ is_path_token sep = true) ->
  lookup_loop (S n) l (step_text st +:+ tail) c =
  match child_at c l st with
  | Some l' => lookup_loop n l' tail c
  | None => (Ret None, c)
  end.
Proof.
  intros Hwf Hs Hok Ht. destruct st as [nm|i]; simpl in Hok.
  - destruct (name_text nm tail Hok Ht) as [Hkey Hskip]. simpl step_text.
    assert (exists x nm', nm = String x nm' /\ is_path_token x = false /\ (x =? "[")%char = false)
      as (x & nm' & -> & Hx & Hb).
    { destruct Hok as [Hv _]. destruct nm as [|x nm']; [done|]. exists x, nm'. split; [done|].
      simpl in Hv. apply name_start.
      destruct (isalpha x); [done|]. by destruct (x =? "*")%char. }
    simpl lookup_loop. rewrite Hx, Hb. change (String x (nm' +:+ tail)) with (String x nm' +:+ tail).
    rewrite (bind_ret _ _ _ _ _ (get_member_ok c l s _ Hwf Hs)).
    rewrite (member_key c l (String x nm' +:+ tail) (String x nm')) by (rewrite Hkey; symmetry; by apply valid_name_key).
    simpl child_at. destruct (member c l (String x nm')) as [l'|]; [|done].
    by rewrite Hskip.
  - assert (step_text (Elem i) +:+ tail = String "[" (print_dec i +:+ ("]" +:+ tail))) as ->
      by exact (f_equal (String "[") (append_assoc (print_dec i) "]" tail)).
    cbn [lookup_loop skip_while]. change (is_path_token "[") with false. cbv iota.
    change ("[" =? "[")%char with true. cbv iota zeta.
    rewrite (bind_ret _ _ _ _ _ (get_elem_ok c l s _ Hwf Hs)).
    assert (is_digit_of 10 (head_char ("]" +:+ tail)) = false) as Hd by done.
    rewrite atoi_print_dec by done. simpl child_at. rewrite Hs. simpl.
    assert (0 <= i < 10 ^ 70) as Hi by (unfold INT_MAX in Hok; assert (2 ^ 31 < 10 ^ 70) by done; lia).
    assert (print_dec i = digits 10 i) as -> by (unfold print_dec; by rewrite (proj2 (Z.ltb_ge i 0)) by lia).
    unfold digits. rewrite digits_aux_app. destruct (elem_at s i) as [l'|].
    + rewrite skip_digits.
      2:{ intros d Hd'. destruct (digit_char_ok d ltac:(lia)) as (_ & H & _). specialize (H ltac:(lia)).
          revert H. generalize (digit_char d). clear.
          intros x. destruct x as [[] [] [] [] [] [] [] []]; vm_compute; done. }
      simpl. f_equal. destruct Ht as [-> |(sep & s' & -> & Hsep)]; [done|]. simpl.
      by destruct (path_token_delim sep Hsep) as (_ & -> & _).
    + destruct (digits_aux_head 10 70 i ("" +:+ "]" +:+ tail)) as (x & s' & -> & _); [lia|done|lia|done].
Qed.

Lemma child_at_live c l s st l' : wf c -> heap c !! l = Some s -> child_at c l st = Some l' ->
  is_Some (heap c !! l').
Proof.
  intros Hwf Hs. destruct st as [n|i]; simpl.
  - intros (? & ? & ? & _ & _ & _ & ? & _)%member_Some. eauto.
  - rewrite Hs. simpl. intros He%elem_at_child. by eapply live_children.
Qed.

Lemma length_append a b : String.length (a +:+ b) = (String.length a + String.length b)%nat.
Proof.
  induction a as [|x a IH]; [done|].
  change (S (String.length (a +:+ b)) = S (String.length a + String.length b)). by rewrite IH.
Qed.

Lemma step_text_length st : step_ok st -> (0 < String.length (step_text st))%nat.
Proof. destruct st as [[|x n]|i]; simpl; [by intros []|lia|lia]. Qed.

Lemma lookup_loop_rest c steps : wf c ->
  Forall (fun x => is_path_token x.1 = true /\ step_ok x.2) steps ->
  forall n l s, heap c !! l = Some s -> (String.length (rest_text steps) < n)%nat ->
  lookup_loop n l (rest_text steps) c = (Ret (descend c l (map snd steps)), c).
Proof.
  intros Hwf. induction 1 as [|[sep st] steps [Hsep Hok] Hall IH]; intros n l s Hs Hn.
  { destruct n; [simpl in Hn; lia|done]. }
  simpl in Hn. destruct n as [|n]; [lia|].
  rewrite (lookup_loop_tokens _ _ _ (step_text st +:+ rest_text steps)) by (simpl in *; by rewrite Hsep).
  rewrite (lookup_loop_step c l s n st); [|done..|].
  2:{ apply rest_text_head. eapply Forall_impl; [done|]. by intros ? []. }
  simpl descend. destruct (child_at c l st) as [l'|] eqn:E; [|done].
  destruct (child_at_live c l s st l' Hwf Hs E) as [s' Hs']. simpl. apply (IH n l' s' Hs').
  rewrite length_append in Hn. lia.
Qed.

Lemma path_lookup_ok c l s first steps : wf c -> heap c !! l = Some s -> step_ok first ->
  Forall (fun x => is_path_token x.1 = true /\ step_ok x.2) steps ->
  config_setting_lookup l (step_text first +:+ rest_text steps) c =
    (Ret (descend c l (first :: map snd steps)), c).
Proof.
  intros Hwf Hs Hok Hall. unfold config_setting_lookup.
  rewrite (lookup_loop_step c l s _ first); [|done..|].
  2:{ apply rest_text_head. eapply Forall_impl; [done|]. by intros ? []. }
  simpl descend. destruct (child_at c l first) as [l'|] eqn:E; [|done].
  destruct (child_at_live c l s first l' Hwf Hs E) as [s' Hs']. simpl.
  apply (lookup_loop_rest c steps Hwf Hall _ l' s' Hs').
  rewrite length_append. pose proof (step_text_length first Hok). lia.
Qed.

(** ** A fresh configuration *)

Lemma init_sound c : heap c = ∅ -> exists c' r, config_init c = (Ret tt, c') /\ sound c' /\
  root c' = Some r /\ heap c' = {[r := new_setting T_GROUP]}.
Proof.
  intros Hh. eexists _, (next c). split; [reflexivity|]. simpl. rewrite Hh.
  split_and!; [|done|by rewrite insert_empty]. split; [|done].
  assert (forall l s, (<[next c := new_setting T_GROUP]> (∅ : gmap positive setting)) !! l = Some s ->
    l = next c /\ s = new_setting T_GROUP) as Hone.
  { intros l s. destruct (decide (l = next c)) as [-> |]; [rewrite lookup_insert_eq; naive_solver|].
    by rewrite lookup_insert_ne. }
  split; simpl; try (intros l s; intros; destruct (Hone l s) as [-> ->]; [done|]; simpl in *; try done; try lia).
  - constructor.
  - by match goal with H : _ ∈ _ |- _ => apply not_elem_of_nil in H end.
  - by match goal with H : e1 ∈ _ |- _ => apply not_elem_of_nil in H end.
  - eexists _, _. split_and!; [done|by rewrite lookup_insert_eq|done..].
Qed.

(** What config_init makes of uninitialised memory. *)
Definition initialised : config := snd (config_init blank).

Lemma initialised_sound : sound initialised.
Proof. by destruct (init_sound blank eq_refl) as (c' & r & E & Hs & _); injection E as <-. Qed.

(** A client at work: nested groups, a list and scalars of every type. *)
Definition sample_calls : list call :=
  [ Add 1 (Some "server") 1; Add 2 (Some "port") 0; Set_int 3 123; Set_format 3 FORMAT_HEX;
    Add 2 (Some "hosts") 8; Set_string_elem 4 (-1) (Some "ntp.example"); Set_int64_elem 4 (-1) (2 ^ 40);
    Add 1 (Some "retries") 3; Set_int64 7 (2 ^ 33); Set_hook 7 (Some 9); Get_int 7;
    Add 1 (Some "retries") 3; Add 1 (Some "debug") 6; Set_bool 8 1; Set_int 8 1;
    Remove_elem 4 0; Get_elem 4 5; Index 8; Remove 1 "server"; Length 1 ].

(** ** The properties *)



(** C19: Adding a member to a group behaves like an insertion into a finite map
    of names: it is refused, without effect, for a type out of range, a name
    that is not valid or a name that is taken; otherwise the new setting has
    the name and type asked for, lookup by that name finds it and every other
    lookup answers as before. *)
Theorem add_member_insert c p ps n ty : wf c -> heap c !! p = Some ps -> s_type ps = T_GROUP ->
  c_string n = true ->
  exists r c', config_setting_add (Some p) (Some n) ty c = (Ret r, c') /\ wf c' /\
    match r with
    | None => c' = c /\ (ctype_of_Z ty = None \/ config_validate_name n = false \/
        exists e, config_setting_get_member p (Some n) c = (Ret (Some e), c))
    | Some e => heap c !! e = None /\
        (exists t, ctype_of_Z ty = Some t /\ heap c' !! e = Some (created p (Some n) t)) /\
        config_setting_get_member p (Some n) c = (Ret None, c) /\
        forall m, config_setting_get_member p (Some m) c' =
          (Ret (if decide (name_key m = n) then Some e else member c p m), c')
    end.
Proof.
  intros Hwf Hp Hg Hc. destruct (add_member_ok c p ps n ty Hwf Hp Hg Hc) as (r & c' & E & Hwf' & Hr).
  exists r, c'. split_and!; [done..|]. destruct r as [e|].
  - destruct Hr as (Hm & Hfree & Ht & Hlook). split_and!; try done.
    + by rewrite (get_member_ok c p ps), Hm.
    + intros m. assert (is_Some (heap c' !! p)) as [ps' Hp'].
      { specialize (Hlook n). destruct Ht as (t & _ & He).
        destruct (wf_parent c' Hwf' e _ p He eq_refl) as (_ & sp & -> & _). eauto. }
      by rewrite (get_member_ok c' p ps'), Hlook.
  - destruct Hr as (-> & [Ht|[Hv|[e He]]]); split; auto. right; right. exists e.
    by rewrite (get_member_ok c p ps), He.
Qed.

Lemma add_member_insert_witness :
  exists r c', config_setting_add (Some 1%positive) (Some "port") 2 initialised = (Ret r, c') /\ wf c' /\
    match r with
    | None => c' = initialised /\ (ctype_of_Z 2 = None \/ config_validate_name "port" = false \/
        exists e, config_setting_get_member 1 (Some "port") initialised = (Ret (Some e), initialised))
    | Some e => heap initialised !! e = None /\
        (exists t, ctype_of_Z 2 = Some t /\ heap c' !! e = Some (created 1 (Some "port") t)) /\
        config_setting_get_member 1 (Some "port") initialised = (Ret None, initialised) /\
        forall m, config_setting_get_member 1 (Some m) c' =
          (Ret (if decide (name_key m = "port") then Some e else member initialised 1 m), c')
    end.
Proof.
  apply (add_member_insert initialised 1 (new_setting T_GROUP) "port" 2); [apply initialised_sound|done..].
Defined.

(** C20: Removing a member by name behaves like a deletion from the map: it
    succeeds exactly when the name is bound, frees the setting with everything
    below it and nothing else, calls the destructor once for each hook freed,
    and afterwards that name is unbound while every other lookup answers as
    before. *)
Theorem remove_member_delete c p ps n : sound c -> heap c !! p = Some ps -> s_type ps = T_GROUP ->
  exists r c', config_setting_remove (Some p) (Some n) c = (Ret r, c') /\ sound c' /\
    match member c p n with
    | None => r = false /\ c' = c
    | Some e => r = true /\ removed c p e c' /\
        forall m, member c' p m = if decide (name_key m = name_key n) then None else member c p m
    end.
Proof. apply remove_member_ok. Qed.

(** [sample] after the first calls: a server group with a port and hosts. *)
Definition sample : config := snd (run_calls (take 7 sample_calls) initialised).

Lemma sample_sound : sound sample.
Proof.
  destruct (calls_sound (take 7 sample_calls) initialised initialised_sound) as ([] & c' & E & H).
  - apply calls_okb_ok. by vm_compute.
  - unfold sample. by rewrite E.
Qed.

Lemma remove_member_delete_witness :
  exists r c', config_setting_remove (Some 1%positive) (Some "server") sample = (Ret r, c') /\ sound c' /\
    match member sample 1 "server" with
    | None => r = false /\ c' = sample
    | Some e => r = true /\ removed sample 1 e c' /\
        forall m, member c' 1 m = if decide (name_key m = name_key "server") then None else member sample 1 m
    end.
Proof. eapply (remove_member_delete sample 1); [apply sample_sound|vm_compute; reflexivity|done]. Defined.

(** C25: Path lookup is component-wise descent: for a path written from valid
    member names and [[index]] steps, separated by any of the separators, the
    character loop of config_setting_lookup answers what descending through the
    steps one by one does, and changes nothing. *)
Theorem path_lookup_descends c l s first steps : wf c -> heap c !! l = Some s -> step_ok first ->
  Forall (fun x => is_path_token x.1 = true /\ step_ok x.2) steps ->
  config_setting_lookup l (step_text first +:+ rest_text steps) c =
    (Ret (descend c l (first :: map snd steps)), c).
Proof. apply path_lookup_ok. Qed.

Lemma path_lookup_descends_witness :
  config_setting_lookup 1 "server.hosts/[1]" sample = (Ret (Some 6%positive), sample).
Proof.
  eapply (path_lookup_descends sample 1 _ (Member "server") [("."%char, Member "hosts"); ("/"%char, Elem 1)]).
  - apply sample_sound.
  - vm_compute; reflexivity.
  - done.
  - repeat constructor; done.
Defined.

(** C24: Destroying a configuration terminates within the fuel the tree bounds,
    frees every setting exactly once, children before their parent, passes
    each hook exactly once to the destructor (if there is one), in that order,
    and leaves no setting and no root behind. *)
Theorem destroy_frees_all c : wf c -> hooks_reachable c c ->
  exists order c', config_destroy c = (Ret tt, c') /\ heap c' = ∅ /\ root c' = None /\
    destroyed c' = destroyed c ++ (if destructor c then omap (hook_of c) order else []) /\
    NoDup order /\ (forall l, l ∈ order <-> is_Some (heap c !! l)) /\
    (forall l s p, heap c !! l = Some s -> s_parent s = Some p ->
       exists xs ys zs, order = xs ++ l :: ys ++ p :: zs).
Proof.
  intros Hwf Hh. destruct (destroy_config_ok c Hwf Hh) as (o & c' & ? & ? & ? & ? & ? & ? & ? & _).
  by exists o, c'.
Qed.

Lemma destroy_frees_all_witness :
  exists order c', config_destroy sample = (Ret tt, c') /\ heap c' = ∅ /\ root c' = None /\
    destroyed c' = destroyed sample ++ (if destructor sample then omap (hook_of sample) order else []) /\
    NoDup order /\ (forall l, l ∈ order <-> is_Some (heap sample !! l)) /\
    (forall l s p, heap sample !! l = Some s -> s_parent s = Some p ->
       exists xs ys zs, order = xs ++ l :: ys ++ p :: zs).
Proof. apply (destroy_frees_all sample); [apply sample_sound|by left]. Defined.
