(* ===== verification/ScanCtx.v ===== *)
(** * String buffers and scanner contexts (lib/strbuf.c, lib/scanctx.c)

    The growing string buffer, the stack of include files, and the state that
    the scanner and the parser of a configuration share.  The contents of files
    come from outside: [fs] gives the text of every file that can be opened. *)

From S2P Require Import Prelude Double CString Setting Config.
Local Open Scope Z_scope.

(** ** strbuf_t *)

Record strbuf_t := { sb_string : option string; sb_length : Z; sb_capacity : Z }.

Definition STRING_BLOCK_SIZE : Z := 64.
Definition empty_strbuf : strbuf_t := {| sb_string := None; sb_length := 0; sb_capacity := 0 |}.

(** The C string that starts at the first of these characters. *)
Fixpoint c_str (s : string) : string :=
  match s with
  | EmptyString => EmptyString
  | String c s' => if (c =? NUL)%char then EmptyString else String c (c_str s')
  end.

Definition strlen (s : string) : Z := Z.of_nat (String.length s).

(** The string, and the buffer left behind. *)
Definition strbuf_release (buf : strbuf_t) : option string * strbuf_t :=
  (buf.(sb_string), empty_strbuf).

(** [None] when strcpy would write outside the allocation. *)
Definition strbuf_append (buf : strbuf_t) (text : string) : option strbuf_t :=
  let text := c_str text in
  let mask := u64 (Z.lnot (STRING_BLOCK_SIZE - 1)) in
  let len := strlen text in
  let newlen := buf.(sb_length) + len + 1 in
  let capacity := if buf.(sb_capacity) <? newlen
                  then Z.land (newlen + (STRING_BLOCK_SIZE - 1)) mask
                  else buf.(sb_capacity) in
  if newlen <=? capacity then
    Some {| sb_string := Some (default "" buf.(sb_string) +:+ text);
            sb_length := buf.(sb_length) + len;
            sb_capacity := capacity |}
  else None.

(** ** Scanner buffers (YY_BUFFER_STATE)

    The characters not scanned yet, whether a line begins there, and the line
    number. *)
Record buffer := { rest : string; at_bol : bool; bs_lineno : Z }.

Definition new_buffer (text : string) : buffer :=
  {| rest := text; at_bol := true; bs_lineno := 1 |}.

(** ** struct scan_context; the arrays hold the open include files, the last
    one first.  What an entry of the array of buffers is depends on the model of
    the scanner: a text here. *)

Definition MAX_INCLUDE_DEPTH : Z := 10.
Definition FILE_SEPARATOR : string := "/".
Definition err_bad_include : string := "cannot open include file".
Definition err_include_too_deep : string := "include file nesting too deep".

Record scan_context_of (B : Type) := {
  top_filename : option string;
  files : list string;
  buffers : list B;
  sc_string : strbuf_t;
  sc_filenames : list string
}.
Arguments top_filename {B}.
Arguments files {B}.
Arguments buffers {B}.
Arguments sc_string {B}.
Arguments sc_filenames {B}.

Abbreviation scan_context := (scan_context_of buffer).

Definition depth {B} (ctx : scan_context_of B) : Z := Z.of_nat (length ctx.(files)).

(** The name in the list, which is extended unless it is there already. *)
Definition scanctx_add_filename (names : list string) (filename : string)
    : string * list string :=
  match List.find (fun f => streq f filename) names with
  | Some f => (f, names)
  | None => (filename, names ++ [filename])
  end.

Definition scanctx_init {B} (top : option string) : scan_context_of B :=
  match top with
  | None => {| top_filename := None; files := []; buffers := []; sc_string := empty_strbuf;
               sc_filenames := [] |}
  | Some f =>
      let (f, names) := scanctx_add_filename [] f in
      {| top_filename := Some f; files := []; buffers := []; sc_string := empty_strbuf;
         sc_filenames := names |}
  end.

Definition scanctx_cleanup {B} (ctx : scan_context_of B) : list string := ctx.(sc_filenames).

Definition scanctx_current_filename {B} (ctx : scan_context_of B) : option string :=
  match ctx.(files) with [] => ctx.(top_filename) | f :: _ => Some f end.

(** The string scanned so far, an empty one when there is none. *)
Definition scanctx_take_string {B} (ctx : scan_context_of B) : string * scan_context_of B :=
  let (r, s) := strbuf_release ctx.(sc_string) in
  (default "" r,
   {| top_filename := ctx.(top_filename); files := ctx.(files); buffers := ctx.(buffers);
      sc_string := s; sc_filenames := ctx.(sc_filenames) |}).

Definition scanctx_append_string {B} (ctx : scan_context_of B) (s : string)
    : option (scan_context_of B) :=
  (fun b => {| top_filename := ctx.(top_filename); files := ctx.(files);
               buffers := ctx.(buffers); sc_string := b;
               sc_filenames := ctx.(sc_filenames) |})
    <$> strbuf_append ctx.(sc_string) s.

(** The file opened for an include, or the error; the scanner's buffer is kept
    on the stack. *)
Definition scanctx_push_include (fs : string -> option string) (include_dir : option string)
    (ctx : scan_context) (buf : buffer) : (string + string) * scan_context :=
  if depth ctx =? MAX_INCLUDE_DEPTH then (inr err_include_too_deep, ctx)
  else
    let (file, ctx) := scanctx_take_string ctx in
    let full_file := match include_dir with
                     | Some d => d +:+ FILE_SEPARATOR +:+ file
                     | None => file
                     end in
    match fs full_file with
    | Some text =>
        let (f, names) := scanctx_add_filename ctx.(sc_filenames) file in
        (inl text,
         {| top_filename := ctx.(top_filename); files := f :: ctx.(files);
            buffers := buf :: ctx.(buffers); sc_string := ctx.(sc_string);
            sc_filenames := names |})
    | None => (inr err_bad_include, ctx)
    end.

Definition scanctx_pop_include {B} (ctx : scan_context_of B)
    : option (B * scan_context_of B) :=
  match ctx.(files), ctx.(buffers) with
  | _ :: fl, b :: bl =>
      Some (b, {| top_filename := ctx.(top_filename); files := fl; buffers := bl;
                  sc_string := ctx.(sc_string); sc_filenames := ctx.(sc_filenames) |})
  | _, _ => None
  end.

(** ** The state of a parse

    The configuration being built, the scanner (its context, current buffer,
    start state, yytext and yyout) and struct parse_context. *)
Record pstate := {
  cfg : config;
  scan : scan_context;
  buf : buffer;
  yy_start : Z;
  yytext : string;
  pc_parent : option loc;
  pc_setting : option loc;
  pc_string : strbuf_t;
  yyout : string
}.

Definition with_cfg (c : config) (p : pstate) : pstate :=
  {| cfg := c; scan := p.(scan); buf := p.(buf); yy_start := p.(yy_start);
     yytext := p.(yytext); pc_parent := p.(pc_parent); pc_setting := p.(pc_setting);
     pc_string := p.(pc_string); yyout := p.(yyout) |}.

Definition with_scan (s : scan_context) (p : pstate) : pstate :=
  {| cfg := p.(cfg); scan := s; buf := p.(buf); yy_start := p.(yy_start);
     yytext := p.(yytext); pc_parent := p.(pc_parent); pc_setting := p.(pc_setting);
     pc_string := p.(pc_string); yyout := p.(yyout) |}.

Definition with_buf (b : buffer) (p : pstate) : pstate :=
  {| cfg := p.(cfg); scan := p.(scan); buf := b; yy_start := p.(yy_start);
     yytext := p.(yytext); pc_parent := p.(pc_parent); pc_setting := p.(pc_setting);
     pc_string := p.(pc_string); yyout := p.(yyout) |}.

Definition with_start (z : Z) (p : pstate) : pstate :=
  {| cfg := p.(cfg); scan := p.(scan); buf := p.(buf); yy_start := z;
     yytext := p.(yytext); pc_parent := p.(pc_parent); pc_setting := p.(pc_setting);
     pc_string := p.(pc_string); yyout := p.(yyout) |}.

Definition with_yytext (t : string) (p : pstate) : pstate :=
  {| cfg := p.(cfg); scan := p.(scan); buf := p.(buf); yy_start := p.(yy_start);
     yytext := t; pc_parent := p.(pc_parent); pc_setting := p.(pc_setting);
     pc_string := p.(pc_string); yyout := p.(yyout) |}.

Definition with_parent (l : option loc) (p : pstate) : pstate :=
  {| cfg := p.(cfg); scan := p.(scan); buf := p.(buf); yy_start := p.(yy_start);
     yytext := p.(yytext); pc_parent := l; pc_setting := p.(pc_setting);
     pc_string := p.(pc_string); yyout := p.(yyout) |}.

Definition with_setting (l : option loc) (p : pstate) : pstate :=
  {| cfg := p.(cfg); scan := p.(scan); buf := p.(buf); yy_start := p.(yy_start);
     yytext := p.(yytext); pc_parent := p.(pc_parent); pc_setting := l;
     pc_string := p.(pc_string); yyout := p.(yyout) |}.

Definition with_pstring (b : strbuf_t) (p : pstate) : pstate :=
  {| cfg := p.(cfg); scan := p.(scan); buf := p.(buf); yy_start := p.(yy_start);
     yytext := p.(yytext); pc_parent := p.(pc_parent); pc_setting := p.(pc_setting);
     pc_string := b; yyout := p.(yyout) |}.

(** ECHO: text written to yyout, the standard output. *)
Definition with_echo (t : string) (p : pstate) : pstate :=
  {| cfg := p.(cfg); scan := p.(scan); buf := p.(buf); yy_start := p.(yy_start);
     yytext := p.(yytext); pc_parent := p.(pc_parent); pc_setting := p.(pc_setting);
     pc_string := p.(pc_string); yyout := p.(yyout) +:+ t |}.

Abbreviation PM := (M pstate).

(** Runs an operation on the configuration. *)
Definition on_config {A} (m : CM A) : PM A := fun p =>
  let (o, c) := m p.(cfg) in (o, with_cfg c p).

(** ** String buffers hold what was appended, within their capacity *)

Definition strbuf_ok (b : strbuf_t) : Prop :=
  match sb_string b with
  | None => sb_length b = 0 /\ sb_capacity b = 0
  | Some s => sb_length b = strlen s /\ sb_length b < sb_capacity b
  end /\ (STRING_BLOCK_SIZE | sb_capacity b).

Lemma strlen_app a b : strlen (a +:+ b) = strlen a + strlen b.
Proof.
  unfold strlen. induction a as [|c a IH]; [done|].
  change (String c a +:+ b) with (String c (a +:+ b)). cbn [String.length]. lia.
Qed.

Lemma round_block z : 0 <= z < 2 ^ 63 ->
  let r := Z.land (z + (STRING_BLOCK_SIZE - 1)) (u64 (Z.lnot (STRING_BLOCK_SIZE - 1))) in
  z <= r < z + STRING_BLOCK_SIZE /\ (STRING_BLOCK_SIZE | r).
Proof.
  intros Hz r. subst r. unfold STRING_BLOCK_SIZE.
  change (u64 (Z.lnot (64 - 1))) with (Z.shiftl (Z.ones 58) 6).
  assert (Z.land (z + (64 - 1)) (Z.shiftl (Z.ones 58) 6) = (z + 63) / 64 * 64) as ->.
  { change (64 - 1) with 63. set (y := z + 63). assert (0 <= y < 2 ^ 64) as Hy by lia.
    apply Z.bits_inj'. intros n Hn. rewrite Z.land_spec.
    change 64 with (2 ^ 6). rewrite <- Z.shiftr_div_pow2, <- Z.shiftl_mul_pow2 by lia.
    destruct (Z.ltb_spec n 6).
    - rewrite !Z.shiftl_spec_low by lia. apply andb_false_r.
    - rewrite !Z.shiftl_spec_high by lia. rewrite Z.shiftr_spec by lia.
      replace (n - 6 + 6) with n by lia.
      destruct (Z.ltb_spec n 64).
      + rewrite Z.ones_spec_low by lia. by rewrite andb_true_r.
      + rewrite (Z.bits_above_log2 y), andb_false_l; [done|lia|].
        destruct (Z.eq_dec y 0) as [->|]; [simpl; lia|]. apply Z.log2_lt_pow2; [lia|].
        eapply Z.lt_le_trans; [apply Hy|]. apply Z.pow_le_mono_r; lia. }
  pose proof (Z.div_mod (z + 63) 64). pose proof (Z.mod_pos_bound (z + 63) 64).
  split; [lia|]. apply Z.divide_factor_r.
Qed.

Lemma strbuf_append_ok b text : strbuf_ok b ->
  sb_length b + strlen (c_str text) + 1 < 2 ^ 63 ->
  exists b', strbuf_append b text = Some b' /\ strbuf_ok b' /\
    sb_string b' = Some (default "" (sb_string b) +:+ c_str text).
Proof.
  intros [Hb Hd] Hlen. unfold strbuf_append.
  set (newlen := sb_length b + strlen (c_str text) + 1) in *.
  assert (0 <= strlen (c_str text)) by (unfold strlen; lia).
  assert (0 <= sb_length b) by (destruct (sb_string b); unfold strlen in *; lia).
  assert (strlen (default "" (sb_string b)) = sb_length b) as Hs
    by (destruct (sb_string b); simpl; destruct Hb as [-> _]; done).
  pose proof (round_block newlen ltac:(lia)) as [Hr Hrd].
  destruct (Z.ltb_spec (sb_capacity b) newlen).
  - rewrite (proj2 (Z.leb_le _ _)) by lia. eexists. split; [done|]. split; [|done].
    split; simpl; [|done]. rewrite strlen_app, Hs. lia.
  - rewrite (proj2 (Z.leb_le _ _)) by lia. eexists. split; [done|]. split; [|done].
    split; simpl; [|done]. rewrite strlen_app, Hs. lia.
Qed.
