(* ===== verification/Scanner.v ===== *)
(** * The scanner (lib/scanner.l, lib/scanner.c)

    The table-driven automaton that flex generated, the matching loop of yylex
    with its end-of-buffer handling, and the actions of the rules.  A buffer is
    the text not scanned yet; ScanBuffer has the memory that it is refilled into.
    Class 0 of the automaton is the sentinel at the end of a buffer; a NUL
    character inside the text is scanned as class 1. *)

From Stdlib Require Import SpecFloat.
From S2P Require Import Prelude Double CString Setting Config ScanCtx.
Local Open Scope Z_scope.

(** ** Tables *)

Definition yy_accept : list Z :=
  [0; 0; 0; 0; 0; 0; 0; 0; 0; 43; 41; 22; 21; 21; 5; 41; 37; 38; 29; 41; 24; 30; 41; 31;
   31; 23; 39; 29; 29; 35; 36; 25; 26; 22; 41; 3; 4; 3; 6; 15; 14; 17; 20; 42; 22; 0;
   40; 29; 30; 31; 30; 0; 1; 0; 30; 0; 32; 0; 29; 29; 22; 0; 0; 2; 6; 12; 0; 11; 10; 7;
   8; 9; 17; 19; 18; 0; 30; 30; 0; 0; 30; 32; 33; 29; 29; 0; 0; 0; 30; 34; 29; 27; 0;
   13; 34; 28; 0; 0; 0; 0; 0; 16; 0].

Definition yy_ec : list Z :=
  [0; 1; 1; 1; 1; 1; 1; 1; 1; 2; 3; 1; 4; 5; 1; 1; 1; 1; 1; 1; 1; 1; 1; 1; 1; 1; 1; 1;
   1; 1; 1; 1; 2; 1; 6; 7; 1; 1; 1; 1; 8; 9; 10; 11; 12; 13; 14; 15; 16; 17; 17; 17; 17;
   17; 17; 17; 17; 17; 18; 19; 1; 20; 1; 1; 21; 22; 23; 23; 23; 24; 25; 26; 26; 26; 26;
   26; 27; 26; 26; 26; 26; 26; 28; 29; 30; 31; 26; 26; 32; 26; 26; 33; 34; 35; 1; 36; 1;
   22; 23; 37; 38; 39; 40; 26; 26; 41; 26; 26; 42; 26; 43; 26; 26; 26; 44; 29; 45; 46;
   26; 26; 32; 26; 26; 47; 1; 48; 1; 1; 1; 1; 1; 1; 1; 1; 1; 1; 1; 1; 1; 1; 1; 1; 1; 1;
   1; 1; 1; 1; 1; 1; 1; 1; 1; 1; 1; 1; 1; 1; 1; 1; 1; 1; 1; 1; 1; 1; 1; 1; 1; 1; 1; 1;
   1; 1; 1; 1; 1; 1; 1; 1; 1; 1; 1; 1; 1; 1; 1; 1; 1; 1; 1; 1; 1; 1; 1; 1; 1; 1; 1; 1;
   1; 1; 1; 1; 1; 1; 1; 1; 1; 1; 1; 1; 1; 1; 1; 1; 1; 1; 1; 1; 1; 1; 1; 1; 1; 1; 1; 1;
   1; 1; 1; 1; 1; 1; 1; 1; 1; 1; 1; 1; 1; 1; 1; 1; 1; 1; 1; 1; 1; 1; 1; 1; 1; 1; 1; 1].

Definition yy_meta : list Z :=
  [0; 1; 1; 1; 1; 1; 2; 1; 1; 1; 3; 1; 1; 3; 1; 1; 4; 4; 1; 1; 1; 1; 4; 4; 4; 4; 3; 3;
   3; 3; 3; 3; 3; 1; 2; 1; 3; 4; 4; 4; 4; 3; 3; 3; 3; 3; 3; 1; 1].

Definition yy_base : list Z :=
  [0; 0; 47; 47; 48; 46; 47; 48; 49; 203; 204; 200; 204; 204; 204; 198; 204; 204; 0; 45;
   204; 47; 50; 60; 74; 204; 204; 178; 28; 204; 204; 204; 204; 64; 158; 204; 204; 183;
   0; 204; 63; 0; 204; 83; 195; 193; 204; 0; 88; 102; 98; 62; 204; 190; 104; 119; 162;
   0; 67; 65; 121; 127; 124; 204; 0; 204; 0; 204; 204; 204; 204; 204; 0; 204; 204; 108;
   117; 122; 134; 132; 136; 204; 139; 136; 116; 126; 0; 140; 142; 135; 130; 0; 102; 204;
   204; 0; 85; 72; 63; 98; 158; 204; 204; 169; 173; 177; 181; 183; 187; 191; 89; 66; 63].

Definition yy_def : list Z :=
  [0; 102; 1; 103; 103; 104; 104; 105; 105; 102; 102; 102; 102; 102; 102; 106; 102; 102;
   107; 102; 102; 102; 102; 102; 102; 102; 102; 107; 107; 102; 102; 102; 102; 102; 102;
   102; 102; 102; 108; 102; 102; 109; 102; 102; 102; 106; 102; 107; 102; 102; 102; 102;
   102; 106; 102; 102; 102; 110; 107; 107; 102; 102; 102; 102; 108; 102; 111; 102; 102;
   102; 102; 102; 109; 102; 102; 102; 102; 102; 102; 102; 102; 102; 110; 107; 107; 102;
   112; 102; 102; 102; 107; 107; 102; 102; 102; 107; 102; 102; 102; 102; 102; 102; 0;
   102; 102; 102; 102; 102; 102; 102; 102; 102; 102].

Definition yy_nxt : list Z :=
  [0; 10; 11; 12; 13; 13; 14; 15; 16; 17; 18; 19; 20; 19; 21; 22; 23; 24; 25; 26; 25;
   10; 18; 18; 18; 27; 18; 18; 18; 18; 28; 18; 18; 29; 10; 30; 10; 18; 18; 18; 27; 18;
   18; 18; 18; 28; 18; 31; 32; 33; 36; 36; 39; 39; 42; 42; 59; 37; 37; 48; 52; 49; 49;
   50; 50; 53; 60; 93; 34; 65; 86; 51; 59; 75; 54; 75; 49; 49; 76; 76; 40; 40; 43; 43;
   55; 61; 51; 56; 54; 73; 49; 49; 57; 82; 83; 66; 84; 67; 55; 55; 100; 56; 99; 68; 50;
   50; 69; 70; 71; 83; 98; 84; 51; 55; 50; 50; 54; 74; 49; 49; 77; 77; 51; 60; 76; 76;
   55; 51; 78; 56; 79; 97; 79; 76; 76; 80; 80; 51; 77; 77; 91; 55; 61; 78; 96; 87; 78;
   87; 80; 80; 88; 88; 80; 80; 95; 91; 88; 88; 88; 88; 100; 78; 94; 92; 101; 90; 89; 85;
   62; 95; 35; 35; 35; 35; 38; 38; 38; 38; 41; 41; 41; 41; 45; 45; 45; 45; 47; 47; 64;
   81; 64; 64; 72; 46; 72; 72; 46; 44; 63; 62; 58; 46; 44; 102; 9; 102; 102; 102; 102;
   102; 102; 102; 102; 102; 102; 102; 102; 102; 102; 102; 102; 102; 102; 102; 102; 102;
   102; 102; 102; 102; 102; 102; 102; 102; 102; 102; 102; 102; 102; 102; 102; 102; 102;
   102; 102; 102; 102; 102; 102; 102; 102; 102; 102].

Definition yy_chk : list Z :=
  [0; 1; 1; 1; 1; 1; 1; 1; 1; 1; 1; 1; 1; 1; 1; 1; 1; 1; 1; 1; 1; 1; 1; 1; 1; 1; 1; 1;
   1; 1; 1; 1; 1; 1; 1; 1; 1; 1; 1; 1; 1; 1; 1; 1; 1; 1; 1; 1; 1; 2; 3; 4; 5; 6; 7; 8;
   28; 3; 4; 19; 22; 19; 19; 21; 21; 22; 33; 112; 2; 40; 111; 21; 28; 51; 23; 51; 23;
   23; 51; 51; 5; 6; 7; 8; 23; 33; 21; 23; 24; 43; 24; 24; 23; 110; 58; 40; 59; 40; 24;
   23; 99; 24; 98; 40; 48; 48; 40; 40; 40; 58; 97; 59; 48; 24; 50; 50; 49; 43; 49; 49;
   54; 54; 50; 60; 75; 75; 49; 48; 54; 49; 55; 96; 55; 76; 76; 55; 55; 50; 77; 77; 84;
   49; 60; 54; 92; 78; 77; 78; 79; 79; 78; 78; 80; 80; 90; 84; 87; 87; 88; 88; 100; 77;
   89; 85; 100; 83; 82; 62; 61; 90; 103; 103; 103; 103; 104; 104; 104; 104; 105; 105;
   105; 105; 106; 106; 106; 106; 107; 107; 108; 56; 108; 108; 109; 53; 109; 109; 45; 44;
   37; 34; 27; 15; 11; 9; 102; 102; 102; 102; 102; 102; 102; 102; 102; 102; 102; 102;
   102; 102; 102; 102; 102; 102; 102; 102; 102; 102; 102; 102; 102; 102; 102; 102; 102;
   102; 102; 102; 102; 102; 102; 102; 102; 102; 102; 102; 102; 102; 102; 102; 102; 102;
   102; 102; 102].

Definition yy_rule_can_match_eol : list Z :=
  [0; 0; 0; 0; 1; 0; 1; 0; 0; 0; 0; 0; 0; 0; 0; 0; 0; 1; 0; 0; 0; 1; 0; 0; 0; 0; 0; 0;
   0; 0; 0; 0; 0; 0; 0; 0; 0; 0; 0; 0; 0; 0; 0].

(** An entry of a table, nothing outside its bounds. *)
Definition tab (t : list Z) (i : Z) : option Z :=
  if i <? 0 then None else t !! Z.to_nat i.

Definition YY_JAM : Z := 102.
Definition YY_JAMBASE : Z := 103.

Definition char_class (c : ascii) : option Z :=
  if uchar c =? 0 then Some 1 else tab yy_ec (uchar c).

(** The transition: the chain of default states until an entry is found. *)
Fixpoint yy_next (fuel : nat) (s c : Z) : option Z :=
  match fuel with
  | O => None
  | S n =>
      base ← tab yy_base s;
      chk ← tab yy_chk (base + c);
      if chk =? s then tab yy_nxt (base + c)
      else
        d ← tab yy_def s;
        c' ← (if YY_JAMBASE <=? d then tab yy_meta c else Some c);
        yy_next n d c'
  end.

(** A chain of defaults visits each of the 113 states at most once. *)
Definition yy_step (s : Z) (c : ascii) : option Z :=
  k ← char_class c; yy_next 113 s k.

(** The matching loop from state [s]; [last] is the last accepting state seen,
    as its rule and position.  At the end of the buffer the current state
    decides, or the last accepting one. *)
Fixpoint yy_match (s : Z) (text : string) (pos : nat) (last : option (Z * nat))
    : option (Z * nat) :=
  match text with
  | EmptyString =>
      acc ← tab yy_accept s;
      if acc =? 0 then last else Some (acc, pos)
  | String c text' =>
      acc ← tab yy_accept s;
      let last := if acc =? 0 then last else Some (acc, pos) in
      s' ← yy_step s c;
      if s' =? YY_JAM then last else yy_match s' text' (S pos) last
  end.

(** The rule that matches and the length of its text. *)
Definition yy_scan (start : Z) (b : buffer) : option (Z * nat) :=
  yy_match (start + b2i b.(at_bol)) b.(rest) 0 None.

(** ** Tokens *)

Inductive token :=
  | TOK_EOF | TOK_BOOLEAN | TOK_INTEGER | TOK_HEX | TOK_INTEGER64 | TOK_HEX64 | TOK_FLOAT
  | TOK_STRING | TOK_NAME | TOK_EQUALS | TOK_NEWLINE | TOK_ARRAY_START | TOK_ARRAY_END
  | TOK_LIST_START | TOK_LIST_END | TOK_COMMA | TOK_GROUP_START | TOK_GROUP_END
  | TOK_SEMICOLON | TOK_GARBAGE | TOK_ERROR.

#[export] Instance token_eq_dec : EqDecision token.
Proof. solve_decision. Defined.

(** yytokentype; YYEOF is 0. *)
Definition token_number (t : token) : Z :=
  match t with
  | TOK_EOF => 0 | TOK_BOOLEAN => 258 | TOK_INTEGER => 259 | TOK_HEX => 260
  | TOK_INTEGER64 => 261 | TOK_HEX64 => 262 | TOK_FLOAT => 263 | TOK_STRING => 264
  | TOK_NAME => 265 | TOK_EQUALS => 266 | TOK_NEWLINE => 267 | TOK_ARRAY_START => 268
  | TOK_ARRAY_END => 269 | TOK_LIST_START => 270 | TOK_LIST_END => 271 | TOK_COMMA => 272
  | TOK_GROUP_START => 273 | TOK_GROUP_END => 274 | TOK_SEMICOLON => 275
  | TOK_GARBAGE => 276 | TOK_ERROR => 277
  end.

(** YYSTYPE; [SYytext] is a pointer to the scanner's yytext. *)
Inductive semval :=
  | SNone
  | SInt (ival : Z)
  | SInt64 (llval : Z)
  | SFloat (fval : spec_float)
  | SString (sval : string)
  | SYytext.

(** ** Numbers *)

(** Digits, with the value and the number of them. *)
Fixpoint read_digits (acc : Z) (n : Z) (s : string) : Z * Z * string :=
  match s with
  | String c s' => if isdigit c then read_digits (10 * acc + (uchar c - 48)) (n + 1) s'
                   else (acc, n, s)
  | EmptyString => (acc, n, s)
  end.

(** An exponent, when e is followed by digits. *)
Definition read_exponent (s : string) : Z :=
  match s with
  | String e s' =>
      if (e =? "e")%char || (e =? "E")%char then
        let (neg, s') := sign_of s' in
        let '(v, _, _) := read_digits 0 0 s' in if neg then - v else v
      else 0
  | EmptyString => 0
  end.

(** Digits, optionally a point and more digits, optionally an exponent; a text
    without digits is no number and reads as zero. *)
Definition atof (s : string) : spec_float :=
  let (neg, s) := sign_of (skip_while isspace s) in
  let '(m, n, s) := read_digits 0 0 s in
  let '(m, k, n, s) :=
    match s with
    | String "." s' => let '(m', k, s'') := read_digits m 0 s' in (m', k, n + k, s'')
    | _ => (m, 0, n, s)
    end in
  if n =? 0 then d0 else double_of_decimal neg m (read_exponent s - k).

Definition fromhex (s : string) : Z := strtoul 16 s.

(** ** Rule actions *)

Section Actions.
(** The text of a file that can be opened. *)
Variable fs : string -> option string.

Definition INITIAL : Z := 1.
Definition COMMENT : Z := 3.
Definition STRING : Z := 5.
Definition INCLUDE : Z := 7.

(** An action falls out of its case ([inl]) or returns a token ([inr]). *)
Abbreviation action := (PM (unit + token * semval)).

Definition BEGIN (start : Z) : action := modify (with_start start);; mret (inl tt).
Definition ignore : action := mret (inl tt).
Definition return_token (t : token) (v : semval) : action := mret (inr (t, v)).

Definition append_string (s : string) : action :=
  p ← get;
  ctx ← lift_opt UB_bounds (scanctx_append_string p.(scan) s);
  put (with_scan ctx p);;
  mret (inl tt).

(** The closing quote of a string. *)
Definition end_string : action :=
  p ← get;
  let (s, ctx) := scanctx_take_string p.(scan) in
  put (with_start INITIAL (with_scan ctx p));;
  mret (inr (TOK_STRING, SString s)).

Definition with_parse_error (txt : string) (file : option string) (line : Z) (c : config) : config :=
  with_error (Some txt) file line c.(error_type) c.

(** The closing quote of an include: switch to the file, or report an error. *)
Definition open_include : action :=
  p ← get;
  let (r, ctx) := scanctx_push_include fs p.(cfg).(include_dir) p.(scan) p.(buf) in
  match r with
  | inl text =>
      put (with_start INITIAL (with_buf (new_buffer text) (with_scan ctx p)));;
      mret (inl tt)
  | inr error =>
      put (with_cfg (with_parse_error error (scanctx_current_filename ctx)
                       p.(buf).(bs_lineno) p.(cfg)) (with_scan ctx p));;
      mret (inr (TOK_ERROR, SNone))
  end.

(** The end of a buffer: back to the file that included it, or no more tokens. *)
Definition end_of_buffer : action :=
  p ← get;
  match scanctx_pop_include p.(scan) with
  | Some (b, ctx) => put (with_buf b (with_scan ctx p));; mret (inl tt)
  | None => mret (inr (TOK_EOF, SNone))
  end.

(** What the action of a rule asks for. *)
Inductive command :=
  | Begin (start : Z) | Ignore | Append (s : string) | End_string | Open_include
  | Token (t : token) (v : semval) | Echo.

Definition rule_command (act : Z) (yytext : string) : command :=
  match act with
  | 1 => Begin COMMENT
  | 2 => Begin INITIAL
  | 3 | 4 => Ignore
  | 5 => Begin STRING
  | 6 => Append yytext
  | 7 => Append (String (chr 10) "")
  | 8 => Append (String (chr 13) "")
  | 9 => Append (String (chr 9) "")
  | 10 => Append (String (chr 12) "")
  | 11 => Append "\"
  | 12 => Append (String (chr 34) "")
  | 13 => Append (String (chr (Z.land (strtol 16 (String.substring 2
            (String.length yytext) yytext)) 255)) "")
  | 14 => Append "\"
  | 15 => End_string
  | 16 => Begin INCLUDE
  | 17 => Append yytext
  | 18 => Append "\"
  | 19 => Append (String (chr 34) "")
  | 20 => Open_include
  | 21 | 22 => Ignore
  | 23 => Token TOK_EQUALS SNone
  | 24 => Token TOK_COMMA SNone
  | 25 => Token TOK_GROUP_START SNone
  | 26 => Token TOK_GROUP_END SNone
  | 27 => Token TOK_BOOLEAN (SInt 1)
  | 28 => Token TOK_BOOLEAN (SInt 0)
  | 29 => Token TOK_NAME SYytext
  | 30 => Token TOK_FLOAT (SFloat (atof yytext))
  | 31 => Token TOK_INTEGER (SInt (atoi yytext))
  | 32 => Token TOK_INTEGER64 (SInt64 (atoll yytext))
  | 33 => Token TOK_HEX (SInt (s32 (strtoul 16 yytext)))
  | 34 => Token TOK_HEX64 (SInt64 (s64 (fromhex yytext)))
  | 35 => Token TOK_ARRAY_START SNone
  | 36 => Token TOK_ARRAY_END SNone
  | 37 => Token TOK_LIST_START SNone
  | 38 => Token TOK_LIST_END SNone
  | 39 => Token TOK_SEMICOLON SNone
  | 40 => Ignore
  | 41 => Token TOK_GARBAGE SNone
  | _ => Echo
  end.

Definition perform (yytext : string) (c : command) : action :=
  match c with
  | Begin start => BEGIN start
  | Ignore => ignore
  | Append s => append_string s
  | End_string => end_string
  | Open_include => open_include
  | Token t v => return_token t v
  | Echo => modify (with_echo yytext);; mret (inl tt)
  end.

Definition rule_action (act : Z) (yytext : string) : action :=
  perform yytext (rule_command act yytext).

(** ** yylex *)

Fixpoint count_newlines (s : string) : Z :=
  match s with
  | EmptyString => 0
  | String c s' => (if uchar c =? 10 then 1 else 0) + count_newlines s'
  end.

Fixpoint ends_line (s : string) : bool :=
  match s with
  | EmptyString => false
  | String c EmptyString => uchar c =? 10
  | String _ s' => ends_line s'
  end.

Fixpoint split_at (n : nat) (s : string) : string * string :=
  match n, s with
  | S m, String c s' => let (a, b) := split_at m s' in (String c a, b)
  | _, _ => (EmptyString, s)
  end.

(** One round of the loop in yylex.  The comment rule gives its newline back
    before its action. *)
Definition yylex_round : action :=
  p ← get;
  match p.(buf).(rest) with
  | EmptyString => end_of_buffer
  | _ =>
      m ← lift_opt UB_bounds (yy_scan p.(yy_start) p.(buf));
      let '(act, len) := m in
      let eol := match tab yy_rule_can_match_eol act with Some z => i2b z | None => false end in
      let lines := if eol then count_newlines (split_at len p.(buf).(rest)).1 else 0 in
      let len := if act =? 40 then (len - 1)%nat else len in
      let (yytext, rest') := split_at len p.(buf).(rest) in
      let bol := match yytext with
                 | EmptyString => p.(buf).(at_bol)
                 | _ => ends_line yytext
                 end in
      put (with_yytext yytext
             (with_buf {| rest := rest'; at_bol := bol;
                          bs_lineno := p.(buf).(bs_lineno) + lines |} p));;
      rule_action act yytext
  end.

Definition yylex (fuel : nat) : PM (token * semval) :=
  iter fuel (fun _ : unit => yylex_round) tt.
End Actions.
