(* ===== verification/ScannerSpec.v ===== *)
(** * The scanner implements its patterns

    The patterns of lib/scanner.l as regular expressions, their derivatives, and
    the proof that the generated automaton (lib/scanner.c) picks, at every
    point of every input, the longest text that matches a pattern, and the
    first pattern that matches it. *)

From Stdlib Require Import SpecFloat.
From S2P Require Import Prelude Double CString Setting Config ScanCtx Scanner.
Local Open Scope Z_scope.

(** ** Regular expressions *)

(** A character class: ranges of codes, possibly complemented. *)
Record charset := { negated : bool; ranges : list (Z * Z) }.

Inductive re :=
  | Void
  | Eps
  | Chars (cs : charset)
  | Cat (r1 r2 : re)
  | Alt (r1 r2 : re)
  | Star (r : re).

#[export] Instance charset_eq_dec : EqDecision charset.
Proof. solve_decision. Defined.
#[export] Instance re_eq_dec : EqDecision re.
Proof. solve_decision. Defined.

Definition in_charset (cs : charset) (c : ascii) : bool :=
  xorb cs.(negated) (existsb (fun r => (r.1 <=? uchar c) && (uchar c <=? r.2)) cs.(ranges)).

(** The texts an expression matches. *)
Inductive matches : re -> string -> Prop :=
  | match_eps : matches Eps ""
  | match_char cs c : in_charset cs c = true -> matches (Chars cs) (String c "")
  | match_cat r1 r2 s1 s2 : matches r1 s1 -> matches r2 s2 -> matches (Cat r1 r2) (s1 +:+ s2)
  | match_alt_l r1 r2 s : matches r1 s -> matches (Alt r1 r2) s
  | match_alt_r r1 r2 s : matches r2 s -> matches (Alt r1 r2) s
  | match_star_nil r : matches (Star r) ""
  | match_star_app r s1 s2 : matches r s1 -> matches (Star r) s2 -> matches (Star r) (s1 +:+ s2).

Fixpoint nullable (r : re) : bool :=
  match r with
  | Void | Chars _ => false
  | Eps | Star _ => true
  | Cat r1 r2 => nullable r1 && nullable r2
  | Alt r1 r2 => nullable r1 || nullable r2
  end.

(** Concatenation and alternative, simplified. *)
Definition cat (r1 r2 : re) : re :=
  match r1, r2 with
  | Void, _ | _, Void => Void
  | Eps, r => r
  | r1, r2 => Cat r1 r2
  end.

Definition alt (r1 r2 : re) : re :=
  match r1, r2 with
  | Void, r => r
  | r, Void => r
  | r1, r2 => if decide (r1 = r2) then r1 else Alt r1 r2
  end.

(** Brzozowski's derivative. *)
Fixpoint deriv (c : ascii) (r : re) : re :=
  match r with
  | Void | Eps => Void
  | Chars cs => if in_charset cs c then Eps else Void
  | Cat r1 r2 => if nullable r1 then alt (cat (deriv c r1) r2) (deriv c r2)
                 else cat (deriv c r1) r2
  | Alt r1 r2 => alt (deriv c r1) (deriv c r2)
  | Star r => cat (deriv c r) (Star r)
  end.

(** ** The patterns of scanner.l *)

Definition cls (l : list (Z * Z)) : re := Chars {| negated := false; ranges := l |}.
Definition ncls (l : list (Z * Z)) : re := Chars {| negated := true; ranges := l |}.
Definition ch (z : Z) : re := cls [(z, z)].
Definition plus (r : re) : re := Cat r (Star r).
Definition opt (r : re) : re := Alt Eps r.

Fixpoint lit (s : string) : re :=
  match s with
  | EmptyString => Eps
  | String c EmptyString => ch (uchar c)
  | String c s' => Cat (ch (uchar c)) (lit s')
  end.

(** A letter in either case. *)
Definition nocase (lower : Z) : re := cls [(lower - 32, lower - 32); (lower, lower)].

Definition digit_re : re := cls [(48, 57)].
Definition sign_re : re := opt (cls [(45, 45); (43, 43)]).
Definition hexdigit_re : re := cls [(48, 57); (65, 70); (97, 102)].
Definition any : re := ncls [(10, 10)].
Definition blank_re : re := cls [(32, 32); (9, 9)].
Definition quote_re : re := ch 34.
Definition backslash : re := ch 92.
Definition not_special : re := ncls [(34, 34); (92, 92)].
Definition exponent_re : re := Cat (cls [(101, 101); (69, 69)]) (Cat sign_re (plus digit_re)).

Definition true_re : re := Cat (nocase 116) (Cat (nocase 114) (Cat (nocase 117) (nocase 101))).
Definition false_re : re :=
  Cat (nocase 102) (Cat (nocase 97) (Cat (nocase 108) (Cat (nocase 115) (nocase 101)))).
Definition name_re : re :=
  Cat (cls [(65, 90); (97, 122); (42, 42)])
      (Star (cls [(45, 45); (65, 90); (97, 122); (48, 57); (95, 95); (42, 42)])).
Definition integer_re : re := Cat sign_re (plus digit_re).
Definition integer64_re : re := Cat sign_re (Cat (plus digit_re) (Cat (ch 76) (opt (ch 76)))).
Definition hex_re : re := Cat (ch 48) (Cat (cls [(88, 88); (120, 120)]) (plus hexdigit_re)).
Definition hex64_re : re :=
  Cat (ch 48) (Cat (cls [(88, 88); (120, 120)]) (Cat (plus hexdigit_re) (Cat (ch 76) (opt (ch 76))))).
Definition hexchar_re : re :=
  Cat backslash (Cat (cls [(88, 88); (120, 120)]) (Cat hexdigit_re hexdigit_re)).
Definition float_re : re :=
  Alt (Cat sign_re (Cat (opt (Star digit_re)) (Cat (ch 46) (Cat (Star digit_re) (opt exponent_re)))))
      (Cat sign_re (Cat (plus digit_re) (Cat (opt (Cat (ch 46) (Star digit_re))) exponent_re))).
(** With the newline that [$] looks at. *)
Definition comment_re : re := Cat (Alt (ch 35) (lit "//")) (Cat (Star any) (ch 10)).
Definition include_re : re := Cat (Star blank_re) (Cat (lit "@include") (Cat (plus blank_re) quote_re)).

(** The rules active in a start state (an exclusive condition), in order.  Rule
    42 is flex's default rule. *)
Definition rules (start : Z) (bol : bool) : list (Z * re) :=
  if start =? COMMENT then
    [(2, lit "*/"); (3, any); (4, ch 10); (42, ncls [])]
  else if start =? STRING then
    [(6, plus not_special); (7, lit "\n"); (8, lit "\r"); (9, lit "\t"); (10, lit "\f");
     (11, lit "\\"); (12, Cat backslash quote_re); (13, hexchar_re); (14, backslash);
     (15, quote_re); (42, ncls [])]
  else if start =? INCLUDE then
    [(17, plus not_special); (18, lit "\\"); (19, Cat backslash quote_re); (20, quote_re);
     (42, ncls [])]
  else
    [(1, lit "/*"); (5, quote_re)] ++
    (if bol then [(16, include_re)] else []) ++
    [(21, cls [(10, 10); (13, 13); (12, 12)]); (22, plus blank_re); (23, cls [(61, 61); (58, 58)]);
     (24, ch 44); (25, ch 123); (26, ch 125); (27, true_re); (28, false_re); (29, name_re);
     (30, float_re); (31, integer_re); (32, integer64_re); (33, hex_re); (34, hex64_re);
     (35, ch 91); (36, ch 93); (37, ch 40); (38, ch 41); (39, ch 59); (40, comment_re);
     (41, any); (42, ncls [])].

(** ** Derivatives are correct *)

Lemma matches_cat r1 r2 s : matches (cat r1 r2) s <-> matches (Cat r1 r2) s.
Proof.
  assert (forall r s, ~ matches (Cat Void r) s) as Hl.
  { intros r s' H. inversion H as [|?|? ? ? ? H1| | | |]; subst. inversion H1. }
  assert (forall r s, ~ matches (Cat r Void) s) as Hr.
  { intros r s' H. inversion H as [|?|? ? ? ? ? H1| | | |]; subst. inversion H1. }
  assert (forall r s, matches r s <-> matches (Cat Eps r) s) as He.
  { intros r s'. split; [intros H; apply (match_cat Eps r "" s'); [constructor|done]|].
    intros H. inversion H as [|?|? ? ? ? H1 H2| | | |]; subst. by inversion H1; subst. }
  assert (forall s, ~ matches Void s) as Hv by (intros s' H; inversion H).
  destruct r1, r2; simpl; try (split; intros Hm; by (apply Hl in Hm || apply Hr in Hm || apply Hv in Hm));
    try apply He; done.
Qed.

Lemma matches_alt r1 r2 s : matches (alt r1 r2) s <-> matches r1 s \/ matches r2 s.
Proof.
  assert (forall s, ~ matches Void s) as Hv by (intros s' H; inversion H).
  assert (forall a b s, matches (Alt a b) s <-> matches a s \/ matches b s) as Ha.
  { intros a b s'. split; [intros H; inversion H; subst; auto|].
    intros [?|?]; [by apply match_alt_l|by apply match_alt_r]. }
  assert (forall a b, matches (if decide (a = b) then a else Alt a b) s <->
    matches a s \/ matches b s) as Hd.
  { intros a b. case_decide; [subst; tauto|apply Ha]. }
  pose proof (Hv s). unfold alt. destruct r1, r2; try apply Hd; tauto.
Qed.

Lemma nullable_spec r : nullable r = true <-> matches r "".
Proof.
  split.
  - induction r; simpl; try done; intros Hn; [constructor| | |constructor].
    + apply andb_prop in Hn as [H1 H2]. change "" with ("" +:+ ""). constructor; auto.
    + apply orb_prop in Hn as [Hn|Hn]; [apply match_alt_l|apply match_alt_r]; auto.
  - remember "" as s eqn:Es. intros H. revert Es.
    induction H as [| |r1 r2 s1 s2 _ IH1 _ IH2|? ? ? _ IH|? ? ? _ IH| |]; intros Es; try done; simpl.
    + destruct s1; [|done]. by rewrite IH1, IH2.
    + by rewrite IH.
    + rewrite IH by done. apply orb_true_r.
Qed.

Lemma star_cons r c s : matches (Star r) (String c s) ->
  exists s1 s2, s = s1 +:+ s2 /\ matches r (String c s1) /\ matches (Star r) s2.
Proof.
  remember (Star r) as q eqn:Eq. remember (String c s) as t eqn:Et. intros H. revert s Et.
  induction H as [| | | | | |r' s1 s2 H1 _ H2 IH]; intros u Et; try done.
  injection Eq as ->. destruct s1 as [|d s1].
  - by apply IH.
  - change (String d s1 +:+ s2) with (String d (s1 +:+ s2)) in Et. injection Et as -> <-. eauto.
Qed.

Lemma deriv_spec c r s : matches (deriv c r) s <-> matches r (String c s).
Proof.
  revert s. induction r as [| |cs|r1 IH1 r2 IH2|r1 IH1 r2 IH2|r IH]; intros s; simpl.
  - split; intros H; inversion H.
  - split; intros H; inversion H.
  - destruct (in_charset cs c) eqn:E.
    + split; intros H; inversion H; subst; constructor; done.
    + split; intros H; inversion H; subst. congruence.
  - assert (matches (Cat (deriv c r1) r2) s <->
      exists s1 s2, s = s1 +:+ s2 /\ matches r1 (String c s1) /\ matches r2 s2) as E1.
    { split.
      - intros H. inversion H; subst. rewrite IH1 in *. eauto.
      - intros (s1 & s2 & -> & H1 & H2). constructor; [by apply IH1|done]. }
    assert (matches (Cat r1 r2) (String c s) <-> matches (Cat (deriv c r1) r2) s \/
      nullable r1 = true /\ matches r2 (String c s)) as E2.
    { rewrite E1, nullable_spec. split.
      - intros H. inversion H as [| |? ? s1 s2 H1 H2 Ha Et| | | |]. destruct s1 as [|d s1].
        + right. change ("" +:+ s2) with s2 in Et. subst. by split.
        + left. change (String d s1 +:+ s2) with (String d (s1 +:+ s2)) in *.
          injection Et as -> <-. eauto.
      - intros [(s1 & s2 & -> & H1 & H2)|[H1 H2]].
        + change (String c (s1 +:+ s2)) with (String c s1 +:+ s2). by constructor.
        + change (String c s) with ("" +:+ String c s). by constructor. }
    rewrite E2. destruct (nullable r1).
    + rewrite matches_alt, matches_cat, IH2. tauto.
    + rewrite matches_cat. intuition congruence.
  - rewrite matches_alt, IH1, IH2. split.
    + intros [?|?]; [by apply match_alt_l|by apply match_alt_r].
    + intros H. inversion H; subst; auto.
  - rewrite matches_cat. split.
    + intros H. inversion H; subst. rewrite IH in *.
      change (String c (s1 +:+ s2)) with (String c s1 +:+ s2). by constructor.
    + intros (s1 & s2 & -> & H1 & H2)%star_cons. constructor; [by apply IH|done].
Qed.

(** ** The automaton follows the derivatives

    What is left of the rules after some text: each rule's derivative, without
    the rules that cannot match any more. *)

Abbreviation residual := (list (Z * re)).

Definition is_void (r : re) : bool := match r with Void => true | _ => false end.

Definition derive (c : ascii) (v : residual) : residual :=
  List.filter (fun x => negb (is_void x.2)) (List.map (fun x => (x.1, deriv c x.2)) v).

(** The first rule that matches the text so far; 0 for none. *)
Fixpoint first_match (v : residual) : Z :=
  match v with
  | [] => 0
  | (n, r) :: v' => if nullable r then n else first_match v'
  end.

Definition all_ascii : list ascii := List.map ascii_of_nat (seq 0 256).

Fixpoint assoc (s : Z) (l : list (Z * residual)) : option residual :=
  match l with
  | [] => None
  | (s', v) :: l' => if s =? s' then Some v else assoc s l'
  end.

(** The states reached from [todo], with what is left of the rules there. *)
Fixpoint explore (fuel : nat) (todo seen : list (Z * residual)) : list (Z * residual) :=
  match fuel, todo with
  | S n, (s, v) :: todo' =>
      match assoc s seen with
      | Some _ => explore n todo' seen
      | None =>
          let next := List.map (fun c => (default 0 (yy_step s c), derive c v)) all_ascii in
          let fresh := List.filter (fun x => negb (x.1 =? YY_JAM)) next in
          let fresh := List.fold_left (fun acc x =>
            match assoc x.1 acc with Some _ => acc | None => x :: acc end) fresh [] in
          explore n (fresh ++ todo') ((s, v) :: seen)
      end
  | _, _ => seen
  end.

Definition starts : list (Z * bool) :=
  [(INITIAL, false); (INITIAL, true); (COMMENT, false); (COMMENT, true);
   (STRING, false); (STRING, true); (INCLUDE, false); (INCLUDE, true)].

Definition start_pairs : list (Z * residual) :=
  List.map (fun x => (x.1 + b2i x.2, rules x.1 x.2)) starts.

Definition state_table : list (Z * residual) := Eval vm_compute in explore 3000 start_pairs [].

(** Rules keep their order. *)
Fixpoint increasing (n : Z) (v : residual) : bool :=
  match v with
  | [] => true
  | (m, _) :: v' => (n <? m) && increasing m v'
  end.

(** The entry of a state is right: it accepts the first rule matched, and each
    character leads to the entry of the next state, or jams when no rule is
    left. *)
Definition entry_ok (e : Z * residual) : bool :=
  increasing 0 e.2 &&
  bool_decide (tab yy_accept e.1 = Some (first_match e.2)) &&
  forallb (fun c =>
    match yy_step e.1 c with
    | Some s' =>
        if s' =? YY_JAM then match derive c e.2 with [] => true | _ => false end
        else bool_decide (assoc s' state_table = Some (derive c e.2))
    | None => false
    end) all_ascii.

Lemma state_table_ok : forallb entry_ok state_table = true.
Proof. vm_compute. reflexivity. Qed.

Lemma start_pairs_ok :
  forallb (fun e => bool_decide (assoc e.1 state_table = Some e.2)) start_pairs = true.
Proof. vm_compute. reflexivity. Qed.

(** ** Longest match *)

(** The first characters of a text. *)
Definition prefix (k : nat) (s : string) : string := (split_at k s).1.

(** Rule [n] matches the text. *)
Definition can (v : residual) (n : Z) (s : string) : Prop :=
  exists r, In (n, r) v /\ matches r s.

Lemma can_derive c v n s : can (derive c v) n s <-> can v n (String c s).
Proof.
  unfold can, derive. split.
  - intros (r & Hr & Hm). apply filter_In in Hr as [Hr _].
    apply in_map_iff in Hr as ([m q] & [= <- <-] & Hq). exists q. by rewrite <- deriv_spec.
  - intros (r & Hr & Hm). apply deriv_spec in Hm. exists (deriv c r). split; [|done].
    apply filter_In. split; [by apply (in_map (fun x => (x.1, deriv c x.2)) _ (n, r))|].
    simpl. by destruct (deriv c r); [inversion Hm|..].
Qed.

Lemma increasing_lt n v m r : increasing n v = true -> In (m, r) v -> n < m.
Proof.
  revert n. induction v as [|[k q] v IH]; intros n; simpl; [done|].
  intros [Hk Hv]%andb_prop [[= <- <-]|Hin]; [lia|]. specialize (IH k Hv Hin). lia.
Qed.

Lemma first_match_spec v lo : increasing lo v = true -> 0 <= lo ->
  (first_match v = 0 /\ forall n, ~ can v n "") \/
  (lo < first_match v /\ can v (first_match v) "" /\ forall n, can v n "" -> first_match v <= n).
Proof.
  revert lo. induction v as [|[n r] v IH]; intros lo; simpl.
  { left. split; [done|]. by intros n (? & [] & _). }
  intros [Hn Hv]%andb_prop Hlo. destruct (nullable r) eqn:Er.
  - right. apply nullable_spec in Er. split_and!; [lia| |].
    + exists r. split; [by left|done].
    + intros m (q & [[= <- <-]|Hq] & _); [lia|]. pose proof (increasing_lt _ _ _ _ Hv Hq). lia.
  - assert (forall m, can ((n, r) :: v) m "" <-> can v m "") as Hc.
    { intros m. split; intros (q & Hq & Hm); exists q; split; try done.
      - destruct Hq as [[= <- <-]|?]; [|done]. apply nullable_spec in Hm. congruence.
      - by right. }
    destruct (IH n Hv ltac:(lia)) as [[H1 H2]|(H1 & H2 & H3)]; [left|right].
    + split; [done|]. intros m Hm. by apply (H2 m), Hc.
    + split_and!; [lia|by apply Hc|]. intros m Hm. by apply H3, Hc.
Qed.

(** The longest text some rule matches, with the first such rule. *)
Fixpoint best (v : residual) (s : string) : option (Z * nat) :=
  let here := if first_match v =? 0 then None else Some (first_match v, 0%nat) in
  match s with
  | EmptyString => here
  | String c s' =>
      match best (derive c v) s' with
      | Some (n, k) => Some (n, S k)
      | None => here
      end
  end.

Lemma best_nil s : best [] s = None.
Proof. induction s as [|c s IH]; [done|]. cbn [best]. change (derive c []) with (@nil (Z * re)). by rewrite IH. Qed.

Lemma increasing_derive c n v : increasing n v = true -> increasing n (derive c v) = true.
Proof.
  assert (forall v lo hi, lo <= hi -> increasing hi v = true -> increasing lo v = true) as Hmono.
  { intros [|[m r] u] lo hi Hle; simpl; [done|]. intros [? ?]%andb_prop.
    apply andb_true_intro. split; [lia|done]. }
  revert n. induction v as [|[m r] v IH]; intros n; [done|]. simpl. intros [Hm Hv]%andb_prop.
  unfold derive. simpl. destruct (is_void (deriv c r)); simpl.
  - apply (Hmono _ n m); [lia|]. by apply IH.
  - rewrite Hm. by apply IH.
Qed.

Lemma best_spec v s : increasing 0 v = true ->
  match best v s with
  | Some (n, k) => (k <= String.length s)%nat /\ can v n (prefix k s) /\
      forall n' k', (k' <= String.length s)%nat -> can v n' (prefix k' s) ->
        (k' <= k)%nat /\ (k' = k -> n <= n')
  | None => forall n' k', (k' <= String.length s)%nat -> ~ can v n' (prefix k' s)
  end.
Proof.
  revert v. induction s as [|c s IH]; intros v Hv; simpl.
  - destruct (first_match_spec v 0 Hv ltac:(lia)) as [[H1 H2]|(H1 & H2 & H3)].
    + rewrite H1. simpl. intros n' [|k'] Hk'; [apply H2|lia].
    + rewrite (proj2 (Z.eqb_neq _ _)) by lia. split_and!; [lia|done|].
      intros n' [|k'] Hk' Hc; [|lia]. split; [lia|]. intros _. by apply H3.
  - specialize (IH (derive c v) (increasing_derive c 0 v Hv)).
    assert (forall n k, can (derive c v) n (prefix k s) <-> can v n (prefix (S k) (String c s))) as Hd.
    { intros n k. rewrite can_derive. unfold prefix. simpl. by destruct (split_at k s). }
    destruct (best (derive c v) s) as [[n k]|].
    + destruct IH as (Hk & Hc & Hmax). split_and!; [lia|by apply Hd|].
      intros n' [|k'] Hk' Hc'; [lia|]. apply Hd in Hc'. apply Hmax in Hc' as [? ?]; [|lia].
      split; [lia|]. intros [= ->]. auto.
    + destruct (first_match_spec v 0 Hv ltac:(lia)) as [[H1 H2]|(H1 & H2 & H3)].
      * rewrite H1. simpl. intros n' [|k'] Hk' Hc'; [by apply H2 in Hc'|].
        apply Hd in Hc'. by eapply IH in Hc'; [|lia].
      * rewrite (proj2 (Z.eqb_neq _ _)) by lia. split_and!; [lia|done|].
        intros n' [|k'] Hk' Hc'; [split; [lia|]; intros _; by apply H3|].
        apply Hd in Hc'. by eapply IH in Hc'; [|lia].
Qed.

(** The matching loop computes the longest match. *)
Lemma in_all_ascii c : In c all_ascii.
Proof.
  unfold all_ascii. apply in_map_iff. exists (nat_of_ascii c). split; [apply ascii_nat_embedding|].
  apply in_seq. pose proof (nat_ascii_bounded c). lia.
Qed.

Lemma assoc_in s v l : assoc s l = Some v -> In (s, v) l.
Proof.
  induction l as [|[s' v'] l IH]; simpl; [done|].
  destruct (Z.eqb_spec s s'); [intros [= ->]; subst; by left|]. intros; right; auto.
Qed.

Lemma state_entry s v : assoc s state_table = Some v -> entry_ok (s, v) = true.
Proof.
  intros H. apply assoc_in in H. pose proof state_table_ok as Hall.
  rewrite forallb_forall in Hall. by apply Hall.
Qed.

Lemma yy_match_best s v text pos last : assoc s state_table = Some v ->
  yy_match s text pos last =
  match best v text with Some (n, k) => Some (n, (pos + k)%nat) | None => last end.
Proof.
  revert s v pos last. induction text as [|c text IH]; intros s v pos last Hs;
    pose proof (state_entry s v Hs) as Hok; unfold entry_ok in Hok;
    apply andb_prop in Hok as [Hok Hstep]; apply andb_prop in Hok as [Hinc Hacc];
    apply bool_decide_eq_true in Hacc; cbn [fst snd] in Hacc, Hstep; cbn [yy_match];
    rewrite Hacc; cbn [mbind option_bind].
  - simpl. destruct (first_match v =? 0); [done|]. by rewrite Nat.add_0_r.
  - rewrite forallb_forall in Hstep. specialize (Hstep c (in_all_ascii c)).
    cbn [best]. destruct (yy_step s c) as [s'|]; [|done]. cbn [mbind option_bind].
    destruct (s' =? YY_JAM).
    + destruct (derive c v); [|done]. rewrite best_nil.
      destruct (first_match v =? 0); [done|]. by rewrite Nat.add_0_r.
    + apply bool_decide_eq_true in Hstep. rewrite (IH _ _ _ _ Hstep).
      destruct (best (derive c v) text) as [[n k]|]; [do 2 f_equal; lia|].
      destruct (first_match v =? 0); [done|]. by rewrite Nat.add_0_r.
Qed.

Lemma start_state start bol : In (start, bol) starts ->
  assoc (start + b2i bol) state_table = Some (rules start bol).
Proof.
  intros H. pose proof start_pairs_ok as Hall. rewrite forallb_forall in Hall.
  specialize (Hall (start + b2i bol, rules start bol)).
  rewrite bool_decide_eq_true in Hall. apply Hall. unfold start_pairs.
  by apply (in_map (fun x => (x.1 + b2i x.2, rules x.1 x.2)) starts (start, bol)).
Qed.

(** Rule [n] of scanner.l matches the first [k] characters of the buffer. *)
Definition rule_matches (start : Z) (b : buffer) (n : Z) (k : nat) : Prop :=
  can (rules start b.(at_bol)) n (prefix k b.(rest)).

Definition condition (start : Z) : Prop :=
  start = INITIAL \/ start = COMMENT \/ start = STRING \/ start = INCLUDE.

Lemma condition_start start bol : condition start -> In (start, bol) starts.
Proof. intros [-> | [-> | [-> | ->]]]; destruct bol; simpl; tauto. Qed.

Lemma some_match start bol c s : condition start ->
  can (rules start bol) 42 (prefix 1 (String c s)).
Proof.
  intros Hs. exists (ncls []). split.
  - destruct Hs as [-> | [-> | [-> | ->]]]; destruct bol; vm_compute; tauto.
  - unfold prefix. destruct s; simpl; by constructor.
Qed.

Lemma yy_scan_total start b : condition start -> rest b <> "" ->
  exists n k, yy_scan start b = Some (n, k) /\ (1 <= k <= String.length (rest b))%nat /\
    rule_matches start b n k /\
    forall n' k', (k' <= String.length (rest b))%nat -> rule_matches start b n' k' ->
      (k' <= k)%nat /\ (k' = k -> n <= n').
Proof.
  intros Hs Hr. unfold yy_scan, rule_matches.
  pose proof (start_state start (at_bol b) (condition_start _ _ Hs)) as Hst.
  rewrite (yy_match_best _ _ _ _ _ Hst).
  pose proof (state_entry _ _ Hst) as Hok. unfold entry_ok in Hok.
  apply andb_prop in Hok as [Hok _]. apply andb_prop in Hok as [Hinc _]. simpl in Hinc.
  pose proof (best_spec (rules start (at_bol b)) (rest b) Hinc) as Hb.
  destruct (rest b) as [|c s] eqn:Er; [done|].
  pose proof (some_match start (at_bol b) c s Hs) as H42.
  destruct (best _ _) as [[n k]|].
  - destruct Hb as (Hk & Hc & Hmax). exists n, k. split_and!; try done.
    apply Hmax in H42; simpl in *; lia.
  - exfalso. eapply Hb; [|exact H42]. simpl. lia.
Qed.

(** C13: The generated scanner tables implement the patterns of scanner.l: in
    every start condition, at the beginning of a line or not, and on every
    non-empty text (any bytes, NUL included), the table-driven matching loop
    returns a rule and a length such that the rule's pattern matches that many
    characters, no rule matches more, and no earlier rule matches as many.  It
    never reads a table outside its bounds and always makes progress. *)
Theorem yy_scan_longest_match start b : condition start -> rest b <> "" ->
  exists n k, yy_scan start b = Some (n, k) /\ (1 <= k <= String.length (rest b))%nat /\
    rule_matches start b n k /\
    forall n' k', (k' <= String.length (rest b))%nat -> rule_matches start b n' k' ->
      (k' <= k)%nat /\ (k' = k -> n <= n').
Proof.
  intros Hs Hr. destruct (yy_scan_total start b Hs Hr) as (n & k & H). by exists n, k.
Qed.

Lemma yy_scan_longest_match_witness :
  exists n k, yy_scan INITIAL (new_buffer "trues = 1") = Some (n, k).
Proof.
  destruct (yy_scan_longest_match INITIAL (new_buffer "trues = 1")) as (n & k & E & _);
    [by left|done|]. by exists n, k.
Defined.
