(* ===== verification/ScanBuffer.v ===== *)
(** * The scanner's input buffers (lib/scanner.c)

    What flex generates below the rules: buffers of characters that are refilled
    from a stream in blocks, the matching loop on their memory with its
    end-of-buffer characters, and the functions that create, switch and delete
    buffers.  A buffer is an object of a heap; pointers into its memory are
    offsets.  A cell of memory that malloc left uninitialised holds nothing. *)

From S2P Require Import Prelude CString ScanCtx Scanner.
Local Open Scope Z_scope.

(** ** Streams, as stdio shows them

    What the next reads of a stream meet: characters, an interruption by a
    signal (EINTR) or a failure of the device; and its error indicator. *)

Inductive read_event := Bytes (s : list ascii) | Interrupted | Failed.
Record stream := { events : list read_event; ferror : bool }.

Inductive errno_t := EINTR | EIO.

#[export] Instance errno_t_eq_dec : EqDecision errno_t.
Proof. solve_decision. Defined.

(** fread: characters until the number asked for, an error or the end. *)
Fixpoint fread_events (n : nat) (es : list read_event) : list ascii * option errno_t * list read_event :=
  match es with
  | [] => ([], None, [])
  | Interrupted :: es' => ([], Some EINTR, es')
  | Failed :: es' => ([], Some EIO, es')
  | Bytes s :: es' =>
      if (n <=? length s)%nat then (take n s, None, Bytes (drop n s) :: es')
      else let '(cs, e, rest) := fread_events (n - length s) es' in (s ++ cs, e, rest)
  end.

Definition fread (n : nat) (f : stream) : list ascii * option errno_t * stream :=
  let '(cs, e, es) := fread_events n f.(events) in
  (cs, e, {| events := es; ferror := f.(ferror) || match e with Some _ => true | None => false end |}).

Definition clearerr (f : stream) : stream := {| events := f.(events); ferror := false |}.

(** ** Data *)

Inductive buffer_status := YY_BUFFER_NEW | YY_BUFFER_NORMAL | YY_BUFFER_EOF_PENDING.

#[export] Instance buffer_status_eq_dec : EqDecision buffer_status.
Proof. solve_decision. Defined.

(** struct yy_buffer_state; the line and the column of a buffer may be
    uninitialised. *)
Record yy_buffer_state := Buffer {
  yy_input_file : option positive;
  yy_ch_buf : list (option ascii);
  yy_buf_pos : Z;
  yy_buf_size : Z;
  yy_b_n_chars : Z;
  yy_is_our_buffer : bool;
  yy_at_bol : bool;
  yy_bs_lineno : option Z;
  yy_bs_column : option Z;
  yy_fill_buffer : bool;
  yy_buffer_status : buffer_status
}.

Definition set_input_file (v : option positive) (b : yy_buffer_state) : yy_buffer_state :=
    Buffer v (yy_ch_buf b) (yy_buf_pos b) (yy_buf_size b) (yy_b_n_chars b) (yy_is_our_buffer b)
    (yy_at_bol b) (yy_bs_lineno b) (yy_bs_column b) (yy_fill_buffer b) (yy_buffer_status b).
Definition set_ch_buf (v : list (option ascii)) (b : yy_buffer_state) : yy_buffer_state :=
    Buffer (yy_input_file b) v (yy_buf_pos b) (yy_buf_size b) (yy_b_n_chars b) (yy_is_our_buffer
    b) (yy_at_bol b) (yy_bs_lineno b) (yy_bs_column b) (yy_fill_buffer b) (yy_buffer_status b).
Definition set_buf_pos (v : Z) (b : yy_buffer_state) : yy_buffer_state :=
    Buffer (yy_input_file b) (yy_ch_buf b) v (yy_buf_size b) (yy_b_n_chars b) (yy_is_our_buffer
    b) (yy_at_bol b) (yy_bs_lineno b) (yy_bs_column b) (yy_fill_buffer b) (yy_buffer_status b).
Definition set_buf_size (v : Z) (b : yy_buffer_state) : yy_buffer_state :=
    Buffer (yy_input_file b) (yy_ch_buf b) (yy_buf_pos b) v (yy_b_n_chars b) (yy_is_our_buffer
    b) (yy_at_bol b) (yy_bs_lineno b) (yy_bs_column b) (yy_fill_buffer b) (yy_buffer_status b).
Definition set_b_n_chars (v : Z) (b : yy_buffer_state) : yy_buffer_state :=
    Buffer (yy_input_file b) (yy_ch_buf b) (yy_buf_pos b) (yy_buf_size b) v (yy_is_our_buffer b)
    (yy_at_bol b) (yy_bs_lineno b) (yy_bs_column b) (yy_fill_buffer b) (yy_buffer_status b).
Definition set_is_ours (v : bool) (b : yy_buffer_state) : yy_buffer_state :=
    Buffer (yy_input_file b) (yy_ch_buf b) (yy_buf_pos b) (yy_buf_size b) (yy_b_n_chars b) v
    (yy_at_bol b) (yy_bs_lineno b) (yy_bs_column b) (yy_fill_buffer b) (yy_buffer_status b).
Definition set_at_bol (v : bool) (b : yy_buffer_state) : yy_buffer_state :=
    Buffer (yy_input_file b) (yy_ch_buf b) (yy_buf_pos b) (yy_buf_size b) (yy_b_n_chars b)
    (yy_is_our_buffer b) v (yy_bs_lineno b) (yy_bs_column b) (yy_fill_buffer b)
    (yy_buffer_status b).
Definition set_lineno (v : option Z) (b : yy_buffer_state) : yy_buffer_state :=
    Buffer (yy_input_file b) (yy_ch_buf b) (yy_buf_pos b) (yy_buf_size b) (yy_b_n_chars b)
    (yy_is_our_buffer b) (yy_at_bol b) v (yy_bs_column b) (yy_fill_buffer b) (yy_buffer_status
    b).
Definition set_column (v : option Z) (b : yy_buffer_state) : yy_buffer_state :=
    Buffer (yy_input_file b) (yy_ch_buf b) (yy_buf_pos b) (yy_buf_size b) (yy_b_n_chars b)
    (yy_is_our_buffer b) (yy_at_bol b) (yy_bs_lineno b) v (yy_fill_buffer b) (yy_buffer_status
    b).
Definition set_fill (v : bool) (b : yy_buffer_state) : yy_buffer_state :=
    Buffer (yy_input_file b) (yy_ch_buf b) (yy_buf_pos b) (yy_buf_size b) (yy_b_n_chars b)
    (yy_is_our_buffer b) (yy_at_bol b) (yy_bs_lineno b) (yy_bs_column b) v (yy_buffer_status b).
Definition set_status (v : buffer_status) (b : yy_buffer_state) : yy_buffer_state :=
    Buffer (yy_input_file b) (yy_ch_buf b) (yy_buf_pos b) (yy_buf_size b) (yy_b_n_chars b)
    (yy_is_our_buffer b) (yy_at_bol b) (yy_bs_lineno b) (yy_bs_column b) (yy_fill_buffer b) v.

(** struct yyguts_t, with the heap of buffers, the streams that are open and
    what was written to stderr.  The bound of the stack is its length. *)
Record yyguts_t := Guts {
  yyin : option positive;
  yy_buffer_stack : option (list (option positive));
  yy_buffer_stack_top : nat;
  yy_hold_char : ascii;
  yy_n_chars : Z;
  yyleng : Z;
  yy_c_buf_p : Z;
  yytext_ptr : Z;
  yy_init : bool;
  yy_start : Z;
  yy_did_buffer_switch_on_eof : bool;
  yy_last_accepting_state : Z;
  yy_last_accepting_cpos : Z;
  yy_buffers : gmap positive yy_buffer_state;
  streams : gmap positive stream;
  stderr_text : list string
}.

Definition set_in (v : option positive) (g : yyguts_t) : yyguts_t :=
    Guts v (yy_buffer_stack g) (yy_buffer_stack_top g) (yy_hold_char g) (yy_n_chars g) (yyleng
    g) (yy_c_buf_p g) (yytext_ptr g) (yy_init g) (yy_start g) (yy_did_buffer_switch_on_eof g)
    (yy_last_accepting_state g) (yy_last_accepting_cpos g) (yy_buffers g) (streams g)
    (stderr_text g).
Definition set_stack (v0 : option (list (option positive))) (v1 : nat) (g : yyguts_t) : yyguts_t :=
    Guts (yyin g) v0 v1 (yy_hold_char g) (yy_n_chars g) (yyleng g) (yy_c_buf_p g) (yytext_ptr g)
    (yy_init g) (yy_start g) (yy_did_buffer_switch_on_eof g) (yy_last_accepting_state g)
    (yy_last_accepting_cpos g) (yy_buffers g) (streams g) (stderr_text g).
Definition set_hold (v : ascii) (g : yyguts_t) : yyguts_t :=
    Guts (yyin g) (yy_buffer_stack g) (yy_buffer_stack_top g) v (yy_n_chars g) (yyleng g)
    (yy_c_buf_p g) (yytext_ptr g) (yy_init g) (yy_start g) (yy_did_buffer_switch_on_eof g)
    (yy_last_accepting_state g) (yy_last_accepting_cpos g) (yy_buffers g) (streams g)
    (stderr_text g).
Definition set_n_chars (v : Z) (g : yyguts_t) : yyguts_t :=
    Guts (yyin g) (yy_buffer_stack g) (yy_buffer_stack_top g) (yy_hold_char g) v (yyleng g)
    (yy_c_buf_p g) (yytext_ptr g) (yy_init g) (yy_start g) (yy_did_buffer_switch_on_eof g)
    (yy_last_accepting_state g) (yy_last_accepting_cpos g) (yy_buffers g) (streams g)
    (stderr_text g).
Definition set_leng (v : Z) (g : yyguts_t) : yyguts_t :=
    Guts (yyin g) (yy_buffer_stack g) (yy_buffer_stack_top g) (yy_hold_char g) (yy_n_chars g) v
    (yy_c_buf_p g) (yytext_ptr g) (yy_init g) (yy_start g) (yy_did_buffer_switch_on_eof g)
    (yy_last_accepting_state g) (yy_last_accepting_cpos g) (yy_buffers g) (streams g)
    (stderr_text g).
Definition set_c_buf_p (v : Z) (g : yyguts_t) : yyguts_t :=
    Guts (yyin g) (yy_buffer_stack g) (yy_buffer_stack_top g) (yy_hold_char g) (yy_n_chars g)
    (yyleng g) v (yytext_ptr g) (yy_init g) (yy_start g) (yy_did_buffer_switch_on_eof g)
    (yy_last_accepting_state g) (yy_last_accepting_cpos g) (yy_buffers g) (streams g)
    (stderr_text g).
Definition set_text_ptr (v : Z) (g : yyguts_t) : yyguts_t :=
    Guts (yyin g) (yy_buffer_stack g) (yy_buffer_stack_top g) (yy_hold_char g) (yy_n_chars g)
    (yyleng g) (yy_c_buf_p g) v (yy_init g) (yy_start g) (yy_did_buffer_switch_on_eof g)
    (yy_last_accepting_state g) (yy_last_accepting_cpos g) (yy_buffers g) (streams g)
    (stderr_text g).
Definition set_init (v : bool) (g : yyguts_t) : yyguts_t :=
    Guts (yyin g) (yy_buffer_stack g) (yy_buffer_stack_top g) (yy_hold_char g) (yy_n_chars g)
    (yyleng g) (yy_c_buf_p g) (yytext_ptr g) v (yy_start g) (yy_did_buffer_switch_on_eof g)
    (yy_last_accepting_state g) (yy_last_accepting_cpos g) (yy_buffers g) (streams g)
    (stderr_text g).
Definition set_start (v : Z) (g : yyguts_t) : yyguts_t :=
    Guts (yyin g) (yy_buffer_stack g) (yy_buffer_stack_top g) (yy_hold_char g) (yy_n_chars g)
    (yyleng g) (yy_c_buf_p g) (yytext_ptr g) (yy_init g) v (yy_did_buffer_switch_on_eof g)
    (yy_last_accepting_state g) (yy_last_accepting_cpos g) (yy_buffers g) (streams g)
    (stderr_text g).
Definition set_switched (v : bool) (g : yyguts_t) : yyguts_t :=
    Guts (yyin g) (yy_buffer_stack g) (yy_buffer_stack_top g) (yy_hold_char g) (yy_n_chars g)
    (yyleng g) (yy_c_buf_p g) (yytext_ptr g) (yy_init g) (yy_start g) v (yy_last_accepting_state
    g) (yy_last_accepting_cpos g) (yy_buffers g) (streams g) (stderr_text g).
Definition set_last (v0 : Z) (v1 : Z) (g : yyguts_t) : yyguts_t :=
    Guts (yyin g) (yy_buffer_stack g) (yy_buffer_stack_top g) (yy_hold_char g) (yy_n_chars g)
    (yyleng g) (yy_c_buf_p g) (yytext_ptr g) (yy_init g) (yy_start g)
    (yy_did_buffer_switch_on_eof g) v0 v1 (yy_buffers g) (streams g) (stderr_text g).
Definition set_buffers (v : gmap positive yy_buffer_state) (g : yyguts_t) : yyguts_t :=
    Guts (yyin g) (yy_buffer_stack g) (yy_buffer_stack_top g) (yy_hold_char g) (yy_n_chars g)
    (yyleng g) (yy_c_buf_p g) (yytext_ptr g) (yy_init g) (yy_start g)
    (yy_did_buffer_switch_on_eof g) (yy_last_accepting_state g) (yy_last_accepting_cpos g) v
    (streams g) (stderr_text g).
Definition set_streams (v : gmap positive stream) (g : yyguts_t) : yyguts_t :=
    Guts (yyin g) (yy_buffer_stack g) (yy_buffer_stack_top g) (yy_hold_char g) (yy_n_chars g)
    (yyleng g) (yy_c_buf_p g) (yytext_ptr g) (yy_init g) (yy_start g)
    (yy_did_buffer_switch_on_eof g) (yy_last_accepting_state g) (yy_last_accepting_cpos g)
    (yy_buffers g) v (stderr_text g).
Definition set_stderr (v : list string) (g : yyguts_t) : yyguts_t :=
    Guts (yyin g) (yy_buffer_stack g) (yy_buffer_stack_top g) (yy_hold_char g) (yy_n_chars g)
    (yyleng g) (yy_c_buf_p g) (yytext_ptr g) (yy_init g) (yy_start g)
    (yy_did_buffer_switch_on_eof g) (yy_last_accepting_state g) (yy_last_accepting_cpos g)
    (yy_buffers g) (streams g) v.

Abbreviation L := (M yyguts_t).

Definition NUL : ascii := chr 0.
Definition YY_BUF_SIZE : Z := 16384.
Definition YY_READ_BUF_SIZE : Z := 8192.
Definition YY_END_OF_BUFFER : Z := 43.
Definition stdin : positive := 1.

(** yy_fatal_error *)
Definition yy_fatal_error {A} (msg : string) : L A :=
  modify (fun g => set_stderr (stderr_text g ++ [msg]) g);; exit_ 2.

(** ** Access to the current buffer and its memory *)

Definition YY_CURRENT_BUFFER : L (option positive) :=
  g ← get;
  match yy_buffer_stack g with
  | None => mret None
  | Some st => lift_opt UB_bounds (st !! yy_buffer_stack_top g)
  end.

(** YY_CURRENT_BUFFER_LVALUE = p *)
Definition set_current (p : option positive) : L unit :=
  g ← get;
  st ← lift_opt UB_null (yy_buffer_stack g);
  if (yy_buffer_stack_top g <? length st)%nat
  then put (set_stack (Some (<[yy_buffer_stack_top g := p]> st)) (yy_buffer_stack_top g) g)
  else undef UB_bounds.

Definition load (p : positive) : L yy_buffer_state :=
  g ← get; lift_opt UB_dangling (yy_buffers g !! p).
Definition store (p : positive) (f : yy_buffer_state -> yy_buffer_state) : L unit :=
  b ← load p; modify (fun g => set_buffers (<[p := f b]> (yy_buffers g)) g).

Definition current : L positive := p ← YY_CURRENT_BUFFER; lift_opt UB_null p.
Definition cur : L yy_buffer_state := p ← current; load p.
Definition on_cur (f : yy_buffer_state -> yy_buffer_state) : L unit := p ← current; store p f.

(** A character of the memory of a buffer, read and written. *)
Definition peek (b : yy_buffer_state) (a : Z) : L ascii :=
  if a <? 0 then undef UB_bounds
  else match yy_ch_buf b !! Z.to_nat a with
       | Some (Some c) => mret c
       | Some None => undef UB_indeterminate
       | None => undef UB_bounds
       end.
Definition poke (p : positive) (a : Z) (c : ascii) : L unit :=
  b ← load p;
  if (0 <=? a) && (a <? Z.of_nat (length (yy_ch_buf b)))
  then store p (set_ch_buf (<[Z.to_nat a := Some c]> (yy_ch_buf b)))
  else undef UB_bounds.

Definition deref (a : Z) : L ascii := b ← cur; peek b a.
Definition assign (a : Z) (c : ascii) : L unit := p ← current; poke p a c.

(** ** Creating, switching and deleting buffers *)

(** libconfig_yyensure_buffer_stack *)
Definition yyensure_buffer_stack : L unit :=
  g ← get;
  match yy_buffer_stack g with
  | None => put (set_stack (Some [None]) 0 g)
  | Some st =>
      if (length st - 1 <=? yy_buffer_stack_top g)%nat
      then put (set_stack (Some (st ++ replicate 8 None)) (yy_buffer_stack_top g) g)
      else mret tt
  end.

(** libconfig_yy_load_buffer_state *)
Definition yy_load_buffer_state : L unit :=
  b ← cur;
  modify (set_n_chars (yy_b_n_chars b));;
  modify (set_text_ptr (yy_buf_pos b));;
  modify (set_c_buf_p (yy_buf_pos b));;
  modify (set_in (yy_input_file b));;
  c ← deref (yy_buf_pos b);
  modify (set_hold c).

(** libconfig_yy_flush_buffer *)
Definition yy_flush_buffer (p : positive) : L unit :=
  store p (set_b_n_chars 0);;
  poke p 0 NUL;;
  poke p 1 NUL;;
  store p (set_buf_pos 0);;
  store p (set_at_bol true);;
  store p (set_status YY_BUFFER_NEW);;
  c ← YY_CURRENT_BUFFER;
  if decide (c = Some p) then yy_load_buffer_state else mret tt.

(** libconfig_yy_init_buffer *)
Definition yy_init_buffer (p : positive) (file : option positive) : L unit :=
  yy_flush_buffer p;;
  store p (set_input_file file);;
  store p (set_fill true);;
  c ← YY_CURRENT_BUFFER;
  if decide (c = Some p) then mret tt
  else store p (set_lineno (Some 1));; store p (set_column (Some 0)).

(** malloc: an object at an address of its own *)
Definition new_object (b : yy_buffer_state) : L positive :=
  g ← get;
  let p := fresh (dom (yy_buffers g)) in
  put (set_buffers (<[p := b]> (yy_buffers g)) g);; mret p.

(** libconfig_yy_create_buffer *)
Definition yy_create_buffer (file : option positive) (size : Z) : L positive :=
  p ← new_object (Buffer None (replicate (Z.to_nat (size + 2)) None) 0 size 0 true false None None
                    false YY_BUFFER_NEW);
  yy_init_buffer p file;;
  mret p.

(** libconfig_yy_delete_buffer *)
Definition yy_delete_buffer (b : option positive) : L unit :=
  match b with
  | None => mret tt
  | Some p =>
      c ← YY_CURRENT_BUFFER;
      (if decide (c = Some p) then set_current None else mret tt);;
      load p;;
      modify (fun g => set_buffers (delete p (yy_buffers g)) g)
  end.

(** The current buffer, when there is one, keeps its position. *)
Definition flush_position : L unit :=
  c ← YY_CURRENT_BUFFER;
  match c with
  | None => mret tt
  | Some p =>
      g ← get;
      poke p (yy_c_buf_p g) (yy_hold_char g);;
      store p (set_buf_pos (yy_c_buf_p g));;
      store p (set_b_n_chars (yy_n_chars g))
  end.

(** libconfig_yy_switch_to_buffer *)
Definition yy_switch_to_buffer (new_buffer : option positive) : L unit :=
  yyensure_buffer_stack;;
  c ← YY_CURRENT_BUFFER;
  if decide (c = new_buffer) then mret tt
  else
    flush_position;;
    set_current new_buffer;;
    yy_load_buffer_state;;
    modify (set_switched true).

(** libconfig_yypush_buffer_state *)
Definition yypush_buffer_state (new_buffer : option positive) : L unit :=
  match new_buffer with
  | None => mret tt
  | Some _ =>
      yyensure_buffer_stack;;
      flush_position;;
      c ← YY_CURRENT_BUFFER;
      (match c with
       | Some _ => modify (fun g => set_stack (yy_buffer_stack g) (S (yy_buffer_stack_top g)) g)
       | None => mret tt
       end);;
      set_current new_buffer;;
      yy_load_buffer_state;;
      modify (set_switched true)
  end.

(** libconfig_yypop_buffer_state *)
Definition yypop_buffer_state : L unit :=
  c ← YY_CURRENT_BUFFER;
  match c with
  | None => mret tt
  | Some _ =>
      yy_delete_buffer c;;
      set_current None;;
      modify (fun g => set_stack (yy_buffer_stack g) (pred (yy_buffer_stack_top g)) g);;
      c ← YY_CURRENT_BUFFER;
      match c with
      | Some _ => yy_load_buffer_state;; modify (set_switched true)
      | None => mret tt
      end
  end.

(** libconfig_yyrestart *)
Definition yyrestart (input_file : option positive) : L unit :=
  c ← YY_CURRENT_BUFFER;
  (match c with
   | Some _ => mret tt
   | None =>
       yyensure_buffer_stack;;
       g ← get;
       p ← yy_create_buffer (yyin g) YY_BUF_SIZE;
       set_current (Some p)
   end);;
  p ← current;
  yy_init_buffer p input_file;;
  yy_load_buffer_state.

(** libconfig_yy_scan_buffer, on memory that ends in two end-of-buffer
    characters; the line of the buffer is not set. *)
Definition yy_scan_buffer (base : list ascii) : L (option positive) :=
  let size := Z.of_nat (length base) in
  if (size <? 2) || negb (bool_decide (base !! Z.to_nat (size - 2) = Some NUL))
     || negb (bool_decide (base !! Z.to_nat (size - 1) = Some NUL)) then mret None
  else
    p ← new_object (Buffer None (Some <$> base) 0 (size - 2) (size - 2) false true None None
                      false YY_BUFFER_NEW);
    yy_switch_to_buffer (Some p);;
    mret (Some p).

(** libconfig_yy_scan_bytes and libconfig_yy_scan_string *)
Definition yy_scan_bytes (bytes : list ascii) : L positive :=
  b ← yy_scan_buffer (bytes ++ [NUL; NUL]);
  match b with
  | None => yy_fatal_error "bad buffer in libconfig_yy_scan_bytes()"
  | Some p => store p (set_is_ours true);; mret p
  end.

Definition yy_scan_string (yystr : string) : L positive :=
  yy_scan_bytes (String.list_ascii_of_string (c_str yystr)).

(** libconfig_yyset_lineno and libconfig_yyget_lineno *)
Definition yyset_lineno (line_number : Z) : L unit :=
  c ← YY_CURRENT_BUFFER;
  match c with
  | None => yy_fatal_error "libconfig_yyset_lineno called with no buffer"
  | Some _ => on_cur (set_lineno (Some line_number))
  end.

Definition yyget_lineno : L Z :=
  c ← YY_CURRENT_BUFFER;
  match c with
  | None => mret 0
  | Some _ => b ← cur; lift_opt UB_indeterminate (yy_bs_lineno b)
  end.

(** yy_init_globals *)
Definition yy_init_globals (g : yyguts_t) : yyguts_t :=
  set_in None (set_start 0 (set_init false (set_c_buf_p 0 (set_stack None 0 g)))).

(** libconfig_yylex_init: the structure is zeroed first. *)
Definition yylex_init (fs : gmap positive stream) : yyguts_t :=
  yy_init_globals (Guts None None 0 NUL 0 0 0 0 false 0 false 0 0 ∅ fs []).

(** libconfig_yylex_destroy: the stack of buffers is popped and freed. *)
Definition yylex_destroy (fuel : nat) : L unit :=
  iter fuel (fun _ : unit =>
    c ← YY_CURRENT_BUFFER;
    match c with
    | None => mret (inr tt)
    | Some _ => yy_delete_buffer c;; set_current None;; yypop_buffer_state;; mret (inl tt)
    end) tt;;
  modify (set_stack None 0);;
  modify yy_init_globals.

(** ** Refilling *)

Fixpoint fill (p : positive) (a : Z) (cs : list ascii) : L unit :=
  match cs with
  | [] => mret tt
  | c :: cs' => poke p a c;; fill p (a + 1) cs'
  end.

(** YY_INPUT, for a stream that is not interactive (none is): at most [max_size]
    characters to the memory of the current buffer. *)
Definition YY_INPUT (fuel : nat) (buf max_size : Z) : L Z :=
  iter fuel (fun _ : unit =>
    g ← get;
    i ← lift_opt UB_null (yyin g);
    f ← lift_opt UB_dangling (streams g !! i);
    let '(cs, errno, f') := fread (Z.to_nat max_size) f in
    put (set_streams (<[i := f']> (streams g)) g);;
    p ← current;
    fill p buf cs;;
    if (length cs =? 0)%nat && ferror f' then
      if decide (errno = Some EINTR) then
        modify (fun g => set_streams (<[i := clearerr f']> (streams g)) g);; mret (inl tt)
      else yy_fatal_error "input in flex scanner failed"
    else mret (inr (Z.of_nat (length cs)))) tt.

(** *(dest++) = *(source++), [n] times *)
Fixpoint move_chars (n : nat) (dest source : Z) : L unit :=
  match n with
  | O => mret tt
  | S n' => c ← deref source; assign dest c;; move_chars n' (dest + 1) (source + 1)
  end.

Inductive eob_act := EOB_ACT_CONTINUE_SCAN | EOB_ACT_END_OF_FILE | EOB_ACT_LAST_MATCH.

(** Room for one character at least: the buffer is doubled until there is. *)
Definition make_room (fuel : nat) (number_to_move : Z) : L Z :=
  b ← cur;
  iter fuel (fun num_to_read =>
    if negb (num_to_read <=? 0) then mret (inr num_to_read)
    else
      b ← cur;
      g ← get;
      let yy_c_buf_p_offset := s32 (yy_c_buf_p g) in
      (if yy_is_our_buffer b then
         let new_size := u64 (yy_buf_size b * 2) in
         let size := if new_size <=? 0 then u64 (yy_buf_size b + yy_buf_size b / 8) else new_size in
         on_cur (set_buf_size size);;
         on_cur (fun b => set_ch_buf (resize (Z.to_nat (size + 2)) None (yy_ch_buf b)) b)
       else yy_fatal_error "fatal error - scanner input buffer overflow");;
      modify (set_c_buf_p yy_c_buf_p_offset);;
      b ← cur;
      mret (inl (u64 (yy_buf_size b - number_to_move - 1))))
    (u64 (yy_buf_size b - number_to_move - 1)).

(** The characters that follow the [number_to_move] ones kept. *)
Definition read_more (fuel : nat) (number_to_move : Z) : L unit :=
  b ← cur;
  match yy_buffer_status b with
  | YY_BUFFER_EOF_PENDING =>
      modify (set_n_chars 0);; on_cur (set_b_n_chars 0)
  | _ =>
      num_to_read ← make_room fuel number_to_move;
      let num_to_read := if YY_READ_BUF_SIZE <? num_to_read then YY_READ_BUF_SIZE else num_to_read in
      n ← YY_INPUT fuel number_to_move num_to_read;
      modify (set_n_chars n);; on_cur (set_b_n_chars n)
  end.

Definition yy_get_next_buffer (fuel : nat) : L eob_act :=
  b ← cur;
  g ← get;
  if yy_n_chars g + 1 <? yy_c_buf_p g then
    yy_fatal_error "fatal flex scanner internal error--end of buffer missed"
  else if negb (yy_fill_buffer b) then
    mret (if yy_c_buf_p g - yytext_ptr g =? 1 then EOB_ACT_END_OF_FILE else EOB_ACT_LAST_MATCH)
  else
    let number_to_move := s32 (s32 (yy_c_buf_p g - yytext_ptr g) - 1) in
    move_chars (Z.to_nat number_to_move) 0 (yytext_ptr g);;
    read_more fuel number_to_move;;
    g ← get;
    ret_val ← (if yy_n_chars g =? 0 then
                 if number_to_move =? 0 then yyrestart (yyin g);; mret EOB_ACT_END_OF_FILE
                 else on_cur (set_status YY_BUFFER_EOF_PENDING);; mret EOB_ACT_LAST_MATCH
               else mret EOB_ACT_CONTINUE_SCAN);
    g ← get;
    b ← cur;
    (if yy_buf_size b <? u64 (yy_n_chars g + number_to_move) then
       let new_size := u64 (yy_n_chars g + number_to_move + Z.shiftr (yy_n_chars g) 1) in
       on_cur (fun b => set_ch_buf (resize (Z.to_nat new_size) None (yy_ch_buf b)) b)
     else mret tt);;
    let n := yy_n_chars g + number_to_move in
    modify (set_n_chars n);;
    assign n NUL;;
    assign (n + 1) NUL;;
    modify (set_text_ptr 0);;
    mret ret_val.

(** ** Matching on the memory *)

(** The last accepting state, and where it was reached. *)
Definition note_accepting (s cp : Z) : L unit :=
  a ← lift_opt UB_bounds (tab yy_accept s);
  if a =? 0 then mret tt else modify (set_last s cp).

Definition next_state (s c : Z) : L Z := lift_opt UB_bounds (yy_next 113 s c).

(** The class of a character for a state that was scanned already: a NUL is not
    the end of the buffer. *)
Definition class_again (c : ascii) : L Z :=
  if uchar c =? 0 then mret 1 else lift_opt UB_bounds (tab yy_ec (uchar c)).

(** yy_get_previous_state: the state before the end-of-buffer character *)
Fixpoint scan_again (n : nat) (s cp : Z) : L Z :=
  match n with
  | O => mret s
  | S n' =>
      ch ← deref cp;
      c ← class_again ch;
      note_accepting s cp;;
      s' ← next_state s c;
      scan_again n' s' (cp + 1)
  end.

Definition first_state : L Z := g ← get; b ← cur; mret (yy_start g + b2i (yy_at_bol b)).

Definition yy_get_previous_state : L Z :=
  s ← first_state;
  g ← get;
  scan_again (Z.to_nat (yy_c_buf_p g - yytext_ptr g)) s (yytext_ptr g).

(** yy_try_NUL_trans *)
Definition yy_try_NUL_trans (s : Z) : L Z :=
  g ← get;
  note_accepting s (yy_c_buf_p g);;
  s' ← next_state s 1;
  mret (if s' =? YY_JAM then 0 else s').

(** One round of the loop at yy_match. *)
Definition match_round (v : Z * Z) : L (Z * Z + unit) :=
  let '(s, cp) := v in
  ch ← deref cp;
  c ← lift_opt UB_bounds (tab yy_ec (uchar ch));
  note_accepting s cp;;
  s' ← next_state s c;
  mret (if s' =? YY_JAM then inr tt else inl (s', cp + 1)).

(** YY_DO_BEFORE_ACTION *)
Definition YY_DO_BEFORE_ACTION (cp bp : Z) : L unit :=
  modify (set_text_ptr bp);;
  modify (set_leng (cp - bp));;
  c ← deref cp;
  modify (set_hold c);;
  assign cp NUL;;
  modify (set_c_buf_p cp).

(** The lines of the [n] characters at [a]. *)
Fixpoint count_lines (n : nat) (a : Z) : L unit :=
  match n with
  | O => mret tt
  | S n' =>
      c ← deref a;
      (if uchar c =? 10 then
         b ← cur;
         line ← lift_opt UB_indeterminate (yy_bs_lineno b);
         on_cur (set_lineno (Some (line + 1)));;
         on_cur (set_column (Some 0))
       else mret tt);;
      count_lines n' (a + 1)
  end.

(** Where yylex goes on: at yy_match, at yy_find_action; or with the action of a
    rule or of the end of the file. *)
Inductive label := At_match (s cp bp : Z) | At_find_action (s cp bp : Z).
Inductive lexeme := Rule (act : Z) | End_of_file.

(** case YY_END_OF_BUFFER *)
Definition end_of_buffer_case (fuel : nat) (cp : Z) : L (label + lexeme) :=
  g ← get;
  let yy_amount_of_matched_text := s32 (s32 (cp - yytext_ptr g) - 1) in
  assign cp (yy_hold_char g);;
  b ← cur;
  (match yy_buffer_status b with
   | YY_BUFFER_NEW =>
       modify (set_n_chars (yy_b_n_chars b));;
       on_cur (set_input_file (yyin g));;
       on_cur (set_status YY_BUFFER_NORMAL)
   | _ => mret tt
   end);;
  g ← get;
  if yy_c_buf_p g <=? yy_n_chars g then
    modify (set_c_buf_p (yytext_ptr g + yy_amount_of_matched_text));;
    s ← yy_get_previous_state;
    s' ← yy_try_NUL_trans s;
    if negb (s' =? 0) then
      modify (fun g => set_c_buf_p (yy_c_buf_p g + 1) g);;
      g ← get;
      mret (inl (At_match s' (yy_c_buf_p g) (yytext_ptr g)))
    else
      g ← get;
      mret (inl (At_find_action (yy_last_accepting_state g) (yy_last_accepting_cpos g) (yytext_ptr g)))
  else
    act ← yy_get_next_buffer fuel;
    match act with
    | EOB_ACT_END_OF_FILE =>
        modify (set_switched false);;
        modify (fun g => set_c_buf_p (yytext_ptr g) g);;
        mret (inr End_of_file)
    | EOB_ACT_CONTINUE_SCAN =>
        modify (fun g => set_c_buf_p (yytext_ptr g + yy_amount_of_matched_text) g);;
        s ← yy_get_previous_state;
        g ← get;
        mret (inl (At_match s (yy_c_buf_p g) (yytext_ptr g)))
    | EOB_ACT_LAST_MATCH =>
        modify (fun g => set_c_buf_p (yy_n_chars g) g);;
        s ← yy_get_previous_state;
        g ← get;
        mret (inl (At_find_action s (yy_c_buf_p g) (yytext_ptr g)))
    end.

Definition can_match_eol (act : Z) : bool :=
  match tab yy_rule_can_match_eol act with Some z => i2b z | None => false end.

Definition lex_step (fuel : nat) (l : label) : L (label + lexeme) :=
  match l with
  | At_match s cp bp =>
      iter fuel match_round (s, cp);;
      g ← get;
      mret (inl (At_find_action (yy_last_accepting_state g) (yy_last_accepting_cpos g) bp))
  | At_find_action s cp bp =>
      act ← lift_opt UB_bounds (tab yy_accept s);
      YY_DO_BEFORE_ACTION cp bp;;
      (if negb (act =? YY_END_OF_BUFFER) && can_match_eol act
       then count_lines (Z.to_nat (cp - bp)) bp else mret tt);;
      if act =? 0 then
        g ← get;
        assign cp (yy_hold_char g);;
        mret (inl (At_find_action (yy_last_accepting_state g) (yy_last_accepting_cpos g) bp))
      else if act =? YY_END_OF_BUFFER then end_of_buffer_case fuel cp
      else mret (inr (Rule act))
  end.

(** YY_RULE_SETUP *)
Definition YY_RULE_SETUP : L unit :=
  g ← get;
  if 0 <? yyleng g then
    c ← deref (yytext_ptr g + yyleng g - 1);
    on_cur (set_at_bol (uchar c =? 10))
  else mret tt.

(** What precedes the action of a rule; the one with trailing context gives its
    last character back. *)
Definition before_rule (act : Z) : L unit :=
  (if act =? 40 then
     g ← get;
     assign (yy_c_buf_p g) (yy_hold_char g);;
     modify (set_c_buf_p (yy_c_buf_p g - 1));;
     YY_DO_BEFORE_ACTION (yy_c_buf_p g - 1) (yytext_ptr g)
   else mret tt);;
  YY_RULE_SETUP.

Fixpoint read_chars (n : nat) (a : Z) : L (list ascii) :=
  match n with
  | O => mret []
  | S n' => c ← deref a; cs ← read_chars n' (a + 1); mret (c :: cs)
  end.

(** yytext, as a C string of yyleng characters *)
Definition yytext : L string :=
  g ← get;
  cs ← read_chars (Z.to_nat (yyleng g)) (yytext_ptr g);
  mret (String.string_of_list_ascii cs).

(** What yylex does once, at its first call. *)
Definition yylex_first : L unit :=
  g ← get;
  if yy_init g then mret tt
  else
    modify (set_init true);;
    (if yy_start g =? 0 then modify (set_start 1) else mret tt);;
    (match yyin g with None => modify (set_in (Some stdin)) | Some _ => mret tt end);;
    c ← YY_CURRENT_BUFFER;
    (match c with
     | Some _ => mret tt
     | None =>
         yyensure_buffer_stack;;
         g ← get;
         p ← yy_create_buffer (yyin g) YY_BUF_SIZE;
         set_current (Some p)
     end);;
    yy_load_buffer_state.

(** One round of the loop in yylex, up to the action of the rule: its number and
    the text matched, or nothing at the end of the file. *)
Definition yylex_token (fuel : nat) : L (option (Z * string)) :=
  g ← get;
  let yy_cp := yy_c_buf_p g in
  assign yy_cp (yy_hold_char g);;
  s ← first_state;
  r ← iter fuel (lex_step fuel) (At_match s yy_cp yy_cp);
  match r with
  | End_of_file => mret None
  | Rule act => before_rule act;; t ← yytext; mret (Some (act, t))
  end.

(** ** Access to the scanner's state *)

Definition yyget_column : L Z :=
  c ← YY_CURRENT_BUFFER;
  match c with
  | None => mret 0
  | Some _ => b ← cur; lift_opt UB_indeterminate (yy_bs_column b)
  end.

Definition yyset_column (column_no : Z) : L unit :=
  c ← YY_CURRENT_BUFFER;
  match c with
  | None => yy_fatal_error "libconfig_yyset_column called with no buffer"
  | Some _ => on_cur (set_column (Some column_no))
  end.

Definition yyget_in : L (option positive) := gets yyin.
Definition yyset_in (in_str : option positive) : L unit := modify (set_in in_str).
Definition yyget_leng : L Z := gets yyleng.
