(* ===== verification/BufferedLexer.v ===== *)
(** * yylex on the scanner's buffers (lib/scanner.c, lib/scanctx.c, lib/libconfig.c)

    The actions of the rules on the buffers of ScanBuffer: the include stack holds
    buffers and open streams, and the end of a file switches back.  Also what
    __config_read does with the scanner before and after a parse. *)

From S2P Require Import Prelude CString Setting Config ScanCtx Scanner ScanBuffer.
Local Open Scope Z_scope.

(** An entry of the include stack: the buffer that was being scanned, and the
    stream of the file that it includes. *)
Abbreviation included := (option positive * positive)%type.

(** The scanner, with its context, the configuration of the context and yyout. *)
Record lexer := Lexer {
  guts : yyguts_t;
  context : scan_context_of included;
  conf : config;
  yyout : string
}.

Definition with_guts (g : yyguts_t) (l : lexer) : lexer := Lexer g (context l) (conf l) (yyout l).
Definition with_context (ctx : scan_context_of included) (l : lexer) : lexer :=
  Lexer (guts l) ctx (conf l) (yyout l).
Definition with_conf (c : config) (l : lexer) : lexer := Lexer (guts l) (context l) c (yyout l).
Definition echo (t : string) (l : lexer) : lexer := Lexer (guts l) (context l) (conf l) (yyout l +:+ t).

Abbreviation LM := (M lexer).

Definition on_guts {A} (m : L A) : LM A := fun l =>
  let (o, g) := m (guts l) in (o, with_guts g l).

Section Lexer.
(** What the reads of a file meet, for every file that can be opened. *)
Variable fs : string -> option (list read_event).

(** ** Streams *)

Definition fopen (name : string) : LM (option positive) :=
  match fs name with
  | None => mret None
  | Some es => on_guts (
      g ← get;
      let i := fresh (dom (streams g)) in
      put (set_streams (<[i := {| events := es; ferror := false |}]> (streams g)) g);;
      mret (Some i))
  end.

Definition fclose (i : positive) : LM unit :=
  on_guts (modify (fun g => set_streams (delete i (streams g)) g)).

(** ** The include stack *)

(** scanctx_push_include: the stream of the file, or the error *)
Definition push_include (buffer : option positive) : LM (positive + string) :=
  l ← get;
  if depth (context l) =? MAX_INCLUDE_DEPTH then mret (inr err_include_too_deep)
  else
    let (file, ctx) := scanctx_take_string (context l) in
    put (with_context ctx l);;
    fp ← fopen (match include_dir (conf l) with
                | Some d => d +:+ FILE_SEPARATOR +:+ file
                | None => file
                end);
    match fp with
    | Some fp =>
        let (f, names) := scanctx_add_filename (sc_filenames ctx) file in
        modify (with_context {| top_filename := top_filename ctx; files := f :: files ctx;
                                buffers := (buffer, fp) :: buffers ctx;
                                sc_string := sc_string ctx; sc_filenames := names |});;
        mret (inl fp)
    | None => mret (inr err_bad_include)
    end.

(** scanctx_pop_include: the buffer to go back to *)
Definition pop_include : LM (option positive) :=
  l ← get;
  match scanctx_pop_include (context l) with
  | Some ((buffer, fp), ctx) => put (with_context ctx l);; fclose fp;; mret buffer
  | None => mret None
  end.

(** ** Actions *)

Abbreviation laction := (LM (unit + token * semval)).

(** The closing quote of an include. *)
Definition open_include_file : laction :=
  b ← on_guts YY_CURRENT_BUFFER;
  r ← push_include b;
  match r with
  | inl fp =>
      on_guts (modify (set_in (Some fp));;
               g ← get;
               p ← yy_create_buffer (yyin g) YY_BUF_SIZE;
               yy_switch_to_buffer (Some p));;
      on_guts (modify (set_start INITIAL));;
      mret (inl tt)
  | inr error =>
      line ← on_guts yyget_lineno;
      modify (fun l => with_conf (with_parse_error error (scanctx_current_filename (context l)) line (conf l)) l);;
      mret (inr (TOK_ERROR, SNone))
  end.

(** The end of a file. *)
Definition end_of_file : laction :=
  buf ← pop_include;
  match buf with
  | Some b =>
      on_guts (c ← YY_CURRENT_BUFFER;
               yy_delete_buffer c;;
               yy_switch_to_buffer (Some b));;
      mret (inl tt)
  | None => mret (inr (TOK_EOF, SNone))
  end.

Definition act_on (yytext : string) (c : command) : laction :=
  match c with
  | Begin start => on_guts (modify (set_start start));; mret (inl tt)
  | Ignore => mret (inl tt)
  | Append s =>
      l ← get;
      ctx ← lift_opt UB_bounds (scanctx_append_string (context l) s);
      put (with_context ctx l);;
      mret (inl tt)
  | End_string =>
      l ← get;
      let (s, ctx) := scanctx_take_string (context l) in
      put (with_context ctx l);;
      on_guts (modify (set_start INITIAL));;
      mret (inr (TOK_STRING, SString s))
  | Open_include => open_include_file
  | Token t v => mret (inr (t, v))
  | Echo => modify (echo yytext);; mret (inl tt)
  end.

(** ** yylex *)

(** [fuel] bounds the loops of one round. *)
Definition lexer_round (fuel : nat) : laction :=
  r ← on_guts (yylex_token fuel);
  match r with
  | None => end_of_file
  | Some (act, text) => act_on text (rule_command act text)
  end.

Definition libconfig_yylex (fuel rounds : nat) : LM (token * semval) :=
  on_guts yylex_first;;
  iter rounds (fun _ : unit => lexer_round fuel) tt.

(** ** Around a parse (__config_read) *)

(** The scanner on a stream or, without one, on a string. *)
Definition open_input (file : option positive) (str : string) : L unit :=
  (match file with
   | Some _ => yyrestart file
   | None => yy_scan_string str;; mret tt
   end);;
  yyset_lineno 1.

(** What is left of the include stack is unwound after a parse error; the scanner
    is destroyed, and the streams that its context still holds are closed. *)
Definition unwind (fuel : nat) : LM unit :=
  iter fuel (fun _ : unit =>
    buf ← pop_include;
    match buf with
    | Some b => on_guts (yy_delete_buffer (Some b));; mret (inl tt)
    | None => mret (inr tt)
    end) tt.

Fixpoint fclose_all (es : list included) : LM unit :=
  match es with
  | [] => mret tt
  | (_, fp) :: es' => fclose fp;; fclose_all es'
  end.

Definition close_input (fuel : nat) (failed : bool) : LM unit :=
  (if failed then unwind fuel else mret tt);;
  on_guts (yylex_destroy fuel);;
  l ← get;
  fclose_all (buffers (context l)).
End Lexer.
