(* ===== verification/BufferProps.v ===== *)
(** * The current buffer of the scanner: rules for its operations

    Reading and writing the memory of the current buffer, what stays the same
    elsewhere, and the primitives of the buffer functions. *)

From S2P Require Import Prelude CString ScanCtx Scanner ScannerSpec ScanBuffer.
Local Open Scope Z_scope.

Implicit Types (g : yyguts_t) (b : yy_buffer_state) (p : positive).

(** ** The current buffer *)

Definition is_cur g p b : Prop :=
  exists st, yy_buffer_stack g = Some st /\ st !! yy_buffer_stack_top g = Some (Some p) /\
    yy_buffers g !! p = Some b.

(** The state with another content of buffer [p]. *)
Definition with_cur p b g : yyguts_t := set_buffers (<[p := b]> (yy_buffers g)) g.

Lemma is_cur_with p b b' g : is_cur g p b -> is_cur (with_cur p b' g) p b'.
Proof. intros (st & H1 & H2 & H3). exists st. split_and!; [done|done|]. apply lookup_insert_eq. Qed.

(** What a function that works on the current buffer leaves alone. *)
Record frame p g g' : Prop := {
  fr_stack : yy_buffer_stack g' = yy_buffer_stack g /\ yy_buffer_stack_top g' = yy_buffer_stack_top g /\
    dom (streams g') = dom (streams g);
  fr_start : yy_start g' = yy_start g /\ yy_init g' = yy_init g /\ yyin g' = yyin g;
  fr_buffers : forall q, q <> p -> yy_buffers g' !! q = yy_buffers g !! q;
  fr_streams : forall i, yyin g <> Some i -> streams g' !! i = streams g !! i
}.

Lemma frame_refl p g : frame p g g.
Proof. by split. Qed.

Lemma frame_trans p g1 g2 g3 : frame p g1 g2 -> frame p g2 g3 -> frame p g1 g3.
Proof.
  intros [(? & ? & ?) (? & ? & Ei) Hb Hs] [(? & ? & ?) (? & ? & Ei') Hb' Hs']. split.
  - split_and!; congruence.
  - split_and!; congruence.
  - intros q Hq. by rewrite Hb', Hb.
  - intros i Hi. rewrite Hs', Hs; congruence.
Qed.

Lemma frame_with p b g : frame p g (with_cur p b g).
Proof. split; [done|done| |done]. intros q Hq. by apply lookup_insert_ne. Qed.

(** ** Rules *)

Lemma wp_get {S} (Q : outcome S -> S -> Prop) s : Q (Ret s) s -> wp get Q s.
Proof. done. Qed.

Lemma wp_modify {S} f (Q : outcome unit -> S -> Prop) s : Q (Ret tt) (f s) -> wp (modify f) Q s.
Proof. done. Qed.

Lemma wp_put {S} s' (Q : outcome unit -> S -> Prop) s : Q (Ret tt) s' -> wp (put s') Q s.
Proof. done. Qed.

Lemma wp_lift {S A} w (o : option A) a (Q : outcome A -> S -> Prop) s :
  o = Some a -> Q (Ret a) s -> wp (lift_opt w o) Q s.
Proof. by intros ->. Qed.

Lemma wp_CURRENT g p b Q : is_cur g p b -> Q (Ret (Some p)) g -> wp YY_CURRENT_BUFFER Q g.
Proof.
  intros (st & H1 & H2 & H3) HQ. unfold YY_CURRENT_BUFFER. wnext. apply wp_get. wnext.
  rewrite H1. by eapply wp_lift.
Qed.

Lemma wp_current g p b Q : is_cur g p b -> Q (Ret p) g -> wp current Q g.
Proof.
  intros Hc HQ. unfold current. wnext. eapply wp_CURRENT; [done|]. wnext. by eapply wp_lift.
Qed.

Lemma wp_load_buffer g p b Q : yy_buffers g !! p = Some b -> Q (Ret b) g -> wp (load p) Q g.
Proof. intros Hb HQ. unfold load. wnext. apply wp_get. wnext. by eapply wp_lift. Qed.

Lemma wp_store g p b f Q : yy_buffers g !! p = Some b -> Q (Ret tt) (with_cur p (f b) g) -> wp (store p f) Q g.
Proof. intros Hb HQ. unfold store. wnext. eapply wp_load_buffer; [done|]. wnext. by apply wp_modify. Qed.

Lemma is_cur_lookup g p b : is_cur g p b -> yy_buffers g !! p = Some b.
Proof. by intros (st & _ & _ & H). Qed.

Lemma wp_cur g p b Q : is_cur g p b -> Q (Ret b) g -> wp cur Q g.
Proof.
  intros Hc HQ. unfold cur. wnext. eapply wp_current; [done|]. wnext.
  eapply wp_load_buffer; [by eapply is_cur_lookup|done].
Qed.

Lemma wp_on_cur g p b f Q : is_cur g p b -> Q (Ret tt) (with_cur p (f b) g) -> wp (on_cur f) Q g.
Proof.
  intros Hc HQ. unfold on_cur. wnext. eapply wp_current; [done|]. wnext.
  eapply wp_store; [by eapply is_cur_lookup|done].
Qed.

Lemma wp_peek g b (i : nat) c Q : yy_ch_buf b !! i = Some (Some c) -> Q (Ret c) g ->
  wp (peek b (Z.of_nat i)) Q g.
Proof.
  intros Hi HQ. unfold peek. rewrite (proj2 (Z.ltb_ge _ _)) by lia. by rewrite Nat2Z.id, Hi.
Qed.

Lemma wp_deref g p b a (i : nat) c Q : is_cur g p b -> a = Z.of_nat i ->
  yy_ch_buf b !! i = Some (Some c) -> Q (Ret c) g -> wp (deref a) Q g.
Proof.
  intros Hc -> Hi HQ. unfold deref. wnext. eapply wp_cur; [done|]. wnext. by eapply wp_peek.
Qed.

(** The buffer with a cell of its memory written. *)
Definition poked b (i : nat) (c : ascii) : yy_buffer_state := set_ch_buf (<[i := Some c]> (yy_ch_buf b)) b.

Lemma wp_poke g p b a (i : nat) c Q : yy_buffers g !! p = Some b -> a = Z.of_nat i -> (i < length (yy_ch_buf b))%nat ->
  Q (Ret tt) (with_cur p (poked b i c) g) -> wp (poke p a c) Q g.
Proof.
  intros Hc -> Hi HQ. unfold poke. wnext. eapply wp_load_buffer; [done|]. wnext.
  rewrite (proj2 (Z.leb_le _ _)), (proj2 (Z.ltb_lt _ _)) by lia. cbn [andb].
  eapply wp_store; [done|]. by rewrite Nat2Z.id.
Qed.

Lemma wp_assign g p b a (i : nat) c Q : is_cur g p b -> a = Z.of_nat i -> (i < length (yy_ch_buf b))%nat ->
  Q (Ret tt) (with_cur p (poked b i c) g) -> wp (assign a c) Q g.
Proof.
  intros Hc Ha Hi HQ. unfold assign. wnext. eapply wp_current; [done|]. wnext.
  eapply wp_poke; [by eapply is_cur_lookup|done..].
Qed.

(** ** Memory *)

(** The characters [s] lie at [i]. *)
Definition mem_at (m : list (option ascii)) (i : nat) (s : list ascii) : Prop :=
  forall k c, s !! k = Some c -> m !! (i + k)%nat = Some (Some c).

Lemma mem_at_app m i s1 s2 : mem_at m i (s1 ++ s2) <-> mem_at m i s1 /\ mem_at m (i + length s1) s2.
Proof.
  unfold mem_at. split.
  - intros H. split; intros k c Hk.
    + apply H. by apply lookup_app_l_Some.
    + rewrite <- Nat.add_assoc. apply H. rewrite lookup_app_r by lia. by rewrite Nat.add_comm, Nat.add_sub.
  - intros [H1 H2] k c. destruct (decide (k < length s1)%nat).
    + rewrite lookup_app_l by done. apply H1.
    + rewrite lookup_app_r by lia. intros Hk. apply H2 in Hk. by replace (i + k)%nat with (i + length s1 + (k - length s1))%nat by lia.
Qed.

Lemma mem_at_cons m i c s : mem_at m i (c :: s) <-> m !! i = Some (Some c) /\ mem_at m (S i) s.
Proof.
  change (c :: s) with ([c] ++ s). rewrite mem_at_app. cbn [length]. rewrite Nat.add_1_r.
  enough (mem_at m i [c] <-> m !! i = Some (Some c)) by tauto. unfold mem_at. split.
  - intros H. specialize (H 0%nat c eq_refl). by rewrite Nat.add_0_r in H.
  - intros H [|k] c' Hk; [|done]. injection Hk as <-. by rewrite Nat.add_0_r.
Qed.

Lemma mem_at_nil m i : mem_at m i [].
Proof. by intros k c. Qed.

Lemma mem_at_length m i s : mem_at m i s -> s <> [] -> (i + length s <= length m)%nat.
Proof.
  intros H Hs. destruct (s !! (length s - 1)%nat) as [c|] eqn:E.
  - apply H, lookup_lt_Some in E. destruct s; [done|]. simpl in *. lia.
  - apply lookup_ge_None in E. destruct s; [done|]. simpl in *. lia.
Qed.

(** Writing outside of the characters, or over one of them. *)
Lemma mem_at_insert_ne m i s j x : mem_at m i s -> (j < i \/ i + length s <= j)%nat -> mem_at (<[j := x]> m) i s.
Proof.
  intros H Hj k c Hk. rewrite list_lookup_insert_ne; [by apply H|]. apply lookup_lt_Some in Hk. lia.
Qed.

(** ** Undoing *)

Lemma poked_back b (i : nat) c c' : yy_ch_buf b !! i = Some (Some c) -> poked (poked b i c') i c = b.
Proof.
  intros Hi. destruct b. unfold poked. cbn in *. by rewrite list_insert_insert_eq, list_insert_id.
Qed.

Lemma with_cur_twice p b b' g : with_cur p b (with_cur p b' g) = with_cur p b g.
Proof. unfold with_cur. cbn. by rewrite insert_insert_eq. Qed.

Lemma with_cur_id p b g : is_cur g p b -> with_cur p b g = g.
Proof. intros H%is_cur_lookup. destruct g. unfold with_cur. cbn in *. by rewrite insert_id. Qed.
