(* ===== verification/MatchProps.v ===== *)
(** * The automaton on lists of characters

    The states that the automaton can be in, the state and the last match after
    some characters, and the matching of a longer text in two parts. *)

From S2P Require Import Prelude CString ScanCtx Scanner ScannerSpec ScanBuffer.
Local Open Scope Z_scope.

(** ** States *)

Definition EOB_STATE : Z := 9.

Definition good (s : Z) : Prop := is_Some (assoc s state_table).

(** Every state accepts a rule or none, and has a transition on the
    end-of-buffer character. *)
Lemma state_table_eob : forallb (fun e => match tab yy_accept e.1 with
    | Some a => (0 <=? a) && (a <? YY_END_OF_BUFFER) | None => false end &&
  bool_decide (yy_next 113 e.1 0 = Some EOB_STATE)) state_table = true.
Proof. vm_compute. reflexivity. Qed.

Lemma good_entry s : good s -> (exists a, tab yy_accept s = Some a /\ 0 <= a < YY_END_OF_BUFFER) /\
  yy_next 113 s 0 = Some EOB_STATE.
Proof.
  intros [v Hv%assoc_in]. pose proof state_table_eob as Hall. rewrite forallb_forall in Hall.
  specialize (Hall _ Hv). cbn [fst] in Hall. apply andb_prop in Hall as [Ha He%bool_decide_eq_true].
  split; [|done]. destruct (tab yy_accept s) as [a|]; [|done]. exists a. split; [done|].
  apply andb_prop in Ha as [?%Z.leb_le ?%Z.ltb_lt]. done.
Qed.

Lemma good_step s c : good s -> exists s', yy_step s c = Some s' /\ (s' = YY_JAM \/ good s').
Proof.
  intros [v Hv%state_entry]. unfold entry_ok in Hv. apply andb_prop in Hv as [_ Hv].
  rewrite forallb_forall in Hv. specialize (Hv c (in_all_ascii c)). cbn [fst snd] in Hv.
  destruct (yy_step s c) as [s'|]; [|done]. exists s'. split; [done|].
  destruct (Z.eqb_spec s' YY_JAM) as [E|E]; [by left|right].
  apply bool_decide_eq_true in Hv. by eexists.
Qed.

Lemma good_start start bol : condition start -> good (start + b2i bol).
Proof. intros H. eexists. by apply start_state, condition_start. Qed.

Lemma good_not_jam s : good s -> s <> YY_JAM.
Proof. intros [v Hv] ->. by vm_compute in Hv. Qed.

(** The state of the end of the buffer accepts, and jams on what follows. *)
Lemma eob_accepts : tab yy_accept EOB_STATE = Some YY_END_OF_BUFFER.
Proof. reflexivity. Qed.

Lemma eob_jams_ok : forallb (fun k => bool_decide (yy_next 113 EOB_STATE k = Some YY_JAM)) (List.map Z.of_nat (seq 0 49)) = true.
Proof. vm_compute. reflexivity. Qed.

Lemma classes_ok : forallb (fun c => match tab yy_ec (uchar c) with
  | Some k => bool_decide (In k (List.map Z.of_nat (seq 0 49))) && (if uchar c =? 0 then k =? 0 else true) | None => false end) all_ascii = true.
Proof. vm_compute. reflexivity. Qed.

Lemma class_of c : exists k, tab yy_ec (uchar c) = Some k /\ yy_next 113 EOB_STATE k = Some YY_JAM /\
  (uchar c = 0 -> k = 0).
Proof.
  pose proof classes_ok as Hall. rewrite forallb_forall in Hall. specialize (Hall c (in_all_ascii c)).
  destruct (tab yy_ec (uchar c)) as [k|]; [|done]. exists k. split; [done|].
  apply andb_prop in Hall as [Hin%bool_decide_eq_true H0]. split.
  - pose proof eob_jams_ok as Hj. rewrite forallb_forall in Hj. by apply Hj, bool_decide_eq_true in Hin.
  - intros E. rewrite E in H0. by apply Z.eqb_eq in H0.
Qed.

Lemma step_class s c : uchar c <> 0 -> yy_step s c = (k ← tab yy_ec (uchar c); yy_next 113 s k).
Proof. intros H. unfold yy_step, char_class. by rewrite (proj2 (Z.eqb_neq _ _)). Qed.

Lemma step_NUL s c : uchar c = 0 -> yy_step s c = yy_next 113 s 1.
Proof. intros H. unfold yy_step, char_class. by rewrite H. Qed.

(** ** Matching *)

(** What matches so far, in state [s] after [pos] characters. *)
Definition note (s : Z) (pos : nat) (last : option (Z * nat)) : option (Z * nat) :=
  match tab yy_accept s with
  | Some acc => if acc =? 0 then last else Some (acc, pos)
  | None => last
  end.

Fixpoint match_list (s : Z) (t : list ascii) (pos : nat) (last : option (Z * nat)) : option (Z * nat) :=
  match t with
  | [] => note s pos last
  | c :: t' =>
      match yy_step s c with
      | Some s' => if s' =? YY_JAM then note s pos last else match_list s' t' (S pos) (note s pos last)
      | None => None
      end
  end.

Lemma match_list_string s t pos last : good s -> yy_match s t pos last = match_list s (String.list_ascii_of_string t) pos last.
Proof.
  revert s pos last. induction t as [|c t IH]; intros s pos last Hs; simpl; unfold note;
    destruct (good_entry s Hs) as [(a & -> & _) _]; [done|]. cbn [mbind option_bind].
  destruct (good_step s c Hs) as (s' & -> & Hs'). cbn [mbind option_bind].
  destruct (Z.eqb_spec s' YY_JAM) as [->|Hne]; [done|]. destruct Hs'; [done|]. by rewrite IH.
Qed.

(** The state after [u], without a jam, and what matched before it. *)
Fixpoint reach (s : Z) (u : list ascii) : option Z :=
  match u with
  | [] => Some s
  | c :: u' => s' ← yy_step s c; if s' =? YY_JAM then None else reach s' u'
  end.

Fixpoint seen (s : Z) (u : list ascii) (pos : nat) (last : option (Z * nat)) : option (Z * nat) :=
  match u with
  | [] => last
  | c :: u' => match yy_step s c with Some s' => seen s' u' (S pos) (note s pos last) | None => last end
  end.

Lemma reach_good s u s' : good s -> reach s u = Some s' -> good s'.
Proof.
  revert s. induction u as [|c u IH]; intros s Hs; cbn [reach]; [by intros [= <-]|].
  destruct (good_step s c Hs) as (s1 & -> & Hs1). cbn [mbind option_bind].
  destruct (Z.eqb_spec s1 YY_JAM); [done|]. destruct Hs1; [done|]. by apply IH.
Qed.

Lemma reach_app s u v s' : reach s u = Some s' -> reach s (u ++ v) = reach s' v.
Proof.
  revert s. induction u as [|c u IH]; intros s; cbn [reach app]; [by intros [= ->]|].
  destruct (yy_step s c) as [s1|]; [|done]. cbn [mbind option_bind].
  destruct (s1 =? YY_JAM); [done|]. apply IH.
Qed.

Lemma seen_app s u v s' pos last : reach s u = Some s' ->
  seen s (u ++ v) pos last = seen s' v (pos + length u) (seen s u pos last).
Proof.
  revert s pos last. induction u as [|c u IH]; intros s pos last; cbn [reach seen app length];
    [intros [= ->]; by rewrite Nat.add_0_r|].
  destruct (yy_step s c) as [s1|]; [|done]. cbn [mbind option_bind].
  destruct (s1 =? YY_JAM); [done|]. intros H. rewrite (IH _ _ _ H). f_equal. lia.
Qed.

(** A match is not longer than what was read. *)
Lemma seen_bound s u pos acc k : seen s u pos None = Some (acc, k) -> (k <= pos + length u)%nat.
Proof.
  enough (forall l, seen s u pos l = Some (acc, k) -> (k <= pos + length u)%nat \/ l = Some (acc, k)) as H
    by (intros E; by destruct (H _ E)).
  revert s pos. induction u as [|c u IH]; intros s pos l; cbn [seen length]; [by right|].
  destruct (yy_step s c); [|by right]. intros [?|Hn]%IH; [left; lia|]. unfold note in Hn.
  destruct (tab yy_accept s); [|by right]. destruct (_ =? 0); [by right|]. injection Hn as _ <-. left. lia.
Qed.

Lemma note_bound s s' u acc k : note s' (length u) (seen s u 0 None) = Some (acc, k) -> (k <= length u)%nat.
Proof.
  unfold note. destruct (tab yy_accept s'); [|apply seen_bound].
  destruct (_ =? 0); [apply seen_bound|]. by intros [= _ <-].
Qed.

(** Reading one more character. *)
Lemma reach_snoc s u c s1 s2 : reach s u = Some s1 -> yy_step s1 c = Some s2 -> s2 <> YY_JAM ->
  reach s (u ++ [c]) = Some s2.
Proof. intros H1 H2 H3. rewrite (reach_app _ _ _ _ H1). cbn. rewrite H2. cbn. by rewrite (proj2 (Z.eqb_neq _ _)). Qed.

Lemma seen_snoc s u c s1 s2 : reach s u = Some s1 -> yy_step s1 c = Some s2 ->
  seen s (u ++ [c]) 0 None = note s1 (length u) (seen s u 0 None).
Proof. intros H1 H2. rewrite (seen_app _ _ _ _ _ _ H1). cbn. by rewrite H2. Qed.

(** Matching a text in two parts. *)
Lemma match_split s u v s' : reach s u = Some s' ->
  match_list s (u ++ v) 0 None = match_list s' v (length u) (seen s u 0 None).
Proof.
  intros H. enough (forall pos last, match_list s (u ++ v) pos last =
    match_list s' v (pos + length u) (seen s u pos last)) as Hg by apply Hg.
  revert s H. induction u as [|c u IH]; intros s; cbn [reach seen app length match_list].
  - intros [= ->] pos last. by rewrite Nat.add_0_r.
  - destruct (yy_step s c) as [s1|]; [|done]. cbn [mbind option_bind].
    destruct (s1 =? YY_JAM); [done|]. intros H pos last. rewrite (IH _ H). f_equal. lia.
Qed.

(** A jam ends the match. *)
Lemma match_jam s u c v s' : reach s u = Some s' -> yy_step s' c = Some YY_JAM ->
  match_list s (u ++ c :: v) 0 None = note s' (length u) (seen s u 0 None).
Proof. intros H1 H2. rewrite (match_split _ _ _ _ H1). cbn [match_list]. by rewrite H2. Qed.

Lemma match_end s u s' : reach s u = Some s' ->
  match_list s u 0 None = note s' (length u) (seen s u 0 None).
Proof. intros H. rewrite <- (app_nil_r u) at 1. by rewrite (match_split _ _ _ _ H). Qed.

(** Rules have numbers of their own. *)
Lemma note_range s pos last acc k : good s -> note s pos last = Some (acc, k) ->
  (forall a n, last = Some (a, n) -> 0 < a < YY_END_OF_BUFFER) -> 0 < acc < YY_END_OF_BUFFER.
Proof.
  intros Hs. unfold note. destruct (good_entry s Hs) as [(a & -> & Ha) _].
  destruct (Z.eqb_spec a 0); [intros ? Hl; by eapply Hl|]. intros [= <- _] _. lia.
Qed.

Lemma match_range s t pos last acc k : good s -> match_list s t pos last = Some (acc, k) ->
  (forall a n, last = Some (a, n) -> 0 < a < YY_END_OF_BUFFER) -> 0 < acc < YY_END_OF_BUFFER.
Proof.
  revert s pos last. induction t as [|c t IH]; intros s pos last Hs; cbn [match_list]; [by apply note_range|].
  destruct (good_step s c Hs) as (s' & -> & Hs'). destruct (Z.eqb_spec s' YY_JAM); [by apply note_range|].
  destruct Hs'; [done|]. intros Hm Hl. eapply IH; [done|exact Hm|]. intros a k2 Hk. eapply note_range; [exact Hs|exact Hk|exact Hl].
Qed.
