(* ===== verification/RefillProps.v ===== *)
(** * Matching and refilling keep the text

    What is loaded in the current buffer and what is still in its stream, and
    what each part of the scanner does to them: the matching loop, scanning a
    prefix again, moving it, and reading more. *)

From S2P Require Import Prelude CString ScanCtx Scanner ScannerSpec ScanBuffer BufferProps MatchProps.
Local Open Scope Z_scope.

Implicit Types (g : yyguts_t) (b : yy_buffer_state) (p : positive) (D P T : list ascii).

(** ** What is loaded, and what is to come *)

Fixpoint text_of (es : list read_event) : list ascii :=
  match es with
  | Bytes s :: es' => s ++ text_of es'
  | _ :: es' => text_of es'
  | [] => []
  end.

Definition stream_of g : stream :=
  default {| events := []; ferror := false |} (i ← yyin g; streams g !! i).

Definition fills b : bool :=
  yy_fill_buffer b && match yy_buffer_status b with YY_BUFFER_EOF_PENDING => false | _ => true end.

Record loaded p b (bp : nat) D g : Prop := {
  ld_cur : is_cur g p b;
  ld_n : yy_n_chars g = Z.of_nat (bp + length D);
  ld_mem : mem_at (yy_ch_buf b) bp (D ++ [NUL; NUL]);
  ld_file : yy_input_file b = yyin g;
  ld_new : yy_buffer_status b = YY_BUFFER_NEW -> yy_b_n_chars b = yy_n_chars g;
  ld_eof : yy_buffer_status b = YY_BUFFER_EOF_PENDING -> text_of (events (stream_of g)) = [];
  ld_fill : yy_fill_buffer b = true -> yy_is_our_buffer b = true /\
    Z.of_nat (length (yy_ch_buf b)) = yy_buf_size b + 2 /\
    yy_n_chars g + 1 <= yy_buf_size b < 2 ^ 40 /\
    exists i f, yyin g = Some i /\ streams g !! i = Some f
}.

(** The characters that the buffer does not hold yet. *)
Definition pending b g : list ascii := if fills b then text_of (events (stream_of g)) else [].

(** ** Reading a stream *)

Lemma fread_spec n es cs e es' : fread_events n es = (cs, e, es') ->
  text_of es = cs ++ text_of es' /\ (length cs <= n)%nat /\
  (length es' <= length es)%nat /\
  match e with
  | Some _ => (length es' < length es)%nat /\ ~ Forall (fun ev => exists s, ev = Bytes s) es
  | None => (length cs < n)%nat -> es' = []
  end /\
  (Forall (fun ev => exists s, ev = Bytes s) es -> Forall (fun ev => exists s, ev = Bytes s) es').
Proof.
  revert n cs e es'. induction es as [|ev es IH]; intros n cs e es'; cbn [fread_events].
  { intros [= <- <- <-]. split_and!; simpl; try done; lia. }
  destruct ev as [s| |].
  - destruct (Nat.leb_spec n (length s)) as [Hle|Hgt].
    + intros [= <- <- <-]. rewrite length_take. split_and!; simpl; try lia.
      * by rewrite app_assoc, take_drop.
      * intros [_ Hes]%Forall_cons_1. constructor; [by eexists|done].
    + destruct (fread_events (n - length s) es) as [[cs1 e1] es1] eqn:E. intros [= <- <- <-].
      apply IH in E as (Et & Hl & Hle & He & Hf). rewrite length_app. split_and!; simpl; try lia.
      * by rewrite Et, app_assoc.
      * destruct e1; [destruct He; split; [lia|]|intros; apply He; lia]. by intros [_ ?]%Forall_cons_1.
      * intros [_ Hes]%Forall_cons_1. by apply Hf.
  - intros [= <- <- <-]. split_and!; simpl; try (done || lia).
    + intros [[s Hs] _]%Forall_cons_1. done.
    + intros [[s Hs] _]%Forall_cons_1. done.
  - intros [= <- <- <-]. split_and!; simpl; try (done || lia).
    + intros [[s Hs] _]%Forall_cons_1. done.
    + intros [[s Hs] _]%Forall_cons_1. done.
Qed.

(** A stream whose reads never fail and are never interrupted. *)
Definition clean (f : stream) : Prop :=
  ferror f = false /\ Forall (fun ev => exists s, ev = Bytes s) (events f).

(** ** Changes that matching makes *)

(** Only the registers of the last accepting state. *)
Definition lastly g g' : Prop := exists s c, g' = set_last s c g.

Lemma lastly_refl g : lastly g g.
Proof. exists (yy_last_accepting_state g), (yy_last_accepting_cpos g). by destruct g. Qed.

Lemma lastly_set g g' s c : lastly g g' -> lastly g (set_last s c g').
Proof. intros (s' & c' & ->). by exists s, c. Qed.

Lemma lastly_cur g g' p b : lastly g g' -> is_cur g p b -> is_cur g' p b.
Proof. by intros (s & c & ->). Qed.

Definition last_ok (bp : nat) g (last : option (Z * nat)) : Prop :=
  match last with
  | None => True
  | Some (acc, pos) => acc <> 0 /\ tab yy_accept (yy_last_accepting_state g) = Some acc /\
      yy_last_accepting_cpos g = Z.of_nat (bp + pos)
  end.

Lemma wp_note_accepting g bp s pos last cp Q : good s -> cp = Z.of_nat (bp + pos) -> last_ok bp g last ->
  (forall g', (g' = g \/ g' = set_last s cp g) -> last_ok bp g' (note s pos last) -> Q (Ret tt) g') ->
  wp (note_accepting s cp) Q g.
Proof.
  intros Hs -> Hl HQ. unfold note_accepting. wnext. unfold note in HQ.
  destruct (good_entry s Hs) as [(a & Ha & _) _]. rewrite Ha in HQ. eapply wp_lift; [done|]. wnext.
  destruct (Z.eqb_spec a 0); [by apply wp_ret, HQ; [left|]|]. apply wp_modify, HQ; [by right|].
  split_and!; [done|done|done].
Qed.

Lemma wp_next_state g s k s' Q : yy_next 113 s k = Some s' -> Q (Ret s') g -> wp (next_state s k) Q g.
Proof. intros Hs HQ. by eapply wp_lift. Qed.

(** ** The matching loop *)

Section Matching.
Context (p : positive) (b : yy_buffer_state) (bp : nat) (D T : list ascii) (s0 : Z).
Context (Hmem : mem_at (yy_ch_buf b) bp (D ++ [NUL; NUL])) (Hs0 : good s0).
Context (HD : exists P, T = D ++ P).

(** The loop stopped at a match of the whole text, or at a NUL: one of the text,
    or the first of those that end the buffer; the loop began at [from]. *)
Definition matched (from : nat) g : Prop :=
  (exists acc pos, match_list s0 T 0 None = Some (acc, pos) /\ (pos <= length D)%nat /\ last_ok bp g (Some (acc, pos))) \/
  (exists j s, (from <= j <= length D)%nat /\ (D ++ [NUL; NUL]) !! j = Some NUL /\ reach s0 (take j T) = Some s /\
     yy_last_accepting_state g = EOB_STATE /\ yy_last_accepting_cpos g = Z.of_nat (bp + j + 1)).

Lemma take_T j : (j <= length D)%nat -> take j T = take j D.
Proof. destruct HD as [P ->]. intros. by rewrite take_app_le. Qed.

Lemma char_T j c : (D ++ [NUL; NUL]) !! j = Some c -> uchar c <> 0 -> D !! j = Some c /\ T !! j = Some c.
Proof.
  intros H Hc. assert (j < length D)%nat as Hj.
  { apply Nat.nlt_ge. intros Hge. apply Hc. rewrite lookup_app_r in H by lia.
    destruct (j - length D)%nat as [|[|k]]; [by injection H as <-|by injection H as <-|done]. }
  rewrite lookup_app_l in H by done. split; [done|]. destruct HD as [P ->]. by rewrite lookup_app_l.
Qed.

Lemma wp_deref_mem g j a c Q : is_cur g p b -> a = Z.of_nat (bp + j) -> (D ++ [NUL; NUL]) !! j = Some c ->
  Q (Ret c) g -> wp (deref a) Q g.
Proof. intros Hc Ha Hj HQ. eapply wp_deref; [done|done|by apply Hmem|done]. Qed.

(** A NUL leads to the end-of-buffer state, and the loop ends one round later. *)
Lemma match_NUL fuel g j s cp Q : is_cur g p b -> good s -> reach s0 (take j T) = Some s ->
  (j <= length D)%nat -> (D ++ [NUL; NUL]) !! j = Some NUL -> cp = Z.of_nat (bp + j) -> (2 <= fuel)%nat ->
  last_ok bp g (seen s0 (take j T) 0 None) ->
  (forall g', lastly g g' -> matched j g' -> Q (Ret tt) g') -> wp (iter fuel match_round (s, cp)) Q g.
Proof.
  intros Hc Hs Hr Hj Hn -> Hf Hl HQ. destruct fuel as [|[|fuel]]; try lia.
  assert (exists c, (D ++ [NUL; NUL]) !! S j = Some c) as [c Hnext].
  { apply lookup_lt_is_Some. rewrite length_app. simpl. lia. }
  cbn [iter]. wnext. unfold match_round at 1. wnext. eapply wp_deref_mem; [done|done|done|]. wnext.
  destruct (good_entry s Hs) as [_ Heob]. eapply (wp_lift _ _ 0); [reflexivity|]. wnext.
  eapply wp_note_accepting; [done|done|done|]. intros g1 H1 _. wnext.
  eapply wp_next_state; [exact Heob|]. wnext. cbn [Z.eqb]. change (EOB_STATE =? YY_JAM) with false. cbv iota.
  apply wp_ret. wnext. assert (lastly g g1) as L1 by (destruct H1 as [-> | ->]; [apply lastly_refl|by eexists _, _]).
  cbn [iter]. wnext. unfold match_round at 1. wnext.
  eapply (wp_deref_mem g1 (S j)); [by eapply lastly_cur|lia|done|]. wnext.
  destruct (class_of c) as (k & Hk & Hjam & _). eapply wp_lift; [exact Hk|]. wnext.
  unfold note_accepting. wnext. eapply wp_lift; [exact eob_accepts|]. wnext.
  change (YY_END_OF_BUFFER =? 0) with false. cbv iota. apply wp_modify. wnext.
  eapply wp_next_state; [exact Hjam|]. wnext. change (YY_JAM =? YY_JAM) with true. cbv iota.
  apply wp_ret. wnext. apply wp_ret, HQ; [by apply lastly_set|]. right. exists j, s.
  split_and!; [done|done|done|done|done|]. cbn [yy_last_accepting_cpos set_last]. lia.
Qed.
(** A run of the loop from any position that was reached. *)
Lemma match_loop_ok fuel n g j s cp Q : is_cur g p b -> good s -> reach s0 (take j T) = Some s ->
  (j + n = length D)%nat -> cp = Z.of_nat (bp + j) -> (n + 2 <= fuel)%nat ->
  last_ok bp g (seen s0 (take j T) 0 None) -> (T <> [] -> is_Some (match_list s0 T 0 None)) ->
  (forall g', lastly g g' -> matched j g' -> Q (Ret tt) g') -> wp (iter fuel match_round (s, cp)) Q g.
Proof.
  revert fuel g j s cp. induction n as [|n IH]; intros fuel g j s cp Hc Hs Hr Hj Hcp Hf Hl Htot HQ.
  { eapply match_NUL; try done; try lia. rewrite lookup_app_r by lia. by replace (j - length D)%nat with 0%nat by lia. }
  destruct ((D ++ [NUL; NUL]) !! j) as [c|] eqn:Ec.
  2:{ apply lookup_ge_None in Ec. rewrite length_app in Ec. simpl in Ec. lia. }
  destruct (Z.eq_dec (uchar c) 0) as [H0|Hne].
  { assert (c = NUL) as -> by (apply uchar_inj; by rewrite H0). eapply match_NUL; try done; lia. }
  destruct (char_T j c Ec Hne) as [HcD HcT]. destruct fuel as [|fuel]; [lia|]. subst cp.
  cbn [iter]. wnext. unfold match_round at 1. wnext. eapply wp_deref_mem; [done|done|done|]. wnext.
  destruct (good_step s c Hs) as (s' & Hstep & Hs'). pose proof Hstep as Hclass.
  rewrite step_class in Hclass by done. destruct (tab yy_ec (uchar c)) as [k|]; [|done].
  eapply wp_lift; [reflexivity|]. wnext.
  eapply wp_note_accepting; [done|done|done|]. intros g1 H1 Hl1. wnext. cbn [mbind option_bind] in Hclass.
  eapply wp_next_state; [exact Hclass|]. wnext.
  assert (lastly g g1) as L1 by (destruct H1 as [-> | ->]; [apply lastly_refl|by eexists _, _]).
  assert (length (take j T) = j) as Elen.
  { rewrite length_take. apply lookup_lt_Some in HcT. lia. }
  destruct (Z.eqb_spec s' YY_JAM) as [->|Hnj]; apply wp_ret; wnext.
  - apply wp_ret, HQ; [done|]. left.
    assert (match_list s0 T 0 None = note s j (seen s0 (take j T) 0 None)) as Em.
    { rewrite <- (take_drop_middle T j c HcT) at 1. rewrite (match_jam _ _ _ _ _ Hr Hstep). by rewrite Elen. }
    destruct Htot as [[acc pos] Hsome]; [by intros ->|]. exists acc, pos. split; [done|].
    split; [|by rewrite <- Hsome, Em].
    rewrite Em in Hsome. pose proof (note_bound s0 s (take j T) acc pos) as Hb. rewrite Elen in Hb.
    specialize (Hb Hsome). lia.
  - destruct Hs' as [|Hs']; [done|]. apply (IH _ _ (S j) s'); [by eapply lastly_cur|done| |lia|lia|lia| |done|].
    + rewrite (take_S_r _ _ _ HcT). by eapply reach_snoc.
    + rewrite (take_S_r _ _ _ HcT), (seen_snoc _ _ _ _ _ Hr Hstep), Elen. done.
    + intros g2 H2 Hm. apply HQ; [destruct L1 as (x & y & ->), H2 as (x' & y' & ->); by exists x', y'|].
      destruct Hm as [Hm|(i & s2 & Hi & Hm)]; [by left|right]. exists i, s2. split; [lia|done].
Qed.
End Matching.

(** ** Scanning a prefix again *)

Section Again.
Context (p : positive) (b : yy_buffer_state) (bp : nat).

Lemma wp_class_again g c k Q : char_class c = Some k -> Q (Ret k) g -> wp (class_again c) Q g.
Proof.
  unfold char_class, class_again. intros Hk HQ. destruct (uchar c =? 0).
  - injection Hk as <-. by apply wp_ret.
  - by eapply wp_lift.
Qed.

Lemma scan_again_ok v s s' i last g Q : is_cur g p b -> good s -> mem_at (yy_ch_buf b) (bp + i) v ->
  reach s v = Some s' -> last_ok bp g last ->
  (forall g', lastly g g' -> last_ok bp g' (seen s v i last) -> Q (Ret s') g') ->
  wp (scan_again (length v) s (Z.of_nat (bp + i))) Q g.
Proof.
  revert s i last g. induction v as [|c v IH]; intros s i last g Hc Hs Hm Hr Hl HQ; cbn [scan_again length].
  { injection Hr as <-. apply wp_ret, HQ; [apply lastly_refl|done]. }
  apply mem_at_cons in Hm as [Hm0 Hm]. wnext. eapply wp_deref; [done|done|done|]. wnext.
  cbn [reach seen] in Hr, HQ. destruct (good_step s c Hs) as (s1 & Hstep & Hs1).
  rewrite Hstep in Hr, HQ. cbn [mbind option_bind] in Hr. unfold yy_step in Hstep.
  destruct (char_class c) as [k|] eqn:Ek; [|done]. cbn [mbind option_bind] in Hstep.
  eapply wp_class_again; [done|]. wnext. eapply wp_note_accepting; [done|done|done|].
  intros g1 H1 Hl1. wnext. eapply wp_next_state; [done|]. wnext.
  destruct (Z.eqb_spec s1 YY_JAM); [done|]. destruct Hs1 as [|Hs1]; [done|].
  assert (lastly g g1) as L1 by (destruct H1 as [-> | ->]; [apply lastly_refl|by eexists _, _]).
  replace (Z.of_nat (bp + i) + 1) with (Z.of_nat (bp + S i)) by lia.
  eapply IH; [by eapply lastly_cur|done|by rewrite Nat.add_succ_r|done|done|].
  intros g2 (x & y & ->) H2. apply HQ; [|done]. destruct L1 as (x' & y' & ->). by exists x, y.
Qed.

Lemma previous_state_ok v s' g Q : is_cur g p b -> good (yy_start g + b2i (yy_at_bol b)) ->
  mem_at (yy_ch_buf b) bp v -> yytext_ptr g = Z.of_nat bp -> yy_c_buf_p g = Z.of_nat (bp + length v) ->
  reach (yy_start g + b2i (yy_at_bol b)) v = Some s' ->
  (forall g', lastly g g' -> last_ok bp g' (seen (yy_start g + b2i (yy_at_bol b)) v 0 None) -> Q (Ret s') g') ->
  wp yy_get_previous_state Q g.
Proof.
  intros Hc Hs Hm Et Ec Hr HQ. unfold yy_get_previous_state, first_state. wnext. wnext. apply wp_get. wnext. wnext.
  eapply wp_cur; [done|]. wnext. apply wp_ret. wnext. wnext. apply wp_get. wnext.
  rewrite Et, Ec. replace (Z.to_nat _) with (length v) by lia.
  replace (Z.of_nat bp) with (Z.of_nat (bp + 0)) by lia.
  eapply (scan_again_ok v _ s' 0 None); [done|done|by rewrite Nat.add_0_r|done|done|done].
Qed.

Lemma try_NUL_ok s s' i last g Q : good s -> yy_c_buf_p g = Z.of_nat (bp + i) -> last_ok bp g last ->
  yy_step s NUL = Some s' ->
  (forall g', lastly g g' -> last_ok bp g' (note s i last) -> Q (Ret (if s' =? YY_JAM then 0 else s')) g') ->
  wp (yy_try_NUL_trans s) Q g.
Proof.
  intros Hs Ec Hl Hstep HQ. unfold yy_try_NUL_trans. wnext. apply wp_get. wnext. wnext.
  eapply wp_note_accepting; [done|done|done|]. intros g1 H1 Hl1. wnext. wnext.
  rewrite step_NUL in Hstep by done. eapply wp_next_state; [done|]. wnext. apply wp_ret, HQ; [|done].
  destruct H1 as [-> | ->]; [apply lastly_refl|by eexists _, _].
Qed.
End Again.

(** ** Moving and filling *)

Definition with_mem p m b g : yyguts_t := with_cur p (set_ch_buf m b) g.

Lemma with_mem_cur p m b g : is_cur g p b -> is_cur (with_mem p m b g) p (set_ch_buf m b).
Proof. apply is_cur_with. Qed.

Lemma set_ch_buf_id b : set_ch_buf (yy_ch_buf b) b = b.
Proof. by destruct b. Qed.

Lemma with_mem_id p b g : is_cur g p b -> with_mem p (yy_ch_buf b) b g = g.
Proof. intros Hc. unfold with_mem. rewrite set_ch_buf_id. by apply with_cur_id. Qed.

Lemma move_chars_ok p b bp D n k m g Q : is_cur g p b -> (k + n = length D)%nat ->
  mem_at m 0 (take k D) -> mem_at m (bp + k) (drop k D) ->
  (forall m', length m' = length m -> mem_at m' 0 D -> Q (Ret tt) (with_mem p m' b g)) ->
  wp (move_chars n (Z.of_nat k) (Z.of_nat (bp + k))) Q (with_mem p m b g).
Proof.
  intros Hc. revert k m. induction n as [|n IH]; intros k m Hk H0 H1 HQ; cbn [move_chars].
  { apply wp_ret, HQ; [done|]. by rewrite take_ge in H0 by lia. }
  destruct (D !! k) as [c|] eqn:Ek; [|apply lookup_ge_None in Ek; lia].
  pose proof (drop_S D c k Ek) as Ed. rewrite Ed in H1. apply mem_at_cons in H1 as [Hm H1].
  wnext. eapply wp_deref; [by apply with_mem_cur|done|done|]. wnext. wnext.
  pose proof (lookup_lt_Some _ _ _ Hm) as Hlt.
  eapply wp_assign; [by apply with_mem_cur|done|simpl; lia|]. wnext.
  assert (with_cur p (poked (set_ch_buf m b) k c) (with_mem p m b g) = with_mem p (<[k := Some c]> m) b g) as ->
    by (unfold with_mem; by rewrite with_cur_twice).
  replace (Z.of_nat k + 1) with (Z.of_nat (S k)) by lia.
  replace (Z.of_nat (bp + k) + 1) with (Z.of_nat (bp + S k)) by lia.
  apply IH; [lia| | |].
  - rewrite (take_S_r _ _ _ Ek). apply mem_at_app. split.
    + apply mem_at_insert_ne; [done|]. rewrite length_take. lia.
    + rewrite length_take, Nat.min_l by (apply lookup_lt_Some in Ek; lia). apply mem_at_cons.
      split; [apply list_lookup_insert_eq; lia|apply mem_at_nil].
  - apply mem_at_insert_ne; [by rewrite Nat.add_succ_r|lia].
  - intros m' Hl. rewrite length_insert in Hl. by apply HQ.
Qed.

Lemma fill_ok p b cs a m g Q : is_cur g p b -> (a + length cs <= length m)%nat ->
  (forall m', length m' = length m -> mem_at m' a cs -> (forall i, (i < a)%nat -> m' !! i = m !! i) ->
     Q (Ret tt) (with_mem p m' b g)) ->
  wp (fill p (Z.of_nat a) cs) Q (with_mem p m b g).
Proof.
  intros Hc. revert a m. induction cs as [|c cs IH]; intros a m Ha HQ; cbn [fill].
  { apply wp_ret, HQ; [done|apply mem_at_nil|done]. }
  cbn [length] in Ha. wnext.
  eapply wp_poke; [by eapply is_cur_lookup, with_mem_cur|done|simpl; lia|]. wnext.
  assert (with_cur p (poked (set_ch_buf m b) a c) (with_mem p m b g) = with_mem p (<[a := Some c]> m) b g) as ->
    by (unfold with_mem; by rewrite with_cur_twice).
  replace (Z.of_nat a + 1) with (Z.of_nat (S a)) by lia. apply IH; [rewrite length_insert; lia|].
  intros m' Hl Hm Hold. rewrite length_insert in Hl. apply HQ; [done| |].
  - apply mem_at_cons. split; [|done]. rewrite Hold by lia. apply list_lookup_insert_eq. lia.
  - intros i Hi. rewrite Hold by lia. apply list_lookup_insert_ne. lia.
Qed.
