(* ===== verification/RefillLoop.v ===== *)
(** * Refilling the buffer

    yy_get_next_buffer, as a whole: it keeps the text, what is loaded and what
    the stream still holds. *)

From S2P Require Import Prelude CString ScanCtx Scanner ScannerSpec ScanBuffer BufferProps MatchProps RefillProps.
Local Open Scope Z_scope.

Implicit Types (g : yyguts_t) (b : yy_buffer_state) (p : positive) (D P T : list ascii).

(** ** YY_INPUT *)

Definition with_stream (i : positive) (f : stream) g : yyguts_t := set_streams (<[i := f]> (streams g)) g.

Lemma with_stream_id i f g : streams g !! i = Some f -> with_stream i f g = g.
Proof. intros H. destruct g. unfold with_stream. cbn in *. by rewrite insert_id. Qed.

Lemma with_stream_twice i f f' g : with_stream i f (with_stream i f' g) = with_stream i f g.
Proof. unfold with_stream. cbn. by rewrite insert_insert_eq. Qed.

Lemma YY_INPUT_ok p b m i f0 max a fuel f g Q : is_cur g p b -> yyin g = Some i -> 0 < max ->
  (a + Z.to_nat max <= length m)%nat -> (length (events f) < fuel)%nat -> (clean f0 -> clean f) ->
  (text_of (events f) = text_of (events f0) /\ (length (events f) <= length (events f0))%nat) ->
  (forall cs f' m', text_of (events f0) = cs ++ text_of (events f') -> Z.of_nat (length cs) <= max ->
     (cs = [] -> text_of (events f0) = []) -> (clean f0 -> clean f') ->
     (length (events f') <= length (events f0))%nat ->
     length m' = length m -> mem_at m' a cs -> (forall k, (k < a)%nat -> m' !! k = m !! k) ->
     Q (Ret (Z.of_nat (length cs))) (with_mem p m' b (with_stream i f' g))) ->
  (forall g', ~ clean f0 -> Q (Exited 2) g') ->
  wp (YY_INPUT fuel (Z.of_nat a) max) Q (with_mem p m b (with_stream i f g)).
Proof.
  intros Hc Hi Hmax Hm. revert f. induction fuel as [|fuel IH]; intros f Hf Hclean [Htext Hlen] HQ Hexit; [lia|].
  unfold YY_INPUT. cbn [iter]. wnext. wnext. apply wp_get. wnext. wnext. eapply wp_lift; [exact Hi|]. wnext. wnext.
  eapply wp_lift; [apply lookup_insert_eq|]. wnext.
  unfold fread. destruct (fread_events (Z.to_nat max) (events f)) as [[cs e] es'] eqn:Er.
  apply fread_spec in Er as (Et & Hl & Hle & He & Hfa). wnext. apply wp_put. wnext. wnext.
  eapply (wp_current _ p (set_ch_buf m b)); [by apply with_mem_cur|]. wnext. wnext.
  set (f' := {| events := es'; ferror := ferror f || match e with Some _ => true | None => false end |}).
  match goal with |- wp _ _ ?g1 => replace g1 with (with_mem p m b (with_stream i f' g)) by
    (rewrite <- (with_stream_twice i f' f); done) end.
  assert (ferror f' = false -> clean f0 -> clean f') as Hclean'
    by (intros Hn [Hn0 Hf0]%Hclean; split; [done|by apply Hfa]).
  destruct cs as [|c cs].
  - cbn [fill]. apply wp_ret. wnext. cbn [length Nat.eqb andb].
    destruct (ferror f') eqn:Eerr; cbn [andb].
    + assert (~ clean f0) as Hdirty.
      { intros [Hn0 Hf0]%Hclean. cbn [ferror f'] in Eerr. rewrite Hn0 in Eerr. destruct e; [by apply He|done]. }
      destruct (decide (e = Some EINTR)) as [->|Hne].
      * wnext. apply wp_modify. wnext. apply wp_ret. wnext.
        match goal with |- wp _ _ ?g1 => replace g1 with (with_mem p m b (with_stream i (clearerr f') g)) by
          (rewrite <- (with_stream_twice i (clearerr f') f'); done) end.
        destruct He as [Hlt _]. apply IH; [cbn [events clearerr f']; lia|done| |done|done].
        cbn [events clearerr f']. rewrite <- Htext, Et. split; [done|lia].
      * unfold yy_fatal_error. wnext. apply wp_modify. wnext. by apply Hexit.
    + apply wp_ret. wnext. apply wp_ret.
      assert (e = None) as -> by (destruct e; [|done]; cbn [ferror f'] in Eerr; by rewrite orb_true_r in Eerr).
      simpl in Hl, He. specialize (He ltac:(lia)). subst es'.
      apply (HQ [] f' m); try done; simpl; try lia; rewrite <- Htext, Et; done.
  - apply (fill_ok p b); [done|lia|]. intros m' Hm' Hmem Hold. wnext. cbn [Nat.eqb length andb].
    apply wp_ret. wnext. apply wp_ret. apply (HQ (c :: cs) f' m'); try done.
    + by rewrite <- Htext, Et.
    + lia.
    + intros Hc0. apply Hclean'; [|done]. destruct (Hclean Hc0) as [Hn0 Hf0]. cbn [ferror f']. rewrite Hn0.
      destruct e; [by destruct He|done].
    + cbn [events f']. lia.
Qed.

(** ** Room to read *)

Definition sized (size : Z) m b : yy_buffer_state := set_ch_buf m (set_buf_size size b).

Lemma make_room_ok fuel p b g n Q : is_cur g p b -> yy_is_our_buffer b = true -> (2 <= fuel)%nat ->
  Z.of_nat (length (yy_ch_buf b)) = yy_buf_size b + 2 -> 0 <= n -> n + 1 <= yy_buf_size b < 2 ^ 40 ->
  (yy_buf_size b <= n + 1 -> 0 <= yy_c_buf_p g < 2 ^ 31) -> n < 2 ^ 31 ->
  (forall size m, Z.of_nat (length m) = size + 2 -> n + 1 < size < 2 ^ 40 ->
     (forall k, (k < length (yy_ch_buf b))%nat -> m !! k = yy_ch_buf b !! k) ->
     Q (Ret (size - n - 1)) (with_cur p (sized size m b) g)) ->
  wp (make_room fuel n) Q g.
Proof.
  intros Hc Ho Hf Hlen Hn Hsize Hp Hn31 HQ. change (2 ^ 40) with 1099511627776 in *. change (2 ^ 31) with 2147483648 in *.
  unfold make_room. wnext. eapply wp_cur; [done|]. wnext.
  destruct fuel as [|[|fuel]]; try lia. cbn [iter].
  rewrite uwrap_small by (change (2 ^ 64) with 18446744073709551616; lia).
  destruct (Z.leb_spec (yy_buf_size b - n - 1) 0) as [Hz|Hpos]; cbn [negb].
  - wnext. wnext. eapply wp_cur; [done|]. wnext. wnext. apply wp_get. wnext. rewrite Ho. wnext. cbv zeta.
    rewrite uwrap_small by (change (2 ^ 64) with 18446744073709551616; lia).
    rewrite (proj2 (Z.leb_gt _ _)) by lia. wnext. eapply wp_on_cur; [done|]. wnext.
    eapply wp_on_cur; [by eapply is_cur_with|]. rewrite with_cur_twice. wnext. wnext. apply wp_modify. wnext.
    set (size := yy_buf_size b * 2). set (m := resize (Z.to_nat (size + 2)) None (yy_ch_buf (set_buf_size size b))).
    assert (set_c_buf_p (s32 (yy_c_buf_p g)) (with_cur p (sized size m b) g) = with_cur p (sized size m b) g) as Eg.
    { specialize (Hp ltac:(lia)). rewrite swrap_small by (change (2 ^ (32 - 1)) with 2147483648; lia). by destruct g. }
    unfold sized in Eg. fold size. fold m. rewrite Eg. wnext.
    eapply wp_cur; [by eapply is_cur_with|]. wnext. apply wp_ret. wnext. cbn [yy_buf_size set_ch_buf set_buf_size].
    rewrite uwrap_small by (change (2 ^ 64) with 18446744073709551616; unfold size; lia).
    wnext. rewrite (proj2 (Z.leb_gt (size - n - 1) 0)) by (unfold size; lia). cbn [negb].
    apply wp_ret. wnext. apply wp_ret. apply HQ; [|unfold size; lia|].
    + unfold m. rewrite length_resize. unfold size. lia.
    + intros k Hk. unfold m. apply lookup_resize; [|done]. cbn. unfold size. lia.
  - wnext. apply wp_ret. wnext. apply wp_ret.
    assert (with_cur p (sized (yy_buf_size b) (yy_ch_buf b) b) g = g) as <-.
    { replace (sized _ _ b) with b by (by destruct b). by apply with_cur_id. }
    apply HQ; [done|lia|done].
Qed.

(** ** Starting a buffer over *)

Lemma load_state_ok g p b i c Q : is_cur g p b -> yy_buf_pos b = Z.of_nat i -> yy_ch_buf b !! i = Some (Some c) ->
  Q (Ret tt) (set_hold c (set_in (yy_input_file b) (set_c_buf_p (yy_buf_pos b)
     (set_text_ptr (yy_buf_pos b) (set_n_chars (yy_b_n_chars b) g))))) ->
  wp yy_load_buffer_state Q g.
Proof.
  intros Hc Hi Hm HQ. unfold yy_load_buffer_state. wnext. eapply wp_cur; [done|]. wnext. wnext.
  apply wp_modify. wnext. wnext. apply wp_modify. wnext. wnext. apply wp_modify. wnext. wnext.
  apply wp_modify. wnext. wnext. eapply wp_deref; [exact Hc|done|done|]. wnext. by apply wp_modify.
Qed.

Definition flushed b : yy_buffer_state :=
  set_status YY_BUFFER_NEW (set_at_bol true (set_buf_pos 0 (poked (poked (set_b_n_chars 0 b) 0 NUL) 1 NUL))).

Definition started_over (file : option positive) b : yy_buffer_state := set_fill true (set_input_file file (flushed b)).

Lemma flushed_mem b : (2 <= length (yy_ch_buf b))%nat -> mem_at (yy_ch_buf (flushed b)) 0 [NUL; NUL].
Proof.
  intros Hl. cbn. apply mem_at_cons. split.
  - rewrite list_lookup_insert_ne by done. apply list_lookup_insert_eq. lia.
  - apply mem_at_cons. split; [|apply mem_at_nil]. apply list_lookup_insert_eq. rewrite length_insert. lia.
Qed.

(** The stores of yy_flush_buffer. *)
Lemma flush_stores g p b Q (rest : L unit) : yy_buffers g !! p = Some b -> (2 <= length (yy_ch_buf b))%nat ->
  wp rest Q (with_cur p (flushed b) g) ->
  wp (store p (set_b_n_chars 0);; poke p 0 NUL;; poke p 1 NUL;; store p (set_buf_pos 0);;
      store p (set_at_bol true);; store p (set_status YY_BUFFER_NEW);; rest) Q g.
Proof.
  intros Hb Hl HQ.
  assert (forall b', yy_buffers (with_cur p b' g) !! p = Some b') as Hw by (intros; apply lookup_insert_eq).
  wnext. eapply wp_store; [done|]. wnext. wnext.
  eapply (wp_poke _ p _ 0 0%nat); [apply Hw|done|cbn; lia|]. rewrite with_cur_twice. wnext. wnext.
  eapply (wp_poke _ p _ 1 1%nat); [apply Hw|done|cbn; rewrite length_insert; lia|]. rewrite with_cur_twice. wnext. wnext.
  eapply wp_store; [apply Hw|]. rewrite with_cur_twice. wnext. wnext.
  eapply wp_store; [apply Hw|]. rewrite with_cur_twice. wnext. wnext.
  eapply wp_store; [apply Hw|]. rewrite with_cur_twice. wnext. exact HQ.
Qed.

(** What the registers are after yyrestart on the current buffer. *)
Record restarted p b file g g' : Prop := {
  rs_cur : is_cur g' p (started_over file b);
  rs_regs : yy_n_chars g' = 0 /\ yytext_ptr g' = 0 /\ yy_c_buf_p g' = 0 /\ yy_hold_char g' = NUL /\ yyin g' = file;
  rs_rest : yy_buffer_stack g' = yy_buffer_stack g /\ yy_buffer_stack_top g' = yy_buffer_stack_top g /\
    yy_start g' = yy_start g /\ yy_init g' = yy_init g /\ streams g' = streams g;
  rs_others : forall q, q <> p -> yy_buffers g' !! q = yy_buffers g !! q
}.

Lemma init_current_ok g p b file Q : is_cur g p b -> (2 <= length (yy_ch_buf b))%nat ->
  (forall g', restarted p b file g g' -> Q (Ret tt) g') ->
  wp (yy_init_buffer p file) (then_ (fun _ => yy_load_buffer_state) Q) g.
Proof.
  intros Hc Hl HQ. pose proof (flushed_mem b Hl) as Hm. apply mem_at_cons in Hm as [Hm _].
  unfold yy_init_buffer, yy_flush_buffer. wnext. apply (flush_stores g p b); [by eapply is_cur_lookup|done|].
  wnext. eapply (wp_CURRENT _ p (flushed b)); [by eapply is_cur_with|]. wnext. rewrite decide_True by done.
  eapply (load_state_ok _ p (flushed b) 0); [by eapply is_cur_with|done|exact Hm|]. wnext. wnext.
  eapply wp_store; [apply lookup_insert_eq|]. wnext. wnext.
  eapply wp_store; [apply lookup_insert_eq|]. wnext. wnext.
  eapply (wp_CURRENT _ p (started_over file b)).
  { destruct Hc as (st & H1 & H2 & H3). exists st. split_and!; [done|done|]. apply lookup_insert_eq. }
  wnext. rewrite decide_True by done. apply wp_ret. wnext.
  eapply (load_state_ok _ p (started_over file b) 0); [|done|exact Hm|].
  { destruct Hc as (st & H1 & H2 & H3). exists st. split_and!; [done|done|]. apply lookup_insert_eq. }
  apply HQ. split; [|done|done|].
  - destruct Hc as (st & H1 & H2 & H3). exists st. split_and!; [done|done|]. apply lookup_insert_eq.
  - intros q Hq. cbn. by rewrite !lookup_insert_ne by done.
Qed.

Lemma restart_current_ok g p b file Q : is_cur g p b -> (2 <= length (yy_ch_buf b))%nat ->
  (forall g', restarted p b file g g' -> Q (Ret tt) g') -> wp (yyrestart file) Q g.
Proof.
  intros Hc Hl HQ. unfold yyrestart. wnext. eapply wp_CURRENT; [done|]. wnext. wnext. apply wp_ret. wnext. wnext.
  eapply wp_current; [done|]. wnext. by eapply init_current_ok.
Qed.

(** ** yy_get_next_buffer *)

(** The lines of a buffer, and what else matching depends on. *)
Definition same_lines b b' : Prop :=
  yy_at_bol b' = yy_at_bol b /\ yy_bs_lineno b' = yy_bs_lineno b.

(** Streams lose events only, and nothing goes wrong with them. *)
Definition drained g g' : Prop :=
  (clean (stream_of g) -> clean (stream_of g')) /\
  (length (events (stream_of g')) <= length (events (stream_of g)))%nat.

Definition next_buffer_post p b (D P : list ascii) g (o : outcome eob_act) g' : Prop :=
  match o with
  | Ret EOB_ACT_END_OF_FILE => D = [] /\ P = [] /\ frame p g g' /\ drained g g' /\ exists b' bp', loaded p b' bp' [] g' /\
      pending b' g' = [] /\ yytext_ptr g' = Z.of_nat bp' /\ yy_bs_lineno b' = yy_bs_lineno b /\
      (yy_hold_char g = NUL -> yy_hold_char g' = NUL)
  | Ret EOB_ACT_LAST_MATCH => D <> [] /\ P = [] /\ frame p g g' /\ drained g g' /\ exists b' bp', loaded p b' bp' D g' /\
      pending b' g' = [] /\ yytext_ptr g' = Z.of_nat bp' /\ same_lines b b'
  | Ret EOB_ACT_CONTINUE_SCAN => frame p g g' /\ drained g g' /\ exists b' D1 P', D1 <> [] /\ P = D1 ++ P' /\
      loaded p b' 0 (D ++ D1) g' /\ pending b' g' = P' /\ yytext_ptr g' = 0 /\ same_lines b b'
  | Exited z => z = 2 /\ ~ clean (stream_of g)
  | _ => False
  end.

Lemma drained_refl g : drained g g.
Proof. by split. Qed.

(** The end of yy_get_next_buffer: [D] is in place, and two end-of-buffer
    characters go behind it. *)
Lemma close_buffer_ok g p b D n (Q : outcome eob_act -> yyguts_t -> Prop) ret : is_cur g p b -> yy_n_chars g + n = Z.of_nat (length D) -> 0 <= n -> 0 <= yy_n_chars g ->
  mem_at (yy_ch_buf b) 0 D -> Z.of_nat (length (yy_ch_buf b)) = yy_buf_size b + 2 ->
  Z.of_nat (length D) <= yy_buf_size b < 2 ^ 40 ->
  (forall m, length m = length (yy_ch_buf b) -> mem_at m 0 (D ++ [NUL; NUL]) ->
     Q (Ret ret) (set_text_ptr 0 (with_mem p m b (set_n_chars (Z.of_nat (length D)) g)))) ->
  wp (g ← get;
      b ← cur;
      (if yy_buf_size b <? u64 (yy_n_chars g + n) then
         let new_size := u64 (yy_n_chars g + n + Z.shiftr (yy_n_chars g) 1) in
         on_cur (fun b => set_ch_buf (resize (Z.to_nat new_size) None (yy_ch_buf b)) b)
       else mret tt);;
      let k := yy_n_chars g + n in
      modify (set_n_chars k);;
      assign k NUL;;
      assign (k + 1) NUL;;
      modify (set_text_ptr 0);;
      mret ret) Q g.
Proof.
  intros Hc En Hn Hg Hm Hl Hs HQ. change (2 ^ 40) with 1099511627776 in *.
  wnext. apply wp_get. wnext. wnext. eapply wp_cur; [done|]. wnext. rewrite En.
  rewrite uwrap_small by (change (2 ^ 64) with 18446744073709551616; lia).
  rewrite (proj2 (Z.ltb_ge _ _)) by lia. wnext. apply wp_ret. wnext. cbv zeta. wnext. apply wp_modify. wnext. wnext.
  eapply (wp_assign _ p b _ (length D)); [exact Hc|done|lia|]. wnext. wnext.
  eapply (wp_assign _ p _ _ (S (length D))); [by eapply is_cur_with|lia|cbn; rewrite length_insert; lia|].
  rewrite with_cur_twice. wnext. wnext. apply wp_modify. wnext. apply wp_ret.
  apply (HQ (<[S (length D) := Some NUL]> (<[length D := Some NUL]> (yy_ch_buf b)))); [by rewrite !length_insert|].
  apply mem_at_app. split; [by do 2 (apply mem_at_insert_ne; [|lia])|]. cbn [Nat.add].
  apply mem_at_cons. split; [rewrite list_lookup_insert_ne by lia; apply list_lookup_insert_eq; lia|].
  apply mem_at_cons. split; [|apply mem_at_nil]. apply list_lookup_insert_eq. rewrite length_insert. lia.
Qed.

(** A buffer that holds the characters [E] at its start, with room for one more,
    after reading. *)
Record refilled p b g (E : list ascii) b' g' : Prop := {
  rf_cur : is_cur g' p b';
  rf_mem : mem_at (yy_ch_buf b') 0 E;
  rf_frame : frame p g g';
  rf_drained : drained g g';
  rf_lines : same_lines b b';
  rf_fill : yy_fill_buffer b' = true /\ yy_is_our_buffer b' = true;
  rf_length : Z.of_nat (length (yy_ch_buf b')) = yy_buf_size b' + 2;
  rf_size : Z.of_nat (length E) + 1 <= yy_buf_size b' < 2 ^ 40;
  rf_file : yy_input_file b' = yyin g';
  rf_stream : exists i f, yyin g' = Some i /\ streams g' !! i = Some f
}.

(** Reading after the characters kept: nothing more, or some of what is pending. *)
Section ReadMore.
Context (fuel : nat) (p : positive) (b : yy_buffer_state) (bp : nat) (D : list ascii) (g : yyguts_t).
Context (m : list (option ascii)) (Q : outcome unit -> yyguts_t -> Prop).
Hypothesis HL : loaded p b bp D g.
Hypothesis Hfill : yy_fill_buffer b = true.
Hypothesis Hm : length m = length (yy_ch_buf b).
Hypothesis HD : mem_at m 0 D.
Hypothesis Hcb : yy_c_buf_p g = Z.of_nat (bp + length D + 1).
Hypothesis HD31 : Z.of_nat (length D) < 2 ^ 31 - 2.
Hypothesis Hf : (length (events (stream_of g)) + 2 <= fuel)%nat.
Hypothesis Hnone : forall b' g', pending b g = [] -> refilled p b g D b' g' -> yy_n_chars g' = 0 ->
  text_of (events (stream_of g')) = [] -> Q (Ret tt) g'.
Hypothesis Hsome : forall b' g' D1, D1 <> [] -> pending b g = D1 ++ text_of (events (stream_of g')) ->
  refilled p b g (D ++ D1) b' g' -> yy_n_chars g' = Z.of_nat (length D1) ->
  yy_buffer_status b' = yy_buffer_status b -> yy_buffer_status b <> YY_BUFFER_EOF_PENDING -> Q (Ret tt) g'.
Hypothesis Hexit : forall g', ~ clean (stream_of g) -> Q (Exited 2) g'.

Lemma read_pending_ok : yy_buffer_status b = YY_BUFFER_EOF_PENDING ->
  wp (read_more fuel (Z.of_nat (length D))) Q (with_mem p m b g).
Proof.
  intros Epend. destruct HL as [Hc Hn Hmem Hfile Hnew Heof Hf'].
  destruct (Hf' Hfill) as (Hours & Hlen & Hsize & i & f & Hi & Hs).
  unfold read_more. wnext. eapply wp_cur; [by apply with_mem_cur|]. wnext. cbn [yy_buffer_status set_ch_buf].
  rewrite Epend. wnext. apply wp_modify. wnext. eapply wp_on_cur; [exact (with_mem_cur p m b g Hc)|].
  match goal with |- Q _ ?g1 => set (g' := g1) end.
  assert (frame p g g') as Hfr.
  { split; [done|done| |done]. intros q Hq. cbn. by rewrite !lookup_insert_ne by done. }
  apply (Hnone (set_b_n_chars 0 (set_ch_buf m b)) g'); [|split|done|by apply Heof]; try done.
  - unfold pending, fills. by rewrite Epend, andb_false_r.
  - eapply is_cur_with, with_mem_cur, Hc.
  - cbn. lia.
  - cbn. lia.
  - by exists i, f.
Qed.

(** The buffer and the registers once [cs] has been read into [m'], behind the
    characters kept. *)
Lemma read_stored_ok i f' size m' cs : yyin g = Some i -> is_Some (streams g !! i) ->
  yy_buffer_status b <> YY_BUFFER_EOF_PENDING ->
  Z.of_nat (length m') = size + 2 -> Z.of_nat (length D + length cs) + 1 <= size < 2 ^ 40 ->
  pending b g = cs ++ text_of (events f') -> (cs = [] -> pending b g = []) -> (clean (stream_of g) -> clean f') ->
  (length (events f') <= length (events (stream_of g)))%nat -> mem_at m' 0 (D ++ cs) ->
  wp (modify (set_n_chars (Z.of_nat (length cs)));; on_cur (set_b_n_chars (Z.of_nat (length cs)))) Q
    (with_mem p m' (set_buf_size size b) (with_stream i f' (with_cur p (set_buf_size size b) g))).
Proof.
  clear Hf HD31 Hcb Hexit. intros Hi Hs Hnp Hlen' Hsize' Et Hempty Hclean Hev HDcs. destruct HL as [Hc Hn Hmem Hfile Hnew Heof Hf'].
  destruct (Hf' Hfill) as (Hours & _). set (b1 := set_buf_size size b).
  assert (is_cur (with_cur p b1 g) p b1) as Hc1 by (by eapply is_cur_with).
  wnext. apply wp_modify. wnext. eapply wp_on_cur; [exact (with_mem_cur p m' b1 _ Hc1)|].
  match goal with |- Q _ ?g1 => set (g' := g1) end.
  assert (stream_of g' = f') as Ef'.
  { unfold stream_of. cbn. rewrite Hi. cbn. by rewrite lookup_insert_eq. }
  assert (refilled p b g (D ++ cs) (set_b_n_chars (Z.of_nat (length cs)) (set_ch_buf m' b1)) g') as HR.
  { split; try done.
    - exact (is_cur_with _ _ _ _ (with_mem_cur p m' b1 _ Hc1)).
    - split; [|done| |].
      + cbn. split_and!; [done|done|]. by apply dom_insert_lookup_L.
      + intros q Hq. cbn. by rewrite !lookup_insert_ne by done.
      + intros j Hj. cbn. apply lookup_insert_ne. congruence.
    - unfold drained. by rewrite Ef'.
    - rewrite length_app. cbn [yy_buf_size set_b_n_chars set_ch_buf b1 set_buf_size]. lia.
    - exists i, f'. split; [done|apply lookup_insert_eq]. }
  destruct cs as [|c0 cs].
  - rewrite app_nil_r in HR. eapply Hnone; [by apply Hempty|exact HR|done|].
    rewrite Ef'. by rewrite Hempty in Et by done.
  - eapply (Hsome _ g' (c0 :: cs)); [done|by rewrite Ef'|exact HR|done..].
Qed.

Lemma read_more_ok : wp (read_more fuel (Z.of_nat (length D))) Q (with_mem p m b g).
Proof.
  destruct (decide (yy_buffer_status b = YY_BUFFER_EOF_PENDING)) as [Epend|Hnp]; [by apply read_pending_ok|].
  destruct HL as [Hc Hn Hmem Hfile Hnew Heof Hf']. destruct (Hf' Hfill) as (Hours & Hlen & Hsize & i & f & Hi & Hs).
  assert (stream_of g = f) as Ef by (unfold stream_of; rewrite Hi; cbn; by rewrite Hs).
  assert (pending b g = text_of (events f)) as Ep.
  { unfold pending, fills. rewrite Hfill, Ef. by destruct (yy_buffer_status b). }
  change (2 ^ 40) with 1099511627776 in *. change (2 ^ 31) with 2147483648 in *.
  unfold read_more. wnext. eapply wp_cur; [by apply with_mem_cur|]. wnext. cbn [yy_buffer_status set_ch_buf].
  assert (forall (A : Type) (x y : A), match yy_buffer_status b with YY_BUFFER_EOF_PENDING => x | _ => y end = y) as ->
    by (intros; by destruct (yy_buffer_status b)). wnext.
  rewrite Ef in Hf.
  eapply (make_room_ok fuel p (set_ch_buf m b)); [by apply with_mem_cur|done|lia|cbn; lia|lia|cbn; lia|cbn; lia|lia|].
  intros size m1 Hm1 Hsize1 Hold. wnext. unfold with_mem. rewrite with_cur_twice.
  change (2 ^ 40) with 1099511627776 in *. cbn [yy_ch_buf set_ch_buf] in Hold.
  set (max := if YY_READ_BUF_SIZE <? size - Z.of_nat (length D) - 1 then YY_READ_BUF_SIZE else size - Z.of_nat (length D) - 1).
  assert (0 < max <= size - Z.of_nat (length D) - 1) as Hmax.
  { unfold max, YY_READ_BUF_SIZE. destruct (Z.ltb_spec 8192 (size - Z.of_nat (length D) - 1)); lia. }
  set (b1 := set_buf_size size b).
  replace (with_cur p (sized size m1 (set_ch_buf m b)) g) with (with_mem p m1 b1 (with_stream i f (with_cur p b1 g)))
    by (rewrite (with_stream_id i f) by done; unfold with_mem; by rewrite with_cur_twice).
  wnext. eapply (YY_INPUT_ok p b1 m1 i f); [by eapply is_cur_with|done|lia|lia|lia|done|done| |].
  - intros cs f' m' Et Hcs Hempty Hclean Hev Hm' Hcsm Holdm. wnext.
    rewrite <- Ef in Hclean, Hev. rewrite <- Ep in Et, Hempty.
    apply (read_stored_ok i f'); try done; [lia|lia|].
    apply mem_at_app. split; [|done]. intros k c Hk. pose proof (HD k c Hk). apply lookup_lt_Some in Hk.
    cbn in *. rewrite Holdm, Hold by lia. done.
  - intros g' Hd. wnext. apply Hexit. by rewrite Ef.
Qed.
End ReadMore.

Lemma frame_closed p m b n g g' : frame p g g' -> frame p g (set_text_ptr 0 (with_mem p m b (set_n_chars n g'))).
Proof.
  intros [H1 H2 H3 H4]. split; [done|done| |done]. intros q Hq. cbn. rewrite lookup_insert_ne by done. by apply H3.
Qed.

(** What is loaded once the buffer is closed. *)
Lemma refilled_loaded p b g E b' g' m : refilled p b g E b' g' -> yy_buffer_status b' <> YY_BUFFER_NEW ->
  (yy_buffer_status b' = YY_BUFFER_EOF_PENDING -> text_of (events (stream_of g')) = []) ->
  length m = length (yy_ch_buf b') -> mem_at m 0 (E ++ [NUL; NUL]) ->
  loaded p (set_ch_buf m b') 0 E (set_text_ptr 0 (with_mem p m b' (set_n_chars (Z.of_nat (length E)) g'))).
Proof.
  intros [Hc Hm Hfr Hdr Hl [Hf Ho] Hlen Hs Hfile Hst] Hnew Heof Elen HE. split; try done.
  - by eapply is_cur_with.
  - intros _. cbn. split_and!; [done|lia|lia|lia|done].
Qed.

(** ** What each way out of yy_get_next_buffer leaves *)

Lemma not_filled_post p b bp D g : loaded p b bp D g -> yy_fill_buffer b = false -> yytext_ptr g = Z.of_nat bp ->
  yy_c_buf_p g = Z.of_nat (bp + length D + 1) ->
  next_buffer_post p b D (pending b g) g
    (Ret (if yy_c_buf_p g - yytext_ptr g =? 1 then EOB_ACT_END_OF_FILE else EOB_ACT_LAST_MATCH)) g.
Proof.
  intros HL Hfill Etp Ecb. assert (pending b g = []) as Ep by (unfold pending, fills; by rewrite Hfill).
  rewrite Ep, Etp, Ecb. destruct (Z.eqb_spec (Z.of_nat (bp + length D + 1) - Z.of_nat bp) 1).
  - assert (D = []) as -> by (apply nil_length_inv; lia). split_and!; [done|done|apply frame_refl|apply drained_refl|].
    by exists b, bp.
  - split_and!; [by intros ->; simpl in *; lia|done|apply frame_refl|apply drained_refl|]. by exists b, bp.
Qed.

Lemma restarted_post p b g b' g' g2 m : refilled p b g [] b' g' -> pending b g = [] ->
  text_of (events (stream_of g')) = [] -> restarted p b' (yyin g') g' g2 ->
  length m = length (yy_ch_buf (started_over (yyin g') b')) -> mem_at m 0 [NUL; NUL] ->
  next_buffer_post p b [] (pending b g) g (Ret EOB_ACT_END_OF_FILE)
    (set_text_ptr 0 (with_mem p m (started_over (yyin g') b') (set_n_chars 0 g2))).
Proof.
  intros [Hc' Hm' Hfr Hdr Hl [Hfb Hob] Hlen Hs Hfile' (i & f & Hi & Hst)] Ep Etext
    [Rc (Rn & Rt & Rp & Rh & Ri) (R1 & R2 & R3 & R4 & R5) Ro] Hm Hmm.
  split_and!; [done|done| | |].
  - apply frame_closed. eapply frame_trans; [exact Hfr|]. split; [|by split_and!|done|].
    + by rewrite R1, R2, R5.
    + intros j Hj. by rewrite R5.
  - unfold drained, stream_of. cbn. rewrite Ri, R5. exact Hdr.
  - exists (set_ch_buf m (started_over (yyin g') b')), 0%nat. split; [|split_and!].
    + split; try done.
      * by eapply is_cur_with.
      * intros _. cbn. cbn in Hm. rewrite !length_insert in Hm. simpl in Hs. split_and!; [done|lia|lia|lia|].
        cbn. rewrite Ri, R5. by exists i, f.
    + unfold pending. cbn. unfold stream_of. cbn. rewrite Ri, R5. unfold stream_of in Etext. done.
    + done.
    + apply Hl.
    + done.
Qed.

Lemma last_match_post p b g D b' g' m : refilled p b g D b' g' -> yy_buffer_status b' = YY_BUFFER_EOF_PENDING ->
  pending b g = [] -> D <> [] -> text_of (events (stream_of g')) = [] ->
  length m = length (yy_ch_buf b') -> mem_at m 0 (D ++ [NUL; NUL]) ->
  next_buffer_post p b D (pending b g) g (Ret EOB_ACT_LAST_MATCH)
    (set_text_ptr 0 (with_mem p m b' (set_n_chars (Z.of_nat (length D)) g'))).
Proof.
  intros HR Est Ep HD Etext Hm Hmm. split_and!; [done|done|apply frame_closed, HR|apply HR|].
  exists (set_ch_buf m b'), 0%nat. split; [apply (refilled_loaded p b g D b' g'); try done; by rewrite Est|].
  split; [unfold pending, fills; cbn; by rewrite Est, andb_false_r|]. split; [done|apply HR].
Qed.

Lemma continue_post p b g D D1 b' g' m : refilled p b g (D ++ D1) b' g' -> D1 <> [] ->
  pending b g = D1 ++ text_of (events (stream_of g')) -> yy_buffer_status b' <> YY_BUFFER_NEW ->
  yy_buffer_status b' <> YY_BUFFER_EOF_PENDING ->
  length m = length (yy_ch_buf b') -> mem_at m 0 ((D ++ D1) ++ [NUL; NUL]) ->
  next_buffer_post p b D (pending b g) g (Ret EOB_ACT_CONTINUE_SCAN)
    (set_text_ptr 0 (with_mem p m b' (set_n_chars (Z.of_nat (length (D ++ D1))) g'))).
Proof.
  intros HR HD1 Ep Hnn Hnp Hm Hmm. split_and!; [apply frame_closed, HR|apply HR|].
  exists (set_ch_buf m b'), D1, (text_of (events (stream_of g'))). split_and!; try apply HR; try done.
  - by apply (refilled_loaded p b g (D ++ D1) b' g').
  - unfold pending, fills. cbn. destruct HR as [_ _ _ _ _ [-> _] _ _ _ _]. by destruct (yy_buffer_status b').
Qed.

Lemma next_buffer_ok fuel p b bp D g Q : loaded p b bp D g -> yy_buffer_status b <> YY_BUFFER_NEW ->
  yytext_ptr g = Z.of_nat bp -> yy_c_buf_p g = Z.of_nat (bp + length D + 1) ->
  Z.of_nat (length D) < 2 ^ 31 - 2 -> (length (events (stream_of g)) + 2 <= fuel)%nat ->
  (forall o g', next_buffer_post p b D (pending b g) g o g' -> Q o g') ->
  wp (yy_get_next_buffer fuel) Q g.
Proof.
  intros HL Hnn Etp Ecb HD31 Hf HQ. pose proof HL as [Hc Hn Hmem Hfile Hnew Heof Hf'].
  unfold yy_get_next_buffer. wnext. eapply wp_cur; [done|]. wnext. wnext. apply wp_get. wnext.
  rewrite (proj2 (Z.ltb_ge _ _)) by lia.
  destruct (yy_fill_buffer b) eqn:Efill; cbn [negb]; [|by eapply wp_ret, HQ, not_filled_post].
  change (2 ^ 31) with 2147483648 in *.
  assert (s32 (s32 (yy_c_buf_p g - yytext_ptr g) - 1) = Z.of_nat (length D)) as ->.
  { rewrite Etp, Ecb. replace (Z.of_nat (bp + length D + 1) - Z.of_nat bp) with (Z.of_nat (length D) + 1) by lia.
    rewrite (swrap_small 32 (_ + 1)) by (change (2 ^ (32 - 1)) with 2147483648; lia).
    rewrite Z.add_simpl_r. apply swrap_small; [lia|]. change (2 ^ (32 - 1)) with 2147483648. lia. }
  rewrite Nat2Z.id, Etp. apply mem_at_app in Hmem as [HmD _]. wnext.
  rewrite <- (with_mem_id p b g Hc) at 1.
  replace 0 with (Z.of_nat 0) at 1 by done. replace (Z.of_nat bp) with (Z.of_nat (bp + 0)) by lia.
  apply (move_chars_ok p b bp D); [done|lia|apply mem_at_nil|by rewrite Nat.add_0_r|].
  intros m Hm HD. wnext. wnext.
  eapply read_more_ok; [exact HL|done|done|done|done|done|lia| | |].
  - (* nothing more *)
    intros b' g' Ep HR En Etext. pose proof HR as [Hc' Hm' _ _ _ _ Hlen Hs _ _].
    wnext. wnext. apply wp_get. wnext. rewrite En. cbn [Z.eqb]. wnext.
    destruct (Z.eqb_spec (Z.of_nat (length D)) 0) as [E0|Hne]; wnext.
    + assert (D = []) as -> by (apply nil_length_inv; lia).
      eapply restart_current_ok; [done|simpl in *; lia|]. intros g2 HRs. wnext. apply wp_ret. wnext.
      pose proof HRs as [Rc (Rn & _) _ _].
      eapply (close_buffer_ok g2 p (started_over (yyin g') b') []); [done|by rewrite Rn|done|by rewrite Rn|apply mem_at_nil| | |].
      * cbn. rewrite !length_insert. done.
      * cbn. simpl in Hs. lia.
      * intros m2 Hm2 Hmm. by apply HQ, restarted_post.
    + eapply wp_on_cur; [done|]. wnext. apply wp_ret. wnext. set (b2 := set_status YY_BUFFER_EOF_PENDING b').
      assert (refilled p b g D b2 (with_cur p b2 g')) as HR2.
      { destruct HR. split; try done; [by eapply is_cur_with|]. eapply frame_trans; [done|apply frame_with]. }
      eapply (close_buffer_ok _ p b2 D); [apply HR2|cbn; lia|lia|cbn; lia|done|done|cbn; lia|].
      intros m2 Hm2 Hmm. apply HQ, last_match_post; try done. by intros ->.
  - (* some more *)
    intros b' g' D1 HD1 Ep HR En Est Hnp. pose proof HR as [Hc' Hm' _ _ _ _ Hlen Hs _ _].
    wnext. wnext. apply wp_get. wnext. rewrite En.
    rewrite (proj2 (Z.eqb_neq _ _)) by (destruct D1; [done|simpl; lia]). apply wp_ret. wnext.
    eapply (close_buffer_ok _ p b' (D ++ D1)); [done|rewrite En, length_app; lia|lia|lia|done|done|lia|].
    intros m2 Hm2 Hmm. apply HQ, continue_post; try done; by rewrite Est.
  - intros g' Hd. wnext. by apply HQ.
Qed.
