(* ===== verification/RefillToken.v ===== *)
(** * One token, whatever the refills

    The invariant of the scanner between two labels, and the run from one token
    to the next. *)

From S2P Require Import Prelude CString ScanCtx Scanner ScannerSpec ScanBuffer BufferProps MatchProps RefillProps RefillLoop.
Local Open Scope Z_scope.

Implicit Types (g : yyguts_t) (b : yy_buffer_state) (p : positive) (D P T : list ascii).

(** ** Before an action, and back *)

(** The state after YY_DO_BEFORE_ACTION, and after that is undone. *)
Definition registers (bp len : nat) (c : ascii) g : yyguts_t :=
  set_c_buf_p (Z.of_nat (bp + len)) (set_hold c (set_leng (Z.of_nat len) (set_text_ptr (Z.of_nat bp) g))).

Definition acted p b (bp len : nat) (c : ascii) g : yyguts_t :=
  with_cur p (poked b (bp + len) NUL) (registers bp len c g).

Lemma mem_at_char m bp D len c : mem_at m bp (D ++ [NUL; NUL]) -> (D ++ [NUL; NUL]) !! len = Some c ->
  m !! (bp + len)%nat = Some (Some c).
Proof. intros H. apply H. Qed.

Lemma char_at D len : (len <= length D + 1)%nat -> exists c, (D ++ [NUL; NUL]) !! len = Some c.
Proof. intros H. apply lookup_lt_is_Some. rewrite length_app. simpl. lia. Qed.

Lemma before_action_ok p b bp D len g Q : is_cur g p b -> mem_at (yy_ch_buf b) bp (D ++ [NUL; NUL]) ->
  (len <= length D + 1)%nat ->
  (forall c, (D ++ [NUL; NUL]) !! len = Some c -> Q (Ret tt) (acted p b bp len c g)) ->
  wp (YY_DO_BEFORE_ACTION (Z.of_nat (bp + len)) (Z.of_nat bp)) Q g.
Proof.
  intros Hc Hm Hl HQ. destruct (char_at D len Hl) as [c Ec]. pose proof (mem_at_char _ _ _ _ _ Hm Ec) as Hmc.
  unfold YY_DO_BEFORE_ACTION. wnext. apply wp_modify. wnext. wnext. apply wp_modify. wnext. wnext.
  eapply wp_deref; [exact Hc|done|done|]. wnext. wnext. apply wp_modify. wnext. wnext.
  eapply wp_assign; [exact Hc|done|by eapply lookup_lt_Some|]. wnext. apply wp_modify.
  replace (Z.of_nat (bp + len) - Z.of_nat bp) with (Z.of_nat len) by lia. by apply HQ.
Qed.

Lemma restore_ok p b bp len c g Q : is_cur g p b -> yy_ch_buf b !! (bp + len)%nat = Some (Some c) ->
  Q (Ret tt) (registers bp len c g) ->
  wp (assign (Z.of_nat (bp + len)) c) Q (acted p b bp len c g).
Proof.
  intros Hc Hm HQ. eapply (wp_assign _ p (poked b (bp + len) NUL) _ (bp + len)).
  - by eapply is_cur_with.
  - done.
  - cbn. rewrite length_insert. by eapply lookup_lt_Some.
  - rewrite poked_back by done. unfold acted. rewrite with_cur_twice.
    by rewrite (with_cur_id p b) by exact Hc.
Qed.

(** ** The invariant *)

Record core p g0 T (bol : bool) (line : Z) b (bp : nat) D g : Prop := {
  co_loaded : loaded p b bp D g;
  co_text : T = D ++ pending b g;
  co_frame : frame p g0 g;
  co_drained : drained g0 g;
  co_bol : yy_at_bol b = bol;
  co_line : yy_bs_lineno b = Some line
}.

Lemma core_registers p g0 T bol line b bp D g bp' len c :
  core p g0 T bol line b bp D g -> core p g0 T bol line b bp D (registers bp' len c g).
Proof. intros [[] H2 H3 H4 H5 H6]. split; [by split|exact H2|by destruct H3; split|exact H4|done|done]. Qed.

Lemma core_lastly p g0 T bol line b bp D g g' :
  lastly g g' -> core p g0 T bol line b bp D g -> core p g0 T bol line b bp D g'.
Proof. intros (s & c & ->) [[] H2 H3 H4 H5 H6]. split; [by split|exact H2|by destruct H3; split|exact H4|done|done]. Qed.

Lemma core_c_buf_p p g0 T bol line b bp D g v :
  core p g0 T bol line b bp D g -> core p g0 T bol line b bp D (set_c_buf_p v g).
Proof. intros [[] H2 H3 H4 H5 H6]. split; [by split|exact H2|by destruct H3; split|exact H4|done|done]. Qed.

Lemma last_ok_same bp g g' last : yy_last_accepting_state g' = yy_last_accepting_state g ->
  yy_last_accepting_cpos g' = yy_last_accepting_cpos g -> last_ok bp g last -> last_ok bp g' last.
Proof. intros E1 E2. unfold last_ok. destruct last as [[]|]; [|done]. by rewrite E1, E2. Qed.

Lemma frame_registers p g g' bp len c : frame p g g' -> frame p g (registers bp len c g').
Proof. intros []. by split. Qed.

Lemma drained_trans g1 g2 g3 : drained g1 g2 -> drained g2 g3 -> drained g1 g3.
Proof. intros [H1 H2] [H3 H4]. split; [auto|lia]. Qed.

(** The buffer with other lines, or another status. *)
Lemma core_relined p g0 T bol line b bp D g line' col : core p g0 T bol line b bp D g ->
  let b' := set_column col (set_lineno (Some line') b) in core p g0 T bol line' b' bp D (with_cur p b' g).
Proof.
  intros [[] H2 H3 H4 H5 H6]. cbv zeta. split; try done.
  - split; try done. by eapply is_cur_with.
  - eapply frame_trans; [exact H3|apply frame_with].
Qed.

Lemma core_normal p g0 T bol line b bp D g : core p g0 T bol line b bp D g -> yy_buffer_status b = YY_BUFFER_NEW ->
  let b' := set_status YY_BUFFER_NORMAL b in core p g0 T bol line b' bp D (with_cur p b' g).
Proof.
  intros [[] H2 H3 H4 H5 H6] Hn. cbv zeta. split; try done.
  - split; try done. by eapply is_cur_with.
  - rewrite H2. f_equal. unfold pending, fills. by rewrite Hn.
  - eapply frame_trans; [exact H3|apply frame_with].
Qed.

(** ** Counting lines *)

Fixpoint lines (l : list ascii) : Z :=
  match l with [] => 0 | c :: l' => (if uchar c =? 10 then 1 else 0) + lines l' end.

Lemma count_lines_ok p v b i line g Q : is_cur g p b -> mem_at (yy_ch_buf b) i v -> yy_bs_lineno b = Some line ->
  (forall col, let b' := set_column col (set_lineno (Some (line + lines v)) b) in Q (Ret tt) (with_cur p b' g)) ->
  wp (count_lines (length v) (Z.of_nat i)) Q g.
Proof.
  revert b i line g. induction v as [|c v IH]; intros b i line g Hc Hm Hl HQ; cbn [count_lines length lines] in *.
  { apply wp_ret. specialize (HQ (yy_bs_column b)). rewrite Z.add_0_r, <- Hl in HQ.
    replace (set_column (yy_bs_column b) (set_lineno (yy_bs_lineno b) b)) with b in HQ by (by destruct b).
    cbv zeta in HQ. by rewrite with_cur_id in HQ. }
  apply mem_at_cons in Hm as [Hm0 Hm]. wnext. eapply wp_deref; [done|done|done|]. wnext. wnext.
  replace (Z.of_nat i + 1) with (Z.of_nat (S i)) by lia.
  destruct (uchar c =? 10).
  - wnext. eapply wp_cur; [done|]. wnext. wnext. eapply wp_lift; [done|]. wnext. wnext.
    eapply wp_on_cur; [done|]. wnext. eapply wp_on_cur; [by eapply is_cur_with|]. rewrite with_cur_twice. wnext.
    eapply IH; [by eapply is_cur_with|done|done|]. intros col. cbv zeta. rewrite with_cur_twice.
    specialize (HQ col). cbv zeta in HQ. replace (line + 1 + lines v) with (line + (1 + lines v)) by lia. exact HQ.
  - apply wp_ret. wnext. by eapply IH.
Qed.

Section Token.
Context (p : positive) (g0 : yyguts_t) (T : list ascii) (bol : bool) (line : Z).

Definition s0 : Z := yy_start g0 + b2i bol.

Context (Hs0 : good s0) (HT31 : Z.of_nat (length T) < 2 ^ 31 - 2).
Context (Htotal : T <> [] -> is_Some (match_list s0 T 0 None)).
Context (fuel : nat) (Hfuel : (length T + length (events (stream_of g0)) + 4 <= fuel)%nat).

Abbreviation Core := (core p g0 T bol line).

Lemma core_start b bp D g : Core b bp D g -> yy_start g + b2i (yy_at_bol b) = s0.
Proof. intros [_ _ [_ (-> & _) _ _] _ -> _]. done. Qed.

Lemma core_prefix b bp D g : Core b bp D g -> exists P, T = D ++ P.
Proof. intros H. eexists. apply H. Qed.

Lemma core_length b bp D g : Core b bp D g -> (length D <= length T)%nat.
Proof. intros [_ -> _ _ _ _]. rewrite length_app. lia. Qed.

(** What is left to do, for termination. *)
Definition todo (j : nat) b g : nat := 4 * ((length T - j) + length (pending b g)).

Inductive at_label : nat -> label -> yyguts_t -> Prop :=
  | at_match b bp D j s g : Core b bp D g -> (j <= length D)%nat -> reach s0 (take j T) = Some s ->
      last_ok bp g (seen s0 (take j T) 0 None) ->
      at_label (todo j b g + 3) (At_match s (Z.of_nat (bp + j)) (Z.of_nat bp)) g
  | at_rule b bp D acc pos s g : Core b bp D g -> match_list s0 T 0 None = Some (acc, pos) ->
      (pos <= length D)%nat -> tab yy_accept s = Some acc ->
      at_label 0 (At_find_action s (Z.of_nat (bp + pos)) (Z.of_nat bp)) g
  | at_back_up b bp D s g : Core b bp D g -> T = D -> T <> [] -> reach s0 T = Some s -> tab yy_accept s = Some 0 ->
      last_ok bp g (seen s0 T 0 None) ->
      at_label 1 (At_find_action s (Z.of_nat (bp + length D)) (Z.of_nat bp)) g
  | at_end_of_buffer b bp D j s g : Core b bp D g -> (j <= length D)%nat -> (D ++ [NUL; NUL]) !! j = Some NUL ->
      reach s0 (take j T) = Some s ->
      at_label (todo j b g + 2) (At_find_action EOB_STATE (Z.of_nat (bp + (j + 1))) (Z.of_nat bp)) g.

Lemma rule_range acc pos : match_list s0 T 0 None = Some (acc, pos) -> 0 < acc < YY_END_OF_BUFFER.
Proof. intros H. by eapply match_range. Qed.

(** ** Matching *)

Lemma match_step_ok b bp D j s g Q : Core b bp D g -> (j <= length D)%nat -> reach s0 (take j T) = Some s ->
  last_ok bp g (seen s0 (take j T) 0 None) ->
  (forall n l g', (n < todo j b g + 3)%nat -> at_label n l g' -> Q (Ret (inl l)) g') ->
  wp (lex_step fuel (At_match s (Z.of_nat (bp + j)) (Z.of_nat bp))) Q g.
Proof.
  intros HC Hj Hr Hl HQ. pose proof (core_length _ _ _ _ HC) as HlD. unfold lex_step. wnext.
  pose proof HC as [[Hc _ Hmem _ _ _ _] _ _ _ _ _].
  eapply (match_loop_ok p b bp D T s0 Hmem (core_prefix _ _ _ _ HC) fuel (length D - j) g j);
    [done|by eapply reach_good|done|lia|done|lia|done|done|].
  intros g' HL Hm. wnext. wnext. apply wp_get. wnext. apply wp_ret.
  pose proof (core_lastly _ _ _ _ _ _ _ _ _ _ HL HC) as HC'.
  assert (pending b g' = pending b g) as Ep by (destruct HL as (? & ? & ->); done).
  destruct Hm as [(acc & pos & Em & Hpos & Hok)|(i & s1 & Hi & Hn & Hr1 & Es & Ec)].
  - destruct Hok as (_ & Ea & ->). apply (HQ 0%nat); [lia|]. by eapply at_rule.
  - rewrite Es, Ec. replace (bp + i + 1)%nat with (bp + (i + 1))%nat by lia.
    apply (HQ (todo i b g' + 2)%nat); [unfold todo; rewrite Ep; lia|].
    eapply at_end_of_buffer; [done|lia|done|done].
Qed.
(** ** Finding the action *)

(** The rule that matches, its text still marked in the memory. *)
Definition found (acc : Z) (pos : nat) g' : Prop :=
  match_list s0 T 0 None = Some (acc, pos) /\
  exists g b bp D c, let line' := line + (if can_match_eol acc then lines (take pos T) else 0) in
    core p g0 T bol line' b bp D g /\ (pos <= length D)%nat /\ (D ++ [NUL; NUL]) !! pos = Some c /\
    g' = acted p b bp pos c g.

Lemma rule_step_ok b bp D acc pos s g Q : Core b bp D g -> match_list s0 T 0 None = Some (acc, pos) ->
  (pos <= length D)%nat -> tab yy_accept s = Some acc ->
  (forall g', found acc pos g' -> Q (Ret (inr (Rule acc))) g') ->
  wp (lex_step fuel (At_find_action s (Z.of_nat (bp + pos)) (Z.of_nat bp))) Q g.
Proof.
  intros HC Hm Hpos Ha HQ. pose proof (rule_range _ _ Hm) as Hacc. pose proof HC as [[Hc _ Hmem _ _ _ _] _ _ _ _ Hline].
  unfold lex_step. wnext. eapply wp_lift; [done|]. wnext. wnext.
  eapply before_action_ok; [done|done|lia|]. intros c Ec. wnext. wnext.
  unfold YY_END_OF_BUFFER in *. rewrite (proj2 (Z.eqb_neq acc 43)) by lia. cbn [negb andb].
  rewrite (proj2 (Z.eqb_neq acc 0)) by lia.
  apply mem_at_app in Hmem as [HmD _].
  assert (take pos T = take pos D) as Etake by (eapply take_T; [by eapply core_prefix|done]).
  destruct (can_match_eol acc) eqn:Eeol.
  - replace (Z.to_nat (Z.of_nat (bp + pos) - Z.of_nat bp)) with (length (take pos D)) by (rewrite length_take; lia).
    eapply (count_lines_ok p _ (poked b (bp + pos) NUL) bp line); [by eapply is_cur_with| |done|].
    { apply mem_at_insert_ne; [|rewrite length_take; lia]. intros k x Hk. apply HmD.
      by apply lookup_take_Some in Hk as [? _]. }
    intros col. cbv zeta. wnext. apply wp_ret, HQ. split; [done|].
    set (line' := line + lines (take pos D)). set (b2 := set_column col (set_lineno (Some line') b)).
    exists (with_cur p b2 g), b2, bp, D, c. cbv zeta. rewrite Eeol, Etake. split_and!; [|done|done|].
    + by apply (core_relined p g0 T bol line b bp D g).
    + unfold acted. rewrite with_cur_twice. unfold with_cur. cbn. by rewrite insert_insert_eq.
  - apply wp_ret. wnext. apply wp_ret, HQ. split; [done|]. exists g, b, bp, D, c. cbv zeta. by rewrite Eeol, Z.add_0_r.
Qed.

Lemma back_up_step_ok b bp D s g Q : Core b bp D g -> T = D -> T <> [] -> reach s0 T = Some s -> tab yy_accept s = Some 0 ->
  last_ok bp g (seen s0 T 0 None) ->
  (forall l g', at_label 0 l g' -> Q (Ret (inl l)) g') ->
  wp (lex_step fuel (At_find_action s (Z.of_nat (bp + length D)) (Z.of_nat bp))) Q g.
Proof.
  intros HC ET Hne Hr Ha Hl HQ. pose proof HC as [[Hc _ Hmem _ _ _ _] _ _ _ _ _].
  unfold lex_step. wnext. eapply wp_lift; [done|]. wnext. wnext.
  eapply before_action_ok; [done|done|lia|]. intros c Ec. wnext. wnext.
  change (negb (0 =? YY_END_OF_BUFFER) && can_match_eol 0) with false. cbv iota. apply wp_ret. wnext.
  cbn [Z.eqb]. wnext. apply wp_get. wnext. wnext.
  eapply restore_ok; [done|by apply Hmem|]. wnext. apply wp_ret.
  assert (match_list s0 T 0 None = seen s0 T 0 None) as Em.
  { rewrite (match_end _ _ _ Hr). unfold note. by rewrite Ha. }
  destruct (Htotal Hne) as [[acc pos] Hsome]. rewrite Em in Hsome. rewrite Hsome in Hl.
  destruct Hl as (_ & Hacc & Hcp). cbn [yy_last_accepting_state yy_last_accepting_cpos acted with_cur set_buffers registers set_c_buf_p set_hold set_leng set_text_ptr].
  rewrite Hcp. apply HQ. eapply at_rule; [by apply core_registers|by rewrite Em| |done].
  rewrite <- ET. apply (seen_bound _ _ _ _ _ Hsome).
Qed.
(** ** The end of the buffer *)

(** Registers that reading the status of the buffer leaves alone. *)
Record same_registers g g' : Prop := {
  sr_text : yytext_ptr g' = yytext_ptr g;
  sr_c_buf_p : yy_c_buf_p g' = yy_c_buf_p g;
  sr_hold : yy_hold_char g' = yy_hold_char g
}.

Lemma leave_new_ok b bp D g Q : Core b bp D g ->
  (forall b' g', Core b' bp D g' -> yy_buffer_status b' <> YY_BUFFER_NEW -> same_registers g g' ->
     length (pending b' g') = length (pending b g) -> Q (Ret tt) g') ->
  wp (match yy_buffer_status b with
      | YY_BUFFER_NEW =>
          modify (set_n_chars (yy_b_n_chars b));;
          on_cur (set_input_file (yyin g));;
          on_cur (set_status YY_BUFFER_NORMAL)
      | _ => mret tt
      end) Q g.
Proof.
  intros HC HQ. destruct (decide (yy_buffer_status b = YY_BUFFER_NEW)) as [Hn|Hn].
  - pose proof HC as [[Hc Hnc _ Hfile Hnew _ _] _ _ _ _ _]. rewrite Hn. wnext. apply wp_modify.
    rewrite (Hnew Hn). replace (set_n_chars (yy_n_chars g) g) with g by (by destruct g). wnext. wnext.
    eapply wp_on_cur; [done|]. rewrite <- Hfile.
    replace (set_input_file (yy_input_file b) b) with b by (by destruct b). rewrite with_cur_id by done. wnext.
    eapply wp_on_cur; [done|]. eapply HQ; [by apply core_normal|done|by split|].
    f_equal. unfold pending, fills. cbn. by rewrite Hn.
  - assert (wp (mret tt) Q g) as Hw by (apply wp_ret; by eapply HQ).
    by destruct (yy_buffer_status b).
Qed.

Definition eof_state g' : Prop := T = [] /\ frame p g0 g' /\ drained g0 g' /\ exists b bp, loaded p b bp [] g' /\
  pending b g' = [] /\ yy_c_buf_p g' = Z.of_nat bp /\ yy_hold_char g' = NUL /\ yy_bs_lineno b = Some line.

Definition step_post (n : nat) (o : outcome (label + lexeme)) g' : Prop :=
  match o with
  | Ret (inl l) => exists k, (k < n)%nat /\ at_label k l g'
  | Ret (inr (Rule acc)) => exists pos, found acc pos g'
  | Ret (inr End_of_file) => eof_state g'
  | Exited z => z = 2 /\ ~ clean (stream_of g0)
  | _ => False
  end.

(** A NUL of the text itself. *)
Lemma text_NUL_ok b bp D j s g : Core b bp D g -> (j < length D)%nat -> (D ++ [NUL; NUL]) !! j = Some NUL ->
  reach s0 (take j T) = Some s -> yytext_ptr g = Z.of_nat bp -> yy_c_buf_p g = Z.of_nat (bp + j) ->
  wp (s ← yy_get_previous_state;
      s' ← yy_try_NUL_trans s;
      if negb (s' =? 0) then
        modify (fun g => set_c_buf_p (yy_c_buf_p g + 1) g);;
        g ← get;
        mret (inl (At_match s' (yy_c_buf_p g) (yytext_ptr g)))
      else
        g ← get;
        mret (inl (At_find_action (yy_last_accepting_state g) (yy_last_accepting_cpos g) (yytext_ptr g))))
    (step_post (todo j b g + 2)) g.
Proof.
  intros HC Hj Hn Hr Et Ec. pose proof HC as [[Hc _ Hmem _ _ _ _] _ _ _ _ _]. pose proof (core_length _ _ _ _ HC) as HlD.
  apply mem_at_app in Hmem as [HmD _]. rewrite lookup_app_l in Hn by done.
  assert (take j T = take j D) as Etk by (eapply take_T; [by eapply core_prefix|lia]).
  assert (T !! j = Some NUL) as HT by (destruct (core_prefix _ _ _ _ HC) as [P ->]; by rewrite lookup_app_l).
  assert (length (take j D) = j) as Elen by (rewrite length_take; lia).
  pose proof (reach_good _ _ _ Hs0 Hr) as Hs. destruct (good_step s NUL Hs) as (s' & Hstep & Hs').
  wnext. eapply (previous_state_ok p b bp (take j D) s); [done|by rewrite (core_start _ _ _ _ HC)| |done|by rewrite Elen| |].
  { intros k x Hk. apply HmD. by apply lookup_take_Some in Hk as [? _]. }
  { by rewrite (core_start _ _ _ _ HC), <- Etk. }
  rewrite (core_start _ _ _ _ HC), <- Etk. intros g1 L1 Hl1. wnext. wnext.
  assert (yy_c_buf_p g1 = Z.of_nat (bp + j)) as Ec1 by (by destruct L1 as (? & ? & ->)).
  eapply (try_NUL_ok bp s s' j); [done|done|exact Hl1|done|]. intros g2 L2 Hl2. wnext.
  pose proof (core_lastly _ _ _ _ _ _ _ _ _ _ L1 HC) as HC1. pose proof (core_lastly _ _ _ _ _ _ _ _ _ _ L2 HC1) as HC2.
  assert (yytext_ptr g2 = Z.of_nat bp /\ yy_c_buf_p g2 = Z.of_nat (bp + j) /\ pending b g2 = pending b g) as (Et2 & Ec2 & Ep2).
  { destruct L2 as (? & ? & ->), L1 as (? & ? & ->). by split_and!. }
  destruct (Z.eqb_spec s' YY_JAM) as [->|Hnj]; cbn [Z.eqb negb].
  - wnext. apply wp_get. wnext. apply wp_ret.
    assert (match_list s0 T 0 None = note s j (seen s0 (take j T) 0 None)) as Em.
    { rewrite <- (take_drop_middle T j NUL HT) at 1. rewrite (match_jam _ _ _ _ _ Hr Hstep). by rewrite Etk, Elen. }
    destruct Htotal as [[acc pos] Hsome]; [by intros ->|]. rewrite Em in Hsome. rewrite Hsome in Hl2.
    destruct Hl2 as (_ & Hacc & Hcp). cbn [step_post]. exists 0%nat. split; [lia|]. rewrite Et2, Hcp.
    eapply at_rule; [done|by rewrite Em| |done].
    pose proof (note_bound s0 s (take j T) acc pos) as Hb. rewrite Etk, Elen in Hb. rewrite Etk in Hsome.
    specialize (Hb Hsome). lia.
  - destruct Hs' as [|Hs']; [done|]. destruct (Z.eqb_spec s' 0) as [->|_].
    { destruct Hs' as [v Hv]. by vm_compute in Hv. }
    cbn [negb]. wnext. apply wp_modify. wnext. wnext. apply wp_get. wnext. apply wp_ret. cbn [step_post].
    exists (todo (S j) b (set_c_buf_p (yy_c_buf_p g2 + 1) g2) + 3)%nat. split.
    { unfold todo. change (pending b (set_c_buf_p _ g2)) with (pending b g2). rewrite Ep2.
      apply lookup_lt_Some in HT. lia. }
    cbn [yytext_ptr yy_c_buf_p set_c_buf_p]. rewrite Et2, Ec2.
    replace (Z.of_nat (bp + j) + 1) with (Z.of_nat (bp + S j)) by lia.
    apply (at_match b bp D (S j) s'); [by apply core_c_buf_p|lia| |].
    + rewrite (take_S_r _ _ _ HT). by eapply reach_snoc.
    + rewrite (take_S_r _ _ _ HT), (seen_snoc _ _ _ _ _ Hr Hstep), Etk, Elen. rewrite <- Etk.
      by eapply last_ok_same; [..|exact Hl2].
Qed.
(** The end-of-buffer character: more characters, the last match, or the end. *)
Lemma refill_ok b bp D s g : Core b bp D g -> yy_buffer_status b <> YY_BUFFER_NEW -> reach s0 (take (length D) T) = Some s ->
  yytext_ptr g = Z.of_nat bp -> yy_c_buf_p g = Z.of_nat (bp + length D + 1) -> yy_hold_char g = NUL ->
  wp (act ← yy_get_next_buffer fuel;
      match act with
      | EOB_ACT_END_OF_FILE =>
          modify (set_switched false);;
          modify (fun g => set_c_buf_p (yytext_ptr g) g);;
          mret (inr End_of_file)
      | EOB_ACT_CONTINUE_SCAN =>
          modify (fun g => set_c_buf_p (yytext_ptr g + Z.of_nat (length D)) g);;
          s ← yy_get_previous_state;
          g ← get;
          mret (inl (At_match s (yy_c_buf_p g) (yytext_ptr g)))
      | EOB_ACT_LAST_MATCH =>
          modify (fun g => set_c_buf_p (yy_n_chars g) g);;
          s ← yy_get_previous_state;
          g ← get;
          mret (inl (At_find_action s (yy_c_buf_p g) (yytext_ptr g)))
      end)
    (step_post (todo (length D) b g + 2)) g.
Proof.
  intros HC Hnn Hr Et Ec Eh. pose proof (core_length _ _ _ _ HC) as HlD. pose proof HC as [HL ET Hfr [Hcl Hev] Hbol Hline].
  assert (take (length D) T = D) as ETk by (rewrite ET, take_app_le by lia; by apply take_ge).
  rewrite ETk in Hr. pose proof (reach_good _ _ _ Hs0 Hr) as Hs.
  wnext. eapply next_buffer_ok; [exact HL|done|done|done|lia|lia|]. intros o g' Hpost.
  destruct o as [[| |]|z| |w|]; try done.
  - (* more characters *)
    destruct Hpost as (Hfr' & Hdr' & b' & D1 & P' & HD1 & EP & HL' & Ep' & Et' & Hb' & Hl').
    assert (Core b' 0 (D ++ D1) g') as HC'.
    { split; [done|by rewrite ET, EP, Ep', app_assoc|by eapply frame_trans|by eapply drained_trans; [|exact Hdr']|congruence|congruence]. }
    wnext. wnext. apply wp_modify. rewrite Et'. wnext. set (g1 := set_c_buf_p (0 + Z.of_nat (length D)) g').
    pose proof (core_c_buf_p _ _ _ _ _ _ _ _ _ (0 + Z.of_nat (length D)) HC') as HC1. fold g1 in HC1.
    pose proof HC1 as [[Hc1 _ Hmem1 _ _ _ _] _ _ _ _ _]. rewrite <- app_assoc in Hmem1. apply mem_at_app in Hmem1 as [HmD _].
    wnext. eapply (previous_state_ok p b' 0 D s); [done|by rewrite (core_start _ _ _ _ HC1)|done|done|done|by rewrite (core_start _ _ _ _ HC1)|].
    rewrite (core_start _ _ _ _ HC1). intros g2 L2 Hl2. wnext. wnext. apply wp_get. wnext. apply wp_ret. cbn [step_post].
    assert (yytext_ptr g2 = 0 /\ yy_c_buf_p g2 = Z.of_nat (length D) /\ pending b' g2 = P') as (-> & -> & Ep2).
    { destruct L2 as (? & ? & ->). by split_and!. }
    exists (todo (length D) b' g2 + 3)%nat. split.
    { unfold todo. rewrite Ep2, EP, length_app. destruct D1; [done|]. simpl. lia. }
    apply (at_match b' 0 (D ++ D1) (length D) s); [by eapply core_lastly|rewrite length_app; lia| |].
    + by rewrite ETk.
    + by rewrite ETk.
  - (* the end *)
    destruct Hpost as (-> & EP & Hfr' & Hdr' & b' & bp' & HL' & Ep' & Et' & Hl' & Hh').
    wnext. wnext. apply wp_modify. wnext. wnext. apply wp_modify. wnext. apply wp_ret. cbn [step_post].
    split; [by rewrite ET, EP|]. split; [destruct (frame_trans _ _ _ _ Hfr Hfr'); by split|].
    split; [by eapply drained_trans; [split|exact Hdr']|].
    exists b', bp'. split; [destruct HL'; by split|]. split_and!; [done|done|by apply Hh'|congruence].
  - (* the last match *)
    destruct Hpost as (HD & EP & Hfr' & Hdr' & b' & bp' & HL' & Ep' & Et' & Hb' & Hl').
    assert (T = D) as ETD by (by rewrite ET, EP, app_nil_r).
    assert (Core b' bp' D g') as HC'.
    { split; [done|by rewrite Ep', app_nil_r|by eapply frame_trans|by eapply drained_trans; [|exact Hdr']|congruence|congruence]. }
    wnext. wnext. apply wp_modify. wnext. rewrite (ld_n _ _ _ _ _ HL').
    set (g1 := set_c_buf_p (Z.of_nat (bp' + length D)) g').
    pose proof (core_c_buf_p _ _ _ _ _ _ _ _ _ (Z.of_nat (bp' + length D)) HC') as HC1. fold g1 in HC1.
    pose proof HC1 as [[Hc1 _ Hmem1 _ _ _ _] _ _ _ _ _]. apply mem_at_app in Hmem1 as [HmD _].
    wnext. eapply (previous_state_ok p b' bp' D s); [done|by rewrite (core_start _ _ _ _ HC1)|done|exact Et'|done|by rewrite (core_start _ _ _ _ HC1)|].
    rewrite (core_start _ _ _ _ HC1). intros g2 L2 Hl2. wnext. wnext. apply wp_get. wnext. apply wp_ret. cbn [step_post].
    assert (yytext_ptr g2 = Z.of_nat bp' /\ yy_c_buf_p g2 = Z.of_nat (bp' + length D)) as (-> & ->).
    { destruct L2 as (? & ? & ->). by split. }
    pose proof (core_lastly _ _ _ _ _ _ _ _ _ _ L2 HC1) as HC2. destruct (good_entry s Hs) as [(a & Ha & _) _].
    destruct (Z.eq_dec a 0) as [->|Hne].
    + exists 1%nat. split; [lia|]. eapply at_back_up; [done|done|by rewrite ETD|by rewrite ETD|done|by rewrite ETD].
    + exists 0%nat. split; [lia|]. eapply at_rule; [done| |done|exact Ha].
      rewrite ETD, (match_end _ _ _ Hr). unfold note. by rewrite Ha, (proj2 (Z.eqb_neq _ _)).
  - destruct Hpost as [-> Hd]. wnext. split; [done|]. intros Hc0. by apply Hd, Hcl.
Qed.

Lemma end_of_buffer_step_ok b bp D j s g : Core b bp D g -> (j <= length D)%nat -> (D ++ [NUL; NUL]) !! j = Some NUL ->
  reach s0 (take j T) = Some s ->
  wp (lex_step fuel (At_find_action EOB_STATE (Z.of_nat (bp + (j + 1))) (Z.of_nat bp))) (step_post (todo j b g + 2)) g.
Proof.
  intros HC Hj Hn Hr. pose proof (core_length _ _ _ _ HC) as HlD. pose proof HC as [[Hc _ Hmem _ _ _ _] _ _ _ _ _].
  change (2 ^ 31) with 2147483648 in *.
  unfold lex_step. wnext. eapply wp_lift; [exact eob_accepts|]. wnext. wnext.
  eapply before_action_ok; [done|done|lia|]. intros c Ech. wnext. wnext.
  change (negb (YY_END_OF_BUFFER =? YY_END_OF_BUFFER) && can_match_eol YY_END_OF_BUFFER) with false. cbv iota.
  apply wp_ret. wnext. change (YY_END_OF_BUFFER =? 0) with false. rewrite Z.eqb_refl. cbv iota.
  unfold end_of_buffer_case. wnext. apply wp_get. wnext. cbv zeta.
  assert (s32 (s32 (Z.of_nat (bp + (j + 1)) - yytext_ptr (acted p b bp (j + 1) c g)) - 1) = Z.of_nat j) as ->.
  { change (yytext_ptr (acted p b bp (j + 1) c g)) with (Z.of_nat bp).
    replace (Z.of_nat (bp + (j + 1)) - Z.of_nat bp) with (Z.of_nat j + 1) by lia.
    rewrite (swrap_small 32 (_ + 1)) by (change (2 ^ (32 - 1)) with 2147483648; lia).
    rewrite Z.add_simpl_r. apply swrap_small; [lia|]. change (2 ^ (32 - 1)) with 2147483648. lia. }
  wnext. eapply restore_ok; [done|by apply Hmem|]. wnext.
  pose proof (core_registers _ _ _ _ _ _ _ _ _ bp (j + 1) c HC) as HC1. set (g1 := registers bp (j + 1) c g) in *.
  wnext. eapply (wp_cur _ p b); [exact Hc|]. wnext. wnext.
  change (yyin (acted p b bp (j + 1) c g)) with (yyin g1). apply (leave_new_ok b bp D g1); [done|].
  intros b' g2 HC2 Hnn [Et Ecp Eh] Ep. wnext. wnext. apply wp_get. wnext.
  rewrite Ecp, (ld_n _ _ _ _ _ (co_loaded _ _ _ _ _ _ _ _ _ HC2)).
  change (yy_c_buf_p g1) with (Z.of_nat (bp + (j + 1))).
  assert (todo j b g = todo j b' g2) as -> by (unfold todo; rewrite Ep; done).
  destruct (Z.leb_spec (Z.of_nat (bp + (j + 1))) (Z.of_nat (bp + length D))) as [Hin|Hout].
  - wnext. apply wp_modify. cbn [then_]. rewrite Et. change (yytext_ptr g1) with (Z.of_nat bp).
    refine (text_NUL_ok b' bp D j s (set_c_buf_p (Z.of_nat bp + Z.of_nat j) g2) _ _ _ _ _ _); [by apply core_c_buf_p|lia|done|done|exact Et|cbn; lia].
  - assert (j = length D) as -> by lia. apply (refill_ok b' bp D s); [done|done|done|exact Et| |].
    + rewrite Ecp. change (yy_c_buf_p g1) with (Z.of_nat (bp + (length D + 1))). lia.
    + rewrite Eh. change (yy_hold_char g1) with c. rewrite lookup_app_r in Ech by lia.
      replace (length D + 1 - length D)%nat with 1%nat in Ech by lia. by injection Ech as <-.
Qed.

Lemma lex_step_ok n l g : at_label n l g -> wp (lex_step fuel l) (step_post n) g.
Proof.
  intros [b bp D j s g' HC Hj Hr Hl|b bp D acc pos s g' HC Hm Hpos Ha|b bp D s g' HC ET Hne Hr Ha Hl|b bp D j s g' HC Hj Hn Hr].
  - eapply match_step_ok; [done|done|done|done|]. intros k l2 g2 Hk H2. by exists k.
  - eapply rule_step_ok; [done|done|done|done|]. intros g2 H2. by exists pos.
  - eapply back_up_step_ok; [done..|]. intros l2 g2 H2. exists 0%nat. split; [lia|done].
  - by eapply end_of_buffer_step_ok.
Qed.
End Token.
