(* ===== verification/RefillSpec.v ===== *)
(** * Refilling is invisible

    The scanner on a buffer that is refilled in blocks does what the scanner on
    the whole text does: one round of yylex, its memory accesses included, is one
    step of the model that has the text at hand. *)

From S2P Require Import Prelude CString ScanCtx Scanner ScannerSpec ScanBuffer BufferProps MatchProps RefillProps RefillLoop RefillToken.
Local Open Scope Z_scope.

Implicit Types (g : yyguts_t) (b : yy_buffer_state) (p : positive) (D P T : list ascii).

(** ** One token of a text *)

(** The rule that matches, its text, and the buffer behind it. *)
Definition next_token (start : Z) (bf : buffer) : option (Z * string * buffer) :=
  m ← yy_scan start bf;
  let '(act, len) := m in
  let count := if can_match_eol act then count_newlines (split_at len bf.(rest)).1 else 0 in
  let len := if act =? 40 then (len - 1)%nat else len in
  let (text, rest') := split_at len bf.(rest) in
  let bol := match text with EmptyString => bf.(at_bol) | _ => ends_line text end in
  Some (act, text, {| rest := rest'; at_bol := bol; bs_lineno := bf.(bs_lineno) + count |}).

(** A round of yylex takes the next token, and runs the action of its rule. *)
Lemma yylex_round_token fs q : rest (buf q) <> "" ->
  yylex_round fs q =
  match next_token (q.(ScanCtx.yy_start)) (buf q) with
  | Some (act, text, bf) => (put (with_yytext text (with_buf bf q));; rule_action fs act text) q
  | None => (Undef UB_bounds, q)
  end.
Proof.
  intros Hr. unfold yylex_round, next_token, can_match_eol, mbind, M_bind, get, lift_opt. cbv beta iota.
  destruct (rest (buf q)) as [|c r] eqn:E; [done|]. destruct (yy_scan _ (buf q)) as [[act len]|]; [|done].
  cbn [option_bind mret M_ret]. cbv beta iota zeta.
  by destruct (split_at (if act =? 40 then (len - 1)%nat else len) (String c r)).
Qed.

(** ** Strings and lists of characters *)

Abbreviation chars := String.list_ascii_of_string.
Abbreviation str := String.string_of_list_ascii.

Lemma split_at_chars n s : split_at n s = (str (take n (chars s)), str (drop n (chars s))).
Proof.
  revert s. induction n as [|n IH]; intros s; [by rewrite drop_0, String.string_of_list_ascii_of_string|]. cbn [split_at].
  destruct s as [|c s]; [done|]. cbn. by rewrite IH.
Qed.

Lemma count_newlines_str l : count_newlines (str l) = lines l.
Proof. induction l as [|c l IH]; [done|]. cbn. by rewrite IH. Qed.

Lemma ends_line_str l : l <> [] -> ends_line (str l) = match last l with Some c => uchar c =? 10 | None => false end.
Proof.
  induction l as [|c l IH]; [done|]. intros _. destruct l as [|c' l]; [done|].
  change (last (c :: c' :: l)) with (last (c' :: l)). rewrite <- IH by done. done.
Qed.

Lemma yy_scan_list start bf : condition start ->
  yy_scan start bf = match_list (start + b2i (at_bol bf)) (chars (rest bf)) 0 None.
Proof. intros H. apply match_list_string. by apply good_start. Qed.

(** ** A buffer at the start of a token *)

(** Buffer [p] is the current one, and its text is that of [bf]: what is in its
    memory, the character held back put in its place, and what is in its stream. *)
Definition ready p (bf : buffer) g : Prop :=
  exists b0 bp D, let b := poked b0 bp (yy_hold_char g) in
    is_cur g p b0 /\ yy_c_buf_p g = Z.of_nat bp /\ loaded p b bp D (with_cur p b g) /\
    chars (rest bf) = D ++ pending b g /\ yy_at_bol b0 = at_bol bf /\ yy_bs_lineno b0 = Some (bs_lineno bf).

Lemma loaded_drop p b bp D g n : loaded p b bp D g -> (n <= length D)%nat -> loaded p b (bp + n) (drop n D) g.
Proof.
  intros [H1 H2 H3 H4 H5 H6 H7] Hn. split; try done.
  - rewrite H2, length_drop. lia.
  - rewrite <- (take_drop n D), <- app_assoc in H3. apply mem_at_app in H3 as [_ H3].
    by rewrite length_take, Nat.min_l in H3 by lia.
Qed.

(** ** After the rule is found *)

Lemma read_chars_ok p b i v g Q : is_cur g p b -> mem_at (yy_ch_buf b) i v -> Q (Ret v) g ->
  wp (read_chars (length v) (Z.of_nat i)) Q g.
Proof.
  intros Hc. revert i Q. induction v as [|c v IH]; intros i Q Hm HQ; cbn [read_chars length]; [by apply wp_ret|].
  apply mem_at_cons in Hm as [Hm0 Hm]. wnext. eapply wp_deref; [done|done|done|]. wnext. wnext.
  replace (Z.of_nat i + 1) with (Z.of_nat (S i)) by lia. apply IH; [done|]. wnext. by apply wp_ret.
Qed.

Definition bol_after (len : nat) D (bol : bool) : bool :=
  match last (take len D) with Some c => uchar c =? 10 | None => bol end.

Lemma poked_bol b i c c' x : yy_ch_buf b !! i = Some (Some c) ->
  poked (set_at_bol x (poked b i c')) i c = set_at_bol x b.
Proof. intros H. rewrite <- (poked_back b i c c' H) at 2. done. Qed.

Section Finish.
Context (p : positive) (g0 : yyguts_t) (T : list ascii) (bol : bool) (line : Z).

Lemma finish_ok b bp D len c g (acc : Z) (Q : outcome (option (Z * string)) -> yyguts_t -> Prop) : core p g0 T bol line b bp D g -> (len <= length D)%nat ->
  (D ++ [NUL; NUL]) !! len = Some c ->
  (forall g', ready p {| rest := str (drop len T); at_bol := bol_after len T bol; bs_lineno := line |} g' ->
     frame p g0 g' -> drained g0 g' ->
     yytext g' = (Ret (str (take len T)), g') -> Q (Ret (Some (acc, str (take len T)))) g') ->
  wp (YY_RULE_SETUP;; t ← yytext; mret (Some (acc, t))) Q (acted p b bp len c g).
Proof.
  intros HC Hl Hch HQ. pose proof HC as [HL ET Hfr Hdr Hbol Hline]. pose proof HL as [Hc _ Hmem _ _ _ _].
  pose proof (Hmem _ _ Hch) as Hmc. apply mem_at_app in Hmem as [HmD _].
  assert (take len T = take len D) as Etk by (rewrite ET; by apply take_app_le).
  set (g1 := acted p b bp len c g). set (b1 := poked b (bp + len) NUL).
  assert (is_cur g1 p b1) as Hc1 by (by eapply is_cur_with).
  assert (mem_at (yy_ch_buf b1) bp (take len D)) as Hm1.
  { apply mem_at_insert_ne; [|rewrite length_take; lia]. intros k x Hk. apply HmD. by apply lookup_take_Some in Hk as [? _]. }
  assert (wp (t ← yytext; mret (Some (acc, t))) Q (with_cur p (set_at_bol (bol_after len T bol) b1) g1)) as Hyy.
  { set (b2 := set_at_bol (bol_after len T bol) b1).
    assert (yytext (with_cur p b2 g1) = (Ret (str (take len T)), with_cur p b2 g1)) as Eyy.
    { apply (wp_result yytext). unfold yytext. wnext. apply wp_get. wnext. wnext.
      change (yyleng (with_cur p b2 g1)) with (Z.of_nat len). change (yytext_ptr (with_cur p b2 g1)) with (Z.of_nat bp).
      replace (Z.to_nat (Z.of_nat len)) with (length (take len D)) by (rewrite length_take; lia).
      eapply (read_chars_ok p b2); [by eapply is_cur_with|done|]. wnext. apply wp_ret. by rewrite Etk. }
    wnext. unfold wp at 1. rewrite Eyy. wnext. apply wp_ret. apply HQ; [| | |exact Eyy].
    - exists b2, (bp + len)%nat, (drop len D). cbv zeta.
      change (yy_hold_char (with_cur p b2 g1)) with c. unfold b2, b1. rewrite poked_bol by done. split_and!.
      + by eapply is_cur_with.
      + done.
      + apply loaded_drop; [|done]. rewrite with_cur_twice. destruct HL as [L1 L2 L3 L4 L5 L6 L7].
        split; try done. by eapply is_cur_with, is_cur_with.
      + cbn [rest]. rewrite String.list_ascii_of_string_of_list_ascii, ET, drop_app_le by done. done.
      + done.
      + done.
    - eapply frame_trans; [exact Hfr|]. split; [done|done| |done]. intros q Hq. cbn. by rewrite !lookup_insert_ne by done.
    - exact Hdr. }
  wnext. unfold YY_RULE_SETUP. wnext. apply wp_get. wnext. change (yyleng g1) with (Z.of_nat len).
  destruct (Z.ltb_spec 0 (Z.of_nat len)) as [Hpos|Hz].
  - change (yytext_ptr g1) with (Z.of_nat bp). wnext.
    destruct (D !! (len - 1)%nat) as [x|] eqn:Ex; [|apply lookup_ge_None in Ex; lia].
    assert ((take len D) !! (len - 1)%nat = Some x) as Ex' by (rewrite lookup_take_lt by lia; done).
    eapply (wp_deref _ p b1 _ (bp + (len - 1))); [done|lia|by apply Hm1|]. wnext.
    eapply wp_on_cur; [done|]. cbn [then_].
    assert (bol_after len T bol = (uchar x =? 10)) as <-; [|by apply Hyy].
    unfold bol_after. rewrite Etk, last_lookup, length_take, Nat.min_l by lia.
    replace (pred len) with (len - 1)%nat by lia. by rewrite Ex'.
  - assert (len = 0%nat) as E0 by lia. apply wp_ret. cbn [then_].
    assert (set_at_bol (bol_after len T bol) b1 = b1) as Eb.
    { unfold bol_after. rewrite E0. cbn. rewrite <- Hbol. by destruct b1 eqn:Eb1; destruct b; unfold poked in *; injection Eb1; intros; subst. }
    rewrite Eb, with_cur_id in Hyy by done. exact Hyy.
Qed.
End Finish.

Lemma chars_nil s : chars s = [] -> s = "".
Proof. by destruct s. Qed.

Lemma length_chars s : length (chars s) = String.length s.
Proof. induction s as [|c s IH]; [done|]. cbn. by rewrite IH. Qed.

(** What one round may show. *)
Definition token_post p (bf : buffer) g (o : outcome (option (Z * string))) g' : Prop :=
  match o with
  | Ret None => rest bf = "" /\ frame p g g' /\ drained g g' /\
      exists bol, ready p {| rest := ""; at_bol := bol; bs_lineno := bs_lineno bf |} g'
  | Ret (Some (act, text)) => exists bf', next_token (yy_start g) bf = Some (act, text, bf') /\
      frame p g g' /\ drained g g' /\ ready p bf' g' /\ yytext g' = (Ret text, g')
  | Exited z => z = 2 /\ ~ clean (stream_of g)
  | _ => False
  end.

(** Enough for one round: a few steps for each character, and one for each event
    of the stream. *)
Definition token_fuel (bf : buffer) g : nat :=
  8 * String.length (rest bf) + length (events (stream_of g)) + 8.

Lemma at_bol_str l bol : match str l with EmptyString => bol | _ => ends_line (str l) end =
  match last l with Some c => uchar c =? 10 | None => bol end.
Proof.
  destruct l as [|c l]; [done|]. change (ends_line (str (c :: l)) = match last (c :: l) with Some c => uchar c =? 10 | None => bol end).
  rewrite ends_line_str by done. destruct (last (c :: l)) eqn:E; [done|]. by apply last_None in E.
Qed.

(** The automaton starts in states that accept nothing. *)
Lemma start_accepts start bol : condition start -> tab yy_accept (start + b2i bol) = Some 0.
Proof. intros [-> | [-> | [-> | ->]]]; by destruct bol. Qed.

Lemma match_nonempty start bf acc pos : condition start ->
  match_list (start + b2i (at_bol bf)) (chars (rest bf)) 0 None = Some (acc, pos) ->
  yy_scan start bf = Some (acc, pos) /\ (1 <= pos)%nat.
Proof.
  intros Hcond Hm. rewrite <- yy_scan_list in Hm by done. split; [done|].
  destruct (decide (rest bf = "")) as [E|Hne].
  - rewrite yy_scan_list, E in Hm by done. cbn in Hm. unfold note in Hm. by rewrite start_accepts in Hm.
  - destruct (yy_scan_total start bf Hcond Hne) as (n & k & Ek & Hk & _). rewrite Hm in Ek. injection Ek as _ <-. lia.
Qed.

Lemma next_token_found start bf acc pos : yy_scan start bf = Some (acc, pos) ->
  let T := chars (rest bf) in let len := if acc =? 40 then (pos - 1)%nat else pos in
  next_token start bf = Some (acc, str (take len T),
    {| rest := str (drop len T); at_bol := bol_after len T (at_bol bf);
       bs_lineno := bs_lineno bf + (if can_match_eol acc then lines (take pos T) else 0) |}).
Proof.
  intros E. cbv zeta. unfold next_token. rewrite E. cbn [mbind option_bind]. rewrite !split_at_chars. cbn [fst].
  rewrite count_newlines_str, at_bol_str. done.
Qed.

(** The rule that was found, to its action. *)
Lemma rule_found_ok p bf g acc pos b bp D c g3 : condition (yy_start g) -> let T := chars (rest bf) in
  match_list (s0 g (at_bol bf)) T 0 None = Some (acc, pos) ->
  core p g T (at_bol bf) (bs_lineno bf + (if can_match_eol acc then lines (take pos T) else 0)) b bp D g3 ->
  (pos <= length D)%nat -> (D ++ [NUL; NUL]) !! pos = Some c ->
  wp (before_rule acc;; t ← yytext; mret (Some (acc, t))) (token_post p bf g) (acted p b bp pos c g3).
Proof.
  intros Hcond T Hm HC Hpos Hch. destruct (match_nonempty _ _ _ _ Hcond Hm) as [Hscan Hpos1].
  pose proof (next_token_found _ _ _ _ Hscan) as Hnext. cbv zeta in Hnext. fold T in Hnext.
  pose proof HC as [[Hc _ Hmem _ _ _ _] _ _ _ _ _].
  wnext. unfold before_rule. wnext. destruct (Z.eqb_spec acc 40) as [->|Hne].
  - wnext. apply wp_get. wnext. wnext. eapply restore_ok; [done|by apply Hmem|]. wnext. wnext. apply wp_modify. wnext.
    change (yy_c_buf_p (acted p b bp pos c g3)) with (Z.of_nat (bp + pos)).
    change (yytext_ptr (acted p b bp pos c g3)) with (Z.of_nat bp).
    replace (Z.of_nat (bp + pos) - 1) with (Z.of_nat (bp + (pos - 1))) by lia.
    set (g4 := set_c_buf_p (Z.of_nat (bp + (pos - 1))) (registers bp pos c g3)).
    eapply (before_action_ok p b bp D); [exact Hc|done|lia|]. intros c' Ec'. cbn [then_]. apply wp_bind_inv.
    eapply (finish_ok p g T (at_bol bf)); [apply core_c_buf_p, core_registers, HC|lia|done|].
    intros g' Hr Hfr Hdr Hy. cbn [token_post]. eexists. by split_and!.
  - apply wp_ret. cbn [then_]. apply wp_bind_inv. eapply (finish_ok p g T (at_bol bf)); [exact HC|lia|done|].
    intros g' Hr Hfr Hdr Hy. cbn [token_post]. eexists. by split_and!.
Qed.

Lemma yylex_token_ok p bf g fuel : ready p bf g -> condition (yy_start g) ->
  Z.of_nat (String.length (rest bf)) < 2 ^ 31 - 2 -> (token_fuel bf g <= fuel)%nat ->
  wp (yylex_token fuel) (token_post p bf g) g.
Proof.
  intros (b0 & bp & D & Hc0 & Ecp & HL & ET & Hbol & Hline) Hcond Hlen Hf. cbv zeta in HL, ET.
  set (b := poked b0 bp (yy_hold_char g)) in *. set (T := chars (rest bf)) in *.
  unfold token_fuel in Hf. rewrite <- length_chars in Hlen, Hf. fold T in Hlen, Hf.
  pose proof HL as [_ _ Hmem _ _ _ _].
  assert (bp < length (yy_ch_buf b0))%nat as Hbp.
  { pose proof (mem_at_length _ _ _ Hmem) as Hml. rewrite length_app in Hml. cbn in Hml.
    rewrite length_insert in Hml. specialize (Hml ltac:(by destruct D)). lia. }
  unfold yylex_token. wnext. apply wp_get. wnext. cbv zeta. wnext.
  eapply (wp_assign _ p b0 _ bp); [done|done|done|]. wnext. fold b. set (g1 := with_cur p b g) in *.
  assert (is_cur g1 p b) as Hc1 by (by eapply is_cur_with).
  wnext. unfold first_state. wnext. apply wp_get. wnext. wnext. eapply wp_cur; [done|]. wnext. apply wp_ret. wnext. wnext.
  assert (core p g T (at_bol bf) (bs_lineno bf) b bp D g1) as HC.
  { split; [exact HL|exact ET|apply frame_with|done|exact Hbol|exact Hline]. }
  pose proof (good_start (yy_start g) (at_bol bf) Hcond) as Hgood.
  assert (T <> [] -> is_Some (match_list (s0 g (at_bol bf)) T 0 None)) as Htotal.
  { intros Hne. unfold s0, T. rewrite <- yy_scan_list by done.
    destruct (yy_scan_total (yy_start g) bf Hcond) as (n & k & -> & _); [|done].
    intros E. apply Hne. unfold T. by rewrite E. }
  change (yy_start g1 + b2i (yy_at_bol b)) with (yy_start g + b2i (yy_at_bol b0)).
  rewrite Hbol, Ecp. fold (s0 g (at_bol bf)). replace (Z.of_nat bp) with (Z.of_nat (bp + 0)) at 1 by lia.
  assert (length T + length (events (stream_of g)) + 4 <= fuel)%nat as Hf2 by lia.
  assert (length (pending b g1) <= length T)%nat as Hpend by (change (pending b g1) with (pending b g); rewrite ET, length_app; lia).
  eapply (wp_iter_ranked (lex_step fuel) (at_label p g T (at_bol bf) (bs_lineno bf)) _);
    [|apply (at_match p g T (at_bol bf) (bs_lineno bf) b bp D 0 _ g1); [done|lia|by rewrite take_0|by rewrite take_0]|unfold todo; lia].
  intros n l s HI. eapply wp_mono; [|exact (lex_step_ok p g T (at_bol bf) (bs_lineno bf) Hgood Hlen Htotal fuel Hf2 n l s HI)].
  intros o g2 Ho. destruct o as [[l'|[acc|]]|z| |w|]; try done; cbn [step_post then_] in *.
  - destruct Ho as (pos & Hm & g3 & b3 & bp3 & D3 & c & HC3 & Hpos & Hch & ->).
    by eapply rule_found_ok.
  - destruct Ho as (ET0 & Hfr & Hdr & b2 & bp2 & HL2 & Ep2 & Ec2 & Eh2 & Hl2). apply wp_ret.
    assert (rest bf = "") as E0 by (by apply chars_nil). split_and!; [done|done|done|]. exists (yy_at_bol b2).
    pose proof HL2 as [Hcc _ Hmm _ _ _ _]. specialize (Hmm 0%nat NUL eq_refl). rewrite Nat.add_0_r in Hmm.
    assert (poked b2 bp2 NUL = b2) as Eb.
    { destruct b2. unfold poked. cbn in *. by rewrite list_insert_id. }
    exists b2, bp2, []. cbv zeta. rewrite Eh2, Eb, with_cur_id by done. by rewrite Ep2.
Qed.
