(* ===== verification/SwitchProps.v ===== *)
(** * Creating, switching and deleting buffers

    A buffer that is not the current one keeps its text until the scanner switches
    back to it: what each buffer function does to the current buffer, and to the
    others. *)

From S2P Require Import Prelude CString ScanCtx Scanner ScannerSpec ScanBuffer BufferProps MatchProps RefillProps RefillLoop RefillToken RefillSpec.
Local Open Scope Z_scope.

Implicit Types (g : yyguts_t) (b : yy_buffer_state) (p : positive) (D P T : list ascii).

(** ** The top of the stack *)

Definition top_is g (x : option positive) : Prop :=
  exists st, yy_buffer_stack g = Some st /\ st !! yy_buffer_stack_top g = Some x.

Lemma is_cur_top g p b : is_cur g p b <-> top_is g (Some p) /\ yy_buffers g !! p = Some b.
Proof. split; [intros (st & ? & ? & ?); split; [by exists st|done]|intros [(st & ? & ?) ?]; by exists st]. Qed.

Lemma wp_CURRENT_top g x (Q : outcome (option positive) -> yyguts_t -> Prop) : top_is g x -> Q (Ret x) g -> wp YY_CURRENT_BUFFER Q g.
Proof. intros (st & E1 & E2) HQ. unfold YY_CURRENT_BUFFER. wnext. apply wp_get. wnext. rewrite E1. by eapply wp_lift. Qed.

Lemma top_with p b g x : top_is g x -> top_is (with_cur p b g) x.
Proof. by intros (st & H1 & H2); exists st. Qed.

(** Another buffer on top. *)
Lemma set_current_ok g x y (Q : outcome unit -> yyguts_t -> Prop) : top_is g x ->
  (forall st, top_is (set_stack (Some st) (yy_buffer_stack_top g) g) y -> Q (Ret tt) (set_stack (Some st) (yy_buffer_stack_top g) g)) ->
  wp (set_current y) Q g.
Proof.
  intros (st & E1 & E2) HQ. unfold set_current. wnext. apply wp_get. wnext. wnext. eapply wp_lift; [done|]. wnext.
  apply lookup_lt_Some in E2. rewrite (proj2 (Nat.ltb_lt _ _)) by done. apply wp_put, HQ.
  exists (<[yy_buffer_stack_top g := y]> st). split; [done|]. by apply list_lookup_insert_eq.
Qed.

(** The stack grows, and keeps its top. *)
Lemma ensure_stack_ok g x (Q : outcome unit -> yyguts_t -> Prop) : top_is g x ->
  (forall st, top_is (set_stack (Some st) (yy_buffer_stack_top g) g) x -> Q (Ret tt) (set_stack (Some st) (yy_buffer_stack_top g) g)) ->
  wp yyensure_buffer_stack Q g.
Proof.
  intros (st & E1 & E2) HQ. unfold yyensure_buffer_stack. wnext. apply wp_get. wnext. rewrite E1.
  destruct (_ <=? _)%nat.
  - apply wp_put, HQ. eexists. split; [done|]. by apply lookup_app_l_Some.
  - apply wp_ret. assert (set_stack (Some st) (yy_buffer_stack_top g) g = g) as Eg by (rewrite <- E1; by destruct g).
    rewrite <- Eg. apply HQ. by exists st.
Qed.

(** ** A buffer does not depend on the others *)

Lemma ready_same p bf g g' : top_is g' (Some p) -> yy_buffers g' !! p = yy_buffers g !! p ->
  yy_n_chars g' = yy_n_chars g -> yy_c_buf_p g' = yy_c_buf_p g -> yy_hold_char g' = yy_hold_char g ->
  yyin g' = yyin g -> (forall i, yyin g = Some i -> streams g' !! i = streams g !! i) ->
  ready p bf g -> ready p bf g'.
Proof.
  intros Htop Eb En Ec Eh Ei Es (b & bp & D & Hc & Ebp & HL & ET & Hbol & Hline). cbv zeta in HL, ET.
  apply is_cur_top in Hc as [_ Hb]. exists b, bp, D. cbv zeta. rewrite Eh, Ec.
  assert (stream_of g' = stream_of g) as Estr.
  { unfold stream_of. rewrite Ei. destruct (yyin g) as [i|] eqn:E; [|done]. cbn. by rewrite Es. }
  assert (is_cur g' p b) as Hc' by (apply is_cur_top; by rewrite Eb).
  split_and!; try done.
  - set (b1 := poked b bp (yy_hold_char g)) in *. destruct HL as [H1 H2 H3 H4 H5 H6 H7]. split.
    + by eapply is_cur_with.
    + by etrans; [exact En|].
    + done.
    + by etrans; [exact H4|].
    + intros Hn. etrans; [by apply H5|done].
    + intros Hn. change (text_of (events (stream_of g')) = []). rewrite Estr. by apply H6.
    + intros Hf. destruct (H7 Hf) as (? & ? & Hs & i & f & Hi & Hstr). do 2 (split; [done|]). split.
      * change (yy_n_chars g' + 1 <= yy_buf_size b1 < 2 ^ 40). by rewrite En.
      * exists i, f. split; [by etrans; [exact Ei|]|]. rewrite <- Hstr. by apply Es.
  - rewrite ET. f_equal. unfold pending. by rewrite Estr.
Qed.

(** ** Buffers that wait *)

(** The state after switching to buffer [p]. *)
Definition loaded_state b (c : ascii) g : yyguts_t :=
  set_hold c (set_in (yy_input_file b) (set_c_buf_p (yy_buf_pos b) (set_text_ptr (yy_buf_pos b) (set_n_chars (yy_b_n_chars b) g)))).

Definition on_top p g : yyguts_t := set_stack (Some [Some p]) 0 g.

(** Buffer [p], whose file is [file], would show the text of [bf]. *)
Definition stored p (file : option positive) (bf : buffer) g : Prop :=
  exists b bp c, yy_buffers g !! p = Some b /\ yy_input_file b = file /\ yy_buf_pos b = Z.of_nat bp /\
    yy_ch_buf b !! bp = Some (Some c) /\ ready p bf (loaded_state b c (on_top p g)).

Lemma stored_same p file bf g g' : yy_buffers g' !! p = yy_buffers g !! p ->
  (forall i, file = Some i -> streams g' !! i = streams g !! i) -> stored p file bf g -> stored p file bf g'.
Proof.
  intros Eb Es (b & bp & c & Hb & Hf & Hp & Hc & Hr). exists b, bp, c. rewrite Eb. split_and!; try done.
  eapply ready_same; [..|exact Hr]; try done.
  - by exists [Some p].
  - intros i Hi. apply Es. by rewrite <- Hf.
Qed.

(** Switching to a buffer that waits. *)
Lemma load_stored_ok p file bf g (Q : outcome unit -> yyguts_t -> Prop) : top_is g (Some p) -> stored p file bf g ->
  (forall b c, ready p bf (loaded_state b c g) -> yy_input_file b = file -> Q (Ret tt) (loaded_state b c g)) ->
  wp yy_load_buffer_state Q g.
Proof.
  intros Htop (b & bp & c & Hb & Hf & Hp & Hc & Hr) HQ. eapply load_state_ok; [by apply is_cur_top|done|done|].
  apply (HQ b c); [|done]. by eapply ready_same; [..|exact Hr].
Qed.

Lemma ready_lookup p bf g : ready p bf g -> is_Some (yy_buffers g !! p) /\ top_is g (Some p).
Proof. intros (b & bp & D & Hc & _). apply is_cur_top in Hc as [Ht Hb]. by split. Qed.

(** The current buffer keeps its position, and can wait; yyin may be set to another
    stream already. *)
Lemma flush_position_ok p bf g x (Q : outcome unit -> yyguts_t -> Prop) : ready p bf g ->
  (forall b', stored p (yyin g) bf (with_cur p b' (set_in x g)) -> Q (Ret tt) (with_cur p b' (set_in x g))) ->
  wp flush_position Q (set_in x g).
Proof.
  intros (b & bp & D & Hc & Ebp & HL & ET & Hbol & Hline) HQ. cbv zeta in HL, ET.
  pose proof HL as [_ Hn Hmem Hfile Hnew Heof Hfill]. set (c := yy_hold_char g) in *. set (b1 := poked b bp c) in *.
  assert (bp < length (yy_ch_buf b))%nat as Hbp.
  { pose proof (mem_at_length _ _ _ Hmem) as Hl. unfold b1, poked in Hl. cbn in Hl.
    rewrite length_insert, length_app in Hl. simpl in Hl. specialize (Hl ltac:(by destruct D)). lia. }
  unfold flush_position. wnext. eapply wp_CURRENT; [exact Hc|]. wnext. wnext. apply wp_get. wnext. wnext.
  eapply wp_poke; [exact (is_cur_lookup _ _ _ Hc)|exact Ebp|done|]. wnext. change (yy_hold_char (set_in x g)) with c. fold b1.
  assert (forall b', yy_buffers (with_cur p b' (set_in x g)) !! p = Some b') as Hw by (intros; apply lookup_insert_eq).
  wnext. eapply wp_store; [apply Hw|]. rewrite with_cur_twice. wnext.
  eapply wp_store; [apply Hw|]. rewrite with_cur_twice.
  set (b2 := set_b_n_chars (yy_n_chars g) (set_buf_pos (yy_c_buf_p g) b1)).
  apply (HQ b2). exists b2, bp, c. rewrite Hw. split_and!; [done|exact Hfile|done| |].
  { by apply list_lookup_insert_eq. }
  assert (poked b2 bp c = b2) as Eb2.
  { unfold b2, b1, poked. destruct b. cbn. by rewrite list_insert_insert_eq. }
  exists b2, bp, D. cbv zeta. change (yy_hold_char (loaded_state b2 c _)) with c. rewrite Eb2. split_and!; try done.
  - apply is_cur_top. split; [by exists [Some p]|apply Hw].
  - split; try done.
    + eapply is_cur_with. apply is_cur_top. split; [by exists [Some p]|apply Hw].
    + intros Hs. specialize (Heof Hs). unfold stream_of in *. cbn in *. by rewrite <- Hfile in Heof.
    + intros Hf. destruct (Hfill Hf) as (H1 & H2 & H3 & i & f & Hi & Hf'). do 3 (split; [done|]).
      exists i, f. split; [|done]. etrans; [exact Hfile|done].
  - rewrite ET. f_equal. unfold pending, stream_of. cbn. change (yy_input_file b) with (yy_input_file b1). by rewrite Hfile.
Qed.

(** ** Creating *)

Definition raw_buffer (size : Z) : yy_buffer_state :=
  Buffer None (replicate (Z.to_nat (size + 2)) None) 0 size 0 true false None None false YY_BUFFER_NEW.

Definition created (file : option positive) (size : Z) : yy_buffer_state :=
  set_column (Some 0) (set_lineno (Some 1) (started_over file (raw_buffer size))).

Lemma create_ok g x file size (Q : outcome positive -> yyguts_t -> Prop) : top_is g x -> 0 <= size ->
  (forall p, x = Some p -> is_Some (yy_buffers g !! p)) ->
  (forall p, yy_buffers g !! p = None -> Q (Ret p) (with_cur p (created file size) g)) ->
  wp (yy_create_buffer file size) Q g.
Proof.
  intros Htop Hsize Hx HQ. unfold yy_create_buffer. wnext. unfold new_object. wnext. apply wp_get. wnext. cbv zeta.
  set (p := fresh (dom (yy_buffers g))).
  assert (yy_buffers g !! p = None) as Hp by (apply not_elem_of_dom, is_fresh).
  assert (x <> Some p) as Hxp by (intros E; destruct (Hx p E) as [b Hb]; congruence).
  wnext. apply wp_put. wnext. apply wp_ret. wnext. wnext.
  match goal with |- wp _ _ ?g1 => change g1 with (with_cur p (raw_buffer size) g) end.
  unfold yy_init_buffer, yy_flush_buffer. wnext.
  apply (flush_stores _ p (raw_buffer size)); [apply lookup_insert_eq|cbn; rewrite length_replicate; lia|].
  rewrite with_cur_twice.
  assert (forall b', yy_buffers (with_cur p b' g) !! p = Some b') as Hw by (intros; apply lookup_insert_eq).
  wnext. eapply wp_CURRENT_top; [exact Htop|]. wnext. rewrite decide_False by done. apply wp_ret. wnext. wnext.
  eapply wp_store; [apply Hw|]. rewrite with_cur_twice. wnext. wnext.
  eapply wp_store; [apply Hw|]. rewrite with_cur_twice. wnext. wnext.
  eapply wp_CURRENT_top; [exact Htop|]. wnext. rewrite decide_False by done. wnext.
  eapply wp_store; [apply Hw|]. rewrite with_cur_twice. wnext.
  eapply wp_store; [apply Hw|]. rewrite with_cur_twice. wnext. apply wp_ret. by apply HQ.
Qed.

(** A buffer that nothing was scanned of. *)
Lemma stored_new g p b D : yy_buffers g !! p = Some b -> yy_buf_pos b = 0 -> yy_b_n_chars b = Z.of_nat (length D) ->
  mem_at (yy_ch_buf b) 0 (D ++ [NUL; NUL]) -> yy_buffer_status b = YY_BUFFER_NEW -> yy_at_bol b = true ->
  yy_bs_lineno b = Some 1 ->
  (yy_fill_buffer b = true -> yy_is_our_buffer b = true /\ Z.of_nat (length (yy_ch_buf b)) = yy_buf_size b + 2 /\
     yy_b_n_chars b + 1 <= yy_buf_size b < 2 ^ 40 /\ exists i f, yy_input_file b = Some i /\ streams g !! i = Some f) ->
  let T := D ++ if yy_fill_buffer b then text_of (events (default {| events := []; ferror := false |} (i ← yy_input_file b; streams g !! i))) else [] in
  stored p (yy_input_file b) (new_buffer (str T)) g.
Proof.
  intros Hb Hpos Hn Hm Hst Hbol Hline Hfill T.
  destruct ((D ++ [NUL; NUL]) !! 0%nat) as [c|] eqn:Ec; [|by destruct D].
  pose proof (Hm _ _ Ec) as Hc. exists b, 0%nat, c. split_and!; try done.
  assert (poked b 0 c = b) as Eb by (destruct b; unfold poked; cbn in *; by rewrite list_insert_id).
  exists b, 0%nat, D. cbv zeta. change (yy_hold_char (loaded_state b c _)) with c. rewrite Eb.
  assert (is_cur (loaded_state b c (on_top p g)) p b) as Hcur by (apply is_cur_top; split; [by exists [Some p]|done]).
  rewrite with_cur_id by done. split_and!; try done.
  - split; try done. by rewrite Hst.
  - cbn [rest new_buffer]. rewrite String.list_ascii_of_string_of_list_ascii. unfold T. f_equal.
    unfold pending, fills, stream_of. cbn. rewrite Hst. by destruct (yy_fill_buffer b).
Qed.

Lemma created_length file size : length (yy_ch_buf (created file size)) = Z.to_nat (size + 2).
Proof. cbn. by rewrite !length_insert, length_replicate. Qed.

Lemma created_stored g p i f size : yy_buffers g !! p = Some (created (Some i) size) -> 1 <= size < 2 ^ 40 ->
  streams g !! i = Some f -> stored p (Some i) (new_buffer (str (text_of (events f)))) g.
Proof.
  intros Hb Hsize Hf. pose proof (stored_new g p (created (Some i) size) [] Hb) as H. cbn in H.
  rewrite Hf in H. cbn in H. apply H; try done.
  - apply (flushed_mem (raw_buffer size)). cbn. rewrite length_replicate. lia.
  - intros _. rewrite !length_insert, length_replicate. do 3 (split; [done || lia|]). by exists i, f.
Qed.

(** ** Switching and deleting *)

Record same_world g g' : Prop := {
  sw_streams : streams g' = streams g;
  sw_start : yy_start g' = yy_start g;
  sw_init : yy_init g' = yy_init g
}.

Lemma switch_ok p q bf bf' file g x (Q : outcome unit -> yyguts_t -> Prop) : ready p bf g -> stored q file bf' g -> p <> q ->
  (forall g', ready q bf' g' -> stored p (yyin g) bf g' -> yyin g' = file -> same_world g g' ->
     (forall r, r <> p -> yy_buffers g' !! r = yy_buffers g !! r) ->
     (is_Some (yy_buffers g' !! p)) -> Q (Ret tt) g') ->
  wp (yy_switch_to_buffer (Some q)) Q (set_in x g).
Proof.
  intros Hp Hq Hpq HQ. destruct (ready_lookup _ _ _ Hp) as [_ Htop]. unfold yy_switch_to_buffer. wnext.
  eapply ensure_stack_ok; [exact Htop|]. intros st Htop1.
  change (set_stack (Some st) (yy_buffer_stack_top (set_in x g)) (set_in x g)) with (set_in x (set_stack (Some st) (yy_buffer_stack_top g) g)) in *.
  set (g1 := set_stack _ _ g) in *. wnext. wnext.
  eapply wp_CURRENT_top; [done|]. wnext. rewrite decide_False by congruence. wnext.
  eapply (flush_position_ok p bf g1); [by eapply ready_same; [..|exact Hp]|]. intros b' Hst. wnext. wnext.
  eapply set_current_ok; [exact Htop1|]. intros st2 Htop2. wnext. wnext. set (g2 := set_stack (Some st2) _ _) in *.
  assert (stored q file bf' g2) as Hq2 by (eapply stored_same; [..|exact Hq]; [by apply lookup_insert_ne|done]).
  eapply load_stored_ok; [exact Htop2|exact Hq2|]. intros b c Hr Hi. wnext. apply wp_modify. apply HQ.
  - eapply ready_same; [..|exact Hr]; done.
  - eapply stored_same; [..|exact Hst]; done.
  - exact Hi.
  - by split.
  - intros r Hr'. by apply lookup_insert_ne.
  - eexists. apply lookup_insert_eq.
Qed.

Lemma switch_back_ok q bf' file g (Q : outcome unit -> yyguts_t -> Prop) : top_is g None -> stored q file bf' g ->
  (forall g', ready q bf' g' -> yyin g' = file -> same_world g g' -> yy_buffers g' = yy_buffers g -> Q (Ret tt) g') ->
  wp (yy_switch_to_buffer (Some q)) Q g.
Proof.
  intros Htop Hq HQ. unfold yy_switch_to_buffer, flush_position. wnext.
  eapply ensure_stack_ok; [done|]. intros st Htop1. wnext. wnext.
  eapply wp_CURRENT_top; [done|]. wnext. rewrite decide_False by done. wnext. wnext.
  eapply wp_CURRENT_top; [done|]. wnext. apply wp_ret. wnext. wnext.
  eapply set_current_ok; [exact Htop1|]. intros st2 Htop2. wnext. wnext. set (g2 := set_stack (Some st2) _ _) in *.
  eapply load_stored_ok; [exact Htop2|by eapply stored_same; [..|exact Hq]|]. intros b c Hr Hi. wnext. apply wp_modify.
  apply HQ; [|exact Hi|by split|done].
  eapply ready_same; [..|exact Hr]; done.
Qed.

Lemma delete_current_ok p g (Q : outcome unit -> yyguts_t -> Prop) : top_is g (Some p) -> is_Some (yy_buffers g !! p) ->
  (forall g', top_is g' None -> yyin g' = yyin g -> same_world g g' -> yy_buffers g' = delete p (yy_buffers g) -> Q (Ret tt) g') ->
  wp (yy_delete_buffer (Some p)) Q g.
Proof.
  intros Htop [b Hb] HQ. unfold yy_delete_buffer. wnext. eapply wp_CURRENT_top; [done|]. wnext. wnext.
  rewrite decide_True by done. eapply set_current_ok; [done|]. intros st Htop1. wnext. wnext.
  eapply wp_load_buffer; [exact Hb|]. wnext. apply wp_modify. apply HQ; [exact Htop1|done|by split|done].
Qed.

Lemma delete_waiting_ok p q g (Q : outcome unit -> yyguts_t -> Prop) : top_is g (Some p) -> p <> q -> is_Some (yy_buffers g !! q) ->
  Q (Ret tt) (set_buffers (delete q (yy_buffers g)) g) -> wp (yy_delete_buffer (Some q)) Q g.
Proof.
  intros Htop Hpq [b Hb] HQ. unfold yy_delete_buffer. wnext. eapply wp_CURRENT_top; [done|]. wnext. wnext.
  rewrite decide_False by congruence. apply wp_ret. wnext. wnext. eapply wp_load_buffer; [exact Hb|]. wnext. by apply wp_modify.
Qed.

(** ** Opening an input *)

(** The scanner has one buffer, the current one, which shows the text of [bf]. *)
Record opened (fs : gmap positive stream) p (file : option positive) (bf : buffer) g : Prop := {
  op_top : top_is g (Some p);
  op_stored : stored p file bf g;
  op_only : forall q, is_Some (yy_buffers g !! q) <-> q = p;
  op_streams : streams g = fs;
  op_state : yy_init g = false /\ yy_start g = 0
}.

Lemma only_one p b (m : gmap positive yy_buffer_state) : m = {[p := b]} -> forall q, is_Some (m !! q) <-> q = p.
Proof. intros -> q. rewrite lookup_singleton_is_Some. naive_solver. Qed.

Lemma set_lineno_ok p b g line (Q : outcome unit -> yyguts_t -> Prop) : is_cur g p b ->
  Q (Ret tt) (with_cur p (set_lineno (Some line) b) g) -> wp (yyset_lineno line) Q g.
Proof. intros Hc HQ. unfold yyset_lineno. wnext. eapply wp_CURRENT; [done|]. wnext. by eapply wp_on_cur. Qed.

Lemma restart_first_ok fs i f (Q : outcome unit -> yyguts_t -> Prop) : fs !! i = Some f ->
  (forall p g, opened fs p (Some i) (new_buffer (str (text_of (events f)))) g -> Q (Ret tt) g) ->
  wp (yyrestart (Some i);; yyset_lineno 1) Q (yylex_init fs).
Proof.
  intros Hf HQ. wnext. unfold yyrestart. wnext. unfold YY_CURRENT_BUFFER at 1. wnext. apply wp_get. wnext.
  apply wp_ret. wnext. wnext. unfold yyensure_buffer_stack. wnext. wnext. apply wp_get. wnext. apply wp_put. wnext. wnext.
  apply wp_get. wnext. wnext. set (g1 := set_stack (Some [None]) 0 (yylex_init fs)).
  assert (top_is g1 None) as Ht1 by (by exists [None]).
  apply (create_ok g1 None); [done|done|done|]. intros p Hp. wnext. change (yyin g1) with (@None positive).
  assert (Z.of_nat (length (yy_ch_buf (created None YY_BUF_SIZE))) = 16386) as Eb
    by (rewrite created_length, Z2Nat.id; done).
  assert (yy_is_our_buffer (created None YY_BUF_SIZE) = true /\ yy_buf_size (created None YY_BUF_SIZE) = 16384) as [Eo Es]
    by (split; reflexivity).
  generalize dependent (created None YY_BUF_SIZE). intros b Eb Eo Es. assert (2 <= length (yy_ch_buf b))%nat as Hl by lia.
  eapply set_current_ok; [by apply top_with|]. intros st Ht2. wnext. wnext. set (g2 := set_stack (Some st) _ _) in *.
  assert (is_cur g2 p b) as Hc2 by (apply is_cur_top; split; [exact Ht2|apply lookup_insert_eq]).
  eapply wp_current; [done|]. wnext. eapply init_current_ok; [done|done|]. intros g3 [Rc Rr (R1 & R2 & R3 & R4 & R5) Ro].
  cbn [then_]. eapply set_lineno_ok; [done|]. set (b3 := set_lineno (Some 1) (started_over (Some i) b)).
  apply (HQ p). split.
  - apply is_cur_top in Rc as [Rc _]. by apply top_with.
  - pose proof (stored_new (with_cur p b3 g3) p b3 [] (lookup_insert_eq _ _ _)) as H. cbn in H.
    rewrite R5 in H. cbn in H. rewrite Hf in H. cbn in H. apply H; try done.
    + by apply (flushed_mem b).
    + intros _. rewrite !length_insert, Eb, Es. split; [done|]. split; [done|]. split; [lia|]. by exists i, f.
  - apply (only_one p b3). apply map_eq. intros q. destruct (decide (q = p)) as [->|Hq].
    + rewrite lookup_singleton_eq. apply lookup_insert_eq.
    + rewrite lookup_singleton_ne by done. etrans; [by apply lookup_insert_ne|]. rewrite Ro by done.
      by etrans; [by apply lookup_insert_ne|].
  - exact R5.
  - split; [exact R4|exact R3].
Qed.

(** The first buffer of a scanner. *)
Lemma switch_first_ok g p b c (Q : outcome unit -> yyguts_t -> Prop) : yy_buffer_stack g = None -> yy_buffers g !! p = Some b ->
  yy_buf_pos b = 0 -> yy_ch_buf b !! 0%nat = Some (Some c) ->
  (forall g', top_is g' (Some p) -> yy_buffers g' = yy_buffers g -> same_world g g' -> Q (Ret tt) g') ->
  wp (yy_switch_to_buffer (Some p)) Q g.
Proof.
  intros Hst Hb Hpos Hc HQ. unfold yy_switch_to_buffer, yyensure_buffer_stack, flush_position. wnext. wnext. apply wp_get. wnext.
  rewrite Hst. apply wp_put. wnext. set (g1 := set_stack (Some [None]) 0 g). assert (top_is g1 None) as Ht by (by exists [None]).
  wnext. eapply wp_CURRENT_top; [done|]. wnext. rewrite decide_False by done. wnext. wnext.
  eapply wp_CURRENT_top; [done|]. wnext. apply wp_ret. wnext. wnext. eapply set_current_ok; [exact Ht|]. intros st Ht2. wnext. wnext.
  eapply (load_state_ok _ p b 0 c); [apply is_cur_top; split; [exact Ht2|exact Hb]|done|done|]. wnext. apply wp_modify.
  apply HQ; [destruct Ht2 as (st' & H1 & H2); by exists st'|done|by split].
Qed.

Lemma scan_string_ok fs s (Q : outcome unit -> yyguts_t -> Prop) :
  (forall p g, opened fs p None (new_buffer (c_str s)) g -> Q (Ret tt) g) ->
  wp (yy_scan_string s;; yyset_lineno 1) Q (yylex_init fs).
Proof.
  intros HQ. wnext. unfold yy_scan_string, yy_scan_bytes. wnext. unfold yy_scan_buffer.
  set (D := chars (c_str s)). rewrite length_app. cbn [length].
  rewrite (proj2 (Z.ltb_ge _ _)) by lia.
  replace (Z.to_nat (Z.of_nat (length D + 2) - 2)) with (length D + 0)%nat by lia.
  replace (Z.to_nat (Z.of_nat (length D + 2) - 1)) with (length D + 1)%nat by lia.
  rewrite !lookup_app_r by lia. replace (length D + 0 - length D)%nat with 0%nat by lia.
  replace (length D + 1 - length D)%nat with 1%nat by lia. cbn [lookup list_lookup].
  rewrite !bool_decide_eq_true_2 by done. cbn [negb orb]. unfold new_object. wnext. wnext. apply wp_get. wnext. cbv zeta.
  generalize (fresh (dom (yy_buffers (yylex_init fs)))). intros p. wnext. apply wp_put. wnext. apply wp_ret. wnext.
  replace (Z.of_nat (length D + 2) - 2) with (Z.of_nat (length D)) by lia.
  match goal with |- context [<[p := ?b]>] => set (b0 := b) end. set (g1 := set_buffers _ _).
  assert (mem_at (Some <$> (D ++ [NUL; NUL])) 0 (D ++ [NUL; NUL])) as Hm.
  { intros k c Hk. cbn. by rewrite list_lookup_fmap, Hk. }
  destruct ((D ++ [NUL; NUL]) !! 0%nat) as [c|] eqn:Ec; [|by destruct D].
  wnext. eapply (switch_first_ok g1 p b0 c); [done|apply lookup_insert_eq|done|by apply (Hm 0%nat)|].
  intros g2 Ht Eb [Es E1 E2]. wnext. apply wp_ret. wnext. wnext. eapply wp_store; [rewrite Eb; apply lookup_insert_eq|]. wnext. apply wp_ret. wnext.
  eapply set_lineno_ok; [apply is_cur_top; split; [by apply top_with|apply lookup_insert_eq]|]. rewrite with_cur_twice.
  set (b4 := set_lineno (Some 1) (set_is_ours true b0)). apply (HQ p). split.
  - by apply top_with.
  - pose proof (stored_new (with_cur p b4 g2) p b4 D (lookup_insert_eq _ _ _)) as H. cbn in H.
    rewrite app_nil_r in H. assert (str D = c_str s) as ED by apply String.string_of_list_ascii_of_string.
    rewrite ED in H. by apply H.
  - apply (only_one p b4). cbn. rewrite Eb. cbn. by rewrite insert_insert_eq.
  - done.
  - split; [exact E2|exact E1].
Qed.

(** The first call of yylex starts the automaton. *)
Lemma first_call_ok fs p file bf g (Q : outcome unit -> yyguts_t -> Prop) : opened fs p file bf g ->
  (forall g', ready p bf g' -> yyin g' = file -> streams g' = fs -> yy_start g' = INITIAL -> yy_init g' = true ->
     yy_buffers g' = yy_buffers g -> Q (Ret tt) g') ->
  wp yylex_first Q g.
Proof.
  intros [Ht Hst Ho Hs [Hi H0]] HQ. unfold yylex_first. wnext. apply wp_get. wnext. rewrite Hi. wnext.
  apply wp_modify. wnext. wnext. rewrite H0. cbn [Z.eqb]. apply wp_modify. wnext. wnext.
  set (g1 := set_start 1 (set_init true g)).
  assert (exists i, match yyin g with Some _ => mret tt | None => modify (set_in (Some stdin)) end g1 = (Ret tt, set_in i g1)) as [i Ei].
  { destruct (yyin g) as [i|] eqn:E; [|by exists (Some stdin)]. exists (Some i). unfold g1. rewrite <- E. by destruct g. }
  unfold wp at 1. rewrite Ei. wnext. wnext. eapply wp_CURRENT_top; [exact Ht|]. wnext. wnext. apply wp_ret. wnext.
  eapply load_stored_ok; [exact Ht|by eapply stored_same; [..|exact Hst]|]. intros b c Hr Hf.
  by apply HQ.
Qed.

(** The last buffer goes with the scanner. *)
Lemma destroy_scanner_ok fuel p g (Q : outcome unit -> yyguts_t -> Prop) : top_is g (Some p) -> is_Some (yy_buffers g !! p) -> (1 < fuel)%nat ->
  (forall g', yy_buffers g' = delete p (yy_buffers g) -> streams g' = streams g -> Q (Ret tt) g') ->
  wp (yylex_destroy fuel) Q g.
Proof.
  intros Ht Hp Hf HQ. destruct fuel as [|[|fuel]]; [lia..|]. unfold yylex_destroy. wnext. cbn [iter]. wnext. wnext.
  eapply wp_CURRENT_top; [done|]. wnext. wnext. eapply delete_current_ok; [done|done|].
  intros g1 Ht1 _ [Hs1 _ _] Hb1. wnext. wnext. eapply set_current_ok; [exact Ht1|]. intros st Ht2. wnext. wnext.
  unfold yypop_buffer_state. wnext. eapply wp_CURRENT_top; [exact Ht2|]. wnext. apply wp_ret. wnext. apply wp_ret. wnext.
  wnext. wnext. eapply wp_CURRENT_top; [exact Ht2|]. wnext. apply wp_ret. wnext. apply wp_ret. wnext. wnext.
  apply wp_modify. wnext. apply wp_modify. by apply HQ.
Qed.
