(* ===== verification/LexerProps.v ===== *)
(** * The scanner makes progress

    How much scanning a text can cause, counting the files it can include; every
    round of yylex uses some of it up, so the scanner returns a token within a
    fuel that the input determines, whatever the text. *)

From Stdlib Require Import SpecFloat.
From S2P Require Import Prelude Double CString Setting Config ConfigWf ConfigProps ConfigApi.
From S2P Require Import ScanCtx Scanner ScannerSpec.
Local Open Scope Z_scope.

Fixpoint quotes (s : string) : Z :=
  match s with EmptyString => 0 | String c s' => b2i (uchar c =? 34) + quotes s' end.

Lemma quotes_nonneg s : 0 <= quotes s.
Proof. induction s as [|c s IH]; simpl; [lia|]. destruct (_ =? _); simpl; lia. Qed.

Lemma strlen_nonneg s : 0 <= strlen s.
Proof. unfold strlen. lia. Qed.

(** Files that can be opened have at most [size] characters and [nq] quotes. *)
Definition files_within (fs : string -> option string) (size nq : Z) : Prop :=
  0 <= size /\ 0 <= nq /\ forall f t, fs f = Some t -> strlen t <= size /\ quotes t <= nq.

Section Weight.
Context (size nq : Z).

(** The cost of an include when [r] more levels are allowed. *)
Fixpoint include_cost (r : nat) : Z :=
  match r with O => 0 | S r' => 1 + size + nq * include_cost r' end.

(** The scanning a text can cause with [r] more levels: its characters, and a
    file for each closing quote. *)
Definition weight (r : nat) (s : string) : Z := strlen s + quotes s * include_cost r.

(** The buffers of a scanner, the current one first; going back to one of the
    others is a step of its own. *)
Fixpoint weights (r : nat) (bs : list buffer) : Z :=
  match bs with [] => 0 | b :: bs' => 1 + weight r b.(rest) + weights (S r) bs' end.

Definition levels_left (ctx : scan_context) : nat := 10 - length ctx.(buffers).

(** What is left to scan. *)
Definition to_scan (p : pstate) : Z :=
  weight (levels_left p.(scan)) p.(buf).(rest) + weights (S (levels_left p.(scan))) p.(scan).(buffers).
End Weight.

(** ** Splitting a text *)

Lemma split_at_app n s : let (a, b) := split_at n s in s = a +:+ b.
Proof.
  revert s. induction n as [|n IH]; intros s; [done|]. destruct s as [|c s]; [done|]. simpl.
  specialize (IH s). destruct (split_at n s) as [a b].
  change (String c a +:+ b) with (String c (a +:+ b)). by rewrite <- IH.
Qed.

Lemma split_at_length n s : (n <= String.length s)%nat -> String.length (split_at n s).1 = n.
Proof.
  revert s. induction n as [|n IH]; intros s Hn; [done|]. destruct s as [|c s]; simpl in *; [lia|].
  specialize (IH s ltac:(lia)). destruct (split_at n s). simpl in *. lia.
Qed.

Lemma quotes_app a b : quotes (a +:+ b) = quotes a + quotes b.
Proof.
  induction a as [|c a IH]; [done|]. change (String c a +:+ b) with (String c (a +:+ b)). simpl.
  rewrite IH. lia.
Qed.

Lemma c_str_length s : strlen (c_str s) <= strlen s.
Proof.
  unfold strlen. induction s as [|c s IH]; simpl; [lia|]. destruct (c =? NUL)%char; simpl; lia.
Qed.

(** ** Lengths of the patterns *)

(** The shortest text a pattern matches. *)
Fixpoint min_length (r : re) : nat :=
  match r with
  | Void => 0 | Eps => 0 | Chars _ => 1
  | Cat a b => min_length a + min_length b
  | Alt a b => Nat.min (min_length a) (min_length b)
  | Star _ => 0
  end.

Lemma min_length_ok r s : matches r s -> (min_length r <= String.length s)%nat.
Proof.
  induction 1; simpl; try lia. all: try (rewrite length_append; lia).
Qed.

Lemma rule_entries start bol n r : condition start -> In (n, r) (rules start bol) ->
  (n = 40 -> (2 <= min_length r)%nat) /\ (n = 20 -> r = quote_re).
Proof.
  intros Hs Hin.
  assert (forallb (fun '(start, bol) => forallb (fun e : Z * re =>
    (negb (e.1 =? 40) || (2 <=? min_length e.2)%nat) && (negb (e.1 =? 20) || bool_decide (e.2 = quote_re)))
    (rules start bol)) starts = true) as Hall by (vm_compute; reflexivity).
  rewrite forallb_forall in Hall. specialize (Hall _ (condition_start start bol Hs)). simpl in Hall.
  rewrite forallb_forall in Hall. specialize (Hall _ Hin). simpl in Hall.
  apply andb_true_iff in Hall as [H1 H2]. split; intros ->.
  - destruct (min_length r) as [|[|]]; [done|done|lia].
  - by apply bool_decide_eq_true in H2.
Qed.

(** ** The scanner's invariant *)

(** The tree is the same; the options and the error fields need not be. *)
Record same_tree (c c' : config) : Prop := {
  st_heap : heap c' = heap c; st_next : next c' = next c; st_root : root c' = root c;
  st_moved : moved c' = moved c
}.

Lemma same_tree_refl c : same_tree c c.
Proof. by split. Qed.

Lemma same_tree_error txt file line c : same_tree c (with_parse_error txt file line c).
Proof. by split. Qed.

Lemma wf_same_tree c c' : same_tree c c' -> wf c -> wf c'.
Proof.
  intros [Hh Hn Hr _] [H1 H2 H3 H4 H5 H6 H7 H8].
  split; rewrite ?Hh, ?Hn, ?Hr; assumption.
Qed.

Record lex_ok (p : pstate) : Prop := {
  lx_start : condition p.(yy_start);
  lx_depth : length p.(scan).(files) = length p.(scan).(buffers);
  lx_max : (length p.(scan).(buffers) <= 10)%nat;
  lx_string : strbuf_ok p.(scan).(sc_string)
}.

(** The kinds of semantic values that go with the tokens, and their ranges. *)
Definition token_ok (t : token) (v : semval) : Prop :=
  match t with
  | TOK_BOOLEAN => exists b, v = SInt (b2i b)
  | TOK_INTEGER | TOK_HEX => exists z, v = SInt z /\ is_int z = true
  | TOK_INTEGER64 | TOK_HEX64 => exists z, v = SInt64 z /\ is_int64 z = true
  | TOK_FLOAT => exists d, v = SFloat d
  | TOK_STRING => exists s, v = SString s
  | TOK_NAME => v = SYytext
  | _ => True
  end.

Definition text_size (v : semval) : Z := match v with SString s => strlen s | _ => 0 end.

Section Progress.
Context (fs : string -> option string) (size nq : Z).
Context (Hfs : files_within fs size nq).

Abbreviation left := (to_scan size nq).

(** What scanning leaves as it was, and what it may use up. *)
Definition budget (p : pstate) : Z := sb_length p.(scan).(sc_string) + left p.

Record scanned (p p' : pstate) : Prop := {
  sd_parent : pc_parent p' = pc_parent p; sd_setting : pc_setting p' = pc_setting p;
  sd_pstring : pc_string p' = pc_string p; sd_cfg : same_tree (cfg p) (cfg p');
  sd_top : top_filename (scan p') = top_filename (scan p);
  sd_lex : lex_ok p'
}.

Definition round_post (p : pstate) (r : unit + token * semval) (p' : pstate) : Prop :=
  scanned p p' /\
  match r with
  | inl _ => left p' < left p /\ budget p' <= budget p /\ cfg p' = cfg p
  | inr (t, v) => token_ok t v /\ left p' <= left p /\ (t <> TOK_EOF -> left p' < left p) /\
      text_size v + budget p' <= budget p /\ (t = TOK_ERROR -> is_Some (error_text (cfg p')) )
  end.

Lemma cost_nonneg r : 0 <= include_cost size nq r.
Proof using Hfs. destruct Hfs as (? & ? & _). induction r as [|r IH]; simpl; [lia|]. nia. Qed.

Lemma weight_nonneg r s : 0 <= weight size nq r s.
Proof using Hfs.
  unfold weight. pose proof (strlen_nonneg s). pose proof (quotes_nonneg s).
  pose proof (cost_nonneg r). nia.
Qed.

Lemma weight_app r a b : weight size nq r (a +:+ b) = weight size nq r a + weight size nq r b.
Proof. unfold weight. rewrite strlen_app, quotes_app. lia. Qed.

Lemma weights_nonneg r bs : 0 <= weights size nq r bs.
Proof using Hfs.
  revert r. induction bs as [|b bs IH]; intros r; simpl; [lia|].
  pose proof (weight_nonneg r (rest b)). specialize (IH (S r)). lia.
Qed.

Lemma left_nonneg p : 0 <= left p.
Proof using Hfs.
  unfold to_scan. pose proof (weight_nonneg (levels_left (scan p)) (rest (buf p))).
  pose proof (weights_nonneg (S (levels_left (scan p))) (buffers (scan p))). lia.
Qed.

(** ** The actions, after a text of weight [w] was consumed *)

Section Actions.
Context (p : pstate) (w : Z).
Context (Hp : lex_ok p) (Hw : 0 < w) (Hroom : budget p + w + 1 < 2 ^ 63).

Definition action_post (r : unit + token * semval) (p' : pstate) : Prop :=
  scanned p p' /\
  match r with
  | inl _ => left p' < left p + w /\ budget p' <= budget p + w /\ cfg p' = cfg p
  | inr (t, v) => token_ok t v /\ left p' < left p + w /\
      text_size v + budget p' <= budget p + w /\ (t = TOK_ERROR -> is_Some (error_text (cfg p')))
  end.

Lemma scanned_same p' : pc_parent p' = pc_parent p -> pc_setting p' = pc_setting p ->
  pc_string p' = pc_string p -> cfg p' = cfg p -> top_filename (scan p') = top_filename (scan p) ->
  lex_ok p' -> scanned p p'.
Proof. intros ? ? ? E ? ?. split; try done. rewrite E. apply same_tree_refl. Qed.

Lemma lex_ok_with_start z : condition z -> lex_ok (with_start z p).
Proof using Hp. intros Hz. destruct Hp. by split. Qed.

Lemma begin_ok z : condition z -> returns (BEGIN z) p action_post.
Proof using Hp Hw.
  intros Hz. unfold BEGIN. rnext. apply returns_modify. apply returns_ret.
  split; [apply scanned_same; try done; by apply lex_ok_with_start|].
  unfold budget. change (left (with_start z p)) with (left p).
  change (sb_length (sc_string (scan (with_start z p)))) with (sb_length (sc_string (scan p))). split_and!; [lia|lia|done].
Qed.

Lemma ignore_ok : returns ignore p action_post.
Proof using Hp Hw.
  apply returns_ret. split; [by apply scanned_same|]. split_and!; [lia|lia|done].
Qed.

Lemma return_token_ok t v : token_ok t v -> text_size v = 0 -> t <> TOK_ERROR ->
  returns (return_token t v) p action_post.
Proof using Hp Hw.
  intros Hv Hs Ht. apply returns_ret. split; [by apply scanned_same|]. rewrite Hs. split_and!; [done|lia|lia|done].
Qed.

Lemma echo_ok s : returns (modify (with_echo s);; mret (inl tt)) p action_post.
Proof using Hp Hw.
  rnext. apply returns_modify. apply returns_ret.
  split; [apply scanned_same; try done; by destruct Hp|].
  unfold budget. change (left (with_echo s p)) with (left p). simpl. split_and!; [lia|lia|done].
Qed.

Lemma strbuf_append_length b s b' : strbuf_append b s = Some b' ->
  sb_length b' = sb_length b + strlen (c_str s).
Proof.
  unfold strbuf_append.
  match goal with |- (if ?b then _ else _) = _ -> _ => destruct b; [|done] end. by intros [= <-].
Qed.

Lemma append_string_ok s : strlen s <= w -> returns (append_string s) p action_post.
Proof using Hfs Hp Hw Hroom.
  intros Hs. unfold append_string. rnext. apply returns_get. rnext.
  pose proof (c_str_length s). pose proof (left_nonneg p).
  destruct (strbuf_append_ok (sc_string (scan p)) s) as (b' & E & Hb' & _);
    [by apply lx_string|unfold budget in Hroom; lia|].
  unfold scanctx_append_string. rewrite E. simpl. apply returns_ret.
  rnext. apply returns_put. apply returns_ret. split.
  - apply scanned_same; try done. by destruct Hp.
  - unfold budget. simpl. rewrite (strbuf_append_length _ _ _ E).
    match goal with |- left ?q < _ /\ _ => change (left q) with (left p) end.
    split_and!; [lia|lia|done].
Qed.

Lemma strbuf_string_length b : strbuf_ok b -> strlen (default "" (sb_string b)) = sb_length b.
Proof. intros [Hb _]. destruct (sb_string b); simpl; by destruct Hb as [-> _]. Qed.

Lemma empty_strbuf_ok : strbuf_ok empty_strbuf.
Proof. split; [done|]. simpl. apply Z.divide_0_r. Qed.

Lemma end_string_ok : returns end_string p action_post.
Proof using Hp Hw.
  unfold end_string. rnext. apply returns_get. simpl. rnext. apply returns_put. apply returns_ret.
  pose proof (strbuf_string_length _ (lx_string p Hp)) as Hl. split.
  - apply scanned_same; try done. destruct Hp. split; simpl; try done; [by left|apply empty_strbuf_ok].
  - unfold budget. simpl. rewrite Hl.
    match goal with |- _ /\ left ?q < _ /\ _ => change (left q) with (left p) end.
    split_and!; [by eexists|lia|lia|done].
Qed.

Lemma take_string_context {B} (ctx : scan_context_of B) : exists s, scanctx_take_string ctx =
  (s, {| top_filename := top_filename ctx; files := files ctx; buffers := buffers ctx;
         sc_string := empty_strbuf; sc_filenames := sc_filenames ctx |}).
Proof. eexists. reflexivity. Qed.

Lemma open_include_ok : 1 + include_cost size nq (levels_left (scan p)) <= w ->
  returns (open_include fs) p action_post.
Proof using Hfs Hp Hw.
  intros Hcost. destruct Hp as [Hst Hd Hm Hs]. unfold open_include. rnext. apply returns_get.
  assert (0 <= sb_length (sc_string (scan p))) as Hsb
    by (rewrite <- (strbuf_string_length _ Hs); apply strlen_nonneg).
  unfold scanctx_push_include. destruct (Z.eqb_spec (depth (scan p)) MAX_INCLUDE_DEPTH) as [|Hne].
  - rnext. apply returns_put. apply returns_ret. split; [by split|].
    unfold budget. simpl. match goal with |- _ /\ left ?q < _ /\ _ => change (left q) with (left p) end.
    split_and!; [done|lia|lia|by eexists].
  - destruct (take_string_context (scan p)) as [file Ef]. rewrite Ef.
    match goal with |- context [fs ?f] => destruct (fs f) as [text|] eqn:Efs end.
    + destruct (scanctx_add_filename _ file) as [f names]. rnext. apply returns_put. apply returns_ret.
      unfold depth, MAX_INCLUDE_DEPTH in Hne.
      destruct Hfs as (_ & Hnq & Hf). destruct (Hf _ _ Efs) as [Hsz Hq].
      split; [apply scanned_same; try done; split; simpl; [by left|lia|lia|apply empty_strbuf_ok]|].
      unfold budget. simpl sb_length.
      match goal with |- left ?q < _ /\ _ => assert (left q < left p + w); [|split_and!; [done|lia|done]] end.
      unfold to_scan, levels_left in *. simpl. set (n := length (buffers (scan p))) in *.
      assert (10 - n = S (10 - S n))%nat as E by lia. rewrite E in *. simpl in Hcost.
      unfold weight at 1. pose proof (cost_nonneg (9 - n)) as Hc.
      replace (10 - S n)%nat with (9 - n)%nat by lia. pose proof (quotes_nonneg text).
      assert (quotes text * include_cost size nq (9 - n) <= nq * include_cost size nq (9 - n)) by nia. lia.
    + rnext. apply returns_put. apply returns_ret. split; [split; try done; split; try done; apply empty_strbuf_ok|].
      unfold budget. simpl. match goal with |- _ /\ left ?q < _ /\ _ => change (left q) with (left p) end.
      split_and!; [done|lia|lia|by eexists].
Qed.

(** The value that a rule returns with its token. *)
Ltac token_value :=
  first [ done | by eexists | by exists true | by exists false
        | eexists; split; [reflexivity|first [apply s32_is_int | apply s64_is_int64 | apply strtol_is_int64]] ].

Lemma rule_action_ok act text : strlen text <= w ->
  (act = 20 -> 1 + include_cost size nq (levels_left (scan p)) <= w) ->
  returns (rule_action fs act text) p action_post.
Proof using Hfs Hp Hw Hroom.
  intros Ht Hinc. assert (forall c, strlen (String c "") <= w) as H1 by (intros; unfold strlen; simpl; lia).
  unfold rule_action, rule_command.
  repeat match goal with |- returns (perform _ _ match ?x with _ => _ end) _ _ => destruct x end;
    cbn [perform]; first [ apply echo_ok | apply ignore_ok | apply end_string_ok
          | by apply open_include_ok, Hinc
          | apply begin_ok; unfold condition; tauto
          | by apply append_string_ok
          | apply return_token_ok; [token_value|done|done] ].
Qed.
End Actions.

(** ** Rounds *)

Lemma end_of_buffer_ok p : lex_ok p -> rest (buf p) = "" ->
  returns end_of_buffer p (round_post p).
Proof using Hfs.
  intros [Hst Hd Hm Hs] Hr. unfold end_of_buffer. rnext. apply returns_get.
  unfold scanctx_pop_include. destruct (files (scan p)) as [|f fl] eqn:Ef, (buffers (scan p)) as [|b bl] eqn:Eb;
    try done.
  - apply returns_ret. split; [split; try done; split; rewrite ?Ef, ?Eb; done|].
    simpl. unfold budget. split_and!; [done|lia|done|lia|done].
  - rnext. apply returns_put. apply returns_ret. simpl in Hd, Hm.
    split; [split; try done; split; simpl; try done; lia|].
    unfold budget. simpl sb_length.
    match goal with |- left ?q < _ /\ _ => assert (left q < left p); [|split_and!; [done|lia|done]] end.
    unfold to_scan, levels_left. simpl. rewrite Eb, Hr. simpl length.
    replace (S (10 - S (length bl))) with (10 - length bl)%nat by lia. simpl.
    unfold weight at 2. simpl. change (strlen "") with 0. lia.
Qed.

(** The scanner's state once a text was matched. *)
Lemma left_consumed p yt rest' bol lines t : rest (buf p) = yt +:+ rest' ->
  left p = left (with_yytext t (with_buf {| rest := rest'; at_bol := bol; bs_lineno := lines |} p)) +
    weight size nq (levels_left (scan p)) yt.
Proof. intros E. unfold to_scan. simpl. rewrite E, weight_app. lia. Qed.

(** The length of a match, less the newline that is given back, and the quote
    that ends an include. *)
Lemma match_length start b n k yt : condition start -> rest b <> "" ->
  yy_scan start b = Some (n, k) -> split_at (if n =? 40 then (k - 1)%nat else k) (rest b) = yt ->
  1 <= strlen yt.1 /\ (n = 20 -> quotes yt.1 = 1).
Proof.
  intros Hst Hr E <-. destruct (yy_scan_total start b Hst Hr) as (n' & k' & E' & Hk & (r & Hin & Hm) & _).
  assert (n' = n) as -> by congruence. assert (k' = k) as -> by congruence.
  destruct (rule_entries start (at_bol b) n r Hst Hin) as [H40 H20].
  pose proof (min_length_ok _ _ Hm) as Hlen. unfold prefix in Hlen, Hm.
  rewrite split_at_length in Hlen by lia. split.
  - unfold strlen. rewrite split_at_length by (destruct (n =? 40); lia).
    destruct (Z.eqb_spec n 40) as [->|]; [specialize (H40 eq_refl)|]; lia.
  - intros ->. rewrite H20 in Hm by done. inversion Hm as [|cs c Hc Ecs Ec| | | | |]; subst.
    change (20 =? 40) with false. cbv iota. rewrite <- Ec. revert Hc. clear.
    destruct c as [[] [] [] [] [] [] [] []]; vm_compute; done.
Qed.

Lemma yylex_round_ok p : lex_ok p -> budget p + 1 < 2 ^ 63 ->
  returns (yylex_round fs) p (round_post p).
Proof using Hfs.
  intros Hp Hroom. unfold yylex_round. rnext. apply returns_get.
  destruct (rest (buf p)) as [|c s] eqn:Er; [by apply end_of_buffer_ok|]. rewrite <- Er.
  assert (rest (buf p) <> "") as Hne by congruence.
  destruct (yy_scan_total (yy_start p) (buf p) (lx_start p Hp) Hne) as (n & k & E & _).
  rnext. eapply returns_lift; [done|]. cbv beta iota zeta.
  pose proof (split_at_app (if n =? 40 then (k - 1)%nat else k) (rest (buf p))) as Happ.
  destruct (split_at (if n =? 40 then _ else _) _) as [yt rest'] eqn:Es.
  destruct (match_length _ _ _ _ _ (lx_start p Hp) Hne E Es) as [Hlen Hq]. simpl in Hlen, Hq.
  rnext. apply returns_put.
  match goal with |- returns _ ?q _ => set (p1 := q) end.
  pose proof (left_consumed p yt rest' _ _ yt Happ : left p = left p1 + _) as Hleft.
  set (w := weight size nq (levels_left (scan p)) yt) in *.
  assert (strlen yt <= w /\ (n = 20 -> 1 + include_cost size nq (levels_left (scan p)) <= w)) as [Hw Hw20].
  { unfold w, weight. pose proof (cost_nonneg (levels_left (scan p))). pose proof (quotes_nonneg yt).
    split; [nia|]. intros Hn. rewrite (Hq Hn). lia. }
  assert (budget p = budget p1 + w) as Hb by (unfold budget; rewrite Hleft; simpl; lia).
  eapply returns_mono; [|apply (rule_action_ok p1 w); [by destruct Hp|lia|lia|done|done]].
  intros r p' [[? ? ? ? ? ?] Hr]. split; [by split|].
  destruct r as [[]|[t v]]; [destruct Hr as (? & ? & ?); split_and!; [lia|lia|done]|].
  destruct Hr as (? & ? & ? & ?). split_and!; [done|lia|lia|lia|done].
Qed.

(** The fuel yylex needs. *)
Definition lex_fuel (p : pstate) : nat := S (Z.to_nat (left p)).

Definition lex_post (p : pstate) (r : token * semval) (p' : pstate) : Prop :=
  scanned p p' /\ token_ok r.1 r.2 /\ left p' <= left p /\ (r.1 <> TOK_EOF -> left p' < left p) /\
  text_size r.2 + budget p' <= budget p /\ (r.1 = TOK_ERROR -> is_Some (error_text (cfg p'))).

Lemma yylex_ok fuel p : lex_ok p -> budget p + 1 < 2 ^ 63 -> (lex_fuel p <= fuel)%nat ->
  returns (yylex fs fuel) p (lex_post p).
Proof using Hfs.
  intros Hp Hroom Hf. unfold yylex.
  apply (returns_iter _ (fun _ q => scanned p q /\ left q <= left p /\ budget q <= budget p)
    (fun _ q => Z.to_nat (left q))).
  - intros [] q (Hsc & Hl & Hb). destruct Hsc as [? ? ? Hc ? Hq].
    eapply returns_mono; [|apply (yylex_round_ok q Hq); lia].
    intros r q' [[? ? ? Hc' ? ?] Hr].
    assert (scanned p q') as Hsc'.
    { split; try congruence; try done. destruct Hc, Hc'. split; congruence. }
    destruct r as [[]|[t v]].
    + destruct Hr as (? & ? & _). pose proof (left_nonneg q'). split; [split_and!; [done|lia|lia]|lia].
    + destruct Hr as (? & ? & Hlt & ? & ?). split_and!; simpl; [done|done|lia| |lia|done].
      intros Ht. specialize (Hlt Ht). lia.
  - split_and!; [split; try done; apply same_tree_refl|lia|lia].
  - unfold lex_fuel in Hf. lia.
Qed.
End Progress.
