(* ===== verification/Tokens.v ===== *)
(** * Texts and the tokens they scan to

    What the scanner does on texts whose shape is known: blanks, punctuation,
    names, numbers and string literals, each followed by a character that ends
    it.  [reads] puts them together: the tokens of a whole text. *)

From Stdlib Require Import SpecFloat.
From S2P Require Import Prelude Double CString Setting Config ConfigWf ConfigProps ConfigApi.
From S2P Require Import ScanCtx Scanner ScannerSpec LexerProps.
Local Open Scope Z_scope.

(** ** Paths through the automaton *)

(** A transition between states of the automaton. *)
Definition yy_edge (s : Z) (c : ascii) : option Z :=
  _ ← tab yy_accept s; s' ← yy_step s c; if s' =? YY_JAM then None else Some s'.

Fixpoint yy_run (s : Z) (w : string) : option Z :=
  match w with
  | EmptyString => Some s
  | String c w' => s' ← yy_edge s c; yy_run s' w'
  end.

(** From every state of [S], reading [w] ends in a state of [T]. *)
Definition leads (S : list Z) (w : string) (T : list Z) : Prop :=
  forall s, In s S -> exists s', yy_run s w = Some s' /\ In s' T.

Definition mem (l : list Z) (z : Z) : bool := existsb (Z.eqb z) l.

Lemma mem_In l z : mem l z = true <-> In z l.
Proof.
  unfold mem. rewrite existsb_exists. split.
  - intros (x & Hx & ->%Z.eqb_eq). done.
  - intros H. exists z. by rewrite Z.eqb_refl.
Qed.

(** All characters with [f] lead from [S] to [T]. *)
Definition edges (S : list Z) (f : ascii -> bool) (T : list Z) : bool :=
  forallb (fun s => forallb (fun c => negb (f c) ||
    match yy_edge s c with Some s' => mem T s' | None => false end) all_ascii) S.

Lemma leads_nil S : leads S "" S.
Proof. intros s Hs. by exists s. Qed.

Lemma leads_app S w1 T w2 U : leads S w1 T -> leads T w2 U -> leads S (w1 +:+ w2) U.
Proof.
  intros H1 H2 s Hs. destruct (H1 s Hs) as (t & Et & Ht). destruct (H2 t Ht) as (u & Eu & Hu).
  exists u. split; [|done]. clear H1 H2 Hs Ht Hu. revert s Et.
  induction w1 as [|c w1 IH]; intros s; [by intros [= ->]|].
  change (String c w1 +:+ w2) with (String c (w1 +:+ w2)). simpl.
  destruct (yy_edge s c) as [s'|]; [|done]. apply IH.
Qed.

Lemma leads_char S f T c : edges S f T = true -> f c = true -> leads S (String c "") T.
Proof.
  intros He Hc s Hs. unfold edges in He. rewrite forallb_forall in He. specialize (He s Hs).
  rewrite forallb_forall in He. specialize (He c (in_all_ascii c)). rewrite Hc in He. simpl in *.
  destruct (yy_edge s c) as [s'|]; [|done]. exists s'. split; [done|]. by apply mem_In.
Qed.

Lemma leads_cons S f T c w U : edges S f T = true -> f c = true -> leads T w U ->
  leads S (String c w) U.
Proof. intros He Hc Hw. change (String c w) with (String c "" +:+ w). by eapply leads_app; [eapply leads_char|]. Qed.

Lemma leads_star S f w : edges S f S = true -> all_chars f w = true -> leads S w S.
Proof.
  intros He. induction w as [|c w IH]; simpl; [intros; apply leads_nil|].
  intros [Hc Hw]%andb_prop. eapply leads_cons; eauto.
Qed.

(** A text of one or more characters. *)
Lemma leads_plus S f T w : edges S f T = true -> edges T f T = true -> w <> "" ->
  all_chars f w = true -> leads S w T.
Proof.
  intros He Ht Hw Hall. destruct w as [|c w]; [done|]. simpl in Hall.
  apply andb_prop in Hall as [Hc Hall]. eapply leads_cons; [done|done|]. by apply (leads_star T f).
Qed.

(** No state of [T] has a transition for a character with [f]. *)
Definition jams (T : list Z) (f : ascii -> bool) : bool :=
  forallb (fun s => forallb (fun c => negb (f c) ||
    match yy_step s c with Some s' => s' =? YY_JAM | None => false end) all_ascii) T.

(** The text ends, or goes on with a character that has [f]. *)
Definition starts_with (f : ascii -> bool) (k : string) : Prop :=
  match k with EmptyString => True | String c _ => f c = true end.

Lemma yy_match_leads S w T f k a s pos last : leads S w T -> In s S ->
  forallb (fun s => bool_decide (tab yy_accept s = Some a)) T = true -> a <> 0 ->
  jams T f = true -> starts_with f k ->
  yy_match s (w +:+ k) pos last = Some (a, (pos + String.length w)%nat).
Proof.
  intros Hl Hs Hacc Ha Hj Hk. destruct (Hl s Hs) as (t & Et & Ht). clear Hl Hs.
  revert s pos last Et. induction w as [|c w IH]; intros s pos last.
  - intros [= ->]. change ("" +:+ k) with k.
    rewrite forallb_forall in Hacc. specialize (Hacc t Ht). apply bool_decide_eq_true in Hacc.
    unfold jams in Hj. rewrite forallb_forall in Hj. specialize (Hj t Ht).
    rewrite forallb_forall in Hj. simpl String.length. rewrite Nat.add_0_r.
    destruct k as [|c k]; cbn [yy_match]; rewrite Hacc; cbn [mbind option_bind];
      rewrite (proj2 (Z.eqb_neq a 0)) by done; [done|].
    simpl in Hk. specialize (Hj c (in_all_ascii c)). rewrite Hk in Hj. simpl in Hj.
    destruct (yy_step t c) as [s'|]; [|done]. cbn [mbind option_bind]. by rewrite Hj.
  - change (String c w +:+ k) with (String c (w +:+ k)). cbn [yy_run yy_match String.length].
    intros Et. rewrite Nat.add_succ_r, <- Nat.add_succ_l. unfold yy_edge in Et.
    destruct (tab yy_accept s) as [b|]; [|done]. destruct (yy_step s c) as [s'|]; [|done].
    cbn [mbind option_bind] in *. destruct (s' =? YY_JAM); [done|]. by apply IH.
Qed.

(** The states of [T] accept rule [a], and a character with [f] ends the text. *)
Definition final (T : list Z) (f : ascii -> bool) (a : Z) : bool :=
  forallb (fun s => bool_decide (tab yy_accept s = Some a)) T && (negb (a =? 0) && negb (a =? 40))
  && jams T f.

Lemma final_spec T f a : final T f a = true ->
  forallb (fun s => bool_decide (tab yy_accept s = Some a)) T = true /\ a <> 0 /\ a <> 40 /\
  jams T f = true.
Proof. unfold final. rewrite !andb_true_iff, !negb_true_iff, !Z.eqb_neq. tauto. Qed.

(** ** Rounds of yylex *)

Lemma split_at_exact w k : split_at (String.length w) (w +:+ k) = (w, k).
Proof.
  induction w as [|c w IH]; [by destruct k|].
  change (String c w +:+ k) with (String c (w +:+ k)). simpl. by rewrite IH.
Qed.

Section Rounds.
Context (fs : string -> option string).

(** The state after the text [w] was scanned and [k] is what remains. *)
Definition scanned_to (w k : string) (line : Z) (p : pstate) : pstate :=
  with_yytext w (with_buf {| rest := k; at_bol := ends_line w; bs_lineno := line |} p).

Lemma yylex_round_eq p w k a : w <> "" -> rest (buf p) = w +:+ k -> a <> 40 ->
  yy_scan (yy_start p) (buf p) = Some (a, String.length w) ->
  exists line, yylex_round fs p = rule_action fs a w (scanned_to w k line p).
Proof.
  intros Hw Hr Ha Hs. unfold yylex_round. eexists. erewrite bind_ret; [|reflexivity].
  rewrite Hr. destruct w as [|c w]; [done|]. change (String c w +:+ k) with (String c (w +:+ k)) in *.
  rewrite Hs. erewrite bind_ret; [|reflexivity].
  cbv beta zeta iota. rewrite (proj2 (Z.eqb_neq a 40)) by done.
  pose proof (split_at_exact (String c w) k) as E.
  change (String c w +:+ k) with (String c (w +:+ k)) in E. rewrite ?Hr, E.
  erewrite bind_ret; [done|]. reflexivity.
Qed.

(** A run of the scanner: rounds that return no token, then one that does. *)
Inductive lexes : pstate -> nat -> token * semval -> pstate -> Prop :=
  | lexes_token p tv p' : yylex_round fs p = (Ret (inr tv), p') -> lexes p 1 tv p'
  | lexes_skip p p1 n tv p' : yylex_round fs p = (Ret (inl tt), p1) -> lexes p1 n tv p' ->
      lexes p (S n) tv p'.

Lemma yylex_lexes p n tv p' fuel : lexes p n tv p' -> (n <= fuel)%nat ->
  yylex fs fuel p = (Ret tv, p').
Proof.
  unfold yylex. intros H. revert fuel.
  induction H as [p tv p' E|p p1 n tv p' E _ IH]; intros [|fuel] Hn; try lia; simpl.
  - by rewrite (bind_ret _ _ _ _ _ E).
  - rewrite (bind_ret _ _ _ _ _ E). apply IH. lia.
Qed.

(** Only the position and yytext differ, and [k] remains to be scanned. *)
Definition passed (p p' : pstate) (k : string) : Prop :=
  exists b t, p' = with_yytext t (with_buf b p) /\ rest b = k.

(** Between tokens, in the top file, before the text [txt]. *)
Record ready_at (p : pstate) (txt : string) : Prop := {
  ra_start : yy_start p = INITIAL;
  ra_text : rest (buf p) = txt;
  ra_string : sc_string (scan p) = empty_strbuf;
  ra_files : files (scan p) = []
}.

Lemma passed_refl p k : ready_at p k -> passed p p k.
Proof. intros [_ <- _ _]. exists (buf p), (yytext p). split; [by destruct p|done]. Qed.

Lemma passed_trans p1 p2 p3 k1 k2 : passed p1 p2 k1 -> passed p2 p3 k2 -> passed p1 p3 k2.
Proof. intros (b1 & t1 & -> & _) (b2 & t2 & -> & Hk). by exists b2, t2. Qed.

Lemma passed_ready p p' txt k : passed p p' k -> ready_at p txt -> ready_at p' k.
Proof. intros (b & t & -> & Hk) []. by split. Qed.

Lemma scanned_passed w k line p : passed p (scanned_to w k line p) k.
Proof. eexists _, _. by split. Qed.

Definition initial_states : list Z := [1; 2].

Lemma start_in start b : start = INITIAL -> In (start + b2i b) initial_states.
Proof. intros ->. destruct b; simpl; auto. Qed.

(** A round in the initial state whose text follows a path of the automaton. *)
Lemma initial_round p txt w k T f a : ready_at p txt -> txt = w +:+ k -> w <> "" ->
  final T f a = true -> leads initial_states w T -> starts_with f k ->
  exists line, yylex_round fs p = rule_action fs a w (scanned_to w k line p).
Proof.
  intros [Hst Ht Hs Hf] -> Hw (Hacc & Ha & Ha' & Hj)%final_spec Hl Hk. apply yylex_round_eq; [done..|].
  unfold yy_scan. rewrite Ht.
  rewrite (yy_match_leads initial_states w T f k a); try assumption; [done|]. by apply start_in.
Qed.

(** ** Blanks *)

Definition blank (c : ascii) : bool := (uchar c =? 32) || (uchar c =? 9).
Definition white (c : ascii) : bool := blank c || (uchar c =? 10).

(** What may follow blanks: the start of a token, not of an include. *)
Definition token_start (c : ascii) : bool := negb (white c) && negb (uchar c =? 64).

Lemma span_blank s : exists b r, s = b +:+ r /\ all_chars blank b = true /\
  starts_with (fun c => negb (blank c)) r.
Proof.
  induction s as [|c s (b & r & -> & Hb & Hr)]; [by exists "", ""|].
  destruct (blank c) eqn:Hc.
  - exists (String c b), r. split_and!; [done| |done]. simpl. by rewrite Hc, Hb.
  - exists "", (String c (b +:+ r)). split_and!; [done..|]. simpl. by rewrite Hc.
Qed.

Lemma skip_white ws k p : all_chars white ws = true -> starts_with token_start k ->
  ready_at p (ws +:+ k) ->
  exists p1, passed p p1 k /\ forall n tv p', lexes p1 n tv p' ->
    exists m, lexes p m tv p' /\ (m <= String.length ws + n)%nat.
Proof.
  intros Hws Hk. remember (String.length ws) as len eqn:El. assert (String.length ws <= len)%nat as Hl by lia.
  clear El. revert ws p Hws Hl. induction len as [|len IH]; intros ws p Hws Hl Hp.
  { destruct ws; [|simpl in Hl; lia]. exists p.
    split; [by apply passed_refl|]. intros. exists n. split; [done|lia]. }
  destruct ws as [|c ws].
  { exists p. split; [by apply passed_refl|]. intros. exists n. split; [done|lia]. }
  assert (forall w ws', String c ws = w +:+ ws' -> w <> "" -> all_chars white ws' = true ->
    (exists line a, yylex_round fs p = rule_action fs a w (scanned_to w (ws' +:+ k) line p) /\
       (a = 21 \/ a = 22)) ->
    exists p1, passed p p1 k /\ forall n tv p', lexes p1 n tv p' ->
      exists m, lexes p m tv p' /\ (m <= S len + n)%nat) as Hstep.
  { intros w ws' Ew Hw Hws' (line & a & Er & Ha).
    pose proof (scanned_passed w (ws' +:+ k) line p) as Hpass.
    assert (String.length ws' <= len)%nat.
    { apply (f_equal String.length) in Ew. rewrite length_append in Ew.
      destruct w; [done|]. simpl in *. lia. }
    destruct (IH ws' _ Hws' ltac:(done) (passed_ready _ _ _ _ Hpass Hp)) as (p1 & Hp1 & Hrun).
    exists p1. split; [by apply (passed_trans _ _ _ _ _ Hpass Hp1)|]. intros n tv p' Hn.
    destruct (Hrun n tv p' Hn) as (m & Hm & Hle). exists (S m). split; [|lia].
    eapply lexes_skip; [|exact Hm]. rewrite Er. by destruct Ha as [-> | ->]. }
  simpl in Hws. apply andb_prop in Hws as [Hc Hws].
  destruct (blank c) eqn:Hb.
  - destruct (span_blank ws) as (b & r & -> & Hbl & Hr).
    rewrite all_chars_app in Hws. apply andb_prop in Hws as [_ Hws].
    apply (Hstep (String c b) r); [done|done|done|].
    destruct (initial_round p _ (String c b) (r +:+ k) [11; 33; 44; 60]
      (fun c => negb (blank c) && negb (uchar c =? 64)) 22 Hp) as (line & E);
      [by rewrite <- string_app_assoc|done|vm_compute; reflexivity|..].
    + eapply (leads_plus _ blank [11; 33; 44; 60]); [vm_compute; reflexivity..|done|].
      simpl. by rewrite Hb, Hbl.
    + destruct r as [|d r].
      * destruct k as [|d k]; [done|]. change ("" +:+ String d k) with (String d k). simpl in *.
        unfold token_start, white in Hk. destruct (blank d), (uchar d =? 10), (uchar d =? 64); done.
      * change (String d r +:+ k) with (String d (r +:+ k)). simpl in *.
        apply andb_prop in Hws as [Hd _]. unfold white in Hd. destruct (blank d) eqn:?; [done|].
        simpl in *. apply Z.eqb_eq in Hd. by rewrite Hd.
    + exists line, 22. auto.
  - apply (Hstep (String c "") ws); [done|done|done|].
    destruct (initial_round p _ (String c "") (ws +:+ k) [12] (fun _ => true) 21 Hp) as (line & E);
      [done|done|vm_compute; reflexivity|..].
    + apply (leads_char _ (fun c => uchar c =? 10)); [vm_compute; reflexivity|].
      unfold white in Hc. by rewrite Hb in Hc.
    + by destruct (ws +:+ k).
    + exists line, 21. auto.
Qed.
End Rounds.
