(* ===== verification/Grammar.v ===== *)
(** * The parser (lib/grammar.y, lib/grammar.c)

    The LALR automaton that bison generated, the loop of yyparse with its two
    stacks, and the semantic actions of the grammar, which build the settings
    through the operations of Config. *)

From Stdlib Require Import SpecFloat.
From S2P Require Import Prelude Double CString Setting Config ScanCtx Scanner.
Local Open Scope Z_scope.

(** ** Tables *)

Definition YYFINAL : Z := 6.
Definition YYLAST : Z := 35.
Definition YYNTOKENS : Z := 23.
Definition YYMAXUTOK : Z := 277.
Definition YYUNDEFTOK : Z := 2.
Definition YYPACT_NINF : Z := -26.
Definition YYMAXDEPTH : Z := 10000.

(** Entries 1 to 255 are all 2. *)
Definition yytranslate : list Z :=
  [0] ++ replicate 255 2 ++
  [1; 2; 3; 4; 5; 6; 7; 8; 9; 10; 11; 12; 13; 14; 15; 16; 17; 18; 19; 20; 21; 22].

Definition yypact : list Z :=
  [-8; -26; 12; -8; -26; 5; -26; -26; 0; -26; -26; -26; -26; -26; -26; -26; -26; -26;
   -26; -26; -26; -6; 10; -26; -26; 23; 0; -8; -26; -26; -26; -26; -26; 3; 7; -26; 6; 8;
   -8; 14; 23; -26; 0; -26; -26; -26; -26].

Definition yydefact : list Z :=
  [2; 11; 0; 3; 4; 0; 1; 5; 0; 23; 24; 26; 25; 27; 28; 21; 13; 15; 38; 18; 19; 8; 29;
   17; 20; 36; 32; 6; 10; 9; 12; 22; 34; 37; 0; 30; 33; 0; 7; 0; 0; 14; 0; 16; 39; 35;
   31].

Definition yypgoto : list Z :=
  [-26; -26; -5; -26; -26; -3; -26; -26; -26; -26; -26; -25; -26; -15; -26; -26; -26;
   -26; -26; -26].

Definition yydefgoto : list Z :=
  [-1; 2; 3; 39; 30; 4; 5; 19; 25; 20; 26; 21; 22; 23; 36; 37; 33; 34; 24; 27].

Definition yytable : list Z :=
  [7; 35; 1; 9; 10; 11; 12; 13; 14; 15; 32; 28; 6; 16; 29; 17; 8; 46; 18; 31; 40; 41;
   38; 42; 43; 45; 9; 10; 11; 12; 13; 14; 15; 44; 0; 7].

Definition yycheck : list Z :=
  [3; 26; 10; 3; 4; 5; 6; 7; 8; 9; 25; 17; 0; 13; 20; 15; 11; 42; 18; 9; 17; 14; 27; 17;
   16; 40; 3; 4; 5; 6; 7; 8; 9; 19; -1; 38].

Definition yyr1 : list Z :=
  [0; 23; 24; 24; 25; 25; 26; 26; 27; 27; 27; 29; 28; 31; 30; 33; 32; 34; 34; 34; 34;
   35; 35; 36; 36; 36; 36; 36; 36; 36; 37; 37; 38; 38; 39; 39; 40; 40; 42; 41].

Definition yyr2 : list Z :=
  [0; 2; 0; 1; 1; 2; 0; 1; 0; 1; 1; 0; 5; 0; 4; 0; 4; 1; 1; 1; 1; 1; 2; 1; 1; 1; 1; 1;
   1; 1; 1; 3; 0; 1; 1; 3; 0; 1; 0; 4].

(** YYTRANSLATE *)
Definition translate (yychar : Z) : Z :=
  if (0 <=? yychar) && (yychar <=? YYMAXUTOK) then default YYUNDEFTOK (tab yytranslate yychar)
  else YYUNDEFTOK.

(** The entry of yytable at [yyn], when it is for [x] (a token or a state). *)
Definition checked (yyn x : Z) : option Z :=
  if (yyn <? 0) || (YYLAST <? yyn) then None
  else match tab yycheck yyn with
       | Some z => if z =? x then tab yytable yyn else None
       | None => None
       end.

(** ** Semantic actions *)

Definition err_array_elem_type : string := "mismatched element type in array".
Definition err_duplicate_setting : string := "duplicate setting name".

Section Parser.
(** The text of a file that can be opened. *)
Variable fs : string -> option string.

(** How an action ends: normally, or through YYABORT. *)
Inductive ending := Normal | YYABORT.

Definition libconfig_yyerror (s : string) : PM unit :=
  modify (fun p =>
    match p.(cfg).(error_text) with
    | Some _ => p
    | None => with_cfg (with_parse_error s p.(cfg).(error_file) p.(buf).(bs_lineno) p.(cfg)) p
    end).

Definition capture_parse_pos (setting : loc) : PM unit :=
  p ← get;
  on_config (update setting
    (set_pos p.(buf).(bs_lineno) (scanctx_current_filename p.(scan)))).

(** The type of the setting that [ctx->parent] points to. *)
Definition parent_type : PM (option ctype) :=
  p ← get;
  match p.(pc_parent) with
  | None => mret None
  | Some l => s ← on_config (deref l); mret (Some s.(s_type))
  end.

Definition IN_ARRAY : PM bool := t ← parent_type; mret (bool_decide (t = Some T_ARRAY)).
Definition IN_LIST : PM bool := t ← parent_type; mret (bool_decide (t = Some T_LIST)).

(** The string a semantic value points to. *)
Definition sval_of (v : semval) : PM string :=
  match v with
  | SString s => mret s
  | SYytext => p ← get; mret (c_str p.(yytext))
  | _ => undef UB_union
  end.

Definition ival_of (v : semval) : PM Z :=
  match v with SInt z => mret z | _ => undef UB_union end.
Definition llval_of (v : semval) : PM Z :=
  match v with SInt64 z => mret z | _ => undef UB_union end.
Definition fval_of (v : semval) : PM spec_float :=
  match v with SFloat d => mret d | _ => undef UB_union end.

(** Rule 11: a new setting in the current group. *)
Definition add_setting (v : semval) : PM ending :=
  name ← sval_of v;
  p ← get;
  s ← on_config (config_setting_add p.(pc_parent) (Some name) (Z_of_ctype T_NONE));
  modify (with_setting s);;
  match s with
  | None => libconfig_yyerror err_duplicate_setting;; mret YYABORT
  | Some s => capture_parse_pos s;; mret Normal
  end.

(** Rules 13, 15 and 38: an array, list or group begins. *)
Definition open_aggregate (t : ctype) : PM ending :=
  l ← IN_LIST;
  p ← get;
  if l : bool then
    s ← on_config (config_setting_add p.(pc_parent) None (Z_of_ctype t));
    modify (with_parent s);;
    s ← lift_opt UB_null s;
    capture_parse_pos s;; mret Normal
  else
    s ← lift_opt UB_null p.(pc_setting);
    on_config (update s (set_type t));;
    modify (fun p => with_setting None (with_parent (Some s) p));;
    mret Normal.

(** Rules 14, 16 and 39: it ends. *)
Definition close_aggregate : PM ending :=
  p ← get;
  match p.(pc_parent) with
  | None => mret Normal
  | Some l => s ← on_config (deref l); modify (with_parent s.(s_parent));; mret Normal
  end.

(** Rules 21 and 22: string literals are concatenated. *)
Definition append_literal (v : semval) : PM ending :=
  s ← sval_of v;
  p ← get;
  b ← lift_opt UB_bounds (strbuf_append p.(pc_string) s);
  modify (with_pstring b);; mret Normal.

(** Rules 23 to 29: a scalar value, as an element of the current array or list,
    or as the value of the current setting. *)
Definition scalar_value (set_elem : loc -> CM (option loc)) (set : loc -> CM bool)
    (format : option Z) : PM ending :=
  a ← IN_ARRAY;
  l ← IN_LIST;
  p ← get;
  if (a : bool) || (l : bool) then
    parent ← lift_opt UB_null p.(pc_parent);
    e ← on_config (set_elem parent);
    match e with
    | None => libconfig_yyerror err_array_elem_type;; mret YYABORT
    | Some e =>
        match format with
        | Some f => on_config (config_setting_set_format e f);; mret tt
        | None => mret tt
        end;;
        capture_parse_pos e;; mret Normal
    end
  else
    s ← lift_opt UB_null p.(pc_setting);
    on_config (set s);;
    match format with
    | Some f => on_config (config_setting_set_format s f);; mret tt
    | None => mret tt
    end;;
    mret Normal.

Definition scalar_string : PM ending :=
  p ← get;
  let (s, b) := strbuf_release p.(pc_string) in
  modify (with_pstring b);;
  scalar_value (fun l => config_setting_set_string_elem l (-1) s)
    (fun l => config_setting_set_string l s) None.

(** The action of a rule; [v] is the value of its last symbol. *)
Definition reduce_action (rule : Z) (v : semval) : PM ending :=
  match rule with
  | 11 => add_setting v
  | 13 => open_aggregate T_ARRAY
  | 15 => open_aggregate T_LIST
  | 38 => open_aggregate T_GROUP
  | 14 | 16 | 39 => close_aggregate
  | 21 | 22 => append_literal v
  | 23 =>
      z ← ival_of v;
      scalar_value (fun l => config_setting_set_bool_elem l (-1) z)
        (fun l => config_setting_set_bool l z) None
  | 24 =>
      z ← ival_of v;
      scalar_value (fun l => config_setting_set_int_elem l (-1) z)
        (fun l => config_setting_set_int l z) (Some FORMAT_DEFAULT)
  | 25 =>
      z ← llval_of v;
      scalar_value (fun l => config_setting_set_int64_elem l (-1) z)
        (fun l => config_setting_set_int64 l z) (Some FORMAT_DEFAULT)
  | 26 =>
      z ← ival_of v;
      scalar_value (fun l => config_setting_set_int_elem l (-1) z)
        (fun l => config_setting_set_int l z) (Some FORMAT_HEX)
  | 27 =>
      z ← llval_of v;
      scalar_value (fun l => config_setting_set_int64_elem l (-1) z)
        (fun l => config_setting_set_int64 l z) (Some FORMAT_HEX)
  | 28 =>
      d ← fval_of v;
      scalar_value (fun l => config_setting_set_float_elem l (-1) d)
        (fun l => config_setting_set_float l d) None
  | 29 => scalar_string
  | _ => mret Normal
  end.

(** ** yyparse *)

(** The stack of states with their values, the top first, and the lookahead. *)
Record parser := {
  yystack : list (Z * semval);
  yychar : option (token * semval)
}.

Definition yystate (y : parser) : Z := match y.(yystack) with (s, _) :: _ => s | [] => 0 end.

(** Pops states until one can shift the error token. *)
Fixpoint yyerrlab1 (stack : list (Z * semval)) : option (Z * list (Z * semval)) :=
  match stack with
  | [] => None
  | (s, v) :: rest =>
      match (yyn ← tab yypact s;
             if yyn =? YYPACT_NINF then None
             else n ← checked (yyn + 1) 1; if 0 <? n then Some n else None) with
      | Some n => Some (n, (s, v) :: rest)
      | None => yyerrlab1 rest
      end
  end.

(** The automaton, given how an error is reported, how a rule is reduced and where
    the next token comes from. *)
Section Automaton.
Context {St : Type}.
Variable yyerror : string -> M St unit.
Variable reduce : parser -> Z -> M St (parser + Z).
Variable lex : M St (token * semval).

(** A syntax error.  The counter that limits error messages after a recovery is
    left out: no state ever shifts the error token (yyerrlab1_None below). *)
Definition yyerrlab_with (y : parser) : M St (parser + Z) :=
  yyerror "syntax error";;
  match yyerrlab1 y.(yystack) with
  | Some (n, stack) =>
      mret (inl {| yystack := (n, match y.(yychar) with Some (_, v) => v | None => SNone end)
                                :: stack;
                   yychar := y.(yychar) |})
  | None => mret (inr 1)
  end.

Definition yydefault_with (y : parser) : M St (parser + Z) :=
  rule ← lift_opt UB_bounds (tab yydefact (yystate y));
  if rule =? 0 then yyerrlab_with y else reduce y rule.

(** One round: from a state pushed to the next one pushed. *)
Definition yyparse_round_with (y : parser) : M St (parser + Z) :=
  if YYMAXDEPTH <=? Z.of_nat (length y.(yystack)) then
    yyerror "memory exhausted";; mret (inr 2)
  else if yystate y =? YYFINAL then mret (inr 0)
  else
    pact ← lift_opt UB_bounds (tab yypact (yystate y));
    if pact =? YYPACT_NINF then yydefault_with y
    else
      look ← match y.(yychar) with
             | Some tv => mret tv
             | None => lex
             end;
      let y := {| yystack := y.(yystack); yychar := Some look |} in
      let yytoken := translate (token_number look.1) in
      match checked (pact + yytoken) yytoken with
      | None => yydefault_with y
      | Some yyn =>
          if yyn <=? 0 then reduce y (- yyn)
          else mret (inl {| yystack := (yyn, look.2) :: y.(yystack); yychar := None |})
      end.
End Automaton.

(** The reduction by a rule: its action, the pop of its symbols and the push of
    the state its left-hand side leads to. *)
Definition yyreduce (y : parser) (rule : Z) : PM (parser + Z) :=
  len ← lift_opt UB_bounds (tab yyr2 rule);
  lhs ← lift_opt UB_bounds (tab yyr1 rule);
  let v := match y.(yystack) with (_, v) :: _ => v | [] => SNone end in
  e ← reduce_action rule v;
  match e with
  | YYABORT => mret (inr 1)
  | Normal =>
      let yyval := if len =? 0 then SNone
                   else match y.(yystack) !! Z.to_nat (len - 1) with
                        | Some (_, v) => v | None => SNone end in
      let stack := drop (Z.to_nat len) y.(yystack) in
      match stack with
      | [] => undef UB_bounds
      | (top, _) :: _ =>
          goto ← lift_opt UB_bounds (tab yypgoto (lhs - YYNTOKENS));
          defgoto ← lift_opt UB_bounds (tab yydefgoto (lhs - YYNTOKENS));
          let state := default defgoto (checked (goto + top) top) in
          mret (inl {| yystack := (state, yyval) :: stack; yychar := y.(yychar) |})
      end
  end.

Definition yyerrlab : parser -> PM (parser + Z) := yyerrlab_with libconfig_yyerror.
Definition yydefault : parser -> PM (parser + Z) := yydefault_with libconfig_yyerror yyreduce.
Definition yyparse_round (fuel : nat) : parser -> PM (parser + Z) :=
  yyparse_round_with libconfig_yyerror yyreduce (yylex fs fuel).

(** The empty stack of yyparse. *)
Definition yyparse_start : parser := {| yystack := [(0, SNone)]; yychar := None |}.

(** 0 for success, 1 for an error, 2 when the stacks are full. *)
Definition libconfig_yyparse (fuel : nat) : PM Z :=
  iter fuel (yyparse_round fuel) yyparse_start.
End Parser.

(** No state can shift the error token. *)
Lemma yyerrlab1_None stack : yyerrlab1 stack = None.
Proof.
  assert (forallb (fun yyn => (yyn =? YYPACT_NINF) ||
    match checked (yyn + 1) 1 with Some n => n <=? 0 | None => true end) yypact = true) as H
    by (vm_compute; reflexivity).
  rewrite forallb_forall in H.
  induction stack as [|[s v] rest IH]; [done|]. simpl. unfold tab at 1.
  destruct (s <? 0); [done|].
  destruct (yypact !! Z.to_nat s) as [yyn|] eqn:E; simpl; [|done].
  assert (In yyn yypact) as Hin by (apply list_elem_of_In, list_elem_of_lookup; eauto).
  specialize (H yyn Hin). destruct (yyn =? YYPACT_NINF); [done|]. simpl in H.
  destruct (checked (yyn + 1) 1) as [n|]; simpl; [|done].
  apply Z.leb_le in H. rewrite (proj2 (Z.ltb_ge 0 n)) by lia. done.
Qed.
