(* ===== verification/ParserProps.v ===== *)
(** * The parser's automaton

    Facts about the generated tables, computed once: which state can lie below
    which on the stack, what every reduction pops and pushes, a rank that every
    reduction decreases, and the kind of aggregate a state is inside of. *)

From Stdlib Require Import SpecFloat.
From S2P Require Import Prelude Double CString Setting Config ScanCtx Scanner LexerProps Grammar.
Local Open Scope Z_scope.

(** The states that can lie right below each state. *)
Definition below_table : list (list Z) :=
  [ []; [0; 3; 27; 38]; [0]; [0]; [0; 27]; [1]; [2]; [3; 38]; [5];
    [8; 25; 26; 40; 42]; [8; 25; 26; 40; 42]; [8; 25; 26; 40; 42]; [8; 25; 26; 40; 42];
    [8; 25; 26; 40; 42]; [8; 25; 26; 40; 42]; [8; 25; 26; 40; 42];
    [8; 26; 42]; [8; 26; 42]; [8; 26; 42]; [8; 26; 42]; [8; 26; 42]; [8]; [8; 25; 26; 40; 42];
    [8; 26; 42]; [8; 26; 42]; [16]; [17]; [18]; [21]; [21]; [21]; [22]; [25]; [25]; [25]; [26];
    [26]; [26]; [27]; [27]; [33]; [34]; [36]; [37]; [39]; [40]; [42] ].

(** Decreased by every reduction. *)
Definition rank_table : list nat :=
  [1; 1; 0; 1; 2; 0; 0; 2; 0; 6; 6; 6; 6; 6; 6; 7; 2; 2; 2; 5; 5; 4; 6; 5; 5; 1; 1; 1; 4; 4;
   3; 7; 2; 1; 0; 2; 1; 0; 1; 0; 0; 6; 0; 6; 6; 2; 2]%nat.

Definition below_states (s : Z) : list Z := default [] (below_table !! Z.to_nat s).
Definition rank (s : Z) : nat := default 0%nat (rank_table !! Z.to_nat s).
Definition edge (t s : Z) : bool := existsb (Z.eqb t) (below_states s).

(** Stacks of states that can occur. *)
Fixpoint chain (st : list Z) : bool :=
  match st with
  | [] => false
  | s :: st' =>
      match st' with
      | [] => s =? 0
      | t :: _ => edge t s && chain st'
      end
  end.

(** The states [n] places below. *)
Fixpoint ups (n : nat) (s : Z) : list Z :=
  match n with O => [s] | S n' => ups n' s ≫= below_states end.

Definition states : list Z := map Z.of_nat (seq 0 47).

(** The aggregate a state opens, and the one it is inside of when that is known. *)
Definition opens (s : Z) : option ctype :=
  match s with 0 | 27 => Some T_GROUP | 25 => Some T_ARRAY | 26 => Some T_LIST | _ => None end.

Definition inside (s : Z) : option ctype :=
  match s with
  | 0 | 1 | 2 | 3 | 4 | 5 | 6 | 7 | 8 | 21 | 27 | 28 | 29 | 30 | 38 | 39 | 44 => Some T_GROUP
  | 25 | 32 | 33 | 34 | 40 | 41 | 45 => Some T_ARRAY
  | 26 | 35 | 36 | 37 | 42 | 43 | 46 => Some T_LIST
  | _ => None
  end.

(** The aggregates open on a stack, the innermost one first. *)
Definition frames (st : list Z) : list ctype := omap opens st.

(** States in which the value of a setting is being read, right above its "=". *)
Definition value_state (s : Z) : bool :=
  ((9 <=? s) && (s <=? 18)) || (s =? 22) || (s =? 31).

(** The current setting still has to get its value. *)
Fixpoint pending (st : list Z) : bool :=
  match st with
  | [] => false
  | s :: st' => (s =? 5) || (s =? 8) || value_state s && pending st'
  end.

(** What a rule closes and opens. *)
Definition closed (rule : Z) : list ctype :=
  match rule with 14 => [T_ARRAY] | 16 => [T_LIST] | 39 => [T_GROUP] | _ => [] end.
Definition opened_by (rule : Z) : option ctype :=
  match rule with 13 => Some T_ARRAY | 15 => Some T_LIST | 38 => Some T_GROUP | _ => None end.

(** The state a reduction pushes on top of [t]. *)
Definition goto (lhs t : Z) : option Z :=
  g ← tab yypgoto (lhs - YYNTOKENS);
  d ← tab yydefgoto (lhs - YYNTOKENS);
  Some (default d (checked (g + t) t)).

(** The token that leads to a state, if any. *)
Definition shifted (s : Z) : option token :=
  match s with
  | 9 => Some TOK_BOOLEAN | 10 => Some TOK_INTEGER | 11 => Some TOK_HEX | 12 => Some TOK_INTEGER64
  | 13 => Some TOK_HEX64 | 14 => Some TOK_FLOAT | 15 | 31 => Some TOK_STRING | 1 => Some TOK_NAME | 6 => Some TOK_EOF
  | _ => None
  end.

(** ** Checks *)

Definition reduce_ok (s : Z) : bool :=
  match tab yydefact s with
  | None => false
  | Some rule =>
      if (rule =? 0) || (s =? YYFINAL) then true
      else
        match tab yyr2 rule, tab yyr1 rule with
        | Some len, Some lhs =>
            let n := Z.to_nat len in
            forallb (fun k => forallb (fun x => negb (x =? 0) &&
              bool_decide (opens x = (if (Z.of_nat k =? 2) then head (closed rule) else None)))
              (ups k s)) (seq 0 n) &&
            (match closed rule with [] => true | _ => (3 <=? n)%nat end) &&
            forallb (fun t =>
              match goto lhs t with
              | Some g => edge t g && (rank g <? rank s)%nat && bool_decide (opens g = opened_by rule) && bool_decide (shifted g = None) &&
                  bool_decide (pending [g] = (rule =? 11)) && bool_decide (value_state g = (rule =? 21) || (rule =? 22))
              | None => false
              end) (ups n s)
        | _, _ => false
        end
  end.

Lemma reduce_table_ok : forallb reduce_ok states = true.
Proof. vm_compute. reflexivity. Qed.

Definition tokens : list token :=
  [TOK_EOF; TOK_BOOLEAN; TOK_INTEGER; TOK_HEX; TOK_INTEGER64; TOK_HEX64; TOK_FLOAT; TOK_STRING;
   TOK_NAME; TOK_EQUALS; TOK_NEWLINE; TOK_ARRAY_START; TOK_ARRAY_END; TOK_LIST_START;
   TOK_LIST_END; TOK_COMMA; TOK_GROUP_START; TOK_GROUP_END; TOK_SEMICOLON; TOK_GARBAGE; TOK_ERROR].

#[export] Instance token_eq_dec : EqDecision token.
Proof. solve_decision. Defined.

(** A shift: the new state may lie there, and goes with the token. *)
Definition shift_ok (s : Z) (t : token) : bool :=
  match tab yypact s with
  | None => false
  | Some pact =>
      if pact =? YYPACT_NINF then true
      else
        match checked (pact + translate (token_number t)) (translate (token_number t)) with
        | None => true
        | Some n =>
            (0 <? n) && edge s n && negb (n =? 5) && (negb (n =? 8) || (s =? 5)) &&
            bool_decide (opens n = None) &&
            match shifted n with Some t' => bool_decide (t = t') | None => true end &&
            (negb (bool_decide (t = TOK_EOF)) || (n =? YYFINAL))
        end
  end.

Lemma shift_table_ok : forallb (fun s => forallb (shift_ok s) tokens) states = true.
Proof. vm_compute. reflexivity. Qed.

(** The aggregate a state is inside of is that of the states below it. *)
Definition inside_ok (s : Z) : bool :=
  match opens s with
  | Some t => bool_decide (inside s = Some t)
  | None => match inside s with
            | None => true
            | Some t => forallb (fun x => bool_decide (inside x = Some t)) (below_states s) &&
                        negb (s =? 0)
            end
  end.

Lemma inside_table_ok : forallb inside_ok states = true.
Proof. vm_compute. reflexivity. Qed.

(** ** Stacks *)

Lemma edge_state t s : edge t s = true -> In s states.
Proof.
  unfold edge, below_states. intros H. destruct (below_table !! Z.to_nat s) as [l|] eqn:E; [|done].
  apply in_map_iff. exists (Z.to_nat s). pose proof (lookup_lt_Some _ _ _ E) as Hlt.
  change (length below_table) with 47%nat in Hlt. split; [|apply in_seq; lia].
  destruct (Z_lt_ge_dec s 0); [|lia]. replace (Z.to_nat s) with 0%nat in E by lia. by injection E as <-.
Qed.

Lemma chain_cons s t st : chain (s :: t :: st) = edge t s && chain (t :: st).
Proof. done. Qed.

Lemma chain_state s st : chain (s :: st) = true -> In s states.
Proof.
  destruct st as [|t st]; [intros ->%Z.eqb_eq; by left|].
  rewrite chain_cons. intros [H _]%andb_true_iff. by eapply edge_state.
Qed.

Lemma edge_below t s : edge t s = true -> In t (below_states s).
Proof. intros (x & Hx & ->%Z.eqb_eq)%existsb_exists. done. Qed.

Lemma In_bind {A B} (f : A -> list B) l x y : In x l -> In y (f x) -> In y (l ≫= f).
Proof. rewrite <- !list_elem_of_In, list_elem_of_bind. eauto. Qed.

(** The first [n] states, when none of them is the bottom. *)
Lemma chain_pop n : forall s st, chain (s :: st) = true ->
  (forall k x, (k < n)%nat -> In x (ups k s) -> x <> 0) ->
  exists popped t rest, s :: st = popped ++ t :: rest /\ length popped = n /\ In t (ups n s) /\
    chain (t :: rest) = true /\ (forall k x, popped !! k = Some x -> In x (ups k s)).
Proof.
  induction n as [|n IH]; intros s st Hc Hz.
  { exists [], s, st. split_and!; try done. by left. }
  destruct (IH s st Hc) as (popped & t & rest & E & Hl & Ht & Hct & Hp); [intros; apply (Hz k); [lia|done]|].
  destruct rest as [|u rest].
  { apply Z.eqb_eq in Hct. exfalso. by apply (Hz n t); [lia|done|]. }
  rewrite chain_cons in Hct. apply andb_true_iff in Hct as [He%edge_below Hc'].
  exists (popped ++ [t]), u, rest. split_and!; try done.
  - by rewrite <- app_assoc.
  - rewrite length_app, Hl. simpl. lia.
  - simpl. by eapply In_bind.
  - intros k x Hk. destruct (decide (k < length popped)%nat).
    + rewrite lookup_app_l in Hk by done. by apply Hp.
    + rewrite lookup_app_r in Hk by lia. destruct (k - length popped)%nat eqn:E'; [|done].
      injection Hk as <-. by replace k with n by lia.
Qed.

Lemma inside_frame s st t : chain (s :: st) = true -> inside s = Some t ->
  exists fr, frames (s :: st) = t :: fr.
Proof.
  revert s t. induction st as [|u st IH]; intros s t Hc Hi;
    pose proof inside_table_ok as Hall; rewrite forallb_forall in Hall;
    specialize (Hall s (chain_state s _ Hc)); unfold inside_ok in Hall; unfold frames; simpl omap.
  - apply Z.eqb_eq in Hc. subst. simpl in *. injection Hi as <-. by eexists.
  - rewrite chain_cons in Hc. apply andb_true_iff in Hc as [He%edge_below Hc].
    destruct (opens s) as [t'|]; [apply bool_decide_eq_true in Hall; rewrite Hi in Hall; injection Hall as ->; by eexists|].
    rewrite Hi in Hall. apply andb_true_iff in Hall as [Hall _]. rewrite forallb_forall in Hall.
    specialize (Hall u He). apply bool_decide_eq_true in Hall. by apply (IH u t).
Qed.

Lemma closed_cases rule : closed rule = [] \/ exists t, closed rule = [t].
Proof.
  destruct (closed rule) as [|t l] eqn:E; [by left|right]. exists t. revert E. unfold closed.
  repeat match goal with |- match ?x with _ => _ end = _ -> _ => destruct x end; by intros [= <- <-].
Qed.

Lemma omap_none (l : list Z) : (forall x, x ∈ l -> opens x = None) -> omap opens l = [].
Proof.
  induction l as [|x l IH]; intros H; simpl; [done|]. rewrite (H x) by constructor.
  apply IH. intros. apply H. by constructor.
Qed.

Lemma omap_third (l : list Z) (c : list ctype) :
  (forall k x, l !! k = Some x -> opens x = if Z.of_nat k =? 2 then head c else None) ->
  (c = [] \/ (3 <= length l)%nat /\ exists t, c = [t]) -> omap opens l = c.
Proof.
  intros Hl [-> |[Hlen [t ->]]].
  - apply omap_none. intros x [k Hk]%list_elem_of_lookup. rewrite (Hl k x Hk). by destruct (_ =? 2).
  - destruct l as [|a [|b [|d l]]]; simpl in Hlen; try lia.
    pose proof (Hl 0%nat a eq_refl) as Ha. pose proof (Hl 1%nat b eq_refl) as Hb.
    pose proof (Hl 2%nat d eq_refl) as Hd. simpl in Ha, Hb, Hd. simpl. rewrite Ha, Hb, Hd. f_equal.
    apply omap_none. intros x [k Hk]%list_elem_of_lookup. rewrite (Hl (S (S (S k))) x Hk).
    by rewrite (proj2 (Z.eqb_neq _ _)) by lia.
Qed.

(** What a reduction does to the stack of states. *)
Lemma reduce_shape s st rule len lhs : chain (s :: st) = true -> s <> YYFINAL ->
  tab yydefact s = Some rule -> rule <> 0 -> tab yyr2 rule = Some len -> tab yyr1 rule = Some lhs ->
  exists popped t rest g, s :: st = popped ++ t :: rest /\ length popped = Z.to_nat len /\
    goto lhs t = Some g /\ chain (g :: t :: rest) = true /\ (rank g < rank s)%nat /\
    frames (s :: st) = closed rule ++ frames (t :: rest) /\ opens g = opened_by rule /\
    (g =? 5) || (g =? 8) = (rule =? 11) /\ value_state g = (rule =? 21) || (rule =? 22) /\
    shifted g = None.
Proof.
  intros Hc Hs Hr Hr0 H2 H1.
  pose proof reduce_table_ok as Hall. rewrite forallb_forall in Hall.
  specialize (Hall s (chain_state s st Hc)). unfold reduce_ok in Hall.
  rewrite Hr, H2, H1 in Hall.
  rewrite (proj2 (Z.eqb_neq rule 0) Hr0), (proj2 (Z.eqb_neq s YYFINAL) Hs) in Hall. simpl orb in Hall.
  cbv iota in Hall. apply andb_true_iff in Hall as [Hall Hgoto]. apply andb_true_iff in Hall as [Hpop Hcl].
  rewrite forallb_forall in Hpop, Hgoto.
  assert (forall k x, (k < Z.to_nat len)%nat -> In x (ups k s) -> x <> 0 /\
    opens x = (if Z.of_nat k =? 2 then head (closed rule) else None)) as Hk.
  { intros k x Hlt Hx. specialize (Hpop k). rewrite forallb_forall in Hpop.
    specialize (Hpop ltac:(apply in_seq; lia) x Hx).
    apply andb_true_iff in Hpop as [H%negb_true_iff%Z.eqb_neq Ho%bool_decide_eq_true]. done. }
  destruct (chain_pop (Z.to_nat len) s st Hc) as (popped & t & rest & E & Hl & Ht & Hct & Hp);
    [intros; by eapply Hk|].
  specialize (Hgoto t Ht). destruct (goto lhs t) as [g|] eqn:Eg; [|done].
  rewrite !andb_true_iff in Hgoto. destruct Hgoto as (((((He & Hrk) & Ho) & Hsh) & Hpd) & Hv).
  apply bool_decide_eq_true in Ho, Hsh, Hpd, Hv. apply Nat.ltb_lt in Hrk.
  exists popped, t, rest, g. split_and!; try done.
  - rewrite chain_cons, He. done.
  - rewrite E. unfold frames. rewrite omap_app. f_equal.
    apply omap_third.
    + intros k x Hx. apply Hk; [|by apply Hp]. rewrite <- Hl. by eapply lookup_lt_Some.
    + destruct (closed_cases rule) as [-> |[c Ec]]; [by left|right]. rewrite Ec in *. split; [|by exists c].
      rewrite Hl. by apply Nat.leb_le.
  - simpl in Hpd. by rewrite andb_false_r, orb_false_r in Hpd.
Qed.

(** ** Where values are read *)

Definition value_context_ok (s : Z) : bool :=
  negb (value_state s) || (s =? 31) ||
  forallb (fun t => (t =? 8) ||
    match inside t with
    | Some T_ARRAY => (s <? 16) || (18 <? s)
    | Some T_LIST => true
    | _ => false
    end) (below_states s) && negb (s =? 0) && bool_decide (opens s = None).

Lemma value_context_table_ok : forallb value_context_ok states = true.
Proof. vm_compute. reflexivity. Qed.

(** A value belongs to a setting that waits for it, or to an array or a list. *)
Lemma value_context s st : chain (s :: st) = true -> value_state s = true -> s <> 31 ->
  frames (s :: st) = T_GROUP :: tail (frames (s :: st)) /\ pending (s :: st) = true \/
  frames (s :: st) = T_LIST :: tail (frames (s :: st)) \/
  frames (s :: st) = T_ARRAY :: tail (frames (s :: st)) /\ (s < 16 \/ 18 < s).
Proof.
  intros Hc Hv Hs. pose proof value_context_table_ok as Hall. rewrite forallb_forall in Hall.
  specialize (Hall s (chain_state s st Hc)). unfold value_context_ok in Hall.
  rewrite Hv, (proj2 (Z.eqb_neq _ _) Hs) in Hall. simpl in Hall.
  apply andb_true_iff in Hall as [Hall Ho%bool_decide_eq_true].
  apply andb_true_iff in Hall as [Hall H0%negb_true_iff].
  destruct st as [|t st]; [simpl in Hc; congruence|].
  rewrite chain_cons in Hc. apply andb_true_iff in Hc as [He%edge_below Hc].
  rewrite forallb_forall in Hall. specialize (Hall t He).
  assert (frames (s :: t :: st) = frames (t :: st)) as -> by (unfold frames; simpl; by rewrite Ho).
  destruct (Z.eqb_spec t 8) as [->|].
  - left. destruct (inside_frame 8 st T_GROUP Hc eq_refl) as [fr ->]. split; [done|].
    simpl. rewrite Hv. by rewrite orb_true_r.
  - simpl in Hall. right. destruct (inside t) as [[]|] eqn:Ei; try done;
      destruct (inside_frame t st _ Hc Ei) as [fr ->]; [right|by left].
    split; [done|]. apply orb_true_iff in Hall. lia.
Qed.

Lemma rank_bound s : (rank s <= 7)%nat.
Proof.
  assert (Forall (fun n => n <= 7)%nat rank_table) as H by (repeat constructor; lia).
  unfold rank. destruct (rank_table !! Z.to_nat s) as [n|] eqn:E; simpl; [|lia].
  rewrite Forall_lookup in H. by apply (H _ _ E).
Qed.

(** The tables are defined on every state. *)
Definition total_ok (s : Z) : bool :=
  match tab yypact s, tab yydefact s with
  | Some _, Some rule =>
      (rule =? 0) || (s =? YYFINAL) || match tab yyr2 rule, tab yyr1 rule with Some _, Some _ => true | _, _ => false end
  | _, _ => false
  end.

Lemma total_table_ok : forallb total_ok states = true.
Proof. vm_compute. reflexivity. Qed.

Lemma tables_total s : In s states -> s <> YYFINAL ->
  (exists pact, tab yypact s = Some pact) /\
  exists rule, tab yydefact s = Some rule /\
    (rule = 0 \/ exists len lhs, tab yyr2 rule = Some len /\ tab yyr1 rule = Some lhs).
Proof.
  intros Hs Hf. pose proof total_table_ok as Hall. rewrite forallb_forall in Hall.
  specialize (Hall s Hs). unfold total_ok in Hall.
  destruct (tab yypact s); [|done]. destruct (tab yydefact s) as [rule|]; [|done].
  split; [by eexists|]. exists rule. split; [done|].
  destruct (Z.eqb_spec rule 0); [by left|right]. destruct (Z.eqb_spec s YYFINAL); [done|].
  simpl in Hall. destruct (tab yyr2 rule), (tab yyr1 rule); try done. by eexists _, _.
Qed.

Lemma shift_shape s st t pact n : chain (s :: st) = true -> tab yypact s = Some pact ->
  pact <> YYPACT_NINF -> checked (pact + translate (token_number t)) (translate (token_number t)) = Some n ->
  0 < n /\ chain (n :: s :: st) = true /\ opens n = None /\
  (pending (n :: s :: st) = true -> pending (s :: st) = true) /\
  (forall t', shifted n = Some t' -> t = t') /\ (t = TOK_EOF -> n = YYFINAL).
Proof.
  intros Hc Hpact Hn Hck. pose proof shift_table_ok as Hall. rewrite forallb_forall in Hall.
  specialize (Hall s (chain_state s st Hc)). rewrite forallb_forall in Hall.
  specialize (Hall t ltac:(by destruct t; simpl; tauto)). unfold shift_ok in Hall.
  rewrite Hpact, (proj2 (Z.eqb_neq _ _) Hn), Hck in Hall. rewrite !andb_true_iff in Hall.
  destruct Hall as ((((((H0 & He) & H5) & H8) & Ho%bool_decide_eq_true) & Ht) & Heof).
  split_and!; [lia|by rewrite chain_cons, He|done|..].
  - intros Hp. change (pending (n :: s :: st)) with ((n =? 5) || (n =? 8) || value_state n && pending (s :: st)) in Hp.
    apply negb_true_iff in H5. rewrite H5 in Hp. simpl in Hp. apply orb_true_iff in Hp as [Hp|Hp].
    + rewrite Hp in H8. simpl in H8. simpl. by rewrite H8.
    + by apply andb_true_iff in Hp as [_ Hp].
  - intros t' E. rewrite E in Ht. by apply bool_decide_eq_true in Ht.
  - intros ->. simpl in Heof. lia.
Qed.

Lemma opened_not_closed rule a : opened_by rule = Some a -> closed rule = [].
Proof.
  unfold opened_by, closed. intros H.
  repeat match type of H with match ?x with _ => _ end = _ => destruct x end; done.
Qed.

(** Reading on in a string literal, the setting still waits. *)
Lemma literal_pending s st popped t below rule len : (rule = 21 /\ s = 15) \/ (rule = 22 /\ s = 31) ->
  tab yyr2 rule = Some len -> chain (s :: st) = true -> s :: st = popped ++ t :: below ->
  length popped = Z.to_nat len -> pending (t :: below) = true -> pending (s :: st) = true.
Proof.
  intros [[-> ->]|[-> ->]] [= <-] Hc E Hl Hp.
  - destruct popped as [|a [|b l]]; try done. injection E as <- ->. simpl in *. by rewrite Hp.
  - destruct popped as [|a [|b [|d l]]]; try done. injection E as <- ->.
    rewrite chain_cons in Hc. apply andb_true_iff in Hc as [[<- |[]]%edge_below _].
    change (pending (31 :: 22 :: t :: below)) with (pending (t :: below)). done.
Qed.
