(* ===== verification/ConfigRead.v ===== *)
(** * Reading configurations (lib/libconfig.c: __config_read, config_read,
      config_read_string, config_read_file; src/reusedlib.c: setup_config_file) *)

From Stdlib Require Import SpecFloat.
From S2P Require Import Prelude Double CString Setting Config ScanCtx Scanner Grammar.
Local Open Scope Z_scope.

Definition io_error : string := "file I/O error".

Section Read.
(** The text of a file that can be opened. *)
Variable fs : string -> option string.

(** The settings kept when the configuration is emptied. *)
Definition with_kept (old c : config) : config :=
  {| heap := c.(heap); next := c.(next); root := c.(root); destructor := old.(destructor);
     destroyed := c.(destroyed); options := old.(options); tab_width := old.(tab_width);
     default_format := c.(default_format); include_dir := old.(include_dir);
     error_text := c.(error_text); error_file := c.(error_file);
     error_line := c.(error_line); error_type := c.(error_type);
     filenames := c.(filenames); moved := c.(moved) |}.

Definition with_filenames (l : list string) (c : config) : config :=
  {| heap := c.(heap); next := c.(next); root := c.(root); destructor := c.(destructor);
     destroyed := c.(destroyed); options := c.(options); tab_width := c.(tab_width);
     default_format := c.(default_format); include_dir := c.(include_dir);
     error_text := c.(error_text); error_file := c.(error_file);
     error_line := c.(error_line); error_type := c.(error_type);
     filenames := l; moved := c.(moved) |}.

(** The state in which yyparse starts. *)
Definition parse_start (text : string) (ctx : scan_context) (c : config) : pstate :=
  {| cfg := c; scan := ctx; buf := new_buffer text; yy_start := INITIAL; yytext := "";
     pc_parent := c.(root); pc_setting := c.(root); pc_string := empty_strbuf; yyout := "" |}.

(** The parse, from an empty configuration. *)
Definition parse_text (fuel : nat) (text : string) (ctx : scan_context) : CM bool :=
  c ← get;
  match libconfig_yyparse fs fuel (parse_start text ctx c) with
  | (Ret r, p) =>
      put (if r =? 0 then p.(cfg)
           else with_error p.(cfg).(error_text) (scanctx_current_filename p.(scan))
                  p.(cfg).(error_line) ERR_PARSE p.(cfg));;
      modify (with_filenames (scanctx_cleanup p.(scan)));;
      mret (r =? 0)
  | (Exited z, p) => put p.(cfg);; exit_ z
  | (Aborted, p) => put p.(cfg);; abort_
  | (Undef w, p) => put p.(cfg);; undef w
  | (NoFuel, p) => put p.(cfg);; stop NoFuel
  end.

(** The configuration is emptied, but for some settings, and is to be filled from a
    file with this name. *)
Definition reinitialize (filename : option string) : CM unit :=
  old ← get;
  config_destroy;;
  config_init;;
  modify (with_kept old);;
  r ← gets root;
  r ← nonnull r;
  update r (fun s => set_pos s.(s_line) (scanctx_current_filename (@scanctx_init buffer filename)) s).

(** [text] is what the stream, or the string, holds; the result is true for
    CONFIG_TRUE. *)
Definition __config_read (fuel : nat) (text : string) (filename : option string) : CM bool :=
  reinitialize filename;;
  parse_text fuel text (scanctx_init filename).

Definition config_read (fuel : nat) (text : string) : CM bool := __config_read fuel text None.

(** The scanner works on a copy of the C string. *)
Definition config_read_string (fuel : nat) (s : string) : CM bool :=
  __config_read fuel (c_str s) None.

Definition config_read_file (fuel : nat) (filename : string) : CM bool :=
  match fs filename with
  | None =>
      modify (fun c => with_error (Some io_error) c.(error_file) c.(error_line) ERR_FILE_IO c);;
      mret false
  | Some text => __config_read fuel text (Some filename)
  end.
End Read.

(** The configuration after initialising and reading [filename]. *)
Definition read_new (fs : string -> option string) (fuel : nat) (filename : string)
    : outcome bool * config :=
  (config_init;; config_read_file fs fuel filename) blank.
