(* ===== verification/BufferedParser.v ===== *)
(** * Reading configurations from streams (lib/grammar.c, lib/libconfig.c)

    yyparse on the scanner with buffers, and __config_read and config_read_file
    with it: what ConfigRead has for texts, here for the streams that the texts
    come from. *)

From S2P Require Import Prelude CString Setting Config ScanCtx Scanner Grammar ConfigRead ScanBuffer BufferedLexer.
Local Open Scope Z_scope.

(** ** yyparse on a scanner with buffers *)

(** The scanner and struct parse_context. *)
Record parse := Parse {
  scanner : lexer;
  px_parent : option loc;
  px_setting : option loc;
  px_string : strbuf_t
}.

Abbreviation BM := (M parse).

Definition on_scanner {A} (m : LM A) : BM A := fun x =>
  let (o, l) := m (scanner x) in (o, Parse l (px_parent x) (px_setting x) (px_string x)).

(** What the parser sees: the scanner's line, its context and, when a value points
    there, its text.  The rest of the scanner is out of sight. *)
Definition seen (line : Z) (text : string) (x : parse) : pstate :=
  let l := scanner x in
  {| cfg := conf l;
     scan := {| top_filename := top_filename (context l); files := files (context l); buffers := [];
                sc_string := sc_string (context l); sc_filenames := sc_filenames (context l) |};
     buf := {| rest := ""; at_bol := false; bs_lineno := line |};
     ScanCtx.yy_start := yy_start (guts l); ScanCtx.yytext := text;
     pc_parent := px_parent x; pc_setting := px_setting x; pc_string := px_string x;
     ScanCtx.yyout := yyout l |}.

(** What the parser leaves: the configuration and its own context. *)
Definition left_by (p : pstate) (x : parse) : parse :=
  Parse (with_conf (cfg p) (scanner x)) (pc_parent p) (pc_setting p) (pc_string p).

(** An operation of the parser. *)
Definition seeing {A} (line : Z) (text : string) (m : PM A) : BM A := fun x =>
  let (o, p) := m (seen line text x) in (o, left_by p x).

Definition on_parser {A} (text : string) (m : PM A) : BM A :=
  line ← on_scanner (on_guts yyget_lineno);
  seeing line text m.

(** The rules whose actions use the string of their last symbol. *)
Definition uses_string (rule : Z) : bool := (rule =? 11) || (rule =? 21) || (rule =? 22).

(** The characters that the value points to are read when the action does. *)
Definition pointed_text (y : parser) (rule : Z) : BM string :=
  match yystack y with
  | (_, SYytext) :: _ => if uses_string rule then on_scanner (on_guts yytext) else mret ""
  | _ => mret ""
  end.

Definition reduce_on_buffers (y : parser) (rule : Z) : BM (parser + Z) :=
  text ← pointed_text y rule;
  on_parser text (yyreduce y rule).

Section Parse.
Variable fs : string -> option (list read_event).

Definition round_on_buffers (fuel rounds : nat) : parser -> BM (parser + Z) :=
  yyparse_round_with (fun s => on_parser "" (libconfig_yyerror s)) reduce_on_buffers
    (on_scanner (libconfig_yylex fs fuel rounds)).

Definition parse_on_buffers (fuel rounds : nat) : BM Z :=
  iter rounds (round_on_buffers fuel rounds) yyparse_start.

(** ** __config_read *)

(** A process: the configuration, the open streams, and how many buffers were left
    behind by scanners that are gone. *)
Record process := Process {
  configuration : config;
  open_streams : gmap positive stream;
  leaked : nat
}.

Definition on_configuration {A} (m : CM A) : M process A := fun s =>
  let (o, c) := m (configuration s) in (o, Process c (open_streams s) (leaked s)).

Definition with_streams (m : gmap positive stream) (s : process) : process :=
  Process (configuration s) m (leaked s).

(** After a parse that failed. *)
Definition report_failure (l : lexer) : lexer :=
  with_conf (with_error (error_text (conf l)) (scanctx_current_filename (context l))
               (error_line (conf l)) ERR_PARSE (conf l)) l.

(** What MAX_INCLUDE_DEPTH include files need. *)
Definition unwind_fuel : nat := 12.

(** From the start of the scanner to its end. *)
Definition parse_input (fuel rounds : nat) (file : option positive) (str0 : string) : BM bool :=
  on_scanner (on_guts (open_input file str0));;
  r ← parse_on_buffers fuel rounds;
  (if r =? 0 then mret tt else on_scanner (modify report_failure));;
  on_scanner (close_input unwind_fuel (negb (r =? 0)));;
  on_scanner (modify (fun l => with_conf (with_filenames (scanctx_cleanup (context l)) (conf l)) l));;
  mret (r =? 0).

(** The parse of an input begins with new scanner and parser contexts. *)
Definition new_parse (filename : option string) (s : process) : parse :=
  let c := configuration s in
  Parse (Lexer (yylex_init (open_streams s)) (scanctx_init filename) c "") (root c) (root c) empty_strbuf.

Definition run_parse (fuel rounds : nat) (file : option positive) (str0 : string)
    (filename : option string) : M process bool := fun s =>
  let (o, x) := parse_input fuel rounds file str0 (new_parse filename s) in
  let g := guts (scanner x) in
  (o, Process (conf (scanner x)) (streams g) (leaked s + size (yy_buffers g))).

Definition read_input (fuel rounds : nat) (file : option positive) (str0 : string)
    (filename : option string) : M process bool :=
  on_configuration (reinitialize filename);;
  run_parse fuel rounds file str0 filename.

(** config_read and config_read_string *)
Definition read_stream (fuel rounds : nat) (stream : positive) : M process bool :=
  read_input fuel rounds (Some stream) "" None.
Definition read_string (fuel rounds : nat) (str0 : string) : M process bool :=
  read_input fuel rounds None str0 None.

(** ** config_read_file *)

(** Names of directories, which fopen may open. *)
Variable is_directory : string -> bool.

Definition open_file (name : string) : M process (option positive) :=
  match fs name with
  | None => mret None
  | Some es =>
      s ← get;
      let i := fresh (dom (open_streams s)) in
      put (with_streams (<[i := {| events := es; ferror := false |}]> (open_streams s)) s);;
      mret (Some i)
  end.

Definition close_file (i : positive) : M process unit :=
  modify (fun s => with_streams (delete i (open_streams s)) s).

Definition cannot_open : M process bool :=
  on_configuration (modify (fun c => with_error (Some io_error) (error_file c) (error_line c) ERR_FILE_IO c));;
  mret false.

Definition read_file (fuel rounds : nat) (filename : string) : M process bool :=
  stream ← open_file filename;
  match stream with
  | Some i =>
      if is_directory filename then
        close_file i;; cannot_open
      else
        ret ← read_input fuel rounds (Some i) "" (Some filename);
        close_file i;;
        mret ret
  | None => cannot_open
  end.
End Parse.
