(* ===== verification/ParserSees.v ===== *)
(** * What the parser sees of the scanner

    The operations of the parser depend on the scanner only through the line, the
    name of the current file and, where a rule uses the string of its last symbol,
    the text: with another scanner that agrees on these they do the same, and they
    leave both scanners as they are. *)

From Stdlib Require Import SpecFloat.
From S2P Require Import Prelude Double CString Setting Config ScanCtx Scanner Grammar ScanBuffer BufferedLexer BufferedParser.
Local Open Scope Z_scope.

Implicit Types (p q : pstate).

(** The parser's part of [p] with the scanner's part of [q]. *)
Definition relocate q p : pstate :=
  {| cfg := cfg p; scan := scan q; buf := buf q; ScanCtx.yy_start := ScanCtx.yy_start q;
     ScanCtx.yytext := ScanCtx.yytext q; pc_parent := pc_parent p; pc_setting := pc_setting p;
     pc_string := pc_string p; ScanCtx.yyout := ScanCtx.yyout q |}.

(** The scanner's part is the same. *)
Definition kept p p' : Prop := relocate p p' = p'.

Definition visible q p : Prop :=
  scanctx_current_filename (scan q) = scanctx_current_filename (scan p) /\
  bs_lineno (buf q) = bs_lineno (buf p).

Lemma kept_refl p : kept p p.
Proof. by destruct p. Qed.
Lemma kept_trans p1 p2 p3 : kept p1 p2 -> kept p2 p3 -> kept p1 p3.
Proof. unfold kept. by intros <- <-. Qed.

Section Tracks.
Context (q : pstate).

(** [m'] does in the place of [q] what [m] does. *)
Definition tracks {A} p (m m' : PM A) : Prop :=
  m' (relocate q p) = (fst (m p), relocate q (snd (m p))) /\ kept p (snd (m p)).

Lemma tracks_ret {A} p (a : A) : tracks p (mret a) (mret a).
Proof. split; [done|apply kept_refl]. Qed.

Lemma tracks_undef {A} p w : tracks (A:=A) p (undef w) (undef w).
Proof. split; [done|apply kept_refl]. Qed.

Lemma tracks_lift {A} p w (o : option A) : tracks p (lift_opt w o) (lift_opt w o).
Proof. destruct o; [apply tracks_ret|apply tracks_undef]. Qed.

Lemma tracks_bind {A B} p (m m' : PM A) (f f' : A -> PM B) : tracks p m m' ->
  (forall a p1, kept p p1 -> tracks p1 (f a) (f' a)) -> tracks p (m ≫= f) (m' ≫= f').
Proof.
  intros [E K] Hf. unfold tracks, mbind, M_bind. rewrite E.
  destruct (m p) as [[a|z| |w|] p1]; cbn [fst snd] in *; try done.
  destruct (Hf a p1 K) as [E1 K1]. split; [done|]. by eapply kept_trans.
Qed.

Lemma tracks_opt {A B} p w (o : option A) (f f' : A -> PM B) :
  (forall a, tracks p (f a) (f' a)) -> tracks p (lift_opt w o ≫= f) (lift_opt w o ≫= f').
Proof. intros H. destruct o as [a|]; [exact (H a)|apply (tracks_undef p w)]. Qed.

Lemma tracks_get {B} p (f f' : pstate -> PM B) : tracks p (f p) (f' (relocate q p)) ->
  tracks p (get ≫= f) (get ≫= f').
Proof. intros H. exact H. Qed.

Lemma tracks_config {A} p (m : CM A) : tracks p (on_config m) (on_config m).
Proof. unfold tracks, on_config. cbn. by destruct (m (cfg p)). Qed.

(** Changes of the parser's own context. *)
Lemma tracks_modify p f : f (relocate q p) = relocate q (f p) -> kept p (f p) -> tracks p (modify f) (modify f).
Proof.
  intros E K. unfold tracks. change (modify f (relocate q p)) with (Ret tt, f (relocate q p)). by rewrite E.
Qed.

Lemma tracks_setting p l : tracks p (modify (with_setting l)) (modify (with_setting l)).
Proof. by apply tracks_modify. Qed.
Lemma tracks_parent p l : tracks p (modify (with_parent l)) (modify (with_parent l)).
Proof. by apply tracks_modify. Qed.
Lemma tracks_pstring p b : tracks p (modify (with_pstring b)) (modify (with_pstring b)).
Proof. by apply tracks_modify. Qed.
End Tracks.

Create HintDb tracks.
#[export] Hint Resolve tracks_ret tracks_undef tracks_lift tracks_config tracks_setting tracks_parent tracks_pstring : tracks.

Lemma visible_kept q p p' : visible q p -> kept p p' -> visible q p'.
Proof. unfold visible. by intros H <-. Qed.

(** Goes through a computation step by step; what is visible stays so. *)
Ltac track :=
  repeat lazymatch goal with
  | |- tracks _ _ (get ≫= _) _ => apply tracks_get; cbn [pc_parent pc_setting pc_string cfg relocate]
  | |- tracks ?q ?p (_ ≫= _) _ => apply tracks_bind; [try solve [auto with tracks]
        |let K := fresh "K" in intros ? ? K;
         try lazymatch goal with H : visible q p |- _ => pose proof (visible_kept _ _ _ H K); clear H end;
         clear K]
  | |- tracks _ _ (match ?x with _ => _ end) _ => destruct x
  | |- _ => solve [auto with tracks]
  end.

Section Actions.
Context (q : pstate).

Lemma yyerror_tracks p s : visible q p -> tracks q p (libconfig_yyerror s) (libconfig_yyerror s).
Proof.
  intros [_ Hl]. apply tracks_modify; cbn; rewrite ?Hl; by destruct (error_text (cfg p)), p.
Qed.

Lemma capture_tracks p l : visible q p -> tracks q p (capture_parse_pos l) (capture_parse_pos l).
Proof.
  intros [Hf Hl]. unfold capture_parse_pos. apply tracks_get. cbn [buf scan relocate].
  rewrite Hf, Hl. apply tracks_config.
Qed.

Lemma parent_type_tracks p : tracks q p parent_type parent_type.
Proof. unfold parent_type. track. Qed.
Local Hint Resolve parent_type_tracks yyerror_tracks capture_tracks : tracks.

Lemma IN_ARRAY_tracks p : tracks q p IN_ARRAY IN_ARRAY.
Proof. unfold IN_ARRAY. track. Qed.
Lemma IN_LIST_tracks p : tracks q p IN_LIST IN_LIST.
Proof. unfold IN_LIST. track. Qed.
Local Hint Resolve IN_ARRAY_tracks IN_LIST_tracks : tracks.

(** The string of a value, when it is the scanner's text on both sides. *)
Definition same_string (v : semval) p : Prop := v = SYytext -> ScanCtx.yytext q = ScanCtx.yytext p.

Lemma sval_tracks p v : same_string v p -> tracks q p (sval_of v) (sval_of v).
Proof.
  intros Hv. destruct v; cbn [sval_of]; auto with tracks. apply tracks_get. cbn. rewrite (Hv eq_refl). apply tracks_ret.
Qed.

Lemma ival_tracks p v : tracks q p (ival_of v) (ival_of v).
Proof. unfold ival_of. track. Qed.
Lemma llval_tracks p v : tracks q p (llval_of v) (llval_of v).
Proof. unfold llval_of. track. Qed.
Lemma fval_tracks p v : tracks q p (fval_of v) (fval_of v).
Proof. unfold fval_of. track. Qed.
Local Hint Resolve sval_tracks ival_tracks llval_tracks fval_tracks : tracks.

Lemma add_setting_tracks p v : visible q p -> same_string v p -> tracks q p (add_setting v) (add_setting v).
Proof. intros H Hv. unfold add_setting. track. Qed.

Lemma open_aggregate_tracks p t : visible q p -> tracks q p (open_aggregate t) (open_aggregate t).
Proof.
  intros H. unfold open_aggregate. track. by apply tracks_modify.
Qed.

Lemma close_aggregate_tracks p : tracks q p close_aggregate close_aggregate.
Proof. unfold close_aggregate. track. Qed.

Lemma append_literal_tracks p v : same_string v p -> tracks q p (append_literal v) (append_literal v).
Proof. intros Hv. unfold append_literal. track. Qed.

Lemma scalar_value_tracks p set_elem set format : visible q p ->
  tracks q p (scalar_value set_elem set format) (scalar_value set_elem set format).
Proof. intros H. unfold scalar_value. track. Qed.

Lemma scalar_string_tracks p : visible q p -> tracks q p scalar_string scalar_string.
Proof.
  intros H. unfold scalar_string. apply tracks_get. cbn [pc_string relocate]. destruct (strbuf_release (pc_string p)).
  track. by apply scalar_value_tracks.
Qed.
Local Hint Resolve scalar_value_tracks add_setting_tracks open_aggregate_tracks close_aggregate_tracks
  append_literal_tracks scalar_string_tracks : tracks.

Lemma reduce_action_tracks p rule v : visible q p -> (uses_string rule = true -> same_string v p) ->
  tracks q p (reduce_action rule v) (reduce_action rule v).
Proof.
  intros H Hv. unfold reduce_action.
  repeat match goal with |- tracks _ _ (match ?x with _ => _ end) _ => is_var x; destruct x; try apply tracks_ret end;
    try solve [track]; auto with tracks.
Qed.

Lemma yyreduce_tracks p y rule : visible q p ->
  (uses_string rule = true -> forall rest s, yystack y = (s, SYytext) :: rest -> ScanCtx.yytext q = ScanCtx.yytext p) ->
  tracks q p (yyreduce y rule) (yyreduce y rule).
Proof.
  intros H Hv. unfold yyreduce.
  apply tracks_opt. intros len. apply tracks_opt. intros lhs.
  apply tracks_bind; [|intros; track].
  apply reduce_action_tracks; [done|]. intros Hu. destruct (yystack y) as [|[s v] rest]; [done|].
  intros ->. by eapply Hv.
Qed.
End Actions.
