(* ===== verification/ConfigWrite.v ===== *)
(** * Writing configurations (lib/libconfig.c: __config_indent,
      __config_write_value, __config_write_setting, config_write,
      config_write_file)

    The text goes to the stream of the state; a file that is written replaces
    what the file system had under its name.  Numbers are printed in the C
    locale, which config_write installs for the time of the call. *)

From Stdlib Require Import SpecFloat.
From S2P Require Import Prelude Double CString Printf Setting Config ConfigRead.
Local Open Scope Z_scope.

(** The configuration, the text of the open stream, and the files. *)
Record wstate := {
  w_cfg : config;
  w_stream : string;
  w_files : gmap string string
}.

Definition w_with_cfg (c : config) (w : wstate) : wstate :=
  {| w_cfg := c; w_stream := w.(w_stream); w_files := w.(w_files) |}.
Definition with_stream (s : string) (w : wstate) : wstate :=
  {| w_cfg := w.(w_cfg); w_stream := s; w_files := w.(w_files) |}.
Definition with_files (f : gmap string string) (w : wstate) : wstate :=
  {| w_cfg := w.(w_cfg); w_stream := w.(w_stream); w_files := f |}.

Abbreviation WM := (M wstate).

Definition on_cfg {A} (m : CM A) : WM A := fun w =>
  let (o, c) := m w.(w_cfg) in (o, w_with_cfg c w).

(** fputs, and fputc of one character *)
Definition fputs (s : string) : WM unit := modify (fun w => with_stream (w.(w_stream) +:+ s) w).
Definition fputc (c : ascii) : WM unit := fputs (String c "").

Definition newline : ascii := chr 10.
Definition dquote : ascii := chr 34.

(** printf("%*s", width, " "): the blank is printed whatever the width. *)
Definition padded_blank (width : Z) : string := repeat_string (Z.to_nat (Z.max 1 width)) " ".

Definition config_indent (depth w : Z) : WM unit :=
  if i2b w then fputs (padded_blank ((depth - 1) * w))
  else fputs (repeat_string (Z.to_nat (depth - 1)) (String (chr 9) "")).

(** ** Scalar values *)

(** Drops the zeros after the last other character, which is not the first. *)
Definition trim_zeros (s : string) : string :=
  match s with
  | EmptyString => EmptyString
  | String c s' => match strip_zeros s' with EmptyString => s | t => String c t end
  end.

(** The text of a float in [fbuf]: a point or an exponent is always present. *)
Definition float_text (d : spec_float) : string :=
  let fbuf := print_g d in
  if strchr fbuf "e" then fbuf
  else if negb (strchr fbuf ".") then fbuf +:+ ".0"
  else trim_zeros fbuf.

Definition escape_char (ch : ascii) : string :=
  let c := uchar ch in
  if (c =? 34) || (c =? 92) then String "\" (String ch "")
  else if c =? 10 then "\n"
  else if c =? 13 then "\r"
  else if c =? 12 then "\f"
  else if c =? 9 then "\t"
  else if 32 <=? c then String ch ""
  else "\x" +:+ print_hex2 c.

(** The loop over the characters of a string. *)
Fixpoint write_chars (s : string) : WM unit :=
  match s with
  | EmptyString => mret tt
  | String c s' => fputs (escape_char c);; write_chars s'
  end.

Definition write_string (s : option string) : WM unit :=
  fputc dquote;;
  match s with Some s => write_chars s | None => mret tt end;;
  fputc dquote.

Definition write_int (z format : Z) : WM unit :=
  if format =? FORMAT_HEX then fputs ("0x" +:+ print_hex 32 z) else fputs (print_dec z).

Definition write_int64 (z format : Z) : WM unit :=
  if format =? FORMAT_HEX then fputs ("0x" +:+ print_hex 64 z +:+ "L")
  else fputs (print_dec z +:+ "L").

(** ** Settings *)

Section Setting.
(** The writer of values, one level further down. *)
Variable write_value : value -> ctype -> Z -> Z -> WM unit.

Definition assign_char (c : config) (t : ctype) : ascii :=
  let o := if decide (t = T_GROUP) then OPTION_COLON_ASSIGNMENT_FOR_GROUPS
           else OPTION_COLON_ASSIGNMENT_FOR_NON_GROUPS in
  if has_option c o then ":" else "=".

Definition write_setting_with (setting : loc) (depth : Z) : WM unit :=
  c ← gets w_cfg;
  (if 1 <? depth then config_indent depth c.(tab_width) else mret tt);;
  s ← on_cfg (deref setting);
  match s.(s_name) with
  | Some n =>
      fputs n;;
      fputs (String " " (String (assign_char c s.(s_type)) " "))
  | None => mret tt
  end;;
  f ← on_cfg (config_setting_get_format setting);
  write_value s.(s_value) s.(s_type) f depth;;
  if 0 <? depth then
    (if has_option c OPTION_SEMICOLON_SEPARATORS then fputc ";" else mret tt);;
    fputc newline
  else mret tt.

(** The elements of an array or a list, separated by commas. *)
Fixpoint write_elems (els : list loc) (depth : Z) : WM unit :=
  match els with
  | [] => mret tt
  | e :: els' =>
      s ← on_cfg (deref e);
      f ← on_cfg (config_setting_get_format e);
      write_value s.(s_value) s.(s_type) f (depth + 1);;
      match els' with [] => mret tt | _ => fputc "," end;;
      fputc " ";;
      write_elems els' depth
  end.

Fixpoint write_members (els : list loc) (depth : Z) : WM unit :=
  match els with
  | [] => mret tt
  | e :: els' => write_setting_with e (depth + 1);; write_members els' depth
  end.
End Setting.

(** A value; the fuel bounds the depth of the tree below it. *)
Fixpoint config_write_value (fuel : nat) (v : value) (type : ctype) (format depth : Z)
    : WM unit :=
  match fuel with
  | O => stop NoFuel
  | S n =>
      match type with
      | T_BOOL => z ← lift_opt UB_union (as_ival v); fputs (if i2b z then "true" else "false")
      | T_INT => z ← lift_opt UB_union (as_ival v); write_int z format
      | T_INT64 => z ← lift_opt UB_union (as_llval v); write_int64 z format
      | T_FLOAT => d ← lift_opt UB_union (as_fval v); fputs (float_text d)
      | T_STRING => s ← lift_opt UB_union (as_sval v); write_string s
      | T_LIST | T_ARRAY =>
          lst ← lift_opt UB_union (as_list v);
          let (l, r) := if decide (type = T_LIST) then ("(", ")") else ("[", "]") in
          fputs (l +:+ " ");;
          write_elems (config_write_value n)
            (match lst with Some lst => lst.(elements) | None => [] end) depth;;
          fputs r
      | T_GROUP =>
          lst ← lift_opt UB_union (as_list v);
          c ← gets w_cfg;
          (if 0 <? depth then
             (if has_option c OPTION_OPEN_BRACE_ON_SEPARATE_LINE then
                fputc newline;;
                if 1 <? depth then config_indent depth c.(tab_width) else mret tt
              else mret tt);;
             fputs ("{" +:+ String newline "")
           else mret tt);;
          write_members (config_write_value n)
            (match lst with Some lst => lst.(elements) | None => [] end) depth;;
          (if 1 <? depth then config_indent depth c.(tab_width) else mret tt);;
          if 0 <? depth then fputs "}" else mret tt
      | T_NONE => fputs "???"
      end
  end.

Definition config_write_setting (fuel : nat) : loc -> Z -> WM unit :=
  write_setting_with (config_write_value fuel).

Definition config_write : WM unit :=
  c ← gets w_cfg;
  r ← on_cfg (nonnull c.(root));
  config_write_setting (destroy_fuel c) r 0.

Section WriteFile.
(** The files that can be opened for writing. *)
Variable can_write : string -> bool.

Definition config_write_file (filename : string) : WM bool :=
  if negb (can_write filename) then
    on_cfg (modify (fun c => with_error (Some io_error) c.(error_file) c.(error_line) ERR_FILE_IO c));;
    mret false
  else
    modify (with_stream "");;
    config_write;;
    modify (fun w => with_files (<[filename := w.(w_stream)]> w.(w_files)) w);;
    on_cfg (modify (fun c => with_error c.(error_text) c.(error_file) c.(error_line) ERR_NONE c));;
    mret true.
End WriteFile.

(** The text that writing [c] produces. *)
Definition written (c : config) : option string :=
  match config_write {| w_cfg := c; w_stream := ""; w_files := ∅ |} with
  | (Ret _, w) => Some w.(w_stream)
  | _ => None
  end.
