(* ===== verification/WriteTokens.v ===== *)
(** * The tokens of written values

    Every scalar that libconfig writes, followed by one of the characters it
    puts after a value, scans back to one token that carries the value. *)

From Stdlib Require Import SpecFloat.
From S2P Require Import Prelude Double CString Printf Setting Config ConfigWf ConfigProps ConfigApi.
From S2P Require Import ScanCtx Scanner ScannerSpec LexerProps Tokens ConfigRead ConfigWrite.
Local Open Scope Z_scope.

Section Tokens.
Context (fs : string -> option string).

(** The value a token carries; a name points to the scanner's text. *)
Definition carries (p : pstate) (v v' : semval) : Prop :=
  match v with SYytext => v' = SString (c_str p.(yytext)) | _ => v' = v end.

(** Before [k], the text [w] is the token [t] with the value [v]. *)
Record token_at (w k : string) (t : token) (v : semval) : Prop := {
  ta_text : w <> "";
  ta_start : starts_with token_start w;
  ta_lexes : forall p, ready_at p (w +:+ k) -> exists n p' v',
    lexes fs p n (t, v') p' /\ (n <= String.length w)%nat /\ passed p p' k /\ carries p' v' v
}.

(** The characters after a written value. *)
Definition ends (c : ascii) : bool :=
  mem_char c " ,;)]" || (uchar c =? 10).

Lemma token_round w k t v v' T f a : w <> "" -> starts_with token_start w ->
  final T f a = true -> leads initial_states w T -> starts_with f k ->
  rule_action fs a w = return_token t v' ->
  (forall p, yytext p = w -> carries p v' v) -> token_at w k t v.
Proof.
  intros Hw Hs Hf Hl Hk Ha Hc. split; [done|done|]. intros p Hp.
  destruct (initial_round fs p _ w k T f a Hp eq_refl Hw Hf Hl Hk) as (line & E).
  exists 1%nat, (scanned_to w k line p), v'. split_and!.
  - apply lexes_token. by rewrite E, Ha.
  - destruct w; [done|]. simpl. lia.
  - apply scanned_passed.
  - by apply Hc.
Qed.

(** ** Punctuation *)

(** A character that is a token by itself. *)
Lemma punct_token c t s a k : token_start c = true -> final [s] (fun _ => true) a = true ->
  edges initial_states (fun d => (d =? c)%char) [s] = true ->
  rule_action fs a (String c "") = return_token t SNone -> token_at (String c "") k t SNone.
Proof.
  intros Hs Hf He Ha. apply (token_round _ k t SNone SNone [s] (fun _ => true) a); try done.
  - by eapply leads_char; [exact He|apply Ascii.eqb_refl].
  - by destruct k.
Qed.

(** ** Truth values and numbers *)

(** Paths of a given text. *)
Definition walks (S : list Z) (w : string) (T : list Z) : bool :=
  forallb (fun s => match yy_run s w with Some t => mem T t | None => false end) S.

Lemma leads_walks S w T : walks S w T = true -> leads S w T.
Proof.
  unfold walks. rewrite forallb_forall. intros H s Hs. specialize (H s Hs).
  destruct (yy_run s w) as [t|]; [|done]. exists t. split; [done|]. by apply mem_In.
Qed.

Lemma bool_token (b : bool) k : starts_with ends k ->
  token_at (if b then "true" else "false") k TOK_BOOLEAN (SInt (b2i b)).
Proof.
  intros Hk. destruct b.
  - apply (token_round _ k _ _ (SInt 1) [91] ends 27);
      [done|done|vm_compute; reflexivity|apply leads_walks; vm_compute; reflexivity|done..].
  - apply (token_round _ k _ _ (SInt 0) [95] ends 28);
      [done|done|vm_compute; reflexivity|apply leads_walks; vm_compute; reflexivity|done..].
Qed.

(** A number: its digits, perhaps after a minus sign. *)
Definition int_states : list Z := [23; 24; 49].

Lemma leads_print_dec z : leads initial_states (print_dec z) int_states.
Proof.
  assert (forall S z, edges S isdigit int_states = true -> 0 <= z -> leads S (digits 10 z) int_states) as H.
  { intros S y Hs Hy. apply (leads_plus _ isdigit); [done|vm_compute; reflexivity|apply digits_nonempty|].
    by apply digits_decimal. }
  unfold print_dec. destruct (Z.ltb_spec z 0).
  - apply (leads_cons _ (fun c => (c =? "-")%char) [19]); [vm_compute; reflexivity|done|].
    apply H; [vm_compute; reflexivity|lia].
  - apply H; [vm_compute; reflexivity|lia].
Qed.

Lemma print_dec_start z k : print_dec z <> "" /\ starts_with token_start (print_dec z +:+ k).
Proof.
  unfold print_dec. destruct (Z.ltb_spec z 0); [done|].
  destruct (all_chars_head isdigit (digits 10 z)) as (c & s & -> & Hc);
    [by apply digits_decimal|apply digits_nonempty|]. split; [done|].
  change (String c s +:+ k) with (String c (s +:+ k)). simpl.
  unfold token_start, white, blank. unfold isdigit, between in Hc. apply andb_prop in Hc as [? ?]. lia.
Qed.

Lemma int_token z k : is_int z = true -> starts_with ends k ->
  token_at (print_dec z) k TOK_INTEGER (SInt z).
Proof.
  intros Hz Hk. destruct (print_dec_start z "") as [H1 H2]. rewrite app_nil_string in H2.
  apply (token_round _ k _ _ (SInt z) int_states ends 31);
    [done|done|vm_compute; reflexivity|apply leads_print_dec|done| |done].
  unfold rule_action. cbn [rule_command perform]. unfold atoi. rewrite <- (app_nil_string (print_dec z)), strtol_print_dec; [|..|done].
  - by rewrite s32_small.
  - apply is_int_spec in Hz. unfold INT_MIN, INT_MAX, LLONG_MIN, LLONG_MAX in *. lia.
Qed.

Lemma int64_token z k : is_int64 z = true -> starts_with ends k ->
  token_at (print_dec z +:+ "L") k TOK_INTEGER64 (SInt64 z).
Proof.
  intros Hz Hk. destruct (print_dec_start z "L") as [H1 H2].
  apply (token_round _ k _ _ (SInt64 z) [56] ends 32);
    [by destruct (print_dec z)|done|vm_compute; reflexivity| |done| |done].
  - eapply leads_app; [apply leads_print_dec|]. apply leads_walks. vm_compute. reflexivity.
  - unfold rule_action. cbn [rule_command perform]. unfold atoll. rewrite strtol_print_dec; [done| |done]. by apply is_int64_spec.
Qed.

(** A hexadecimal number. *)
Lemma leads_hex z : 0 <= z -> leads initial_states ("0x" +:+ digits 16 z) [82].
Proof.
  intros Hz. eapply (leads_app _ _ [57]); [apply leads_walks; vm_compute; reflexivity|].
  apply (leads_plus _ hex_digit); [vm_compute; reflexivity..|apply digits_nonempty|by apply digits_hex].
Qed.

Lemma hex_token z k : is_int z = true -> starts_with ends k ->
  token_at ("0x" +:+ print_hex 32 z) k TOK_HEX (SInt z).
Proof.
  intros Hz Hk. pose proof (uwrap_range 32 z ltac:(lia)).
  apply (token_round _ k _ _ (SInt z) [82] ends 33);
    [done|done|vm_compute; reflexivity|apply leads_hex; lia|done| |done].
  unfold rule_action. cbn [rule_command perform]. unfold print_hex. rewrite <- (app_nil_string (digits 16 _)), strtoul_print_hex; [|lia|done].
  by rewrite s32_of_u32.
Qed.

Lemma hex64_token z k : is_int64 z = true -> starts_with ends k ->
  token_at ("0x" +:+ print_hex 64 z +:+ "L") k TOK_HEX64 (SInt64 z).
Proof.
  intros Hz Hk. pose proof (uwrap_range 64 z ltac:(lia)).
  apply (token_round _ k _ _ (SInt64 z) [89] ends 34);
    [done|done|vm_compute; reflexivity| |done| |done].
  - unfold print_hex. rewrite <- string_app_assoc. eapply leads_app; [apply leads_hex; lia|].
    apply leads_walks. vm_compute. reflexivity.
  - unfold rule_action. cbn [rule_command perform]. unfold fromhex, print_hex. rewrite strtoul_print_hex; [|lia|done].
    by rewrite s64_of_u64.
Qed.
(** ** Names *)

Definition tolower (c : ascii) : ascii := if between 65 90 c then chr (uchar c + 32) else c.

Fixpoint lower (s : string) : string :=
  match s with EmptyString => EmptyString | String c s' => String (tolower c) (lower s') end.

(** The words that scan to truth values. *)
Definition keyword (n : string) : bool := streq (lower n) "true" || streq (lower n) "false".

Lemma nocase_chars z : 97 <= z <= 122 -> forall r s, matches (Cat (nocase z) r) s ->
  exists c s', s = String c s' /\ tolower c = chr z /\ matches r s'.
Proof.
  intros Hz r s H. inversion H as [| |? ? s1 s2 H1 H2| | | |]; subst.
  inversion H1 as [|? c Hc| | | | |]; subst. exists c, s2. split_and!; [done| |done].
  unfold in_charset in Hc. simpl in Hc. rewrite orb_false_r in Hc. apply uchar_inj.
  apply orb_prop in Hc as [[?%Z.leb_le ?%Z.leb_le]%andb_prop|[?%Z.leb_le ?%Z.leb_le]%andb_prop].
  - unfold tolower, between. rewrite (proj2 (Z.leb_le 65 _)), (proj2 (Z.leb_le _ 90)) by lia. simpl.
    do 2 f_equal. lia.
  - unfold tolower, between. rewrite (proj2 (Z.leb_gt (uchar c) 90)), andb_false_r by lia.
    replace (chr z) with (chr (uchar c)) by (f_equal; lia).
    unfold chr, uchar. rewrite uwrap_small; [by rewrite N2Z.id, ascii_N_embedding|].
    pose proof (N_ascii_bounded c). lia.
Qed.

Lemma nocase_last z : 97 <= z <= 122 -> forall s, matches (nocase z) s ->
  exists c, s = String c "" /\ tolower c = chr z.
Proof.
  intros Hz s H. destruct (nocase_chars z Hz Eps s) as (c & s' & -> & Hc & Hm).
  - rewrite <- (app_nil_string s). constructor; [done|constructor].
  - inversion Hm; subst. by exists c.
Qed.

Lemma keyword_matches n : matches true_re n \/ matches false_re n -> keyword n = true.
Proof.
  intros H. unfold keyword, streq. rewrite orb_true_iff, !String.eqb_eq. destruct H as [H|H]; [left|right].
  all: unfold true_re, false_re in H; repeat (apply nocase_chars in H as (? & ? & -> & ? & H); [|lia]).
  all: apply nocase_last in H as (? & -> & ?); [|lia]; simpl.
  all: repeat match goal with E : tolower _ = _ |- _ => rewrite E; clear E end; reflexivity.
Qed.

(** What the rules still want after a path. *)
Lemma yy_run_residual s v w s' : assoc s state_table = Some v -> yy_run s w = Some s' ->
  exists v', assoc s' state_table = Some v' /\ forall m k, can v' m k <-> can v m (w +:+ k).
Proof.
  revert s v. induction w as [|c w IH]; intros s v Hs; simpl.
  { intros [= ->]. by exists v. }
  pose proof (state_entry s v Hs) as Hok. unfold entry_ok in Hok.
  apply andb_prop in Hok as [_ Hstep]. rewrite forallb_forall in Hstep.
  specialize (Hstep c (in_all_ascii c)). cbn [fst snd] in Hstep.
  unfold yy_edge. destruct (tab yy_accept s); [|done]. destruct (yy_step s c) as [t|]; [|done].
  cbn [mbind option_bind]. destruct (t =? YY_JAM); [done|]. apply bool_decide_eq_true in Hstep.
  intros Hr. destruct (IH t _ Hstep Hr) as (v' & Hv' & Hc). exists v'. split; [done|].
  intros m k. rewrite Hc, can_derive. done.
Qed.

Definition name_first (c : ascii) : bool := isalpha c || (c =? "*")%char.
Definition name_rest (c : ascii) : bool := name_char c && negb (c =? NUL)%char.

Definition name_states : list Z := [18; 27; 28; 47; 58; 59; 83; 84; 90; 91; 95].

Lemma keyword_rule bol m r : In (m, r) (rules INITIAL bol) -> m = 27 \/ m = 28 ->
  r = true_re \/ r = false_re.
Proof.
  intros Hin Hm.
  assert (forallb (fun e => (negb (e.1 =? 27) && negb (e.1 =? 28)) ||
    bool_decide (e.2 = true_re) || bool_decide (e.2 = false_re)) (rules INITIAL bol) = true) as H
    by (destruct bol; vm_compute; reflexivity).
  rewrite forallb_forall in H. specialize (H _ Hin). simpl in H.
  rewrite !orb_true_iff, !bool_decide_eq_true in H.
  destruct H as [[H|H]|H]; [|by left|by right]. destruct Hm as [-> | ->]; done.
Qed.

Lemma name_first_start :
  forallb (fun c => negb (name_first c) || token_start c) all_ascii = true.
Proof. vm_compute. reflexivity. Qed.

(** The states after a name, when it is no keyword. *)
Lemma leads_name n : valid_name n -> keyword n = false ->
  leads initial_states n (List.filter (fun s => bool_decide (tab yy_accept s = Some 29)) name_states).
Proof.
  intros [Hv Hc] Hk s Hs.
  assert (leads initial_states n name_states) as Hl.
  { destruct n as [|c n]; [done|]. simpl in Hv, Hc. apply andb_prop in Hc as [_ Hc].
    destruct (negb (isalpha c) && negb (c =? "*")%char) eqn:E; [done|].
    apply (leads_cons _ name_first name_states); [vm_compute; reflexivity| |].
    - unfold name_first. destruct (isalpha c), (c =? "*")%char; done.
    - apply (leads_star _ name_rest); [vm_compute; reflexivity|].
      clear -Hv Hc. induction n as [|d n IH]; [done|]. simpl in *. unfold name_rest at 1.
      apply andb_prop in Hv as [-> Hv], Hc as [-> Hc]. by apply IH. }
  destruct (Hl s Hs) as (s' & Hr & Hs'). exists s'. split; [done|].
  apply filter_In. split; [done|]. apply bool_decide_eq_true.
  assert (exists bol, assoc s state_table = Some (rules INITIAL bol)) as [bol Hb].
  { destruct Hs as [<-|[<-|[]]].
    - exists false. apply (start_state INITIAL false). simpl. auto.
    - exists true. apply (start_state INITIAL true). simpl. auto. }
  destruct (yy_run_residual s _ n s' Hb Hr) as (v' & Hv' & Hcan).
  pose proof (state_entry s' v' Hv') as Hok. unfold entry_ok in Hok. cbn [fst snd] in Hok.
  apply andb_prop in Hok as [Hok _]. apply andb_prop in Hok as [Hinc Hacc].
  apply bool_decide_eq_true in Hacc.
  assert (forallb (fun s => match tab yy_accept s with
    Some a => (a =? 27) || (a =? 28) || (a =? 29) | None => false end) name_states = true) as Ha
    by (vm_compute; reflexivity).
  rewrite forallb_forall in Ha. specialize (Ha s' Hs'). rewrite Hacc in *.
  destruct (first_match_spec v' 0 Hinc ltac:(lia)) as [[E _]|(_ & H1 & _)]; [by rewrite E in Ha|].
  apply Hcan in H1 as (r & Hin & Hm). rewrite app_nil_string in Hm.
  rewrite !orb_true_iff, !Z.eqb_eq in Ha. destruct Ha as [Ha| ->]; [|done]. exfalso.
  pose proof (keyword_rule bol _ r Hin Ha) as Hre.
  rewrite keyword_matches in Hk; [done|]. destruct Hre as [-> | ->]; auto.
Qed.

Lemma name_token n k : valid_name n -> keyword n = false -> starts_with ends k ->
  token_at n k TOK_NAME (SString n).
Proof.
  intros Hv Hk Hs. pose proof (leads_name n Hv Hk) as Hl.
  eapply (token_round _ k _ _ SYytext _ ends 29); [| | |exact Hl|done|done|].
  - intros ->. by destruct Hv.
  - destruct Hv as [Hv _]. destruct n as [|c n]; [done|]. simpl in *.
    pose proof name_first_start as H. rewrite forallb_forall in H. specialize (H c (in_all_ascii c)).
    unfold name_first in H. destruct (isalpha c), (c =? "*")%char; done.
  - vm_compute. reflexivity.
  - intros p Hp. unfold carries. rewrite Hp. f_equal. destruct Hv as [_ Hc]. clear -Hc.
    induction n as [|c n IH]; [done|]. simpl in *. apply andb_prop in Hc as [Hc Hn].
    apply negb_true_iff in Hc. rewrite Hc. f_equal. auto.
Qed.

(** ** Floats *)

Lemma leads_digits S T w : edges S isdigit T = true -> edges T isdigit T = true ->
  all_chars isdigit w = true -> w <> "" -> leads S w T.
Proof. intros. by apply (leads_plus _ isdigit). Qed.

Definition sign_state : list Z := [1; 2; 19].

Lemma leads_sign b : leads initial_states (sign_text b) sign_state.
Proof. destruct b; apply leads_walks; vm_compute; reflexivity. Qed.

Lemma leads_point s i f : decimal i -> all_chars isdigit f = true ->
  leads initial_states (sign_text s +:+ i +:+ "." +:+ f) [54; 77].
Proof.
  intros [Hi Hid] Hf. eapply leads_app; [apply leads_sign|].
  eapply (leads_app _ _ int_states); [apply leads_digits; try done; vm_compute; reflexivity|].
  eapply (leads_app _ _ [54]); [apply leads_walks; vm_compute; reflexivity|].
  destruct f as [|c f]; [apply leads_walks; vm_compute; reflexivity|].
  apply leads_digits; try done; vm_compute; reflexivity.
Qed.

Lemma leads_exponent S T w y x : leads initial_states w S -> decimal x ->
  walks S ("e" +:+ exponent_sign y) T = true -> edges T isdigit [80; 88] = true ->
  leads initial_states (w +:+ "e" +:+ exponent_sign y +:+ x) [80; 88].
Proof.
  intros Hw [Hx Hxd] He Ht. eapply leads_app; [exact Hw|]. rewrite <- string_app_assoc.
  eapply leads_app; [by apply leads_walks|]. apply leads_digits; try done; vm_compute; reflexivity.
Qed.

Lemma mem_char_app c a b : mem_char c (a +:+ b) = mem_char c a || mem_char c b.
Proof.
  induction a as [|d a IH]; [done|]. change (String d a +:+ b) with (String d (a +:+ b)). simpl.
  by rewrite IH, orb_assoc.
Qed.

Lemma decimal_no_char c w : isdigit c = false -> decimal w -> mem_char c w = false.
Proof.
  intros Hc [_ Hw]. induction w as [|d w IH]; [done|]. simpl in *. apply andb_prop in Hw as [Hd Hw].
  rewrite IH, orb_false_r by done. apply Ascii.eqb_neq. congruence.
Qed.

Lemma trim_zeros_id s f : decimal f -> strip_zeros f = f -> trim_zeros (s +:+ "." +:+ f) = s +:+ "." +:+ f.
Proof.
  intros [Hf _] Hs. destruct s as [|c s].
  - change (trim_zeros (String "." f) = String "." f). unfold trim_zeros. rewrite Hs. by destruct f.
  - change (String c s +:+ "." +:+ f) with (String c (s +:+ "." +:+ f)). unfold trim_zeros.
    rewrite <- string_app_assoc, strip_zeros_app by done. destruct ((s +:+ ".") +:+ f) eqn:E; [|done].
    by destruct s.
Qed.

(** The text of a finite float: always a point or an exponent. *)
Inductive float_shape : string -> Prop :=
  | with_point s i f : decimal i -> decimal f -> float_shape (sign_text s +:+ i +:+ "." +:+ f)
  | with_exponent s i fr b x : decimal i -> fraction fr -> decimal x ->
      float_shape (sign_text s +:+ i +:+ fr +:+ "e" +:+ exponent_sign b +:+ x).

Lemma float_text_shape d : is_finite d = true -> float_shape (float_text d).
Proof.
  intros (s & i & fr & ex & E & Hi & Hf & He)%print_g_shape. unfold float_text, strchr. rewrite E.
  change (("e" =? NUL)%char) with false. change (("." =? NUL)%char) with false. cbn [orb].
  assert (mem_char "e" (sign_text s) = false /\ mem_char "." (sign_text s) = false) as [Hse Hsp] by by destruct s.
  rewrite !mem_char_app, Hse, Hsp, !(decimal_no_char _ i) by done. cbn [orb].
  destruct He as [|b x Hx].
  - rewrite orb_false_r. destruct Hf as [|f Hf Hz].
    + simpl. rewrite !app_nil_string, string_app_assoc. by apply with_point.
    + change (mem_char "e" (String "." f)) with (mem_char "e" f). rewrite (decimal_no_char _ f) by done.
      simpl. rewrite app_nil_string.
      change (String "." f) with ("." +:+ f). rewrite <- string_app_assoc, trim_zeros_id by done.
      rewrite string_app_assoc. by apply with_point.
  - change (mem_char "e" ("e" +:+ exponent_sign b +:+ x)) with true. rewrite orb_true_r.
    by apply with_exponent.
Qed.

Lemma leads_float w : float_shape w -> leads initial_states w [54; 77] \/ leads initial_states w [80; 88].
Proof.
  intros [s i f Hi [Hf Hfd]|s i fr b x Hi Hfr Hx]; [left; by apply leads_point|right].
  destruct Hfr as [|f [_ Hf] _].
  - rewrite <- string_app_assoc. eapply (leads_exponent int_states [79]).
    + eapply leads_app; [apply leads_sign|]. destruct Hi.
      apply leads_digits; try done; vm_compute; reflexivity.
    + done.
    + destruct b; vm_compute; reflexivity.
    + vm_compute; reflexivity.
  - change (String "." f) with ("." +:+ f).
    replace (sign_text s +:+ i +:+ ("." +:+ f) +:+ "e" +:+ exponent_sign b +:+ x)
      with ((sign_text s +:+ i +:+ "." +:+ f) +:+ "e" +:+ exponent_sign b +:+ x)
      by (by rewrite !string_app_assoc).
    eapply (leads_exponent [54; 77] [87]).
    + by apply leads_point.
    + done.
    + destruct b; vm_compute; reflexivity.
    + vm_compute; reflexivity.
Qed.

Lemma digit_start c : isdigit c = true -> token_start c = true.
Proof.
  unfold token_start, white, blank, isdigit, between. intros [? ?]%andb_prop. lia.
Qed.

Lemma float_start w : float_shape w -> w <> "" /\ starts_with token_start w.
Proof.
  assert (forall s i t, decimal i -> sign_text s +:+ i +:+ t <> "" /\
    starts_with token_start (sign_text s +:+ i +:+ t)) as H.
  { intros s i t [Hi Hd]. destruct (all_chars_head isdigit i Hd Hi) as (c & i' & -> & Hc).
    destruct s; [done|]. split; [done|]. by apply digit_start. }
  intros []; by apply H.
Qed.

Lemma float_token d k : is_finite d = true -> starts_with ends k ->
  token_at (float_text d) k TOK_FLOAT (SFloat (atof (float_text d))).
Proof.
  intros Hd Hk. pose proof (float_text_shape d Hd) as Hs. destruct (float_start _ Hs) as [H1 H2].
  revert Hs H1 H2. generalize (float_text d). intros w Hs H1 H2.
  destruct (leads_float _ Hs) as [Hl|Hl];
    (eapply (token_round _ k _ _ (SFloat (atof w)) _ ends 30); [done|done| |exact Hl|done..]);
    vm_compute; reflexivity.
Qed.
End Tokens.
