(* ===== verification/WriteString.v ===== *)
(** * Written strings

    The string literal that libconfig writes scans back to one token with the
    same characters, whatever bytes the string holds. *)

From Stdlib Require Import SpecFloat.
From S2P Require Import Prelude Double CString Printf Setting Config ConfigWf ConfigProps ConfigApi.
From S2P Require Import ScanCtx Scanner ScannerSpec LexerProps Tokens ConfigRead ConfigWrite WriteTokens.
Local Open Scope Z_scope.

(** The text between the quotes. *)
Fixpoint escape (s : string) : string :=
  match s with EmptyString => EmptyString | String c s' => escape_char c +:+ escape s' end.

Definition quoted_text (s : string) : string :=
  String dquote (escape s +:+ String dquote "").

(** Characters that are written as they are. *)
Definition plain (c : ascii) : bool := (32 <=? uchar c) && negb (uchar c =? 34) && negb (uchar c =? 92).

Lemma plain_escape c : plain c = true -> escape_char c = String c "".
Proof.
  unfold plain, escape_char. rewrite !andb_true_iff, !negb_true_iff. intros [[H1 H2] H3].
  rewrite H2, H3. simpl. repeat (destruct (_ =? _) eqn:E; [apply Z.eqb_eq in E; lia|]; clear E). by rewrite H1.
Qed.

Lemma chr_uchar c : chr (uchar c) = c.
Proof.
  unfold chr. pose proof (uchar_range c). rewrite uwrap_small by done.
  unfold uchar. by rewrite N2Z.id, ascii_N_embedding.
Qed.

(** The rule that scans an escape sequence. *)
Definition escape_rule (c : ascii) : Z :=
  match uchar c with 34 => 12 | 92 => 11 | 10 => 7 | 13 => 8 | 9 => 9 | 12 => 10 | _ => 13 end.

Definition string_states : list Z := [5; 6].

(** The character that the action of rule 13 appends. *)
Definition hex_value (w : string) : ascii :=
  chr (Z.land (strtol 16 (String.substring 2 (String.length w) w)) 255).

Lemma escapes_checked : forallb (fun c => plain c || (c =? NUL)%char ||
  match yy_run 5 (escape_char c) with
  | Some s => walks string_states (escape_char c) [s] && final [s] (fun _ => true) (escape_rule c)
  | None => false end &&
  (negb (escape_rule c =? 13) || (hex_value (escape_char c) =? c)%char)) all_ascii = true.
Proof. vm_compute. reflexivity. Qed.

Section Strings.
Context (fs : string -> option string).

Lemma escape_action c : plain c = false -> c <> NUL ->
  rule_action fs (escape_rule c) (escape_char c) = append_string (String c "").
Proof.
  intros Hp Hn. pose proof escapes_checked as H. rewrite forallb_forall in H.
  specialize (H c (in_all_ascii c)). rewrite Hp in H. apply Ascii.eqb_neq in Hn. rewrite Hn in H. cbn [orb] in H.
  apply andb_prop in H as [_ H].
  destruct (Z.eqb_spec (escape_rule c) 13) as [E|E].
  - simpl in H. apply Ascii.eqb_eq in H. rewrite E. unfold rule_action. cbn [rule_command perform]. f_equal. f_equal. exact H.
  - assert (In (uchar c) [34; 92; 10; 13; 9; 12]) as Hin.
    { unfold escape_rule in E. destruct (uchar c) as [|q|q]; try done.
      repeat (destruct q as [q|q|]; try done); simpl; auto 10. }
    clear -Hin. rewrite <- (chr_uchar c). simpl in Hin.
    repeat destruct Hin as [<- |Hin]; try reflexivity. done.
Qed.

(** Inside a literal that began in state [p0], [b] holding what was scanned. *)
Definition with_string (b : strbuf_t) (ctx : scan_context) : scan_context :=
  {| top_filename := top_filename ctx; files := files ctx; buffers := buffers ctx;
     sc_string := b; sc_filenames := sc_filenames ctx |}.

Definition in_string (p0 : pstate) (b : strbuf_t) (txt : string) (p : pstate) : Prop :=
  exists bf t, rest bf = txt /\
    p = with_yytext t (with_buf bf (with_start STRING (with_scan (with_string b (scan p0)) p0))).

Lemma string_round p0 b p w k T f a : in_string p0 b (w +:+ k) p -> w <> "" ->
  final T f a = true -> leads string_states w T -> starts_with f k ->
  exists p1, yylex_round fs p = rule_action fs a w p1 /\ in_string p0 b k p1.
Proof.
  intros (bf & t & Hr & ->) Hw (Hacc & Ha & Ha' & Hj)%final_spec Hl Hk.
  destruct (yylex_round_eq fs (with_yytext t (with_buf bf (with_start STRING
    (with_scan (with_string b (scan p0)) p0)))) w k a) as (line & E); try done.
  - unfold yy_scan. cbn [yy_start buf with_yytext with_buf with_start with_scan]. rewrite Hr.
    rewrite (yy_match_leads string_states w T f k a); try assumption; [done|].
    destruct (at_bol bf); vm_compute; auto.
  - eexists. split; [exact E|]. exists {| rest := k; at_bol := ends_line w; bs_lineno := line |}, w.
    split; reflexivity.
Qed.

(** The buffer holds [s]. *)
Definition holds (b : strbuf_t) (s : string) : Prop := strbuf_ok b /\ default "" (sb_string b) = s.

Lemma holds_length b s : holds b s -> sb_length b = strlen s.
Proof. intros [[Hb _] <-]. destruct (sb_string b); simpl; destruct Hb as [-> _]; done. Qed.

Lemma c_str_id s : c_string s = true -> c_str s = s.
Proof.
  induction s as [|c s IH]; [done|]. simpl. intros [Hc Hs]%andb_prop. apply negb_true_iff in Hc.
  rewrite Hc. f_equal. auto.
Qed.

Lemma append_string_in p0 b acc k p w : in_string p0 b k p -> holds b acc -> c_string w = true ->
  strlen acc + strlen w + 1 < 2 ^ 63 ->
  exists b' p', append_string w p = (Ret (inl tt), p') /\ in_string p0 b' k p' /\ holds b' (acc +:+ w).
Proof.
  intros (bf & t & Hr & ->) Hb Hw Hlen. pose proof (holds_length b acc Hb) as El. destruct Hb as [Hok Hs].
  destruct (strbuf_append_ok b w Hok) as (b' & E & Hok' & Hs'); [rewrite c_str_id by done; lia|].
  rewrite c_str_id in Hs' by done.
  exists b', (with_yytext t (with_buf bf (with_start STRING (with_scan (with_string b' (scan p0)) p0)))).
  split_and!.
  - unfold append_string. erewrite bind_ret; [|reflexivity].
    unfold scanctx_append_string. cbn [scan with_yytext with_buf with_start with_scan sc_string with_string].
    rewrite E. reflexivity.
  - by exists bf, t.
  - split; [done|]. by rewrite Hs', Hs.
Qed.

(** One step of the scanner on a literal: plain characters, or an escape. *)
Lemma plain_step p0 b acc p w k : in_string p0 b (w +:+ k) p -> holds b acc -> w <> "" ->
  all_chars plain w = true -> starts_with (fun c => (uchar c =? 34) || (uchar c =? 92)) k ->
  c_string w = true -> strlen acc + strlen w + 1 < 2 ^ 63 ->
  exists b' p', yylex_round fs p = (Ret (inl tt), p') /\ in_string p0 b' k p' /\ holds b' (acc +:+ w).
Proof.
  intros Hp Hb Hw Hpl Hk Hc Hlen.
  destruct (string_round p0 b p w k [38; 64] (fun c => (uchar c =? 34) || (uchar c =? 92)) 6 Hp Hw)
    as (p1 & -> & Hp1); [vm_compute; reflexivity| |done|].
  - apply (leads_plus _ plain); [vm_compute; reflexivity..|done|done].
  - by apply (append_string_in p0 b).
Qed.

Lemma escape_step p0 b acc p c k : in_string p0 b (escape_char c +:+ k) p -> holds b acc ->
  plain c = false -> c <> NUL -> strlen acc + 2 < 2 ^ 63 ->
  exists b' p', yylex_round fs p = (Ret (inl tt), p') /\ in_string p0 b' k p' /\
    holds b' (acc +:+ String c "").
Proof.
  intros Hp Hb Hpl Hn Hlen. pose proof escapes_checked as H. rewrite forallb_forall in H.
  specialize (H c (in_all_ascii c)). rewrite Hpl, (proj2 (Ascii.eqb_neq c NUL) Hn) in H. cbn [orb] in H.
  apply andb_prop in H as [H _]. destruct (yy_run 5 (escape_char c)) as [s|]; [|done].
  apply andb_prop in H as [Hw Hf].
  destruct (string_round p0 b p (escape_char c) k [s] (fun _ => true) (escape_rule c) Hp)
    as (p1 & -> & Hp1).
  - unfold escape_char. by repeat case_match.
  - done.
  - by apply leads_walks.
  - by destruct k.
  - rewrite escape_action by done. apply (append_string_in p0 b); try done.
    + simpl. by rewrite (proj2 (Ascii.eqb_neq c NUL) Hn).
    + change (strlen (String c "")) with 1. lia.
Qed.

(** A string is plain up to an escape, or to its end. *)
Lemma span_plain s : exists w r, s = w +:+ r /\ all_chars plain w = true /\
  starts_with (fun c => negb (plain c)) r /\ escape s = w +:+ escape r.
Proof.
  induction s as [|c s (w & r & -> & Hw & Hr & He)]; [by exists "", ""|].
  destruct (plain c) eqn:Hc.
  - exists (String c w), r. split_and!; [done| |done|].
    + simpl. by rewrite Hc, Hw.
    + simpl. rewrite plain_escape, He by done. done.
  - exists "", (String c (w +:+ r)). split_and!; [done|done| |done]. simpl. by rewrite Hc.
Qed.

Lemma end_string_in p0 b acc k p : in_string p0 b k p -> holds b acc ->
  yy_start p0 = INITIAL -> sc_string (scan p0) = empty_strbuf ->
  exists p', end_string p = (Ret (inr (TOK_STRING, SString acc)), p') /\ passed p0 p' k.
Proof.
  intros (bf & t & Hr & ->) [_ <-] Hst Hs.
  exists (with_yytext t (with_buf bf p0)). split; [|by exists bf, t].
  unfold end_string. erewrite bind_ret; [|reflexivity].
  unfold scanctx_take_string, strbuf_release.
  cbn [scan with_yytext with_buf with_start with_scan sc_string with_string].
  munfold. do 2 f_equal. destruct p0 as [? [] ? ? ? ? ? ? ?]. simpl in *. subst. reflexivity.
Qed.
Lemma c_string_app a b : c_string (a +:+ b) = c_string a && c_string b.
Proof.
  induction a as [|c a IH]; [done|]. change (String c a +:+ b) with (String c (a +:+ b)). simpl.
  by rewrite IH, andb_assoc.
Qed.

Lemma escape_nonempty c : (1 <= String.length (escape_char c))%nat.
Proof. unfold escape_char. repeat case_match; simpl; lia. Qed.

Lemma escape_head c k : plain c = false ->
  starts_with (fun c => (uchar c =? 34) || (uchar c =? 92)) (escape_char c +:+ k).
Proof.
  intros Hp.
  assert (forallb (fun c => plain c || match escape_char c with
    String d _ => (uchar d =? 34) || (uchar d =? 92) | _ => false end) all_ascii = true) as H
    by (vm_compute; reflexivity).
  rewrite forallb_forall in H. specialize (H c (in_all_ascii c)). rewrite Hp in H. simpl in H.
  by destruct (escape_char c).
Qed.

(** The rest of a literal, after [acc] was scanned. *)
Lemma literal_lexes p0 k : yy_start p0 = INITIAL -> sc_string (scan p0) = empty_strbuf ->
  forall len s acc b p, (String.length s <= len)%nat -> c_string s = true ->
  strlen acc + strlen s + 1 < 2 ^ 63 -> holds b acc ->
  in_string p0 b (escape s +:+ String dquote k) p ->
  exists n p', lexes fs p n (TOK_STRING, SString (acc +:+ s)) p' /\ passed p0 p' k /\
    (n <= S (String.length (escape s)))%nat.
Proof.
  intros Hst Hsc len. induction len as [|len IH]; intros s acc b p Hl Hc Hlen Hb Hp;
    destruct (span_plain s) as (w & r & -> & Hw & Hr & He).
  all: rewrite c_string_app in Hc; apply andb_prop in Hc as [Hcw Hcr].
  all: rewrite strlen_app in Hlen; rewrite length_append in Hl; rewrite He, string_app_assoc in Hp.
  all: destruct w as [|c w]; [|try (simpl in Hl; lia)].
  - destruct r; [|simpl in Hl; lia].
    destruct (string_round p0 b p (String dquote "") k [39] (fun _ => true) 15 Hp) as (p1 & E & Hp1);
      [done|vm_compute; reflexivity|apply leads_walks; vm_compute; reflexivity|by destruct k|].
    destruct (end_string_in p0 b acc k p1 Hp1 Hb Hst Hsc) as (p' & E' & Hp').
    exists 1%nat, p'. rewrite app_nil_string. split_and!; [apply lexes_token; by rewrite E|done|simpl; lia].
  - destruct r as [|c r].
    { change (strlen "") with 0 in Hlen.
      destruct (IH "" acc b p) as (n & p' & H); [simpl; lia|done|change (strlen "") with 0; lia|done|done|].
      by exists n, p'. }
    simpl in Hr, Hcr. apply negb_true_iff in Hr. apply andb_prop in Hcr as [Hn Hcr].
    apply negb_true_iff, Ascii.eqb_neq in Hn.
    change (strlen (String c r)) with (strlen (String c "" +:+ r)) in Hlen. rewrite strlen_app in Hlen.
    change (strlen (String c "")) with 1 in Hlen. pose proof (strlen_nonneg r). pose proof (strlen_nonneg acc).
    change ("" +:+ escape (String c r) +:+ String dquote k)
      with ((escape_char c +:+ escape r) +:+ String dquote k) in Hp. rewrite string_app_assoc in Hp.
    destruct (escape_step p0 b acc p c _ Hp Hb Hr Hn ltac:(change (strlen "") with 0 in Hlen; lia))
      as (b1 & p1 & E & Hp1 & Hb1).
    destruct (IH r (acc +:+ String c "") b1 p1) as (n & p' & H1 & H2 & H3); try done.
    + simpl in Hl. lia.
    + rewrite strlen_app. change (strlen (String c "")) with 1. change (strlen "") with 0 in Hlen. lia.
    + exists (S n), p'. split_and!; [|done|].
      * eapply lexes_skip; [exact E|]. by rewrite string_app_assoc in H1.
      * simpl. rewrite length_append. pose proof (escape_nonempty c). lia.
  - pose proof (strlen_nonneg r).
    destruct (plain_step p0 b acc p (String c w) (escape r +:+ String dquote k) Hp Hb)
      as (b1 & p1 & E & Hp1 & Hb1); try done; [|lia|].
    { destruct r as [|d r]; [done|]. simpl escape. rewrite string_app_assoc. apply escape_head.
      simpl in Hr. by apply negb_true_iff in Hr. }
    destruct (IH r (acc +:+ String c w) b1 p1) as (n & p' & H1 & H2 & H3); try done.
    + simpl in Hl. lia.
    + rewrite strlen_app. lia.
    + exists (S n), p'. split_and!; [|done|].
      * eapply lexes_skip; [exact E|]. by rewrite string_app_assoc in H1.
      * rewrite He, length_append. simpl. lia.
Qed.

Lemma string_token s k : c_string s = true -> strlen s + 1 < 2 ^ 63 ->
  token_at fs (quoted_text s) k TOK_STRING (SString s).
Proof.
  intros Hc Hl. split; [done|done|]. intros p Hp. pose proof Hp as [Hst Ht Hsc _].
  destruct (initial_round fs p _ (String dquote "") (escape s +:+ String dquote k) [14] (fun _ => true) 5 Hp)
    as (line & E); [|done|vm_compute; reflexivity|apply leads_walks; vm_compute; reflexivity|
                    by destruct (escape s)|].
  { unfold quoted_text. change (String dquote (escape s +:+ String dquote "") +:+ k)
      with (String dquote "" +:+ (escape s +:+ String dquote "") +:+ k). by rewrite string_app_assoc. }
  set (p1 := with_start STRING (scanned_to (String dquote "") (escape s +:+ String dquote k) line p)).
  destruct (literal_lexes p k Hst Hsc (String.length s) s "" empty_strbuf p1) as (n & p' & H1 & H2 & H3);
    [lia|done|change (strlen "") with 0; lia| | |].
  - split; [|done]. split; [done|]. by exists 0.
  - eexists _, _. split; [|subst p1; unfold scanned_to, with_string; destruct p as [? [] ? ? ? ? ? ? ?];
      simpl in *; subst; reflexivity]. done.
  - exists (S n), p', (SString s). split_and!; [|simpl; rewrite length_append; simpl; lia|done|done].
    eapply lexes_skip; [exact E|exact H1].
Qed.
End Strings.
