(* ===== verification/TreeWrite.v ===== *)
(** * Configurations as trees, and the tokens of their text

    The tree that the heap of a configuration holds, and the proof that
    config_write terminates and writes a text whose tokens are those of the
    tree, whatever the options. *)

From Stdlib Require Import SpecFloat.
From S2P Require Import Prelude Double CString Printf Setting Config ConfigWf ConfigProps ConfigApi.
From S2P Require Import ScanCtx Scanner ScannerSpec LexerProps Tokens ConfigRead ConfigWrite.
From S2P Require Import WriteTokens WriteString.
Local Open Scope Z_scope.

(** ** Trees *)

(** A value; integers remember whether they print in hexadecimal. *)
Inductive tree :=
  | TInt (hex : bool) (z : Z)
  | TInt64 (hex : bool) (z : Z)
  | TFloat (d : spec_float)
  | TBool (b : bool)
  | TString (s : string)
  | TArray (ts : list tree)
  | TList (ts : list tree)
  | TGroup (ms : list (string * tree)).

Section TreeInd.
Context (P : tree -> Prop).
Hypothesis P_int : forall h z, P (TInt h z).
Hypothesis P_int64 : forall h z, P (TInt64 h z).
Hypothesis P_float : forall d, P (TFloat d).
Hypothesis P_bool : forall b, P (TBool b).
Hypothesis P_string : forall s, P (TString s).
Hypothesis P_array : forall ts, Forall P ts -> P (TArray ts).
Hypothesis P_list : forall ts, Forall P ts -> P (TList ts).
Hypothesis P_group : forall ms, Forall (fun m => P m.2) ms -> P (TGroup ms).

Fixpoint tree_induction (t : tree) : P t :=
  match t with
  | TInt h z => P_int h z
  | TInt64 h z => P_int64 h z
  | TFloat d => P_float d
  | TBool b => P_bool b
  | TString s => P_string s
  | TArray ts => P_array ts ((fix go ts : Forall P ts := match ts with
      [] => @List.Forall_nil _ P | t :: ts' => @List.Forall_cons _ P t ts' (tree_induction t) (go ts') end) ts)
  | TList ts => P_list ts ((fix go ts : Forall P ts := match ts with
      [] => @List.Forall_nil _ P | t :: ts' => @List.Forall_cons _ P t ts' (tree_induction t) (go ts') end) ts)
  | TGroup ms => P_group ms ((fix go ms : Forall (fun m : string * tree => P m.2) ms := match ms with
      [] => @List.Forall_nil _ _ | m :: ms' => @List.Forall_cons _ _ m ms' (tree_induction m.2) (go ms') end) ms)
  end.
End TreeInd.

(** The elements of an aggregate; an absent list is an empty one. *)
Definition elements_of (v : value) : option (list loc) :=
  (fun o => match o with Some lst => lst.(elements) | None => [] end) <$> as_list v.

(** The format an integer prints in, as config_setting_get_format. *)
Definition prints_hex (c : config) (s : setting) : bool :=
  (if negb (s.(s_format) =? 0) then s.(s_format) else c.(default_format)) =? FORMAT_HEX.

(** The tree at a location, when there is one of depth below the fuel. *)
Fixpoint tree_at (fuel : nat) (c : config) (l : loc) : option tree :=
  match fuel with
  | O => None
  | S n =>
      s ← c.(heap) !! l;
      match s.(s_type) with
      | T_NONE => None
      | T_INT => TInt (prints_hex c s) <$> as_ival s.(s_value)
      | T_INT64 => TInt64 (prints_hex c s) <$> as_llval s.(s_value)
      | T_FLOAT => TFloat <$> as_fval s.(s_value)
      | T_BOOL => (fun z => TBool (i2b z)) <$> as_ival s.(s_value)
      | T_STRING => (fun o => TString (default "" o)) <$> as_sval s.(s_value)
      | T_ARRAY => els ← elements_of s.(s_value); TArray <$> mapM (tree_at n c) els
      | T_LIST => els ← elements_of s.(s_value); TList <$> mapM (tree_at n c) els
      | T_GROUP =>
          els ← elements_of s.(s_value);
          TGroup <$> mapM (fun e =>
            m ← c.(heap) !! e; name ← m.(s_name); t ← tree_at n c e; Some (name, t)) els
      end
  end.

(** The tree of a configuration. *)
Definition config_tree (c : config) : option tree :=
  r ← c.(root); tree_at (destroy_fuel c) c r.

(** ** Tokens of a tree *)

Definition comma : token * semval := (TOK_COMMA, SNone).

Fixpoint commas (l : list (list (token * semval))) : list (token * semval) :=
  match l with
  | [] => []
  | x :: l' => x ++ match l' with [] => [] | _ => comma :: commas l' end
  end.

Section TreeTokens.
(** Whether settings end with semicolons. *)
Variable semi : bool.

Definition terminator : list (token * semval) := if semi then [(TOK_SEMICOLON, SNone)] else [].

Fixpoint tokens (t : tree) : list (token * semval) :=
  match t with
  | TInt hex z => [(if hex then TOK_HEX else TOK_INTEGER, SInt z)]
  | TInt64 hex z => [(if hex then TOK_HEX64 else TOK_INTEGER64, SInt64 z)]
  | TFloat d => [(TOK_FLOAT, SFloat (atof (float_text d)))]
  | TBool b => [(TOK_BOOLEAN, SInt (b2i b))]
  | TString s => [(TOK_STRING, SString s)]
  | TArray ts => (TOK_ARRAY_START, SNone) :: commas (List.map tokens ts) ++ [(TOK_ARRAY_END, SNone)]
  | TList ts => (TOK_LIST_START, SNone) :: commas (List.map tokens ts) ++ [(TOK_LIST_END, SNone)]
  | TGroup ms =>
      (TOK_GROUP_START, SNone) ::
      List.concat (List.map (fun m : string * tree =>
        (TOK_NAME, SString m.1) :: (TOK_EQUALS, SNone) :: tokens m.2 ++ terminator) ms) ++
      [(TOK_GROUP_END, SNone)]
  end.

Definition member_tokens (m : string * tree) : list (token * semval) :=
  (TOK_NAME, SString m.1) :: (TOK_EQUALS, SNone) :: tokens m.2 ++ terminator.
End TreeTokens.

(** ** Trees that the grammar can express *)

(** The type of a scalar; arrays hold scalars of one type. *)
Definition scalar_type (t : tree) : option ctype :=
  match t with
  | TInt _ _ => Some T_INT | TInt64 _ _ => Some T_INT64 | TFloat _ => Some T_FLOAT
  | TBool _ => Some T_BOOL | TString _ => Some T_STRING | _ => None
  end.

Definition homogeneous (ts : list tree) : bool :=
  match ts with
  | [] => true
  | t :: _ => match scalar_type t with
              | Some ty => forallb (fun t' => bool_decide (scalar_type t' = Some ty)) ts
              | None => false
              end
  end.

Fixpoint distinct (l : list string) : bool :=
  match l with [] => true | x :: l' => negb (existsb (String.eqb x) l') && distinct l' end.

Definition writable_name (n : string) : bool :=
  config_validate_name n && c_string n && negb (keyword n).

Fixpoint writable (t : tree) : bool :=
  match t with
  | TInt _ z => is_int z
  | TInt64 _ z => is_int64 z
  | TFloat d => is_finite d
  | TBool _ => true
  | TString s => c_string s && (strlen s + 1 <? 2 ^ 63)
  | TArray ts => homogeneous ts && forallb writable ts
  | TList ts => forallb writable ts
  | TGroup ms => distinct (List.map fst ms) &&
                 forallb (fun m => writable_name m.1 && writable m.2) ms
  end.

(** What reading back makes of a tree: floats keep the digits printed. *)
Fixpoint reread (t : tree) : tree :=
  match t with
  | TFloat d => TFloat (atof (float_text d))
  | TArray ts => TArray (List.map reread ts)
  | TList ts => TList (List.map reread ts)
  | TGroup ms => TGroup (List.map (fun m => (m.1, reread m.2)) ms)
  | t => t
  end.

(** ** Texts and their tokens *)

Section Reads.
Context (fs : string -> option string).

Inductive reads : string -> list (token * semval) -> Prop :=
  | reads_end ws : all_chars white ws = true -> reads ws []
  | reads_token ws w k t v ts : all_chars white ws = true -> token_at fs w k t v -> reads k ts ->
      reads (ws +:+ w +:+ k) ((t, v) :: ts).

Lemma reads_white ws k ts : all_chars white ws = true -> reads k ts -> reads (ws +:+ k) ts.
Proof.
  intros Hw Hk. destruct Hk as [ws'|ws' w k t v ts Hws Ht Hk].
  - constructor. by rewrite all_chars_app, Hw.
  - rewrite <- string_app_assoc. constructor; [|done..]. by rewrite all_chars_app, Hw.
Qed.

Lemma reads_next w k t v ts : token_at fs w k t v -> reads k ts -> reads (w +:+ k) ((t, v) :: ts).
Proof. intros Ht Hk. by apply (reads_token "" w k t v ts). Qed.

Lemma reads_punct c k t s a ts : token_start c = true -> final [s] (fun _ => true) a = true ->
  edges initial_states (fun d => (d =? c)%char) [s] = true ->
  rule_action fs a (String c "") = return_token t SNone ->
  reads k ts -> reads (String c k) ((t, SNone) :: ts).
Proof.
  intros. change (String c k) with (String c "" +:+ k). apply reads_next; [|done].
  by apply (punct_token fs c t s a).
Qed.
End Reads.

(** ** Runs of the writer *)

Section Writing.
Context (fs : string -> option string) (c : config).
Hypothesis Hmoved : moved c = false.

(** [m] returns [a], leaves the configuration as it is and writes [w]. *)
Definition writes {A} (m : WM A) (a : A) (w : string) : Prop := forall out fl,
  m {| w_cfg := c; w_stream := out; w_files := fl |} =
  (Ret a, {| w_cfg := c; w_stream := out +:+ w; w_files := fl |}).

Lemma writes_bind {A B} (m : WM A) (f : A -> WM B) a b w1 w2 :
  writes m a w1 -> writes (f a) b w2 -> writes (m ≫= f) b (w1 +:+ w2).
Proof.
  intros H1 H2 out fl. rewrite (bind_ret _ _ _ _ _ (H1 out fl)), H2. by rewrite string_app_assoc.
Qed.

Lemma writes_pure {A B} (m : WM A) (f : A -> WM B) a b w :
  writes m a "" -> writes (f a) b w -> writes (m ≫= f) b w.
Proof. intros H1 H2. by apply (writes_bind m f a b "" w). Qed.

Lemma writes_ret {A} (a : A) : writes (mret a) a "".
Proof. intros out fl. by rewrite app_nil_string. Qed.

Lemma writes_fputs s : writes (fputs s) tt s.
Proof. intros out fl. done. Qed.

Lemma writes_gets : writes (gets w_cfg) c "".
Proof. intros out fl. rewrite app_nil_string. done. Qed.

Lemma writes_lift {A} w (o : option A) a : o = Some a -> writes (lift_opt w o) a "".
Proof. intros ->. apply writes_ret. Qed.

Lemma writes_on_cfg {A} (m : CM A) a : m c = (Ret a, c) -> writes (on_cfg m) a "".
Proof. intros E out fl. unfold on_cfg. simpl. rewrite E, app_nil_string. done. Qed.

Lemma writes_deref l s : heap c !! l = Some s -> writes (on_cfg (deref l)) s "".
Proof. intros E. by apply writes_on_cfg, deref_live. Qed.

Definition format_of (s : setting) : Z :=
  if negb (s.(s_format) =? 0) then s.(s_format) else c.(default_format).

Lemma writes_format l s : heap c !! l = Some s ->
  writes (on_cfg (config_setting_get_format l)) (format_of s) "".
Proof using Hmoved.
  intros E. apply writes_on_cfg. unfold config_setting_get_format, format_of.
  rewrite (bind_ret _ _ _ _ _ (deref_live l s c E)).
  destruct (negb (s_format s =? 0)); [done|]. unfold setting_config. munfold. by rewrite Hmoved.
Qed.

(** White space: a writer of it, and an optional one. *)
Definition writes_white (m : WM unit) : Prop := exists w, writes m tt w /\ all_chars white w = true.

Lemma white_none : writes_white (mret tt).
Proof. exists "". split; [apply writes_ret|done]. Qed.

Lemma white_bind m1 m2 : writes_white m1 -> writes_white m2 -> writes_white (m1;; m2).
Proof.
  intros (w1 & H1 & W1) (w2 & H2 & W2). exists (w1 +:+ w2). split; [by apply (writes_bind _ _ tt)|].
  by rewrite all_chars_app, W1, W2.
Qed.

Lemma white_if (b : bool) m : writes_white m -> writes_white (if b then m else mret tt).
Proof. destruct b; [done|]. intros _. apply white_none. Qed.

Lemma repeat_white n x : all_chars white x = true -> all_chars white (repeat_string n x) = true.
Proof. intros Hx. induction n as [|n IH]; [done|]. simpl. by rewrite all_chars_app, Hx, IH. Qed.

Lemma white_indent d w : writes_white (config_indent d w).
Proof.
  unfold config_indent. destruct (i2b w); (eexists; split; [apply writes_fputs|]); by apply repeat_white.
Qed.

Lemma white_newline : writes_white (fputc newline).
Proof. eexists. split; [apply writes_fputs|done]. Qed.

(** ** Values *)

Let semi : bool := has_option c OPTION_SEMICOLON_SEPARATORS.

(** [m] writes the tokens [ts]; a character that ends values follows. *)
Definition spells (m : WM unit) (ts : list (token * semval)) : Prop :=
  exists w, writes m tt w /\
    forall k rest, starts_with ends k -> reads fs k rest -> reads fs (w +:+ k) (ts ++ rest).

(** The same, whatever follows. *)
Definition spells_all (m : WM unit) (ts : list (token * semval)) : Prop :=
  exists w, writes m tt w /\ forall k rest, reads fs k rest -> reads fs (w +:+ k) (ts ++ rest).

Lemma spells_all_bind m1 m2 t1 t2 : spells_all m1 t1 -> spells_all m2 t2 -> spells_all (m1;; m2) (t1 ++ t2).
Proof.
  intros (w1 & H1 & R1) (w2 & H2 & R2). exists (w1 +:+ w2). split; [by apply (writes_bind _ _ tt)|].
  intros k rest Hk. rewrite string_app_assoc, <- app_assoc. by apply R1, R2.
Qed.

Lemma white_spells m : writes_white m -> spells_all m [].
Proof. intros (w & H & W). exists w. split; [done|]. intros k rest Hk. by apply reads_white. Qed.

Lemma spells_white_bind m1 m2 ts : writes_white m1 -> spells_all m2 ts -> spells_all (m1;; m2) ts.
Proof. intros H1 H2. by apply (spells_all_bind m1 m2 [] ts); [apply white_spells|]. Qed.

(** After a value, a text that begins with a character that ends it. *)
Lemma spells_then m1 m2 t1 t2 : spells m1 t1 ->
  (exists w, writes m2 tt w /\ w <> "" /\ starts_with ends w /\
     forall k rest, reads fs k rest -> reads fs (w +:+ k) (t2 ++ rest)) ->
  spells_all (m1;; m2) (t1 ++ t2).
Proof.
  intros (w1 & H1 & R1) (w2 & H2 & Hn & He & R2). exists (w1 +:+ w2).
  split; [by apply (writes_bind _ _ tt)|]. intros k rest Hk. rewrite string_app_assoc, <- app_assoc.
  apply R1; [|by apply R2]. by destruct w2.
Qed.

Lemma spells_token w t v : (forall k, starts_with ends k -> token_at fs w k t v) ->
  spells (fputs w) [(t, v)].
Proof.
  intros H. exists w. split; [apply writes_fputs|]. intros k rest Hk Hr. apply reads_next; [by apply H|done].
Qed.

Lemma spells_weaken m ts : spells_all m ts -> spells m ts.
Proof. intros (w & H & R). exists w. split; [done|]. intros k rest _. apply R. Qed.

Lemma write_chars_text s : writes (write_chars s) tt (escape s).
Proof.
  induction s as [|ch s IH]; [apply writes_ret|]. simpl. by apply (writes_bind _ _ tt); [apply writes_fputs|].
Qed.

Lemma spells_string o : c_string (default "" o) = true -> strlen (default "" o) + 1 < 2 ^ 63 ->
  spells (write_string o) [(TOK_STRING, SString (default "" o))].
Proof.
  intros Hc Hl. exists (quoted_text (default "" o)). split.
  - unfold write_string, quoted_text. change (String dquote ?x) with (String dquote "" +:+ x).
    apply (writes_bind _ _ tt); [apply writes_fputs|].
    apply (writes_bind _ _ tt); [|apply writes_fputs].
    destruct o as [s|]; [apply write_chars_text|apply writes_ret].
  - intros k rest Hk Hr. apply reads_next; [by apply string_token|done].
Qed.

Lemma write_int_spells z f : is_int z = true ->
  spells (write_int z f) [(if f =? FORMAT_HEX then TOK_HEX else TOK_INTEGER, SInt z)].
Proof.
  intros Hz. unfold write_int. destruct (f =? FORMAT_HEX); apply spells_token; intros k Hk.
  - by apply hex_token.
  - by apply int_token.
Qed.

Lemma write_int64_spells z f : is_int64 z = true ->
  spells (write_int64 z f) [(if f =? FORMAT_HEX then TOK_HEX64 else TOK_INTEGER64, SInt64 z)].
Proof.
  intros Hz. unfold write_int64. destruct (f =? FORMAT_HEX); apply spells_token; intros k Hk.
  - by apply hex64_token.
  - by apply int64_token.
Qed.

(** The writer of values, one level further down. *)
Section Level.
Context (write_value : value -> ctype -> Z -> Z -> WM unit) (shape : loc -> option tree).
Hypothesis Hvalue : forall l s t d, heap c !! l = Some s -> shape l = Some t -> writable t = true -> 0 < d ->
  spells (write_value (s_value s) (s_type s) (format_of s) d) (tokens semi t).
Hypothesis Hlive : forall l t, shape l = Some t -> is_Some (heap c !! l).

Lemma elems_spell els ts d : Forall2 (fun e t => shape e = Some t) els ts ->
  forallb writable ts = true -> 0 <= d ->
  spells_all (write_elems write_value els d) (commas (List.map (tokens semi) ts)).
Proof using Hmoved Hvalue Hlive.
  intros H Hw Hd. induction H as [|e t els ts He Hels IH].
  { apply white_spells, white_none. }
  simpl in Hw. apply andb_prop in Hw as [Ht Hw]. destruct (Hlive e t He) as [s Hs].
  destruct (Hvalue e s t (d + 1) Hs He Ht ltac:(lia)) as (w1 & H1 & R1).
  destruct (IH Hw) as (w2 & H2 & R2). cbn [write_elems List.map commas].
  assert (spells_all (write_value (s_value s) (s_type s) (format_of s) (d + 1);;
    match els with [] => mret tt | _ => fputc "," end;; fputc " ";; write_elems write_value els d)
    (tokens semi t ++ match List.map (tokens semi) ts with [] => [] | _ => comma :: commas (List.map (tokens semi) ts) end))
    as (w & Hw' & Rw).
  { apply spells_then; [by exists w1|]. destruct Hels as [|e' t' els' ts' He' Hels'].
    - exists " ". split_and!; [|done|done|].
      + change " " with ("" +:+ " " +:+ ""). apply (writes_bind _ _ tt); [apply writes_ret|].
        apply (writes_bind _ _ tt); [apply writes_fputs|apply writes_ret].
      + intros k rest Hk. by apply (reads_white fs " ").
    - exists ("," +:+ " " +:+ w2). split_and!; [|done|done|].
      + apply (writes_bind _ _ tt); [apply writes_fputs|]. by apply (writes_bind _ _ tt); [apply writes_fputs|].
      + intros k rest Hk. rewrite !string_app_assoc.
        change ("," +:+ ?x) with (String "," x).
        apply (reads_punct fs _ _ _ 20 24); [vm_compute; reflexivity..|done|].
        apply (reads_white fs " "); [done|]. by apply R2. }
  exists w. split; [|done].
  eapply writes_pure; [by apply writes_deref|]. eapply writes_pure; [by apply writes_format|]. exact Hw'.
Qed.

(** A member: its name, a separator, its value and the end of the line. *)
Definition assign_text (t : ctype) : string := String " " (String (assign_char c t) " ").

Lemma assign_reads t k rest : reads fs k rest ->
  reads fs (assign_text t +:+ k) ((TOK_EQUALS, SNone) :: rest).
Proof using.
  intros Hk. change (assign_text t +:+ k) with (" " +:+ String (assign_char c t) (" " +:+ k)).
  apply reads_white; [done|]. unfold assign_char.
  assert (reads fs (" " +:+ k) rest) by (by apply reads_white).
  match goal with |- context [if has_option c ?o then _ else _] => destruct (has_option c o) end;
    (apply (reads_punct fs _ _ _ 25 23); [vm_compute; reflexivity..|done]).
Qed.

Lemma member_spells e s name t d : heap c !! e = Some s -> s_name s = Some name ->
  shape e = Some t -> writable_name name = true -> writable t = true -> 0 < d ->
  spells_all (write_setting_with write_value e d) (member_tokens semi (name, t)).
Proof using Hmoved Hvalue.
  intros Hs Hn He Hwn Hw Hd. unfold write_setting_with.
  destruct (Hvalue e s t d Hs He Hw Hd) as (wv & Hv & Rv).
  unfold writable_name in Hwn. rewrite !andb_true_iff, negb_true_iff in Hwn. destruct Hwn as [[Hvn Hcn] Hkw].
  assert ((0 <? d) = true) as Ed by (apply Z.ltb_lt; lia).
  set (tail := (if semi then ";" else "") +:+ String newline "").
  destruct (white_if (1 <? d) _ (white_indent d (tab_width c))) as (wi & Hi & Wi).
  exists (wi +:+ name +:+ assign_text (s_type s) +:+ wv +:+ tail). split.
  - eapply writes_pure; [apply writes_gets|]. eapply writes_bind; [exact Hi|].
    eapply writes_pure; [by apply writes_deref|]. rewrite Hn. rewrite <- (string_app_assoc name).
    eapply writes_bind; [eapply writes_bind; apply writes_fputs|].
    eapply writes_pure; [by apply writes_format|]. eapply writes_bind; [exact Hv|].
    rewrite Ed. eapply writes_bind; [|apply writes_fputs].
    unfold semi. destruct (has_option c _); [apply writes_fputs|apply writes_ret].
  - intros k rest Hk. rewrite !string_app_assoc. apply reads_white; [done|].
    unfold member_tokens. cbn [fst snd app]. apply reads_next; [apply name_token; by try split|].
    apply assign_reads. rewrite <- app_assoc. apply Rv.
    + unfold tail. by destruct semi.
    + unfold tail, terminator. destruct semi.
      * change ((";" +:+ String newline "") +:+ k) with (String ";" (String newline "" +:+ k)).
        apply (reads_punct fs _ _ _ 26 39); [vm_compute; reflexivity..|]. by apply reads_white.
      * by apply (reads_white fs (String newline "")).
Qed.

Lemma members_spell els ms d : Forall2 (fun e m => exists s, heap c !! e = Some s /\
    s_name s = Some m.1 /\ shape e = Some m.2) els ms ->
  forallb (fun m => writable_name m.1 && writable m.2) ms = true -> 0 <= d ->
  spells_all (write_members write_value els d) (List.concat (List.map (member_tokens semi) ms)).
Proof using Hmoved Hvalue.
  intros H Hw Hd. induction H as [|e m els ms (s & Hs & Hn & He) Hels IH].
  { apply white_spells, white_none. }
  simpl in Hw. apply andb_prop in Hw as [Hm Hw]. apply andb_prop in Hm as [Hnm Hm].
  cbn [write_members List.map List.concat]. apply spells_all_bind; [|by apply IH].
  destruct m as [name t]. apply (member_spells e s); try done. lia.
Qed.
End Level.

(** ** The whole tree *)

Lemma tree_at_live n l t : tree_at n c l = Some t -> is_Some (heap c !! l).
Proof. destruct n as [|n]; [done|]. simpl. by destruct (heap c !! l). Qed.

Lemma members_forall n els ms :
  mapM (fun e => m ← heap c !! e; name ← s_name m; t ← tree_at n c e; Some (name, t)) els = Some ms ->
  Forall2 (fun e m => exists s, heap c !! e = Some s /\ s_name s = Some m.1 /\ tree_at n c e = Some m.2)
    els ms.
Proof.
  intros H%mapM_Some. eapply Forall2_impl; [exact H|]. simpl. intros e [name t].
  destruct (heap c !! e) as [s|]; [|done]. simpl. destruct (s_name s) as [nm|] eqn:E; [|done]. simpl.
  destruct (tree_at n c e); [|done]. intros [= <- <-]. exists s. by rewrite E.
Qed.

Lemma elements_as_list v els : elements_of v = Some els ->
  exists o, as_list v = Some o /\ match o with Some lst => elements lst | None => [] end = els.
Proof. unfold elements_of. destruct (as_list v) as [o|]; [|done]. intros [= <-]. by exists o. Qed.

(** The induction hypothesis: values below depth [n] spell their tokens. *)
Definition values_spell (n : nat) : Prop := forall l s t d, heap c !! l = Some s ->
  tree_at n c l = Some t -> writable t = true -> 0 < d ->
  spells (config_write_value n (s_value s) (s_type s) (format_of s) d) (tokens semi t).

(** A list or an array, between its brackets. *)
Lemma vector_spells n l r tl tr els ts d : values_spell n ->
  (forall k rest, reads fs k rest -> reads fs (String l k) ((tl, SNone) :: rest)) ->
  (forall k rest, reads fs k rest -> reads fs (String r k) ((tr, SNone) :: rest)) ->
  mapM (tree_at n c) els = Some ts -> forallb writable ts = true -> 0 <= d ->
  spells_all (fputs (String l " ");; write_elems (config_write_value n) els d;; fputs (String r ""))
    ((tl, SNone) :: commas (List.map (tokens semi) ts) ++ [(tr, SNone)]).
Proof using Hmoved.
  intros Hn Hl Hr Hels%mapM_Some Hw Hd. apply (spells_all_bind _ _ [(tl, SNone)]).
  - exists (String l " "). split; [apply writes_fputs|]. intros k rest Hk.
    apply (Hl (" " +:+ k)). by apply reads_white.
  - apply spells_all_bind.
    + apply (elems_spell _ (tree_at n c)); [exact Hn|apply tree_at_live|done..].
    + exists (String r ""). split; [apply writes_fputs|]. intros k rest Hk. by apply (Hr k).
Qed.

Lemma group_spells n els ms d : values_spell n -> 0 <= d ->
  mapM (fun e => m ← heap c !! e; name ← s_name m; t ← tree_at n c e; Some (name, t)) els = Some ms ->
  forallb (fun m => writable_name m.1 && writable m.2) ms = true ->
  spells_all (write_members (config_write_value n) els d) (List.concat (List.map (member_tokens semi) ms)).
Proof using Hmoved.
  intros Hn Hd Hels%members_forall Hw. by apply (members_spell _ (tree_at n c)).
Qed.

Lemma opening_spells d : 0 < d -> spells_all
  (if 0 <? d then
     (if has_option c OPTION_OPEN_BRACE_ON_SEPARATE_LINE then
        fputc newline;; if 1 <? d then config_indent d (tab_width c) else mret tt
      else mret tt);;
     fputs ("{" +:+ String newline "")
   else mret tt) [(TOK_GROUP_START, SNone)].
Proof using.
  intros Hd. rewrite (proj2 (Z.ltb_lt 0 d)) by lia. apply spells_white_bind.
  { apply white_if, white_bind; [apply white_newline|apply white_if, white_indent]. }
  eexists. split; [apply writes_fputs|]. intros k rest Hk.
  change (("{" +:+ String newline "") +:+ k) with (String "{" (String newline "" +:+ k)).
  apply (reads_punct fs _ _ _ 31 25); [vm_compute; reflexivity..|]. by apply reads_white.
Qed.

Lemma closing_spells d : 0 < d -> spells_all
  ((if 1 <? d then config_indent d (tab_width c) else mret tt);; if 0 <? d then fputs "}" else mret tt)
  [(TOK_GROUP_END, SNone)].
Proof using.
  intros Hd. rewrite (proj2 (Z.ltb_lt 0 d)) by lia. apply spells_white_bind; [apply white_if, white_indent|].
  eexists. split; [apply writes_fputs|]. intros k rest Hk.
  apply (reads_punct fs "}" k _ 32 26); [vm_compute; reflexivity..|done].
Qed.

(** Reads a member of the union and goes on. *)
Lemma spells_lift {A} w (o : option A) (f : A -> WM unit) a ts :
  o = Some a -> spells (f a) ts -> spells (lift_opt w o ≫= f) ts.
Proof.
  intros Ho (wt & Hw & R). exists wt. split; [|done]. eapply writes_pure; [by apply writes_lift|exact Hw].
Qed.

Ltac split_some := repeat match goal with
  | H : (_ <$> ?o) = Some _ |- _ => let E := fresh "E" in destruct o eqn:E; [|done]; injection H as <-
  | H : (?o ≫= _) = Some _ |- _ => let E := fresh "E" in destruct o eqn:E; [|done]; simpl in H
  end.

Lemma value_spells n : values_spell n.
Proof using Hmoved.
  induction n as [|n IH]; intros l s t d Hs Ht Hw Hd; [done|]. cbn [tree_at] in Ht. rewrite Hs in Ht.
  cbn [mbind option_bind] in Ht. cbn [config_write_value].
  destruct (s_type s); [done|..].
  - (* group *)
    destruct (elements_of (s_value s)) as [els|] eqn:Eels; [|done]. cbn [mbind option_bind] in Ht.
    destruct (mapM _ els) as [ms|] eqn:Em; [|done]. injection Ht as <-.
    destruct (elements_as_list _ _ Eels) as (o & Eo & <-). eapply spells_lift; [exact Eo|].
    cbn [writable] in Hw. apply andb_prop in Hw as [_ Hw].
    apply spells_weaken. destruct (spells_all_bind _ _ _ _ (opening_spells d Hd)
      (spells_all_bind _ _ _ _ (group_spells n _ ms d IH ltac:(lia) Em Hw) (closing_spells d Hd)))
      as (w & H & R).
    exists w. split; [|exact R]. eapply writes_pure; [apply writes_gets|exact H].
  - split_some. eapply spells_lift; [reflexivity|]. by apply write_int_spells.
  - split_some. eapply spells_lift; [reflexivity|]. by apply write_int64_spells.
  - split_some. eapply spells_lift; [reflexivity|]. apply spells_token. intros k Hk. by apply float_token.
  - split_some. eapply spells_lift; [reflexivity|]. cbn [writable] in Hw. apply andb_prop in Hw as [Hc Hl].
    apply Z.ltb_lt in Hl. by apply spells_string.
  - split_some. eapply spells_lift; [reflexivity|]. apply spells_token. intros k Hk. by apply bool_token.
  - destruct (elements_of (s_value s)) as [els|] eqn:Eels; [|done]. cbn [mbind option_bind] in Ht.
    destruct (mapM _ els) as [ts|] eqn:Em; [|done]. injection Ht as <-.
    destruct (elements_as_list _ _ Eels) as (o & Eo & <-). eapply spells_lift; [exact Eo|].
    cbn [writable] in Hw. apply andb_prop in Hw as [_ Hw]. apply spells_weaken.
    apply (vector_spells n "[" "]"); [exact IH| | |done..|lia].
    + intros k rest. by apply (reads_punct fs _ _ _ 29 35); vm_compute.
    + intros k rest. by apply (reads_punct fs _ _ _ 30 36); vm_compute.
  - destruct (elements_of (s_value s)) as [els|] eqn:Eels; [|done]. cbn [mbind option_bind] in Ht.
    destruct (mapM _ els) as [ts|] eqn:Em; [|done]. injection Ht as <-.
    destruct (elements_as_list _ _ Eels) as (o & Eo & <-). eapply spells_lift; [exact Eo|].
    cbn [writable] in Hw. apply spells_weaken.
    apply (vector_spells n "(" ")"); [exact IH| | |done..|lia].
    + intros k rest. by apply (reads_punct fs _ _ _ 16 37); vm_compute.
    + intros k rest. by apply (reads_punct fs _ _ _ 17 38); vm_compute.
Qed.

(** The root is written without braces. *)
Lemma config_write_ok ms : wf c -> config_tree c = Some (TGroup ms) -> writable (TGroup ms) = true ->
  exists w, writes config_write tt w /\ reads fs w (List.concat (List.map (member_tokens semi) ms)).
Proof using Hmoved.
  intros Hwf Ht Hw. unfold config_tree in Ht. destruct (wf_root c Hwf) as (r & s & Hr & Hs & _ & Hty & Hname).
  rewrite Hr in Ht. cbn [mbind option_bind] in Ht. cbn [writable] in Hw. apply andb_prop in Hw as [_ Hw].
  destruct (destroy_fuel c) as [|n] eqn:Ef; [done|]. cbn [tree_at] in Ht. rewrite Hs in Ht.
  cbn [mbind option_bind] in Ht. rewrite Hty in Ht.
  destruct (elements_of (s_value s)) as [els|] eqn:Eels; [|done]. cbn [mbind option_bind] in Ht.
  destruct (mapM _ els) as [ms'|] eqn:Em; [|done]. injection Ht as ->.
  destruct (elements_as_list _ _ Eels) as (o & Eo & Ho).
  destruct (group_spells n els ms 0 (value_spells n) ltac:(lia) Em Hw) as (w & H & R).
  exists w. split.
  - unfold config_write. eapply writes_pure; [apply writes_gets|].
    eapply writes_pure; [apply writes_on_cfg; by rewrite Hr|]. rewrite Ef. unfold config_write_setting, write_setting_with.
    eapply writes_pure; [apply writes_gets|]. eapply writes_pure; [apply writes_ret|].
    eapply writes_pure; [by apply writes_deref|]. rewrite Hname.
    eapply writes_pure; [apply writes_ret|]. eapply writes_pure; [by apply writes_format|].
    rewrite <- (app_nil_string w). eapply writes_bind; [|apply writes_ret].
    rewrite Hty. cbn [config_write_value]. eapply writes_pure; [by apply writes_lift|].
    eapply writes_pure; [apply writes_gets|]. eapply writes_pure; [apply writes_ret|].
    rewrite <- (app_nil_string w). eapply writes_bind; [rewrite Ho; exact H|].
    eapply writes_pure; [apply writes_ret|]. apply writes_ret.
  - specialize (R "" [] (reads_end fs "" eq_refl)). by rewrite app_nil_string, app_nil_r in R.
Qed.
End Writing.
