(* ===== verification/ParserSafe.v ===== *)
(** * Parsing is safe and ends

    The semantic actions keep the configuration well formed and the current
    setting and parent where the stack says they are; every round of yyparse
    uses up input or lowers a rank; so reading any text ends, with a well-formed
    configuration and success or a reported error. *)

From Stdlib Require Import SpecFloat.
From S2P Require Import Prelude Double CString Setting Config ConfigWf ConfigProps ConfigTree ConfigApi.
From S2P Require Import ScanCtx Scanner ScannerSpec LexerProps Grammar ParserProps ConfigRead.
Local Open Scope Z_scope.

(** ** The chain of open aggregates *)

Fixpoint opened (c : config) (l : option loc) (fr : list ctype) : Prop :=
  match fr with
  | [] => l = None
  | t :: fr' => exists k s, l = Some k /\ heap c !! k = Some s /\ s_type s = t /\
      is_aggregate t = true /\ opened c (s_parent s) fr'
  end.

Lemma opened_grows c c' fr : grows c c' -> forall l, opened c l fr -> opened c' l fr.
Proof.
  intros Hg. induction fr as [|t fr IH]; intros l; simpl; [done|].
  intros (k & s & -> & Hs & Ht & Ha & Ho). destruct (gr_keeps _ _ Hg k s Hs) as (s' & Hs' & Hp & _ & Ht').
  exists k, s'. rewrite Hp. split_and!; [done|done| |done|by apply IH]. rewrite Ht'; congruence.
Qed.

Lemma opened_heap c c' fr : heap c' = heap c -> forall l, opened c l fr -> opened c' l fr.
Proof. intros Hh. induction fr as [|t fr IH]; intros l; simpl; [done|]. rewrite Hh.
  intros (k & s & ? & ? & ? & ? & ?). exists k, s. auto 10.
Qed.

(** What the stack says about the parse state. *)
Record ready (fr : list ctype) (pend : bool) (p : pstate) : Prop := {
  rd_sound : sound (cfg p);
  rd_open : opened (cfg p) (pc_parent p) fr;
  rd_setting : pend = true -> exists l s, pc_setting p = Some l /\ heap (cfg p) !! l = Some s /\
    s_type s = T_NONE /\ s_parent s = pc_parent p;
  rd_string : strbuf_ok (pc_string p)
}.

(** The scanner's part of the state, which actions leave alone. *)
Record acted (p p' : pstate) : Prop := {
  ac_scan : scan p' = scan p; ac_buf : buf p' = buf p; ac_start : yy_start p' = yy_start p;
  ac_text : yytext p' = yytext p
}.

Lemma acted_refl p : acted p p.
Proof. by split. Qed.
Lemma acted_trans p1 p2 p3 : acted p1 p2 -> acted p2 p3 -> acted p1 p3.
Proof. intros [] []. split; congruence. Qed.

(** How an action ends. *)
Definition action_ends (p : pstate) (fr : list ctype) (pend : bool) (room : Z)
    (e : ending) (p' : pstate) : Prop :=
  acted p p' /\ sb_length (pc_string p') <= room /\
  match e with
  | Normal => ready fr pend p'
  | YYABORT => sound (cfg p') /\ is_Some (error_text (cfg p'))
  end.

Lemma returns_on_config {A} (m : CM A) p (P : A -> pstate -> Prop) :
  returns m (cfg p) (fun a c' => P a (with_cfg c' p)) -> returns (on_config m) p P.
Proof. intros (a & c' & E & HP). exists a, (with_cfg c' p). unfold on_config. by rewrite E. Qed.

(** yyerror sets the error text unless there is one. *)
Lemma returns_yyerror s p (P : unit -> pstate -> Prop) :
  (forall p', acted p p' -> same_tree (cfg p) (cfg p') -> is_Some (error_text (cfg p')) ->
     pc_parent p' = pc_parent p -> pc_setting p' = pc_setting p -> pc_string p' = pc_string p -> P tt p') ->
  returns (libconfig_yyerror s) p P.
Proof.
  intros HP. apply returns_modify. destruct (error_text (cfg p)) eqn:E.
  - by apply HP.
  - by apply HP.
Qed.

Lemma sound_same_tree c c' : same_tree c c' -> sound c -> sound c'.
Proof. intros Ht [Hwf Hm]. split; [by eapply wf_same_tree|]. by rewrite (st_moved _ _ Ht). Qed.

(** Recording a position keeps the tree. *)
Lemma returns_capture l s p (P : unit -> pstate -> Prop) : sound (cfg p) ->
  heap (cfg p) !! l = Some s ->
  (forall c', grows (cfg p) c' -> (exists s', heap c' !! l = Some s' /\ s_type s' = s_type s /\
     s_parent s' = s_parent s) -> P tt (with_cfg c' p)) -> returns (capture_parse_pos l) p P.
Proof.
  intros [Hwf Hm] Hs HP. unfold capture_parse_pos. rnext. apply returns_get.
  apply returns_on_config, (returns_update l _ s); [done|].
  apply HP; [by apply (grows_field (cfg p) l s)|].
  exists (set_pos (bs_lineno (buf p)) (scanctx_current_filename (scan p)) s). split_and!; [|done|done].
  simpl. by rewrite lookup_insert_eq.
Qed.

Lemma error_ends s p fr room pend : sound (cfg p) -> sb_length (pc_string p) <= room ->
  returns (libconfig_yyerror s;; mret YYABORT) p (action_ends p fr pend room).
Proof.
  intros Hs Hr. rnext. apply returns_yyerror. intros p' Ha Ht Her _ _ E. apply returns_ret.
  split; [done|]. rewrite E. split_and!; [done| |done]. by eapply sound_same_tree.
Qed.

Section Actions.
Context (p : pstate) (fr : list ctype) (pend : bool).
Context (Hp : ready fr pend p).

Lemma parent_live t fr' : fr = t :: fr' -> exists l s, pc_parent p = Some l /\
  heap (cfg p) !! l = Some s /\ s_type s = t /\ is_aggregate t = true /\ opened (cfg p) (s_parent s) fr'.
Proof using Hp. intros E. pose proof (rd_open _ _ _ Hp) as Ho. by rewrite E in Ho. Qed.

(** IN_ARRAY and IN_LIST. *)
Lemma returns_parent_is t t' fr' (P : bool -> pstate -> Prop) : fr = t :: fr' ->
  P (bool_decide (t = t')) p ->
  returns (x ← parent_type; mret (bool_decide (x = Some t'))) p P.
Proof using Hp.
  intros E HP. destruct (parent_live t fr' E) as (l & s & Hl & Hs & Ht & _).
  rnext. unfold parent_type. rnext. apply returns_get. rewrite Hl. rnext.
  apply returns_on_config, (returns_deref l s); [done|]. apply returns_ret. apply returns_ret.
  replace (bool_decide (Some (s_type s) = Some t')) with (bool_decide (t = t'))
    by (apply bool_decide_ext; rewrite Ht; split; congruence).
  by destruct p.
Qed.

(** The configuration grew. *)
Lemma ready_grows c' pend' : grows (cfg p) c' ->
  (pend' = true -> exists l s, pc_setting p = Some l /\ heap c' !! l = Some s /\ s_type s = T_NONE /\
    s_parent s = pc_parent p) ->
  ready fr pend' (with_cfg c' p).
Proof using Hp.
  intros Hg Hpd. destruct Hp as [[Hwf Hm] Ho _ Hst]. split; simpl; try done.
  - by eapply sound_grows.
  - by eapply opened_grows.
Qed.

(** Rule 11 *)
Lemma add_setting_ends v name : fr = T_GROUP :: tail fr ->
  sval_of v p = (Ret name, p) -> c_string name = true ->
  returns (add_setting v) p (action_ends p fr true (sb_length (pc_string p))).
Proof using Hp.
  intros Hfr Hv Hc. destruct (parent_live _ _ Hfr) as (l & s & Hl & Hs & Ht & _).
  pose proof Hp as [[Hwf Hm] Ho _ Hst].
  unfold add_setting. rnext. exists name, p. split; [done|]. rnext. apply returns_get. rnext.
  apply returns_on_config. rewrite Hl.
  apply (returns_add (cfg p) l s); try done; [by intros ? [= <-]| |].
  - intros _. rnext. apply returns_modify.
    set (p1 := with_setting None _).
    eapply returns_mono; [|by apply (error_ends err_duplicate_setting p1)].
    intros e p' (Ha & Hr & He). split; [|by split]. eapply acted_trans; [|done]. by split.
  - intros t c' Ety _ Hg Hn _ _ He _. rnext. apply returns_modify.
    set (p1 := with_setting _ _).
    assert (sound (cfg p1)) as Hs1 by (by eapply sound_grows).
    rnext. eapply (returns_capture _ _ p1); [done|exact He|].
    intros c2 Hg2 (s2 & Hs2 & Ht2 & Hp2). apply returns_ret. split; [by split|]. split; [done|].
    injection Ety as <-. simpl in Ht2, Hp2.
    assert (grows (cfg p) c2) as Hg12 by (by eapply grows_trans).
    split; simpl; [by eapply sound_grows|by eapply opened_grows| |done].
    intros _. exists (next (cfg p)), s2. by rewrite Hl.
Qed.

(** Rules 13, 15 and 38, on the value of a setting *)
Lemma open_value_ends t : fr = T_GROUP :: tail fr -> pend = true -> is_aggregate t = true ->
  returns (open_aggregate t) p (action_ends p (t :: fr) false (sb_length (pc_string p))).
Proof using Hp.
  intros Hfr Hpd Ha. pose proof Hp as [[Hwf Hm] Ho Hset Hst].
  destruct (Hset Hpd) as (l & s & Hl & Hs & Ht & Hpar).
  unfold open_aggregate, IN_LIST. rnext. apply (returns_parent_is T_GROUP _ _ _ Hfr).
  simpl. rnext. apply returns_get. rewrite Hl. rnext. apply returns_ret. rnext.
  apply returns_on_config, (returns_update l _ s); [done|].
  rnext. apply returns_modify. apply returns_ret.
  pose proof (wf_value (cfg p) Hwf l s Hs) as Hv. rewrite Ht in Hv.
  assert (s_value s = VZero) as Ez by (by destruct (s_value s)).
  assert (grows (cfg p) (with_heap (<[l := set_type t s]> (heap (cfg p))) (cfg p))) as Hg.
  { apply (grows_store _ l s); try done; [|by rewrite Ht].
    split; simpl; try done; [|rewrite Ez; by destruct t]. right. rewrite Ht.
    split; [by apply children_zero|done]. }
  split; [by split|]. split; [done|].
  split; simpl; try done; [by eapply sound_grows|].
  exists l, (set_type t s). split_and!; [done|by rewrite lookup_insert_eq|done|done|].
  simpl. rewrite Hpar. by eapply opened_grows.
Qed.

(** ... and on an element of a list *)
Lemma open_element_ends t : fr = T_LIST :: tail fr -> is_aggregate t = true ->
  returns (open_aggregate t) p (action_ends p (t :: fr) false (sb_length (pc_string p))).
Proof using Hp.
  intros Hfr Ha. destruct (parent_live _ _ Hfr) as (l & s & Hl & Hs & Ht & _ & Ho').
  pose proof Hp as [[Hwf Hm] Ho _ Hst].
  unfold open_aggregate, IN_LIST. rnext. apply (returns_parent_is T_LIST _ _ _ Hfr).
  simpl. rnext. apply returns_get. rewrite Hl. rnext. apply returns_on_config.
  apply (returns_add (cfg p) l s); try done; [by rewrite Ht|..].
  - intros [Ht0|[Ha0|(n & ? & _)]]; [by destruct t|by rewrite Ht in Ha0|done].
  - intros t' c' Ety _ Hg _ _ _ He _. assert (t' = t) as -> by (by destruct t; injection Ety as <-).
    rnext. apply returns_modify. rnext. eapply returns_lift; [done|]. rnext.
    set (p1 := with_parent _ _).
    assert (sound (cfg p1)) as Hs1 by (by eapply sound_grows).
    eapply (returns_capture _ _ p1); [done|exact He|].
    intros c2 Hg2 (s2 & Hs2 & Ht2 & Hp2). apply returns_ret. split; [by split|]. split; [done|].
    simpl in Ht2, Hp2. assert (grows (cfg p) c2) as Hg12 by (by eapply grows_trans).
    split; simpl; try done; [by eapply sound_grows|].
    exists (next (cfg p)), s2. split_and!; try done. rewrite Hp2, <- Hl. by eapply opened_grows.
Qed.

(** Rules 14, 16 and 39 *)
Lemma close_ends t fr' : fr = t :: fr' ->
  returns close_aggregate p (action_ends p fr' false (sb_length (pc_string p))).
Proof using Hp.
  intros Hfr. destruct (parent_live _ _ Hfr) as (l & s & Hl & Hs & Ht & _ & Ho').
  pose proof Hp as [Hsd Ho _ Hst].
  unfold close_aggregate. rnext. apply returns_get. rewrite Hl. rnext.
  apply returns_on_config, (returns_deref l s); [done|]. rnext. apply returns_modify. apply returns_ret.
  split; [by split|]. split; [done|]. by split.
Qed.

(** Rules 21 and 22 *)
Lemma append_literal_ends v s : sval_of v p = (Ret s, p) -> strlen s <= text_size v ->
  sb_length (pc_string p) + text_size v + 1 < 2 ^ 63 ->
  returns (append_literal v) p (action_ends p fr pend (sb_length (pc_string p) + text_size v)).
Proof using Hp.
  intros Hv Hs Hroom. pose proof Hp as [Hsd Ho Hset Hst].
  unfold append_literal. rnext. exists s, p. split; [done|]. rnext. apply returns_get.
  pose proof (c_str_length s) as Hc.
  destruct (strbuf_append_ok (pc_string p) s Hst) as (b & E & Hb & _); [lia|].
  rnext. eapply returns_lift; [done|]. rnext. apply returns_modify. apply returns_ret.
  split; [by split|]. split; [|by split].
  simpl. rewrite (strbuf_append_length _ _ _ E). lia.
Qed.

(** Rules 23 to 29 *)
Section Scalar.
Context (set_elem : loc -> CM (option loc)) (set : loc -> CM bool) (format : option Z).
Context (Helem : forall c l s, sound c -> heap c !! l = Some s ->
  returns (set_elem l) c (fun r c' => grows c c' /\ forall e, r = Some e -> is_Some (heap c' !! e))).
Context (Hset : forall c l s, sound c -> heap c !! l = Some s -> s_type s = T_NONE ->
  returns (set l) c (fun _ c' => grows c c')).

(** The format that goes with an integer. *)
Lemma returns_format l s q (P : unit -> pstate -> Prop) : sound (cfg q) -> heap (cfg q) !! l = Some s ->
  (forall c', grows (cfg q) c' -> P tt (with_cfg c' q)) ->
  returns (match format with
           | Some f => on_config (config_setting_set_format l f);; mret tt
           | None => mret tt
           end) q P.
Proof using Type.
  intros [Hwf Hm] Hs HP. destruct format as [f|].
  - rnext. apply returns_on_config.
    eapply returns_mono; [|by apply (returns_set_format (cfg q) l s)].
    intros ok c' Hg. apply returns_ret. by apply HP.
  - apply returns_ret. replace q with (with_cfg (cfg q) q) by (by destruct q).
    apply HP. by apply grows_refl.
Qed.

Lemma scalar_element_ends t : fr = t :: tail fr -> t = T_ARRAY \/ t = T_LIST ->
  returns (scalar_value set_elem set format) p (action_ends p fr false (sb_length (pc_string p))).
Proof using Hp Helem.
  intros Hfr Ht. destruct (parent_live _ _ Hfr) as (l & s & Hl & Hs & _).
  pose proof Hp as [Hsd Ho _ Hst].
  unfold scalar_value, IN_ARRAY, IN_LIST.
  rnext. apply (returns_parent_is t _ _ _ Hfr). rnext. apply (returns_parent_is t _ _ _ Hfr).
  rnext. apply returns_get.
  replace (bool_decide (t = T_ARRAY) || bool_decide (t = T_LIST)) with true
    by (by destruct Ht as [-> | ->]).
  rewrite Hl. rnext. apply returns_ret. rnext. apply returns_on_config.
  eapply returns_mono; [|by apply (Helem (cfg p) l s)].
  intros [e|] c' [Hg He]; cbv beta iota.
  - destruct (He e eq_refl) as [se Hse]. rnext.
    assert (sound c') as Hs' by (destruct Hsd; by eapply sound_grows).
    apply (returns_format e se); [done|done|]. simpl. intros c2 Hg2.
    destruct (gr_keeps _ _ Hg2 e se Hse) as (s2 & Hs2 & _).
    assert (sound c2) as Hsd2 by (destruct Hs'; by eapply sound_grows).
    rnext. apply (returns_capture e s2); [done|done|]. simpl. intros c3 Hg3 _. apply returns_ret.
    split; [by split|]. split; [done|]. apply ready_grows; [|done].
    eapply grows_trans; [done|]. by eapply grows_trans.
  - eapply returns_mono; [|apply error_ends; [destruct Hsd; by eapply sound_grows|done]].
    intros e p' (Ha & Hr & He'). split; [|by split]. eapply acted_trans; [|done]. by split.
Qed.

Lemma scalar_setting_ends : fr = T_GROUP :: tail fr -> pend = true ->
  returns (scalar_value set_elem set format) p (action_ends p fr false (sb_length (pc_string p))).
Proof using Hp Hset.
  intros Hfr Hpd. pose proof Hp as [Hsd Ho Hse Hst].
  destruct (Hse Hpd) as (l & s & Hl & Hs & Ht & _).
  unfold scalar_value, IN_ARRAY, IN_LIST.
  rnext. apply (returns_parent_is T_GROUP _ _ _ Hfr). rnext. apply (returns_parent_is T_GROUP _ _ _ Hfr).
  rnext. apply returns_get. simpl. rewrite Hl. rnext. apply returns_ret. rnext. apply returns_on_config.
  eapply returns_mono; [|by apply (Hset (cfg p) l s)]. intros ok c' Hg.
  assert (sound c') as Hs' by (destruct Hsd; by eapply sound_grows).
  destruct (gr_keeps _ _ Hg l s Hs) as (s' & Hs2 & _).
  rnext. apply (returns_format l s'); [done|done|]. simpl. intros c2 Hg2. apply returns_ret.
  split; [by split|]. split; [done|]. apply ready_grows; [|done]. exact (grows_trans _ _ _ Hg Hg2).
Qed.
End Scalar.
End Actions.

(** ** The setters the actions use *)

Lemma elem_post c v s t (set : loc -> CM bool) :
  sound c -> heap c !! v = Some s ->
  (forall c' e se, sound c' -> heap c' !! e = Some se -> s_type se = t ->
     returns (set e) c' (set_post c' e se)) ->
  returns (e ← elem_to_set v (-1) t;
           match e with
           | None => mret None
           | Some e => ok ← set e; mret (if ok : bool then Some e else None)
           end) c (fun r c' => grows c c' /\ forall e, r = Some e -> is_Some (heap c' !! e)).
Proof.
  intros [Hwf Hm] Hs Hset. apply (returns_set_elem c v s); auto.
  intros c' e se ? ? ? _ [Ht|[Hneg _]]; [by apply Hset|lia].
Qed.

(** ** The action of a reduction *)

(** The room that string literals take up. *)
Definition literal_size (rule : Z) (v : semval) : Z :=
  if (rule =? 21) || (rule =? 22) then text_size v else 0.

Definition top_text (s : Z) (v : semval) : Z := if (s =? 15) || (s =? 31) then text_size v else 0.

Definition frames_after (rule : Z) (fr : list ctype) : list ctype :=
  match opened_by rule with Some t => t :: fr | None => drop (length (closed rule)) fr end.

Definition pending_after (rule : Z) (pend : bool) : bool :=
  (rule =? 11) || ((rule =? 21) || (rule =? 22)) && pend.

(** The top of the stack: its state and value, and the rest. *)
Record top_ok (s : Z) (st : list Z) (v : semval) (p : pstate) : Prop := {
  tp_chain : chain (s :: st) = true;
  tp_ready : ready (frames (s :: st)) (pending (s :: st)) p;
  tp_value : forall t, shifted s = Some t -> token_ok t v
}.

Lemma c_str_c_string s : c_string (c_str s) = true.
Proof.
  induction s as [|c s IH]; [done|]. simpl. destruct (c =? NUL)%char eqn:E; [done|].
  simpl. by rewrite E.
Qed.

Section Reduce.
Context (s : Z) (st : list Z) (v : semval) (p : pstate).
Context (Htop : top_ok s st v p) (Hroom : sb_length (pc_string p) + top_text s v + 1 < 2 ^ 63).
Abbreviation fr := (frames (s :: st)).
Abbreviation pend := (pending (s :: st)).

Lemma scalar_ends set_elem set format : value_state s = true -> s < 16 \/ s = 22 ->
  (forall c l s, sound c -> heap c !! l = Some s ->
    returns (set_elem l) c (fun r c' => grows c c' /\ forall e, r = Some e -> is_Some (heap c' !! e))) ->
  (forall c l s, sound c -> heap c !! l = Some s -> s_type s = T_NONE ->
    returns (set l) c (fun _ c' => grows c c')) ->
  forall q, ready fr pend q ->
  returns (scalar_value set_elem set format) q (action_ends q fr false (sb_length (pc_string q))).
Proof using Htop.
  intros Hv Hs He Hset q Hq.
  destruct (value_context s st (tp_chain _ _ _ _ Htop) Hv ltac:(lia)) as [[Hf Hpd]|[Hf|[Hf _]]].
  - by apply (scalar_setting_ends q fr pend Hq).
  - apply (scalar_element_ends q fr pend Hq _ _ _ He T_LIST Hf). by right.
  - apply (scalar_element_ends q fr pend Hq _ _ _ He T_ARRAY Hf). by left.
Qed.

Lemma open_ends t : 16 <= s <= 18 -> is_aggregate t = true ->
  returns (open_aggregate t) p (action_ends p (t :: fr) false (sb_length (pc_string p))).
Proof using Htop.
  intros Hs Ha. pose proof Htop as [Hc Hr _].
  destruct (value_context s st Hc) as [[Hf Hpd]|[Hf|[_ Hlt]]]; [unfold value_state; lia|lia|..].
  - by apply (open_value_ends p fr pend Hr).
  - by apply (open_element_ends p fr pend Hr).
  - lia.
Qed.

(** One rule is reduced in each state. *)
Definition the_rule (rule : Z) : Z :=
  match rule with
  | 11 => 1 | 13 => 16 | 15 => 17 | 38 => 18 | 14 => 41 | 16 => 43 | 39 => 44 | 21 => 15 | 22 => 31
  | 23 => 9 | 24 => 10 | 25 => 12 | 26 => 11 | 27 => 13 | 28 => 14 | 29 => 22 | _ => s
  end.

Lemma rule_state rule : tab yydefact s = Some rule -> s = the_rule rule.
Proof using Htop.
  intros Hr.
  assert (forallb (fun s => match tab yydefact s with
    | Some r => s =? match r with
        | 11 => 1 | 13 => 16 | 15 => 17 | 38 => 18 | 14 => 41 | 16 => 43 | 39 => 44 | 21 => 15
        | 22 => 31 | 23 => 9 | 24 => 10 | 25 => 12 | 26 => 11 | 27 => 13 | 28 => 14 | 29 => 22
        | _ => s
        end
    | None => true end) states = true) as Hall by (vm_compute; reflexivity).
  rewrite forallb_forall in Hall. specialize (Hall s (chain_state s st (tp_chain _ _ _ _ Htop))).
  rewrite Hr in Hall. by apply Z.eqb_eq in Hall.
Qed.

Ltac setters := first
  [ intros c l s0 Hsd Hs0; apply (elem_post c l s0); [done|done|]; intros c' e se [? ?] ? Et;
    first [by apply returns_set_bool | by apply returns_set_int | by apply returns_set_int64
          | by apply returns_set_string | apply returns_set_float; try done; intros _; by rewrite Et]
  | intros c l s0 [Hwf Hm] Hs0 Et; cbv beta;
    eapply returns_mono; [intros ok c' Hpost; exact (set_post_grows c l s0 Hwf ok c' Hpost)|];
    first [by apply returns_set_bool | by apply returns_set_int | by apply returns_set_int64
          | by apply returns_set_string | apply returns_set_float; try done; intros _; by rewrite Et] ].

Lemma value_ends rule : 23 <= rule <= 28 -> tab yydefact s = Some rule ->
  returns (reduce_action rule v) p (action_ends p fr false (sb_length (pc_string p))).
Proof using Htop.
  intros Hr Ht. pose proof (rule_state rule Ht) as Hs. pose proof Htop as [_ Hrd Hv].
  assert (rule = 23 \/ rule = 24 \/ rule = 25 \/ rule = 26 \/ rule = 27 \/ rule = 28) as Hcases by lia.
  repeat destruct Hcases as [-> |Hcases]; try subst rule; simpl in Hs; rewrite Hs in Hv;
    destruct (Hv _ eq_refl) as [z Ez]; try match type of Ez with _ /\ _ => destruct Ez as [Ez _] end; rewrite Ez; simpl reduce_action; rnext;
    apply returns_ret;
    (apply scalar_ends; [rewrite Hs; done|lia|setters|setters|done]).
Qed.

Lemma string_ends : s = 22 ->
  returns scalar_string p (action_ends p fr false (sb_length (pc_string p))).
Proof using Htop.
  intros Hs. pose proof Htop as [_ Hrd _]. unfold scalar_string. rnext. apply returns_get.
  simpl. rnext. apply returns_modify. set (q := with_pstring empty_strbuf p).
  assert (ready fr pend q) as Hq.
  { destruct Hrd. split; try done. apply empty_strbuf_ok. }
  assert (0 <= sb_length (pc_string p)).
  { rewrite <- (strbuf_string_length _ (rd_string _ _ _ Hrd)). apply strlen_nonneg. }
  eapply returns_mono; [|apply scalar_ends; [by rewrite Hs|lia|setters|setters|exact Hq]].
  intros e p' (Ha & Hr & He). split; [eapply acted_trans; [|done]; by split|]. simpl in Hr. split; [lia|done].
Qed.

Lemma frame_inside t : inside s = Some t -> fr = t :: tail fr.
Proof using Htop. intros Hi. by destruct (inside_frame s st t (tp_chain _ _ _ _ Htop) Hi) as [f ->]. Qed.

Lemma name_ends : s = 1 ->
  returns (add_setting v) p (action_ends p fr true (sb_length (pc_string p))).
Proof using Htop.
  intros Hs. pose proof Htop as [_ Hrd Hv]. rewrite Hs in Hv. pose proof (Hv _ eq_refl) as Ev. simpl in Ev.
  apply (add_setting_ends p fr pend Hrd v (c_str (yytext p))).
  - apply frame_inside. by rewrite Hs.
  - by rewrite Ev.
  - apply c_str_c_string.
Qed.

Lemma close_rule_ends t : inside s = Some t ->
  returns close_aggregate p (action_ends p (drop 1 fr) false (sb_length (pc_string p))).
Proof using Htop.
  intros Hi. pose proof (frame_inside t Hi) as Hf. rewrite Hf. simpl. rewrite drop_0.
  apply (close_ends p fr pend (tp_ready _ _ _ _ Htop) t). exact Hf.
Qed.

Lemma literal_ends : s = 15 \/ s = 31 ->
  returns (append_literal v) p (action_ends p fr pend (sb_length (pc_string p) + text_size v)).
Proof using Htop Hroom.
  intros Hs. pose proof Htop as [_ Hrd Hv].
  assert (exists z, v = SString z) as [z Ez] by (apply (Hv TOK_STRING); by destruct Hs as [-> | ->]).
  assert (top_text s v = text_size v) as Et by (unfold top_text; by destruct Hs as [-> | ->]).
  rewrite Et in Hroom. apply (append_literal_ends p fr pend Hrd v z); [by rewrite Ez| |done]. by rewrite Ez.
Qed.

(** Rules without an action *)
Definition acts (rule : Z) : bool :=
  match rule with
  | 11 | 13 | 14 | 15 | 16 | 21 | 22 | 23 | 24 | 25 | 26 | 27 | 28 | 29 | 38 | 39 => true
  | _ => false
  end.

Lemma no_action rule : acts rule = false ->
  reduce_action rule v = mret Normal /\ closed rule = [] /\ opened_by rule = None /\
  pending_after rule pend = false.
Proof using Type.
  intros H. unfold acts in H. unfold reduce_action, closed, opened_by, pending_after.
  repeat match type of H with match ?x with _ => _ end = _ => destruct x end; try done.
Qed.

Lemma ready_calm q fr0 pend0 : ready fr0 pend0 q -> ready fr0 false q.
Proof. intros []. by split. Qed.

Lemma acts_cases rule : acts rule = true ->
  rule = 11 \/ rule = 13 \/ rule = 15 \/ rule = 38 \/ rule = 14 \/ rule = 16 \/ rule = 39 \/
  rule = 21 \/ rule = 22 \/ rule = 29 \/ 23 <= rule <= 28.
Proof.
  unfold acts. intros H.
  repeat match type of H with match ?x with _ => _ end = _ => destruct x end; try done; lia.
Qed.

Lemma reduce_action_ends rule : tab yydefact s = Some rule ->
  returns (reduce_action rule v) p
    (action_ends p (frames_after rule fr) (pending_after rule pend)
       (sb_length (pc_string p) + literal_size rule v)).
Proof using Htop Hroom.
  intros Hr. pose proof (rule_state rule Hr) as Hs. pose proof (tp_ready _ _ _ _ Htop) as Hrd.
  destruct (acts rule) eqn:Ha.
  2:{ destruct (no_action rule Ha) as (-> & Hc & Ho & ->). unfold frames_after. rewrite Ho, Hc. simpl.
      rewrite drop_0. apply returns_ret. split; [apply acted_refl|].
      assert (literal_size rule v = 0) as ->.
      { unfold literal_size. destruct (Z.eqb_spec rule 21) as [->|]; [done|].
        by destruct (Z.eqb_spec rule 22) as [->|]. }
      split; [lia|]. by eapply ready_calm. }
  apply acts_cases in Ha.
  destruct (decide (23 <= rule <= 28)) as [H|Hne].
  { assert (closed rule = [] /\ opened_by rule = None /\ pending_after rule pend = false /\
      literal_size rule v = 0) as (E1 & E2 & E3 & E4).
    { assert (rule = 23 \/ rule = 24 \/ rule = 25 \/ rule = 26 \/ rule = 27 \/ rule = 28)
        as Hc by lia. by repeat destruct Hc as [-> |Hc]; try subst rule. }
    unfold frames_after. rewrite E1, E2, E3, E4, Z.add_0_r. simpl. rewrite drop_0. by apply value_ends. }
  repeat destruct Ha as [-> |Ha]; simpl in Hs; unfold frames_after, pending_after;
    try (simpl opened_by; simpl closed; simpl length; simpl orb;
         unfold literal_size; simpl orb; cbv iota; rewrite ?Z.add_0_r).
  - by apply name_ends.
  - apply open_ends; [lia|done].
  - apply open_ends; [lia|done].
  - apply open_ends; [lia|done].
  - apply (close_rule_ends T_ARRAY). by rewrite Hs.
  - apply (close_rule_ends T_LIST). by rewrite Hs.
  - apply (close_rule_ends T_GROUP). by rewrite Hs.
  - rewrite drop_0. apply literal_ends. by left.
  - rewrite drop_0. apply literal_ends. by right.
  - rewrite drop_0. by apply string_ends.
  - lia.
Qed.
End Reduce.

(** ** Rounds of yyparse *)

Section Rounds.
Context (fs : string -> option string) (size nq : Z).
Context (Hfs : files_within fs size nq).
(** The name the text was opened under. *)
Context (top : option string).

Abbreviation left := (to_scan size nq).

Definition look_size (y : parser) : Z :=
  match yychar y with Some (_, v) => text_size v | None => 0 end.

Definition top_size (y : parser) : Z :=
  match yystack y with (s, v) :: _ => top_text s v | [] => 0 end.

Lemma top_text_range s v : 0 <= top_text s v <= text_size v.
Proof.
  assert (0 <= text_size v) by (destruct v; simpl; try lia; apply strlen_nonneg).
  unfold top_text. destruct (_ || _); lia.
Qed.

(** The invariant between rounds; [bound] limits what strings can grow to. *)
Record running (bound : Z) (y : parser) (p : pstate) : Prop := {
  rn_top : exists s v rest, yystack y = (s, v) :: rest /\ top_ok s (map fst rest) v p;
  rn_lex : lex_ok p;
  rn_look : forall t v, yychar y = Some (t, v) -> token_ok t v;
  rn_name : top_filename (scan p) = top;
  rn_room : budget size nq p + sb_length (pc_string p) + look_size y + top_size y <= bound
}.

(** Input left, as the lookahead sees it. *)
Definition input_left (y : parser) (p : pstate) : nat :=
  if yystate y =? YYFINAL then 0
  else match yychar y with
       | None => S (Z.to_nat (left p))
       | Some (TOK_EOF, _) => 1
       | Some _ => S (S (Z.to_nat (left p)))
       end.

Definition measure (y : parser) (p : pstate) : nat := input_left y p * 8 + rank (yystate y).

(** How a parse ends. *)
Definition parsed (z : Z) (p : pstate) : Prop :=
  sound (cfg p) /\ top_filename (scan p) = top /\ (z = 0 \/ (z = 1 \/ z = 2) /\ is_Some (error_text (cfg p))).

Definition round_ok (bound : Z) (y : parser) (p : pstate) (r : parser + Z) (p' : pstate) : Prop :=
  match r with
  | inl y' => running bound y' p' /\ (measure y' p' < measure y p)%nat
  | inr z => parsed z p'
  end.

Lemma error_parsed s z p (P : parser + Z -> pstate -> Prop) : sound (cfg p) ->
  top_filename (scan p) = top -> z = 1 \/ z = 2 ->
  (forall p', parsed z p' -> P (inr z) p') -> returns (libconfig_yyerror s;; mret (inr z)) p P.
Proof.
  intros Hs Hn Hz HP. rnext. apply returns_yyerror. intros p' Ha Ht He _ _ _. apply returns_ret. apply HP.
  split; [by eapply sound_same_tree|]. rewrite (ac_scan _ _ Ha). split; [done|by right].
Qed.

Lemma same_scan p p' : acted p p' -> lex_ok p -> lex_ok p' /\ left p' = left p /\
  budget size nq p' = budget size nq p.
Proof.
  intros [Hsc Hb Hst Ht] []. unfold budget, to_scan. rewrite Hsc, Hb.
  split_and!; try done. split; by rewrite ?Hsc, ?Hst.
Qed.

Lemma map_split {A B} (f : A -> B) l l1 l2 : map f l = l1 ++ l2 ->
  map f (drop (length l1) l) = l2.
Proof. intros E. rewrite <- skipn_map, E. by rewrite drop_app_length. Qed.

(** What the parse state is ready for after a reduction. *)
Lemma ready_after s st popped t below g rule len p : chain (s :: st) = true ->
  s :: st = popped ++ t :: below -> length popped = Z.to_nat len -> tab yyr2 rule = Some len ->
  frames (s :: st) = closed rule ++ frames (t :: below) -> opens g = opened_by rule ->
  (g =? 5) || (g =? 8) = (rule =? 11) -> value_state g = (rule =? 21) || (rule =? 22) ->
  (rule = 21 -> s = 15) -> (rule = 22 -> s = 31) ->
  ready (frames_after rule (frames (s :: st))) (pending_after rule (pending (s :: st))) p ->
  ready (frames (g :: t :: below)) (pending (g :: t :: below)) p.
Proof.
  intros Hc E Hl H2 Hfr Hop H58 Hvs H21 H22 Hr.
  assert (frames (g :: t :: below) = frames_after rule (frames (s :: st))) as ->.
  { unfold frames_after. rewrite Hfr. unfold frames at 1. simpl omap. rewrite Hop.
    fold (frames (t :: below)). destruct (opened_by rule) as [a|] eqn:Ea.
    - by rewrite (opened_not_closed rule a Ea).
    - by rewrite drop_app_length. }
  destruct Hr as [Hs Ho Hset Hstr]. split; try done. intros Hp. apply Hset.
  change (pending (g :: t :: below)) with ((g =? 5) || (g =? 8) || value_state g && pending (t :: below)) in Hp.
  rewrite H58, Hvs in Hp. unfold pending_after.
  destruct (rule =? 11); [done|]. simpl in Hp |- *. apply andb_true_iff in Hp as [Hl2 Hp].
  rewrite Hl2. simpl. apply (literal_pending s st popped t below rule len); try done.
  destruct (Z.eqb_spec rule 21); [left; by auto|]. destruct (Z.eqb_spec rule 22); [right; by auto|done].
Qed.

Lemma yyreduce_ok bound y p s v rest rule len lhs : bound + 1 < 2 ^ 63 -> running bound y p ->
  yystack y = (s, v) :: rest -> s <> YYFINAL -> tab yydefact s = Some rule -> rule <> 0 ->
  tab yyr2 rule = Some len -> tab yyr1 rule = Some lhs ->
  returns (yyreduce y rule) p (fun r p' => match r with
    | inl y' => running bound y' p' /\ (input_left y' p' <= input_left y p)%nat /\
        (rank (yystate y') < rank s)%nat /\ shifted (yystate y') = None
    | inr z => parsed z p' end).
Proof.
  intros Hb Hrun Ey Hf Hr Hr0 H2 H1. destruct Hrun as [(s' & v' & rest' & Ey' & Htop) Hlex Hlook Hname Hroom].
  rewrite Ey in Ey'. injection Ey' as <- <- <-.
  destruct (reduce_shape s (map fst rest) rule len lhs (tp_chain _ _ _ _ Htop) Hf Hr Hr0 H2 H1)
    as (popped & t & below & g & Est & Hlen & Hg & Hc & Hrk & Hfr & Hop & H58 & Hvs & Hsh).
  unfold yyreduce. rewrite H2, H1, Ey. rnext. apply returns_ret. rnext. apply returns_ret. rnext.
  assert (0 <= sb_length (sc_string (scan p))) as Hsb
    by (rewrite <- (strbuf_string_length _ (lx_string _ Hlex)); apply strlen_nonneg).
  pose proof (left_nonneg fs size nq Hfs p) as Hleft.
  assert (0 <= look_size y) as Hlk
    by (unfold look_size; destruct (yychar y) as [[? []]|]; simpl; try lia; apply strlen_nonneg).
  assert (top_size y = top_text s v) as Ets by (unfold top_size; by rewrite Ey).
  rewrite Ets in Hroom. unfold budget in Hroom.
  eapply returns_mono; [|apply (reduce_action_ends s (map fst rest) v p Htop); [lia|exact Hr]].
  intros e p' (Ha & Hlp & He). destruct e.
  2:{ apply returns_ret. split; [apply He|]. rewrite (ac_scan _ _ Ha). split; [done|].
      right. split; [by left|apply He]. }
  assert (map fst (drop (Z.to_nat len) ((s, v) :: rest)) = t :: below) as Hdrop
    by (rewrite <- Hlen; by apply map_split).
  destruct (drop (Z.to_nat len) ((s, v) :: rest)) as [|[t' w] stk]; [done|].
  injection Hdrop as -> Hstk. unfold goto in Hg.
  destruct (tab yypgoto (lhs - YYNTOKENS)) as [pg|]; [|done]. simpl in Hg.
  destruct (tab yydefgoto (lhs - YYNTOKENS)) as [dg|]; [|done]. simpl in Hg. injection Hg as Hg.
  rnext. apply returns_ret. rnext. apply returns_ret. rewrite Hg. apply returns_ret.
  destruct (same_scan p p' Ha Hlex) as (Hlex' & Hleft' & Hbud').
  split; [|split; [|done]].
  - split; [|done|exact Hlook|by rewrite (ac_scan _ _ Ha)|].
    + eexists g, _, _. split; [done|]. split; [by rewrite <- Hstk in Hc| |by rewrite Hsh].
      simpl map. rewrite Hstk. pose proof (rule_state s (map fst rest) v p Htop _ Hr) as Es.
      apply (ready_after s (map fst rest) popped t below g rule len p'); try done; [apply Htop|..];
        intros ->; exact Es.
    + assert (literal_size rule v <= top_text s v).
      { unfold literal_size. destruct (Z.eqb_spec rule 21) as [->|];
          [|destruct (Z.eqb_spec rule 22) as [->|]]; simpl.
        - pose proof (rule_state s (map fst rest) v p Htop _ Hr) as Es. simpl in Es. by subst.
        - pose proof (rule_state s (map fst rest) v p Htop _ Hr) as Es. simpl in Es. by subst.
        - apply top_text_range. }
      unfold top_size. simpl. unfold top_text at 1. 
      assert ((g =? 15) || (g =? 31) = false) as ->.
      { destruct (Z.eqb_spec g 15) as [->|]; [done|]. by destruct (Z.eqb_spec g 31) as [->|]. }
      rewrite Hbud'. unfold budget, look_size in *. simpl. lia.
  - unfold input_left. simpl. unfold yystate at 2. rewrite Ey. rewrite Hleft'.
    rewrite (proj2 (Z.eqb_neq s YYFINAL)) by done. destruct (_ =? YYFINAL); [lia|done].
Qed.

Lemma running_sound bound y p : running bound y p -> sound (cfg p).
Proof. intros [(s & v & rest & _ & [_ [] _]) _ _ _ _]. done. Qed.

Lemma yyerrlab_ok y p : sound (cfg p) -> top_filename (scan p) = top ->
  returns (yyerrlab y) p (fun r p' => exists z, r = inr z /\ parsed z p').
Proof.
  intros Hs Hn. unfold yyerrlab, yyerrlab_with. rnext. apply returns_yyerror. intros p' Ha Ht He _ _ _.
  rewrite yyerrlab1_None. apply returns_ret. exists 1. split; [done|].
  split; [by eapply sound_same_tree|]. rewrite (ac_scan _ _ Ha). split; [done|]. right. split; [by left|done].
Qed.

(** After a round that reduces or reports an error. *)
Lemma yydefault_ok bound y0 p0 y p : bound + 1 < 2 ^ 63 -> running bound y p ->
  yystate y <> YYFINAL -> yystate y0 = yystate y -> (input_left y p <= input_left y0 p0)%nat ->
  returns (yydefault y) p (round_ok bound y0 p0).
Proof.
  intros Hb Hrun Hf Est Hin.
  pose proof (rn_top _ _ _ Hrun) as (s & v & rest & Ey & Htop).
  assert (yystate y = s) as Es by (unfold yystate; by rewrite Ey).
  destruct (tables_total s (chain_state s _ (tp_chain _ _ _ _ Htop))) as [_ (rule & Hr & Hrule)]; [congruence|].
  unfold yydefault, yydefault_with. rewrite Es, Hr. rnext. apply returns_ret.
  destruct (Z.eqb_spec rule 0) as [->|Hr0].
  - eapply returns_mono; [|apply yyerrlab_ok; [by eapply running_sound|by eapply rn_name]].
    by intros r p' (z & -> & Hz).
  - destruct Hrule as [|(len & lhs & H2 & H1)]; [done|].
    eapply returns_mono; [|apply (yyreduce_ok bound y p s v rest rule len lhs); try done; congruence].
    intros [y'|z] p' H; [|done]. destruct H as (Hrun' & Hin' & Hrk & _). split; [done|].
    unfold measure. rewrite Est, Es. lia.
Qed.

Definition with_look (y : parser) (tv : token * semval) : parser :=
  {| yystack := yystack y; yychar := Some tv |}.

(** The lookahead, read when there is none. *)
Lemma lookahead_ok bound fuel y p : bound + 1 < 2 ^ 63 -> (Z.to_nat bound < fuel)%nat ->
  running bound y p -> yystate y <> YYFINAL ->
  returns (match yychar y with Some tv => mret tv | None => yylex fs fuel end) p (fun tv p' =>
    running bound (with_look y tv) p' /\ (input_left (with_look y tv) p' <= input_left y p)%nat /\
    (yychar y = None -> scanned p p')).
Proof using Hfs.
  intros Hb Hfuel Hrun Hf. destruct (yychar y) as [tv|] eqn:Ec.
  { apply returns_ret. assert (with_look y tv = y) as -> by (destruct y; simpl in *; by subst). done. }
  pose proof Hrun as [(s & v & rest & Ey & Htop) Hlex Hlook Hname Hroom].
  unfold look_size in Hroom. rewrite Ec in Hroom.
  assert (0 <= sb_length (pc_string p)) as Hsb.
  { destruct Htop as [_ [_ _ _ Hst] _]. rewrite <- (strbuf_string_length _ Hst). apply strlen_nonneg. }
  assert (0 <= sb_length (sc_string (scan p))) as Hsb'
    by (rewrite <- (strbuf_string_length _ (lx_string _ Hlex)); apply strlen_nonneg).
  assert (0 <= top_size y) as Hts.
  { unfold top_size. rewrite Ey. apply top_text_range. }
  assert (left p <= budget size nq p) as Hlb by (unfold budget; lia).
  eapply returns_mono; [|apply (yylex_ok fs size nq Hfs); [done|lia|unfold lex_fuel; lia]].
  intros [t v'] p' (Hsc & Htok & Hle & Hlt & Hbud & _). pose proof Hsc as [Hpar Hset Hps Hcfg Htn Hlex']. simpl in *.
  pose proof (left_nonneg fs size nq Hfs p') as Hl'. split; [|split; [|done]].
  - split; [|done|by intros ? ? [= <- <-]|congruence|].
    + exists s, v, rest. split; [done|]. destruct Htop as [Hc [Hsd Ho Hst Hstr] Hval].
      split; [done| |done]. split; [by eapply sound_same_tree| | |by rewrite Hps].
      * rewrite Hpar. eapply opened_heap; [|done]. apply (st_heap _ _ Hcfg).
      * rewrite Hset, Hpar. by rewrite (st_heap _ _ Hcfg).
    + rewrite Hps. change (top_size (with_look y (t, v'))) with (top_size y).
      unfold look_size. simpl. lia.
  - unfold input_left. change (yystate (with_look y (t, v'))) with (yystate y).
    rewrite (proj2 (Z.eqb_neq _ _) Hf), Ec. simpl.
    destruct (decide (t = TOK_EOF)) as [-> |Hne]; [lia|]. specialize (Hlt Hne).
    destruct t; try done; lia.
Qed.

Lemma yyparse_round_ok bound fuel y p : bound + 1 < 2 ^ 63 -> (Z.to_nat bound < fuel)%nat ->
  running bound y p -> returns (yyparse_round fs fuel y) p (round_ok bound y p).
Proof using Hfs.
  intros Hb Hfuel Hrun. pose proof (running_sound _ _ _ Hrun) as Hsd. unfold yyparse_round, yyparse_round_with.
  destruct (YYMAXDEPTH <=? _).
  { apply error_parsed; [done|by eapply rn_name|by right|done]. }
  destruct (Z.eqb_spec (yystate y) YYFINAL) as [|Hf].
  { apply returns_ret. split; [done|]. split; [by eapply rn_name|by left]. }
  pose proof (rn_top _ _ _ Hrun) as (s & v & rest & Ey & Htop).
  assert (yystate y = s) as Es by (unfold yystate; by rewrite Ey).
  destruct (tables_total s (chain_state s _ (tp_chain _ _ _ _ Htop))) as [(pact & Hpact) _]; [congruence|].
  rewrite Es, Hpact. rnext. apply returns_ret.
  destruct (Z.eqb_spec pact YYPACT_NINF) as [|Hninf]; [by apply (yydefault_ok bound y p)|].
  rnext. eapply returns_mono; [|by apply (lookahead_ok bound fuel y p)].
  intros tv p' (Hrun' & Hin' & _). cbv beta zeta. fold (with_look y tv).
  destruct (checked _ _) as [n|] eqn:Eck; [|by apply (yydefault_ok bound y p)].
  clear Htop. pose proof (rn_top _ _ _ Hrun') as (s' & v' & rest' & Ey' & Htop). simpl in Ey'.
  rewrite Ey in Ey'. injection Ey' as <- <- <-.
  destruct (shift_shape s (map fst rest) tv.1 pact n (tp_chain _ _ _ _ Htop) Hpact Hninf Eck)
    as (Hpos & Hc & Hop & Hpd & Hsh & Heof).
  rewrite (proj2 (Z.leb_gt n 0)) by lia. apply returns_ret.
  destruct Hrun' as [_ Hlex Hlook Hname Hroom]. destruct tv as [t w]. simpl in *.
  assert (frames (n :: s :: map fst rest) = frames (s :: map fst rest)) as Hfr
    by (unfold frames at 1; simpl omap; by rewrite Hop).
  split.
  - split; simpl; [|done|done|done|].
    + eexists n, w, _. split; [done|]. rewrite Ey. simpl. split; [done| |intros t' Ht'].
      * destruct Htop as [_ [Hs1 Ho1 Hse1 Hst1] _]. split; try done; [by rewrite Hfr|auto].
      * rewrite <- (Hsh t' Ht'). by apply (Hlook t w).
    + unfold look_size, top_size in *. simpl in *. rewrite Ey in Hroom.
      pose proof (top_text_range s v). pose proof (top_text_range n w). lia.
  - unfold measure, input_left in *. change (yystate {| yystack := (n, w) :: yystack y; yychar := None |}) with n.
    change (yystate (with_look y (t, w))) with (yystate y) in Hin'. rewrite (proj2 (Z.eqb_neq _ _) Hf) in *.
    pose proof (rank_bound n). simpl in Hin' |- *.
    destruct (decide (t = TOK_EOF)) as [-> |Hne].
    + pose proof (rank_bound YYFINAL). rewrite (Heof eq_refl). simpl. lia.
    + destruct (n =? YYFINAL), t; try done; lia.
Qed.

(** ** The parse *)

(** Fuel for the rounds and for each scan. *)
Definition parse_fuel (bound : Z) : nat := S ((Z.to_nat bound + 1) * 8 + 8).

Lemma libconfig_yyparse_ok bound fuel p : bound + 1 < 2 ^ 63 -> (parse_fuel bound <= fuel)%nat ->
  running bound {| yystack := [(0, SNone)]; yychar := None |} p ->
  returns (libconfig_yyparse fs fuel) p parsed.
Proof using Hfs.
  intros Hb Hfuel Hrun. unfold parse_fuel in Hfuel. unfold libconfig_yyparse.
  apply (returns_iter _ (running bound) measure); [|done|].
  - intros y q Hq. eapply returns_mono; [|apply (yyparse_round_ok bound fuel y q); [done|lia|done]].
    by intros [y'|z] q'.
  - pose proof (rank_bound 0). unfold measure, input_left. simpl.
    pose proof (rn_room _ _ _ Hrun) as Hroom. unfold budget, look_size, top_size in Hroom. simpl in Hroom.
    destruct Hrun as [(s & v & rest & Ey & [_ [_ _ _ Hst] _]) Hlex _ _ _].
    assert (0 <= sb_length (pc_string p))
      by (rewrite <- (strbuf_string_length _ Hst); apply strlen_nonneg).
    assert (0 <= sb_length (sc_string (scan p)))
      by (rewrite <- (strbuf_string_length _ (lx_string _ Hlex)); apply strlen_nonneg).
    change (top_text 0 SNone) with 0 in Hroom. unfold yystate. simpl. lia.
Qed.

(** What there is to scan in a text, files it includes counted. *)
Definition input_weight (text : string) : Z := weight size nq 10 text.

Lemma start_running text ctx c : sound c -> sc_string ctx = empty_strbuf ->
  files ctx = [] -> buffers ctx = [] -> top_filename ctx = top ->
  running (input_weight text) {| yystack := [(0, SNone)]; yychar := None |} (parse_start text ctx c).
Proof.
  intros Hs Hstr Hf Hbf Hn. destruct Hs as [Hwf Hm]. destruct (wf_root c Hwf) as (r & sr & Hr & Hsr & Hp & Ht & _).
  split; simpl; try done.
  - eexists 0, SNone, []. split; [done|]. split; [done| |done]. split; simpl; try done.
    + exists r, sr. by rewrite Hp.
    + apply empty_strbuf_ok.
  - split; simpl; rewrite ?Hf, ?Hbf, ?Hstr; try done; [by left|simpl; lia|apply empty_strbuf_ok].
  - unfold budget, to_scan, levels_left, input_weight. simpl. rewrite Hstr, Hbf. simpl.
    unfold look_size, top_size. simpl. change (top_text 0 SNone) with 0. lia.
Qed.
End Rounds.

(** ** Reading *)

(** The parser returned; the tree is well formed, and a failure is reported. *)
Definition read_ends (m : CM bool) (name : option string) (c : config) : Prop :=
  exists b c', m c = (Ret b, c') /\ sound c' /\
    (b = false -> is_Some (error_text c') /\ error_type c' = ERR_PARSE /\
       (is_Some name -> is_Some (error_file c'))).

Lemma scanctx_init_empty f : let ctx : scan_context := scanctx_init f in
  sc_string ctx = empty_strbuf /\ files ctx = [] /\ buffers ctx = [] /\ top_filename ctx = f.
Proof. by destruct f. Qed.

(** The empty tree the parser starts from. *)
Lemma emptied c : sound c -> exists c1 c2 r, config_destroy c = (Ret tt, c1) /\
  config_init c1 = (Ret tt, c2) /\ sound c2 /\ root c2 = Some r /\ heap c2 = {[r := new_setting T_GROUP]}.
Proof.
  intros [Hwf Hm].
  destruct (destroy_config_ok c Hwf ltac:(by left)) as (order & c1 & E1 & Hh & _).
  destruct (init_sound c1 Hh) as (c2 & r & E2 & Hs & Hr & Hh2). exists c1, c2, r. auto.
Qed.

(** The parse starts from an empty group, whatever was there before. *)
Lemma reinitialize_ok filename c : sound c -> exists c4 r s,
  reinitialize filename c = (Ret tt, c4) /\
  sound c4 /\ root c4 = Some r /\ heap c4 = {[r := s]} /\ s_type s = T_GROUP /\ s_value s = VZero /\
  default_format c4 = 0.
Proof.
  intros Hs. destruct (emptied c Hs) as (c1 & c2 & r & E1 & E2 & Hs2 & Hr & Hh).
  set (sr := set_pos 0 (scanctx_current_filename (@scanctx_init buffer filename)) (new_setting T_GROUP)).
  set (c3 := with_kept c c2).
  assert (sound c3) as Hs3 by (eapply sound_same_tree; [|exact Hs2]; by split).
  assert (heap c3 !! r = Some (new_setting T_GROUP)) as Hr3
    by (unfold c3; simpl; rewrite Hh; apply lookup_singleton_eq).
  exists (with_heap (<[r := sr]> (heap c3)) c3), r, sr. split_and!; try done.
  - unfold reinitialize. erewrite bind_ret; [|reflexivity]. rewrite (bind_ret _ _ _ _ _ E1), (bind_ret _ _ _ _ _ E2).
    erewrite bind_ret; [|reflexivity]. erewrite bind_ret; [|reflexivity]. fold c3.
    assert (root c3 = Some r) as -> by done. erewrite bind_ret; [|reflexivity].
    etransitivity; [by apply (update_live r _ (new_setting T_GROUP))|done].
  - destruct Hs3 as [Hw Hmv]. eapply sound_grows; [exact Hmv|]. by apply (grows_field c3 r (new_setting T_GROUP)).
  - cbn [heap with_heap]. unfold c3. simpl. rewrite Hh. by rewrite insert_singleton_eq.
  - unfold config_init in E2. by injection E2 as <-.
Qed.

Lemma read_start fs fuel text filename c : sound c -> exists c4 r s,
  __config_read fs fuel text filename c = parse_text fs fuel text (scanctx_init filename) c4 /\
  sound c4 /\ root c4 = Some r /\ heap c4 = {[r := s]} /\ s_type s = T_GROUP /\ s_value s = VZero /\
  default_format c4 = 0.
Proof.
  intros Hs. destruct (reinitialize_ok filename c Hs) as (c4 & r & s & E & H). exists c4, r, s. split; [|done].
  unfold __config_read. by rewrite (bind_ret _ _ _ _ _ E).
Qed.

Lemma read_total fs size nq fuel text filename c : files_within fs size nq -> sound c ->
  input_weight size nq text + 1 < 2 ^ 63 ->
  (parse_fuel (input_weight size nq text) <= fuel)%nat ->
  read_ends (__config_read fs fuel text filename) filename c.
Proof.
  intros Hfs Hs Hb Hfuel. destruct (read_start fs fuel text filename c Hs) as (c4 & r & s & E4 & Hs4 & _).
  unfold read_ends. rewrite E4. destruct (scanctx_init_empty filename) as (H1 & H2 & H3 & H4).
  pose proof (start_running size nq filename text _ c4 Hs4 H1 H2 H3 H4) as Hrun.
  destruct (libconfig_yyparse_ok fs size nq Hfs filename _ fuel _ Hb Hfuel Hrun) as (z & p' & E & (Hsp & Htop & Hz)).
  change (libconfig_yyparse fs fuel (parse_start text (scanctx_init filename) c4) = (Ret z, p')) in E.
  unfold parse_text. erewrite bind_ret; [|reflexivity]. rewrite E. eexists _, _. split; [reflexivity|]. split.
  - eapply sound_same_tree; [|exact Hsp]. destruct (z =? 0); by split.
  - intros Ez. simpl. rewrite Ez. destruct Hz as [-> |[Hz He]]; [done|].
    split_and!; [done|done|]. simpl. unfold scanctx_current_filename. rewrite Htop.
    destruct (files (scan p')); [done|]. by eexists.
Qed.

Lemma files_none : files_within (fun _ => None) 0 0.
Proof. by split_and!. Qed.


(** A file that includes itself, and a text that includes it in a group. *)
Definition include_loop : string := "@include " +:+ String (chr 34) ("loop.cfg" +:+ String (chr 34) "").
Definition sample_files (name : string) : option string :=
  if String.eqb name "loop.cfg" then Some include_loop else None.
Definition sample_text : string := "a = { b = [1, 2L];" +:+ String (chr 10) include_loop.

