(* ===== verification/ScanProps.v ===== *)
(** * Scanning a text to its end

    The invariants of the scanner over any number of calls of libconfig_yylex,
    and the string buffers over any number of appends. *)

From Stdlib Require Import SpecFloat.
From S2P Require Import Prelude Double CString Setting Config ConfigWf ConfigProps ConfigApi.
From S2P Require Import ScanCtx Scanner ScannerSpec LexerProps Grammar ConfigRead ParserSafe.
Local Open Scope Z_scope.

(** ** String buffers *)

Fixpoint strbuf_append_all (b : strbuf_t) (texts : list string) : option strbuf_t :=
  match texts with
  | [] => Some b
  | t :: texts' => b' ← strbuf_append b t; strbuf_append_all b' texts'
  end.

Definition joined (texts : list string) : string := List.fold_right (fun t s => c_str t +:+ s) "" texts.

Lemma strbuf_append_all_ok texts : forall b, strbuf_ok b ->
  sb_length b + strlen (joined texts) + 1 < 2 ^ 63 ->
  exists b', strbuf_append_all b texts = Some b' /\ strbuf_ok b' /\
    default "" (sb_string b') = default "" (sb_string b) +:+ joined texts.
Proof.
  induction texts as [|t texts IH]; intros b Hb Hlen; cbn [strbuf_append_all joined List.fold_right] in *.
  - exists b. by rewrite app_nil_string.
  - fold (joined texts) in *. rewrite strlen_app in Hlen. pose proof (strlen_nonneg (joined texts)).
    destruct (strbuf_append_ok b t Hb) as (b1 & E1 & Hb1 & Es); [lia|]. rewrite E1. cbn [mbind option_bind].
    destruct (IH b1 Hb1) as (b' & E & Hb' & Es').
    + destruct Hb1 as [H1 _]. destruct Hb as [H0 _]. rewrite Es in H1. destruct H1 as [-> _].
      rewrite strlen_app. destruct (sb_string b); cbn [default id] in *; destruct H0 as [H0 _]; change (strlen "") with 0; lia.
    + exists b'. split_and!; [done|done|]. rewrite Es', Es. cbn [default id]. by rewrite string_app_assoc.
Qed.

(** C33: The string buffer stays within its bounds: any sequence of appends,
    whose lengths fit a size_t, succeeds; the buffer then holds the texts one
    after the other, its length is theirs, the terminating NUL is inside the
    capacity, the capacity is a multiple of the block size; releasing it hands
    over the string and leaves an empty buffer. *)
Theorem strbuf_in_bounds texts : strlen (joined texts) + 1 < 2 ^ 63 ->
  exists b, strbuf_append_all empty_strbuf texts = Some b /\
    default "" (sb_string b) = joined texts /\ sb_length b = strlen (joined texts) /\
    (texts = [] \/ sb_length b < sb_capacity b) /\ (STRING_BLOCK_SIZE | sb_capacity b) /\
    strbuf_release b = (sb_string b, empty_strbuf).
Proof.
  intros Hlen. destruct (strbuf_append_all_ok texts empty_strbuf) as (b & E & [Hb Hd] & Es);
    [split; [done|apply Z.divide_0_r]|done|].
  change (default "" (sb_string b) = joined texts) in Es. exists b. split_and!; try done.
  - rewrite <- Es. destruct (sb_string b); cbn [default]; by destruct Hb as [-> _].
  - destruct texts as [|t texts]; [by left|right]. destruct (sb_string b) eqn:Eb; [apply Hb|].
    cbn [strbuf_append_all] in E. destruct (strbuf_append empty_strbuf t) as [b1|] eqn:E1; [|done].
    cbn [mbind option_bind] in E. assert (is_Some (sb_string b1)) as H1.
    { unfold strbuf_append in E1. destruct (_ <? _); destruct (_ <=? _); try done; injection E1 as <-; by eexists. }
    clear -E H1 Eb. exfalso. revert b1 H1 E. induction texts as [|t' texts IH]; intros b1 H1 E; cbn [strbuf_append_all] in E.
    + injection E as ->. rewrite Eb in H1. by destruct H1.
    + destruct (strbuf_append b1 t') as [b2|] eqn:E2; [|done]. cbn [mbind option_bind] in E. apply (IH b2); [|done].
      unfold strbuf_append in E2. destruct (_ <? _); destruct (_ <=? _); try done; injection E2 as <-; by eexists.
Qed.

Lemma strbuf_in_bounds_witness : exists b,
  strbuf_append_all empty_strbuf ["ntp"; repeat_string 100 "x"; ".cfg"] = Some b /\
  default "" (sb_string b) = joined ["ntp"; repeat_string 100 "x"; ".cfg"] /\
  sb_length b = strlen (joined ["ntp"; repeat_string 100 "x"; ".cfg"]) /\
  (["ntp"; repeat_string 100 "x"; ".cfg"] = [] \/ sb_length b < sb_capacity b) /\
  (STRING_BLOCK_SIZE | sb_capacity b) /\ strbuf_release b = (sb_string b, empty_strbuf).
Proof. apply (strbuf_in_bounds ["ntp"; repeat_string 100 "x"; ".cfg"]). vm_compute. reflexivity. Defined.

(** ** All the tokens of a text *)

(** At most [n] calls of yylex, as the parser makes them: until the end. *)
Fixpoint scan_all (fs : string -> option string) (fuel n : nat) : PM (list (token * semval)) :=
  match n with
  | O => mret []
  | S m =>
      tv ← yylex fs fuel;
      match tv.1 with
      | TOK_EOF => mret [tv]
      | _ => tvs ← scan_all fs fuel m; mret (tv :: tvs)
      end
  end.

Section ScanAll.
Context (fs : string -> option string) (size nq : Z) (Hfs : files_within fs size nq).

Abbreviation left := (to_scan size nq).
Abbreviation budget := (budget size nq).

Definition ended (tvs : list (token * semval)) : Prop := exists tv, last tvs = Some tv /\ tv.1 = TOK_EOF.

Lemma scan_all_ok fuel n : forall p, lex_ok p -> budget p + 1 < 2 ^ 63 -> (lex_fuel size nq p <= fuel)%nat ->
  returns (scan_all fs fuel n) p (fun tvs p' => scanned p p' /\ Forall (fun tv => token_ok tv.1 tv.2) tvs /\
    ((Z.to_nat (left p) < n)%nat -> ended tvs) /\ Z.of_nat (length tvs) <= left p + 1).
Proof using Hfs.
  induction n as [|n IH]; intros p Hp Hb Hf; cbn [scan_all].
  { apply returns_ret. pose proof (left_nonneg fs size nq Hfs p).
    split_and!; [split; try done; apply same_tree_refl|constructor|lia|simpl; lia]. }
  apply returns_bind. eapply returns_mono; [|by apply (yylex_ok fs size nq Hfs)].
  intros [t v] p1 (Hsc & Htok & Hle & Hlt & Hbud & _). cbn [fst snd] in *.
  pose proof (left_nonneg fs size nq Hfs p1) as Hl1.
  destruct (decide (t = TOK_EOF)) as [-> |Hne].
  - apply returns_ret. split_and!; [done|by repeat constructor|intros _; by eexists|simpl; lia].
  - specialize (Hlt Hne).
    assert (0 <= text_size v) by (destruct v; simpl; try lia; apply strlen_nonneg).
    assert (returns (tvs ← scan_all fs fuel n; mret ((t, v) :: tvs)) p1 (fun tvs p' => scanned p p' /\
      Forall (fun tv => token_ok tv.1 tv.2) tvs /\ ((Z.to_nat (left p) < S n)%nat -> ended tvs) /\
      Z.of_nat (length tvs) <= left p + 1)) as Hrest; [|by destruct t].
    apply returns_bind. eapply returns_mono; [|apply (IH p1)].
    + intros tvs p2 (Hsc2 & Hall & Hend & Hlen). apply returns_ret.
      destruct Hsc as [A1 A2 A3 [A4 A5 A6 A7] A8 A9], Hsc2 as [B1 B2 B3 [B4 B5 B6 B7] B8 B9].
      split_and!; [split; [congruence..|split; congruence|congruence|done]|by constructor| |cbn [length]; lia].
      intros Hn. destruct Hend as (tv & Ht & Hv); [lia|]. exists tv. split; [|done].
      destruct tvs; [done|exact Ht].
    + apply Hsc.
    + lia.
    + unfold lex_fuel in *. lia.
Qed.
End ScanAll.

Lemma start_lex_ok text filename c : lex_ok (parse_start text (scanctx_init filename) c).
Proof.
  destruct (scanctx_init_empty filename) as (H1 & H2 & H3 & H4).
  split; simpl; rewrite ?H1, ?H2, ?H3; [by left|done|simpl; lia|apply empty_strbuf_ok].
Qed.

(** The bound of a read bounds the scan of its text. *)
Lemma start_budget size nq text filename c :
  budget size nq (parse_start text (scanctx_init filename) c) = input_weight size nq text /\
  to_scan size nq (parse_start text (scanctx_init filename) c) = input_weight size nq text.
Proof.
  destruct (scanctx_init_empty filename) as (H1 & H2 & H3 & H4).
  unfold budget, to_scan, levels_left, input_weight. simpl. rewrite H1, H3. simpl. lia.
Qed.




Definition big_number : string := "a = [99999999999, 0xFFFFFFFFF, -99999999999999999999L]".

