(* ===== verification/LexerRefines.v ===== *)
(** * The scanner on buffers does what the scanner on texts does

    yylex with its buffers, streams and include stack, against the scanner of
    Scanner.v, which has every text at hand. *)

From S2P Require Import Prelude CString Setting Config ScanCtx Scanner ScannerSpec ScanBuffer BufferedLexer BufferProps MatchProps RefillProps RefillLoop RefillToken RefillSpec SwitchProps.
Local Open Scope Z_scope.

Implicit Types (g : yyguts_t) (p q : positive) (bf : buffer) (l : lexer) (s : pstate) (es : list included).

(** ** Texts and what the streams afford *)

(** The text of a file that can be opened. *)
Definition texts (fs : string -> option (list read_event)) (name : string) : option string :=
  (fun ev => str (text_of ev)) <$> fs name.

(** Nothing goes wrong with the stream, and [fuel] is enough for a token. *)
Definition affords (fuel : nat) (text : string) (f : stream) : Prop :=
  clean f /\ Z.of_nat (String.length text) < 2 ^ 31 - 2 /\
  (8 * String.length text + length (events f) + 8 <= fuel)%nat.

Definition files_fit (fuel : nat) (fs : string -> option (list read_event)) : Prop :=
  forall name ev, fs name = Some ev -> affords fuel (str (text_of ev)) {| events := ev; ferror := false |}.

(** Whether a line begins does not matter at the end of a text. *)
Definition same_text bf bf' : Prop :=
  rest bf = rest bf' /\ bs_lineno bf = bs_lineno bf' /\ (rest bf <> "" -> at_bol bf = at_bol bf').

Lemma same_text_eq bf bf' : same_text bf bf' -> rest bf' <> "" -> bf = bf'.
Proof. intros (E1 & E2 & E3) Hne. destruct bf, bf'. cbn in *. subst. f_equal. by apply E3. Qed.

Definition file_stream g (file : option positive) : stream :=
  default {| events := []; ferror := false |} (i ← file; streams g !! i).

Lemma affords_less fuel text text' f f' : affords fuel text f -> (String.length text' <= String.length text)%nat ->
  (clean f -> clean f') -> (length (events f') <= length (events f))%nat -> affords fuel text' f'.
Proof. intros (H1 & H2 & H3) Hl Hc He. split_and!; [auto|lia|lia]. Qed.

Lemma next_token_empty start bf : condition start -> rest bf = "" -> next_token start bf = None.
Proof.
  intros Hc E. unfold next_token. rewrite yy_scan_list, E by done. cbn. unfold note. by rewrite start_accepts.
Qed.

Lemma next_token_shorter start bf act text bf' : next_token start bf = Some (act, text, bf') ->
  (String.length (rest bf') <= String.length (rest bf))%nat.
Proof.
  intros H. destruct (yy_scan start bf) as [[acc pos]|] eqn:E; [|by unfold next_token in H; rewrite E in H].
  rewrite (next_token_found _ _ _ _ E) in H. injection H as _ _ <-. cbn [rest].
  rewrite <- !length_chars, String.list_ascii_of_string_of_list_ascii, length_drop. lia.
Qed.

Section Relation.
Context (fuel : nat) (base : gset positive).

(** The current buffer, and one that waits, show a text. *)
Definition holds p bf g : Prop := exists bf0, ready p bf0 g /\ same_text bf0 bf /\ affords fuel (rest bf) (stream_of g).

Definition waiting p file bf g : Prop :=
  exists bf0, stored p file bf0 g /\ same_text bf0 bf /\ affords fuel (rest bf) (file_stream g file).

(** The buffers below the current one [p], whose file is [i]: the entries of the
    include stack, their texts, all the buffers and all their files. *)
Inductive chain g : positive -> option positive -> list included -> list buffer ->
    list positive -> list (option positive) -> Prop :=
  | chain_top p i : (forall j, i = Some j -> j ∈ base) -> chain g p i [] [] [p] [i]
  | chain_file p fp q j es bf bfs ps ins : waiting q j bf g -> chain g q j es bfs ps ins ->
      p ∉ ps -> Some fp ∉ ins -> fp ∉ base ->
      chain g p (Some fp) ((Some q, fp) :: es) (bf :: bfs) (p :: ps) (Some fp :: ins).

Lemma chain_head g p i es bfs ps ins : chain g p i es bfs ps ins -> p ∈ ps /\ i ∈ ins.
Proof. intros []; split; constructor. Qed.

Lemma waiting_same p file bf g g' : yy_buffers g' !! p = yy_buffers g !! p ->
  (forall j, file = Some j -> streams g' !! j = streams g !! j) -> waiting p file bf g -> waiting p file bf g'.
Proof.
  intros Hb Hs (bf0 & Hst & He & Ha). exists bf0. split_and!; [by eapply stored_same|done|].
  replace (file_stream g' file) with (file_stream g file); [done|]. unfold file_stream.
  destruct file as [j|]; [|done]. cbn. by rewrite Hs.
Qed.

(** Scanning on does not touch the buffers that wait. *)
Lemma chain_same g g' p i es bfs ps ins : chain g p i es bfs ps ins ->
  (forall r, r ∈ ps -> r <> p -> yy_buffers g' !! r = yy_buffers g !! r) ->
  (forall j, Some j ∈ ins -> i <> Some j -> streams g' !! j = streams g !! j) -> chain g' p i es bfs ps ins.
Proof.
  induction 1 as [p i Hb|p fp q j es bf bfs ps ins Hw Hch IH Hp Hfp Hbase]; intros Hbufs Hstr; [by constructor|].
  destruct (chain_head _ _ _ _ _ _ _ Hch) as [Hq Hj]. eapply chain_file; [| |done..].
  - eapply waiting_same; [..|exact Hw].
    + apply Hbufs; [by right|]. by intros ->.
    + intros k ->. apply Hstr; [by right|]. by intros [= ->].
  - apply IH.
    + intros r Hr _. apply Hbufs; [by right|]. by intros ->.
    + intros k Hk _. apply Hstr; [by right|]. by intros [= ->].
Qed.

(** The state of the scanner with its buffers, and the one with its texts. *)
Record lexes_at p (ps : list positive) (ins : list (option positive)) l s : Prop := {
  lx_context : top_filename (context l) = top_filename (scan s) /\ files (context l) = files (scan s) /\
    sc_string (context l) = sc_string (scan s) /\ sc_filenames (context l) = sc_filenames (scan s);
  lx_depth : length (files (context l)) = length (buffers (context l));
  lx_conf : conf l = cfg s /\ yyout l = ScanCtx.yyout s;
  lx_start : yy_start (guts l) = ScanCtx.yy_start s /\ condition (yy_start (guts l)) /\ yy_init (guts l) = true;
  lx_current : holds p (buf s) (guts l);
  lx_chain : chain (guts l) p (yyin (guts l)) (buffers (context l)) (buffers (scan s)) ps ins;
  lx_buffers : forall r, is_Some (yy_buffers (guts l) !! r) <-> r ∈ ps;
  lx_streams : forall j, is_Some (streams (guts l) !! j) <-> j ∈ base \/ j ∈ (buffers (context l)).*2
}.

Definition lexes l s : Prop := exists p ps ins, lexes_at p ps ins l s.

(** ** One token *)

Lemma token_ok p bf g : holds p bf g -> condition (yy_start g) ->
  wp (yylex_token fuel) (fun o g' => frame p g g' /\
    ((rest bf = "" /\ o = Ret None /\ holds p bf g') \/
     (exists act text bf', rest bf <> "" /\ next_token (yy_start g) bf = Some (act, text, bf') /\
        o = Ret (Some (act, text)) /\ holds p bf' g' /\ yytext g' = (Ret text, g')))) g.
Proof.
  intros (bf0 & Hr & He & Ha) Hcond. pose proof He as (E1 & E2 & E3). pose proof Ha as (Hc & Hl & Hf).
  eapply wp_mono; [|apply (yylex_token_ok p bf0 g fuel Hr Hcond); [by rewrite E1|unfold token_fuel; rewrite E1; lia]].
  intros o g' Ho. destruct o as [[[act text]|]|z| |w|]; cbn [token_post] in Ho; try done.
  - destruct Ho as (bf' & En & Hfr & [Hd1 Hd2] & Hr' & Hy). split; [done|]. right. exists act, text, bf'.
    assert (rest bf <> "") as Hne by (intros E; by rewrite next_token_empty in En by congruence).
    pose proof (same_text_eq _ _ He Hne) as ->. split_and!; [done|done|done| |done].
    exists bf'. split_and!; [done|done|]. eapply affords_less; [exact Ha|by eapply next_token_shorter|done|done].
  - destruct Ho as (E & Hfr & [Hd1 Hd2] & bol & Hr'). split; [done|]. left.
    split; [by rewrite <- E1|]. split; [done|]. eexists. split_and!; [exact Hr'| |].
    + split_and!; cbn; [congruence|done|done].
    + by eapply affords_less.
  - by destruct Ho as [_ []].
Qed.

Lemma holds_same p bf g g' : top_is g' (Some p) -> yy_buffers g' !! p = yy_buffers g !! p ->
  yy_n_chars g' = yy_n_chars g -> yy_c_buf_p g' = yy_c_buf_p g -> yy_hold_char g' = yy_hold_char g ->
  yyin g' = yyin g -> (forall i, yyin g = Some i -> streams g' !! i = streams g !! i) ->
  holds p bf g -> holds p bf g'.
Proof.
  intros Ht Hb Hn Hc Hh Hi Hs (bf0 & Hr & He & Ha). exists bf0. split_and!; [by eapply ready_same|done|].
  replace (stream_of g') with (stream_of g); [done|]. unfold stream_of. rewrite Hi.
  destruct (yyin g) as [i|]; [|done]. cbn. by rewrite Hs.
Qed.

Lemma holds_top p bf g : holds p bf g -> top_is g (Some p).
Proof. intros (bf0 & Hr & _). by destruct (ready_lookup _ _ _ Hr). Qed.

(** ** Changes on both sides *)

Lemma lexes_start l s z : condition z -> lexes l s -> lexes (with_guts (set_start z (guts l)) l) (with_start z s).
Proof.
  intros Hz (p & ps & ins & [Hctx Hdep Hconf (H1 & H2 & H3) Hcur Hch Hb Hs]). exists p, ps, ins. split; try done.
  - eapply holds_same; [..|exact Hcur]; try done. by eapply holds_top in Hcur.
  - by eapply chain_same; [exact Hch|..].
Qed.

Lemma lexes_context l s ctx sc : lexes l s ->
  top_filename ctx = top_filename sc /\ files ctx = files sc /\ sc_string ctx = sc_string sc /\ sc_filenames ctx = sc_filenames sc ->
  files ctx = files (context l) -> buffers ctx = buffers (context l) -> buffers sc = buffers (scan s) ->
  lexes (with_context ctx l) (with_scan sc s).
Proof.
  intros (p & ps & ins & [Hctx Hdep Hconf Hst Hcur Hch Hb Hs]) He E0 E1 E2. exists p, ps, ins. split; try done.
  - by rewrite <- E0, <- E1 in Hdep.
  - cbn. by rewrite E1, E2.
  - cbn. by rewrite E1.
Qed.

Lemma lexes_conf l s c : lexes l s -> lexes (with_conf c l) (with_cfg c s).
Proof. intros (p & ps & ins & [Hctx Hdep [_ Hout] Hst Hcur Hch Hb Hs]). by exists p, ps, ins. Qed.

Lemma lexes_echo l s t : lexes l s -> lexes (echo t l) (with_echo t s).
Proof. intros (p & ps & ins & [Hctx Hdep [Hc Hout] Hst Hcur Hch Hb Hs]). exists p, ps, ins. split; try done. cbn. by rewrite Hout. Qed.

(** The outcomes are the same, and the states go on together. *)
Definition agrees (o : outcome (unit + token * semval)) l (r : outcome (unit + token * semval) * pstate) : Prop :=
  let (oa, s) := r in
  match oa with
  | Ret v => o = Ret v /\ lexes l s /\
      (forall t, v = inr (t, SYytext) -> yytext (guts l) = (Ret (ScanCtx.yytext s), guts l))
  | Undef w => o = Undef w
  | NoFuel => o = NoFuel
  | _ => False
  end.

Lemma wp_on_guts {A} (m : L A) (Q : outcome A -> lexer -> Prop) l :
  wp m (fun o g => Q o (with_guts g l)) (guts l) -> wp (on_guts m) Q l.
Proof. unfold wp, on_guts. by destruct (m (guts l)). Qed.

Lemma agrees_inl l s : lexes l s -> agrees (Ret (inl tt)) l (Ret (inl tt), s).
Proof. by intros H. Qed.

Lemma agrees_token l s t v : lexes l s -> v <> SYytext -> agrees (Ret (inr (t, v))) l (Ret (inr (t, v)), s).
Proof. intros H Hv. split_and!; [done|done|]. by intros t' [= _ ->]. Qed.

Lemma append_agrees l s w : lexes l s ->
  wp (l ← get; ctx ← lift_opt UB_bounds (scanctx_append_string (context l) w); put (with_context ctx l);; mret (inl tt))
    (fun o l' => agrees o l' (append_string w s)) l.
Proof.
  intros H. assert (sc_string (context l) = sc_string (scan s)) as E by (destruct H as (p & ps & ins & []); tauto).
  wnext. unfold append_string, mbind, M_bind, get, put, lift_opt, mret, M_ret, wp, then_, scanctx_append_string. rewrite E.
  destruct (strbuf_append (sc_string (scan s)) w) as [b|]; cbn; [|done]. apply (agrees_inl (with_context _ l) (with_scan _ s)).
  refine (lexes_context l s _ _ H _ _ _ _); [|done..]. destruct H as (p & ps & ins & [(? & ? & ? & ?)]). done.
Qed.

Lemma end_string_agrees l s : lexes l s ->
  wp (l ← get;
      let (w, ctx) := scanctx_take_string (context l) in
      put (with_context ctx l);;
      on_guts (modify (set_start INITIAL));;
      mret (inr (TOK_STRING, SString w)))
    (fun o l' => agrees o l' (end_string s)) l.
Proof.
  intros H. destruct (H) as (p & ps & ins & [(E1 & E2 & E3 & E4)]).
  unfold end_string, mbind, M_bind, get, put, on_guts, modify, mret, M_ret, wp, scanctx_take_string, strbuf_release. rewrite E3. cbn.
  apply (agrees_token (with_guts _ (with_context _ l)) (with_start _ (with_scan _ s))); [|done].
  apply (lexes_start (with_context _ l) (with_scan _ s)); [by left|]. by refine (lexes_context l s _ _ H _ _ _ _).
Qed.

(** ** Include files *)

Context (fs : string -> option (list read_event)) (Hfs : files_fit fuel fs).

Lemma with_guts_id l : with_guts (guts l) l = l.
Proof. by destruct l. Qed.

Lemma chain_files g p i es bfs ps ins j : chain g p i es bfs ps ins -> Some j ∈ ins -> j ∈ base \/ j ∈ es.*2.
Proof.
  induction 1 as [p i Hb|p fp q k es bf bfs ps ins Hw Hch IH Hp Hfp Hbase]; intros Hj.
  - apply list_elem_of_singleton in Hj as <-. left. by apply Hb.
  - cbn. rewrite elem_of_cons. apply elem_of_cons in Hj as [[= ->]|Hj]; [by right; left|]. destruct (IH Hj); auto.
Qed.

Lemma chain_inv g p i es bfs ps ins : chain g p i es bfs ps ins ->
  (es = [] /\ bfs = [] /\ ps = [p]) \/
  (exists fp q j es' bf bfs' ps' ins', i = Some fp /\ es = (Some q, fp) :: es' /\ bfs = bf :: bfs' /\ ps = p :: ps' /\
     ins = Some fp :: ins' /\ waiting q j bf g /\ chain g q j es' bfs' ps' ins' /\
     (p ∉ ps') /\ (Some fp ∉ ins') /\ (fp ∉ base)).
Proof. intros []; [by left|right]. do 8 eexists. split_and!; done. Qed.

Lemma chain_entries g p i es bfs ps ins j : chain g p i es bfs ps ins -> j ∈ es.*2 -> Some j ∈ ins.
Proof.
  induction 1 as [p i Hb|p fp q k es bf bfs ps ins Hw Hch IH Hp Hfp Hbase]; cbn; [by intros ?%not_elem_of_nil|].
  rewrite !elem_of_cons. intros [->|Hj]; auto.
Qed.

(** A file is opened, and the scanner switches to a new buffer for it. *)
Lemma enter_file_ok p ps ins l s ev f names (Q : outcome (unit + token * semval) -> lexer -> Prop) :
  lexes_at p ps ins l s -> affords fuel (str (text_of ev)) {| events := ev; ferror := false |} ->
  let fp := fresh (dom (streams (guts l))) in
  let g1 := set_streams (<[fp := {| events := ev; ferror := false |}]> (streams (guts l))) (guts l) in
  let entry B (b : B) (ctx : scan_context_of B) := {| top_filename := top_filename ctx; files := f :: files ctx;
    buffers := b :: buffers ctx; sc_string := empty_strbuf; sc_filenames := names |} in
  let l1 := with_context (entry _ (Some p, fp) (context l)) (with_guts g1 l) in
  let s1 := with_start INITIAL (with_buf (new_buffer (str (text_of ev))) (with_scan (entry _ (buf s) (scan s)) s)) in
  (forall l2, lexes l2 s1 -> Q (Ret (inl tt)) l2) ->
  wp (on_guts (modify (set_in (Some fp));;
               g ← get;
               p ← yy_create_buffer (yyin g) YY_BUF_SIZE;
               yy_switch_to_buffer (Some p));;
      on_guts (modify (set_start INITIAL));;
      mret (inl tt)) Q l1.
Proof.
  intros [(E1 & E2 & E3 & E4) Hdep [Hconf Hout] (S1 & S2 & S3) Hcur Hch Hb Hs] Haff fp g1 entry l1 s1 HQ.
  pose proof (holds_top _ _ _ Hcur) as Htop.
  assert (streams (guts l) !! fp = None) as Hfp by (apply not_elem_of_dom, is_fresh).
  assert ((fp ∉ base) /\ (fp ∉ (buffers (context l)).*2)) as [Hfp1 Hfp2].
  { split; intros Hin; [destruct (proj2 (Hs fp)) as [x Hx]; [by left|congruence]|].
    destruct (proj2 (Hs fp)) as [x Hx]; [by right|congruence]. }
  assert (Some fp ∉ ins) as Hfp3 by (intros Hin; by destruct (chain_files _ _ _ _ _ _ _ _ Hch Hin)).
  assert (forall j, j <> fp -> streams g1 !! j = streams (guts l) !! j) as Hold by (intros; by apply lookup_insert_ne).
  wnext. apply wp_on_guts. wnext. apply wp_modify. wnext. wnext. apply wp_get. wnext. wnext.
  change (yyin (set_in (Some fp) (guts l1))) with (Some fp). change (guts l1) with g1.
  apply (create_ok _ (Some p)); [exact Htop|done| |].
  { intros r [= <-]. destruct (chain_head _ _ _ _ _ _ _ Hch) as [Hp _]. exact (proj2 (Hb p) Hp). }
  intros r Hr. change (yy_buffers (guts l) !! r = None) in Hr. set (b := created (Some fp) YY_BUF_SIZE).
  change (with_cur r b (set_in (Some fp) g1)) with (set_in (Some fp) (with_cur r b g1)). set (g2 := with_cur r b g1).
  assert (r ∉ ps) as Hrps by (intros Hin; apply Hb in Hin as [x Hx]; congruence).
  assert (p <> r) as Hpr by (intros ->; destruct (chain_head _ _ _ _ _ _ _ Hch) as [Hp _]; done).
  destruct Hcur as (bf0 & Hr0 & He0 & Ha0).
  assert (forall j, yyin (guts l) = Some j -> j <> fp) as Hyyin.
  { intros j Hj ->. destruct (chain_head _ _ _ _ _ _ _ Hch) as [_ Hi]. by rewrite Hj in Hi. }
  cbn [then_]. eapply (switch_ok p r bf0 (new_buffer (str (text_of ev))) (Some fp)).
  - eapply ready_same; [..|exact Hr0]; try done.
    + apply lookup_insert_ne. congruence.
    + intros j Hj. apply Hold. by apply Hyyin.
  - apply (created_stored g2 r fp {| events := ev; ferror := false |} YY_BUF_SIZE); [apply lookup_insert_eq|done|apply lookup_insert_eq].
  - done.
  - intros g3 Hr3 Hst3 Hi3 [W1 W2 W3] Hb3 Hp3. wnext. apply wp_on_guts, wp_modify. wnext. apply wp_ret. apply HQ.
    exists r, (r :: ps), (Some fp :: ins). split.
    + cbn. split_and!; congruence.
    + cbn. by rewrite Hdep.
    + done.
    + cbn. split_and!; [done|by left|by rewrite W3].
    + eapply (holds_same _ _ g3); try done; [by destruct (ready_lookup _ _ _ Hr3)|].
      exists (new_buffer (str (text_of ev))). split_and!; [done|done|]. cbn [rest new_buffer].
      unfold stream_of. rewrite Hi3. cbn. rewrite W1. unfold g2. cbn. by rewrite lookup_insert_eq.
    + change (yyin (guts _)) with (yyin g3). rewrite Hi3. cbn [context with_context with_guts entry buffers scan with_start with_buf with_scan].
      apply (chain_file _ r fp p (yyin (guts l))); [| |done..].
      * exists bf0. split_and!; [eapply stored_same; [..|exact Hst3]; done|done|].
        replace (file_stream _ (yyin (guts l))) with (stream_of (guts l)); [done|].
        unfold stream_of, file_stream. destruct (yyin (guts l)) as [j|] eqn:Ej; [|done]. cbn. rewrite W1. symmetry. f_equal.
        by apply Hold, Hyyin.
      * eapply chain_same; [exact Hch|..].
        -- intros q Hq Hqp. cbn. rewrite Hb3 by done. apply lookup_insert_ne. by intros ->.
        -- intros j Hj _. cbn. rewrite W1. apply Hold. by intros ->.
    + intros q. cbn. rewrite elem_of_cons. destruct (decide (q = p)) as [->|Hqp].
      { split; [|done]. intros _. right. by destruct (chain_head _ _ _ _ _ _ _ Hch). }
      rewrite Hb3 by done. cbn. destruct (decide (q = r)) as [->|Hqr]; [rewrite lookup_insert_eq; split; [by left|done]|].
      rewrite lookup_insert_ne by done. rewrite Hb. split; [by right|]. by intros [|].
    + intros j. cbn. rewrite W1. cbn. rewrite elem_of_cons. destruct (decide (j = fp)) as [->|Hj].
      * rewrite lookup_insert_eq. split; [by right; left|done].
      * rewrite lookup_insert_ne by done. rewrite Hs. tauto.
Qed.

Lemma wp_get_lineno p bf g (Q : outcome Z -> yyguts_t -> Prop) : holds p bf g -> Q (Ret (bs_lineno bf)) g -> wp yyget_lineno Q g.
Proof.
  intros (bf0 & (b & bp & D & Hc & _ & _ & _ & _ & Hl) & (_ & E & _) & _) HQ.
  unfold yyget_lineno. wnext. eapply wp_CURRENT; [done|]. wnext. wnext. eapply wp_cur; [done|]. wnext.
  eapply wp_lift; [done|]. by rewrite E.
Qed.

(** The file cannot be included: an error at the current line. *)
Lemma report_error_ok l s ctx sc error : lexes (with_context ctx l) (with_scan sc s) ->
  wp (line ← on_guts yyget_lineno;
      modify (fun l => with_conf (with_parse_error error (scanctx_current_filename (context l)) line (conf l)) l);;
      mret (inr (TOK_ERROR, SNone)))
    (fun o l' => agrees o l' (Ret (inr (TOK_ERROR, SNone)),
       with_cfg (with_parse_error error (scanctx_current_filename sc) (bs_lineno (buf s)) (cfg s)) (with_scan sc s)))
    (with_context ctx l).
Proof.
  intros H. pose proof H as (p & ps & ins & [(E1 & E2 & _) _ [Hconf _] _ Hcur _ _ _]). cbn in E1, E2, Hconf, Hcur.
  wnext. apply wp_on_guts. eapply wp_get_lineno; [exact Hcur|]. wnext. wnext. apply wp_modify. wnext. apply wp_ret.
  apply agrees_token; [|done]. cbn [context conf with_context with_guts].
  replace (scanctx_current_filename ctx) with (scanctx_current_filename sc) by (unfold scanctx_current_filename; by rewrite E1, E2).
  rewrite Hconf. by refine (lexes_conf (with_context ctx l) (with_scan sc s) _ _).
Qed.

Lemma open_include_eq files s : open_include files s =
  match scanctx_push_include files (include_dir (cfg s)) (scan s) (buf s) with
  | (inl text, ctx) => (Ret (inl tt), with_start INITIAL (with_buf (new_buffer text) (with_scan ctx s)))
  | (inr error, ctx) => (Ret (inr (TOK_ERROR, SNone)),
      with_cfg (with_parse_error error (scanctx_current_filename ctx) (bs_lineno (buf s)) (cfg s)) (with_scan ctx s))
  end.
Proof. unfold open_include, mbind, M_bind, get. by destruct (scanctx_push_include files _ _ _) as [[] ?]. Qed.

Lemma end_of_buffer_eq s : end_of_buffer s =
  match scanctx_pop_include (scan s) with
  | Some (b, ctx) => (Ret (inl tt), with_buf b (with_scan ctx s))
  | None => (Ret (inr (TOK_EOF, SNone)), s)
  end.
Proof. unfold end_of_buffer, mbind, M_bind, get. by destruct (scanctx_pop_include _) as [[]|]. Qed.

Lemma open_include_agrees l s : lexes l s ->
  wp (open_include_file fs) (fun o l' => agrees o l' (open_include (texts fs) s)) l.
Proof using Hfs.
  intros H. destruct (H) as (p & ps & ins & Hat). pose proof Hat as [(E1 & E2 & E3 & E4) _ [Hconf _] _ Hcur _ _ _].
  unfold open_include_file. wnext. apply wp_on_guts. eapply wp_CURRENT_top; [by eapply holds_top|]. wnext.
  rewrite with_guts_id. wnext. unfold push_include. wnext. apply wp_get. wnext.
  rewrite open_include_eq. unfold scanctx_push_include.
  assert (depth (context l) = depth (scan s)) as -> by (unfold depth; by rewrite E2).
  destruct (depth (scan s) =? MAX_INCLUDE_DEPTH).
  { apply wp_ret. wnext. assert (with_context (context l) l = l) as El by (by destruct l).
    assert (with_scan (scan s) s = s) as Es by (by destruct s).
    pose proof (report_error_ok l s (context l) (scan s) err_include_too_deep) as Herr. rewrite El, Es in Herr.
    apply wp_bind_inv. eapply wp_mono; [|exact (Herr H)]. intros o l' Ho. by rewrite Es. }
  unfold scanctx_take_string, strbuf_release. cbv iota beta. cbn [sc_filenames]. rewrite <- E3, <- E4, <- Hconf.
  set (file := default "" (sb_string (sc_string (context l)))). set (full := match include_dir (conf l) with Some d => d +:+ FILE_SEPARATOR +:+ file | None => file end).
  wnext. apply wp_put. wnext. wnext. unfold fopen. change (texts fs full) with ((fun ev => str (text_of ev)) <$> fs full).
  destruct (fs full) as [ev|] eqn:Ef; cbn [fmap option_fmap option_map].
  - wnext. apply wp_on_guts. wnext. apply wp_get. wnext. cbv zeta. wnext. apply wp_put. wnext. apply wp_ret. wnext.
    destruct (scanctx_add_filename (sc_filenames (context l)) file) as [f names]. wnext. apply wp_modify. wnext. apply wp_ret. wnext.
    apply wp_bind_inv. eapply (enter_file_ok p ps ins l s ev f names); [done|by eapply Hfs|]. intros l2 H2. by apply agrees_inl.
  - apply wp_ret. wnext. apply wp_ret. wnext.
    apply wp_bind_inv. eapply wp_mono; [|apply (report_error_ok l s {| top_filename := top_filename (context l); files := files (context l);
      buffers := buffers (context l); sc_string := empty_strbuf; sc_filenames := sc_filenames (context l) |} {| top_filename := top_filename (scan s); files := files (scan s);
      buffers := buffers (scan s); sc_string := empty_strbuf; sc_filenames := sc_filenames (context l) |} err_bad_include)].
    + intros o l' Ho. rewrite Hconf. exact Ho.
    + by refine (lexes_context l s _ _ H _ _ _ _).
Qed.

(** The end of a file: back to the one that includes it. *)
Lemma end_of_file_agrees l s : lexes l s ->
  wp end_of_file (fun o l' => agrees o l' (end_of_buffer s)) l.
Proof.
  intros H. destruct (H) as (p & ps & ins & [(E1 & E2 & E3 & E4) Hdep [Hconf Hout] (S1 & S2 & S3) Hcur Hch Hb Hs]).
  unfold end_of_file. wnext. unfold pop_include. wnext. apply wp_get. wnext.
  rewrite end_of_buffer_eq. unfold scanctx_pop_include. rewrite <- E2.
  assert (wp (mret (@None positive)) (then_ (fun buf => match buf with
    | Some b => on_guts (c ← YY_CURRENT_BUFFER; yy_delete_buffer c;; yy_switch_to_buffer (Some b));; mret (inl tt)
    | None => mret (inr (TOK_EOF, SNone)) end)
    (fun o l' => agrees o l' (Ret (inr (TOK_EOF, SNone)), s))) l) as Hend.
  { apply wp_ret. wnext. apply wp_ret. by apply agrees_token. }
  destruct (files (context l)) as [|f fl] eqn:Ef; [exact Hend|].
  destruct (chain_inv _ _ _ _ _ _ _ Hch) as [(-> & -> & _)|(fp & q & j & es & bf & bfs & ps0 & ins0 & Ei & Ees & Ebfs & -> & -> & Hw & Hch0 & Hp & Hfp & Hbase)];
    [exact Hend|].
  rewrite Ees, Ebfs in *.
  clear Hend. wnext. wnext. apply wp_put. wnext. wnext. unfold fclose. apply wp_on_guts. apply wp_modify. wnext. apply wp_ret. wnext.
  set (g1 := set_streams (delete fp (streams (guts l))) (guts l)).
  pose proof (holds_top _ _ _ Hcur) as Htop. destruct (chain_head _ _ _ _ _ _ _ Hch0) as [Hq0 Hj0].
  assert (forall k, k <> fp -> streams g1 !! k = streams (guts l) !! k) as Hold by (intros; by apply lookup_delete_ne).
  wnext. apply wp_on_guts. wnext. eapply wp_CURRENT_top; [exact Htop|]. wnext. wnext.
  eapply delete_current_ok; [exact Htop| |].
  { apply (proj2 (Hb p)). by left. }
  intros g2 Ht2 _ [W1 W2 W3] Hb2. wnext. destruct Hw as (bf0 & Hst & He & Ha).
  eapply (switch_back_ok q bf0 j); [exact Ht2|eapply stored_same; [..|exact Hst]|].
  { rewrite Hb2. apply lookup_delete_ne. by intros ->. }
  { intros k ->. rewrite W1. apply Hold. by intros ->. }
  intros g3 Hr3 Hi3 [V1 V2 V3] Hb3. wnext. apply wp_ret. apply (agrees_inl (with_guts g3 _) (with_buf bf (with_scan _ s))).
  exists q, ps0, ins0. split; cbn.
  - by split_and!.
  - by injection Hdep.
  - done.
  - rewrite V2, V3, W2, W3. done.
  - exists bf0. split_and!; [done|done|]. replace (stream_of g3) with (file_stream (guts l) j); [done|].
    unfold stream_of, file_stream. rewrite Hi3. destruct j as [k|]; [|done]. cbn. rewrite V1, W1. symmetry. f_equal. apply Hold. by intros ->.
  - rewrite Hi3. eapply chain_same; [exact Hch0|..].
    + intros r Hr _. rewrite Hb3, Hb2. apply lookup_delete_ne. by intros ->.
    + intros k Hk _. rewrite V1, W1. apply Hold. by intros ->.
  - intros r. rewrite Hb3, Hb2. destruct (decide (r = p)) as [->|Hr]; [rewrite lookup_delete_eq; by split; [intros []|]|].
    rewrite lookup_delete_ne, Hb, elem_of_cons by done. tauto.
  - intros k. rewrite V1, W1. change (is_Some (streams g1 !! k) <-> k ∈ base \/ k ∈ es.*2). destruct (decide (k = fp)) as [->|Hk].
    + assert (streams g1 !! fp = None) as -> by (apply lookup_delete_eq). split; [by intros []|].
      intros [Hin|Hin]; [done|]. destruct Hfp. by eapply chain_entries.
    + rewrite Hold, Hs by done. cbn. rewrite elem_of_cons. tauto.
Qed.

(** ** Rounds of yylex *)

Lemma lexes_yytext l s t : lexes l s -> lexes l (with_yytext t s).
Proof. intros (p & ps & ins & []). by exists p, ps, ins. Qed.

(** The current buffer was scanned on. *)
Lemma lexes_scanned p ps ins l s bf g : lexes_at p ps ins l s -> frame p (guts l) g -> holds p bf g ->
  lexes (with_guts g l) (with_buf bf s).
Proof.
  intros [Hctx Hdep Hconf Hst Hcur Hch Hb Hs] [(F1 & F2 & F3) (F4 & F5 & F6) F7 F8] Hh. exists p, ps, ins. split; try done; cbn.
  - by rewrite F4, F5.
  - rewrite F6. eapply chain_same; [exact Hch|by auto|]. intros j _ Hj. by apply F8.
  - intros r. destruct (decide (r = p)) as [->|Hr]; [|by rewrite F7].
    destruct Hh as (bf0 & Hr & _). destruct (ready_lookup _ _ _ Hr) as [Hp _]. split; [|done].
    intros _. by destruct (chain_head _ _ _ _ _ _ _ Hch).
  - intros j. rewrite <- (Hs j), <- !elem_of_dom. by rewrite F3.
Qed.

Lemma rule_begins act text z : rule_command act text = Begin z -> condition z.
Proof.
  unfold rule_command. intros H.
  repeat match type of H with match ?x with _ => _ end = _ => destruct x end; try done; injection H as <-; unfold condition; tauto.
Qed.

(** The action of a rule. *)
Lemma act_on_agrees l s text act : lexes l s -> yytext (guts l) = (Ret (ScanCtx.yytext s), guts l) ->
  wp (act_on fs text (rule_command act text)) (fun o l' => agrees o l' (rule_action (texts fs) act text s)) l.
Proof using Hfs.
  intros H Hy. unfold rule_action. destruct (rule_command act text) as [z| |w| | |t v|] eqn:E; cbn [act_on perform].
  - wnext. apply wp_on_guts, wp_modify. wnext. apply wp_ret.
    apply (agrees_inl (with_guts _ l) (with_start z s)). apply lexes_start; [by eapply rule_begins|done].
  - by apply wp_ret, agrees_inl.
  - by apply append_agrees.
  - by apply end_string_agrees.
  - by apply open_include_agrees.
  - apply wp_ret. split_and!; [done|done|]. by intros t' _.
  - wnext. apply wp_modify. wnext. apply wp_ret. apply (agrees_inl (echo text l) (with_echo text s)). by apply lexes_echo.
Qed.

Lemma lexer_round_agrees l s : lexes l s ->
  wp (lexer_round fs fuel) (fun o l' => agrees o l' (yylex_round (texts fs) s)) l.
Proof using Hfs.
  intros H. destruct H as (p & ps & ins & H). pose proof H as [_ _ _ (E1 & Hcond & _) Hcur _ _ _].
  unfold lexer_round. wnext. apply wp_on_guts. eapply wp_mono; [|by apply (token_ok p (buf s))].
  intros o g' [Hfr [(E & -> & Hh)|(act & text & bf' & Hne & Hnt & -> & Hh & Hy)]]; wnext.
  - assert (yylex_round (texts fs) s = end_of_buffer s) as -> by (unfold yylex_round, mbind, M_bind, get; by rewrite E).
    apply end_of_file_agrees. replace s with (with_buf (buf s) s) by (by destruct s). by eapply lexes_scanned.
  - rewrite yylex_round_token, <- E1, Hnt by done.
    assert (forall (m : PM (unit + token * semval)) s1, (put s1;; m) s = m s1) as Eput by done. rewrite Eput.
    apply act_on_agrees; [|exact Hy]. apply lexes_yytext. by eapply lexes_scanned.
Qed.

Definition agrees_token_of (o : outcome (token * semval)) l (r : outcome (token * semval) * pstate) : Prop :=
  let (oa, s) := r in
  match oa with
  | Ret v => o = Ret v /\ lexes l s /\ (forall t, v = (t, SYytext) -> yytext (guts l) = (Ret (ScanCtx.yytext s), guts l))
  | Undef w => o = Undef w
  | NoFuel => o = NoFuel
  | _ => False
  end.

Lemma rounds_agree rounds l s : lexes l s ->
  wp (iter rounds (fun _ : unit => lexer_round fs fuel) tt) (fun o l' => agrees_token_of o l' (yylex (texts fs) rounds s)) l.
Proof using Hfs.
  unfold yylex. revert l s. induction rounds as [|n IH]; intros l s H; [done|]. cbn [iter]. wnext.
  eapply wp_mono; [|by apply lexer_round_agrees]. intros o l' Ho. unfold mbind, M_bind.
  destruct (yylex_round (texts fs) s) as [[[[]|v]|z| |w|] s']; cbn [agrees] in Ho; try done.
  - destruct Ho as (-> & Hl & _). wnext. by apply IH.
  - destruct Ho as (-> & Hl & Hy). wnext. apply wp_ret. split_and!; [done|done|]. intros t ->. by eapply Hy.
  - by subst o.
  - by subst o.
Qed.

Lemma yylex_agrees rounds l s : lexes l s ->
  wp (libconfig_yylex fs fuel rounds) (fun o l' => agrees_token_of o l' (yylex (texts fs) rounds s)) l.
Proof using Hfs.
  intros H. unfold libconfig_yylex. wnext. apply wp_on_guts.
  assert (yylex_first (guts l) = (Ret tt, guts l)) as Efirst.
  { destruct H as (p & ps & ins & [_ _ _ (_ & _ & Hi) _ _ _ _]). unfold yylex_first, mbind, M_bind, get. by rewrite Hi. }
  unfold wp at 1. rewrite Efirst, with_guts_id. wnext. by apply rounds_agree.
Qed.
End Relation.
