(* ===== verification/LexerRuns.v ===== *)
(** * The scanner from opening an input to closing it

    The states in which a scan starts, and what is left of buffers and streams in
    the end; the claims about the scanner's buffers. *)

From S2P Require Import Prelude CString Setting Config ConfigApi ScanCtx Scanner ScannerSpec LexerProps Grammar ConfigRead ParserSafe ScanProps ScanBuffer BufferedLexer BufferProps MatchProps RefillProps RefillLoop RefillToken RefillSpec SwitchProps LexerRefines.
Local Open Scope Z_scope.

Implicit Types (g : yyguts_t) (p q : positive) (bf : buffer) (l : lexer) (s : pstate) (es : list included).

(** ** Before the first token *)

(** Nothing was read of the input yet. *)
Record unread (fuel : nat) (base : gset positive) p (file : option positive) l s : Prop := {
  un_opened : opened (streams (guts l)) p file (buf s) (guts l);
  un_affords : affords fuel (rest (buf s)) (file_stream (guts l) file);
  un_base : dom (streams (guts l)) = base /\ (forall j, file = Some j -> j ∈ base);
  un_context : top_filename (context l) = top_filename (scan s) /\ files (context l) = files (scan s) /\
    sc_string (context l) = sc_string (scan s) /\ sc_filenames (context l) = sc_filenames (scan s);
  un_level : files (context l) = [] /\ buffers (context l) = [] /\ buffers (scan s) = [];
  un_conf : conf l = cfg s /\ yyout l = ScanCtx.yyout s /\ ScanCtx.yy_start s = INITIAL
}.

(** The scanner with buffers does what the one with texts does, from here on. *)
Definition lexing (fuel : nat) (base : gset positive) l s : Prop :=
  lexes fuel base l s \/ exists p file, unread fuel base p file l s.

Lemma first_yylex_ok fuel base l s (Q : outcome unit -> lexer -> Prop) : lexing fuel base l s ->
  (forall l', lexes fuel base l' s -> Q (Ret tt) l') -> wp (on_guts yylex_first) Q l.
Proof.
  intros [H|(p & file & [Hop Haff [Hdom Hbase] Hctx (Hf & Hb & Hb') (Hc & Ho & Hst)])] HQ; apply wp_on_guts.
  - assert (yylex_first (guts l) = (Ret tt, guts l)) as Efirst.
    { destruct H as (p & ps & ins & [_ _ _ (_ & _ & Hi) _ _ _ _]). unfold yylex_first, mbind, M_bind, get. by rewrite Hi. }
    unfold wp. rewrite Efirst, with_guts_id. by apply HQ.
  - eapply first_call_ok; [done|]. intros g' Hr Hi Hs Hstart Hinit Hbufs. apply HQ. exists p, [p], [file]. split; cbn.
    + done.
    + by rewrite Hf, Hb.
    + done.
    + rewrite Hstart, Hst, Hinit. by split_and!; [|left|].
    + exists (buf s). split_and!; [done|done|]. unfold stream_of. by rewrite Hi, Hs.
    + rewrite Hi, Hb, Hb'. by apply chain_top.
    + intros r. rewrite Hbufs, list_elem_of_singleton. by apply (op_only _ _ _ _ _ Hop).
    + intros j. rewrite Hs, Hb, <- elem_of_dom, Hdom. cbn. rewrite elem_of_nil. tauto.
Qed.

(** ** Opening *)

(** The text of an input: a stream, or a string. *)
Definition input_of (fuel : nat) (fs0 : gmap positive stream) (file : option positive) (str0 text : string) : Prop :=
  match file with
  | Some i => exists f, fs0 !! i = Some f /\ text = str (text_of (events f)) /\ affords fuel text f
  | None => text = c_str str0 /\ affords fuel text {| events := []; ferror := false |}
  end.

Definition lexer_init (fs0 : gmap positive stream) (filename : option string) (c : config) : lexer :=
  Lexer (yylex_init fs0) (scanctx_init filename) c "".

Lemma init_contexts filename : let ctx := @scanctx_init included filename in let ctx' := @scanctx_init buffer filename in
  (top_filename ctx = top_filename ctx' /\ files ctx = files ctx' /\
   sc_string ctx = sc_string ctx' /\ sc_filenames ctx = sc_filenames ctx') /\
  files ctx = [] /\ buffers ctx = [] /\ buffers ctx' = [].
Proof. by destruct filename. Qed.

Lemma open_input_ok fuel fs0 file str0 text filename c (Q : outcome unit -> lexer -> Prop) :
  input_of fuel fs0 file str0 text ->
  (forall l, lexing fuel (dom fs0) l (parse_start text (scanctx_init filename) c) -> Q (Ret tt) l) ->
  wp (on_guts (open_input file str0)) Q (lexer_init fs0 filename c).
Proof.
  intros Hin HQ. apply wp_on_guts. destruct (init_contexts filename) as [Hctx Hlev].
  assert (forall p file g, opened fs0 p file (new_buffer text) g -> affords fuel text (file_stream g file) ->
    (forall j, file = Some j -> j ∈ dom fs0) ->
    Q (Ret tt) (with_guts g (lexer_init fs0 filename c))) as Hopen.
  { intros p file' g Hop Ha Hb. apply HQ. right. exists p, file'. pose proof (op_streams _ _ _ _ _ Hop) as Es.
    split; [cbn; by rewrite Es|done|cbn; by rewrite Es|exact Hctx|exact Hlev|done]. }
  destruct file as [i|]; unfold open_input; cbn in Hin.
  - destruct Hin as (f & Hf & -> & Ha). apply (restart_first_ok fs0 i f); [done|]. intros p g Hop.
    apply (Hopen p (Some i)); [done| |intros j [= <-]; by apply elem_of_dom_2 in Hf].
    unfold file_stream. rewrite (op_streams _ _ _ _ _ Hop). cbn. by rewrite Hf.
  - destruct Hin as [-> Ha]. 
    assert (forall (m m' : L unit) g, wp (yy_scan_string str0;; m) (fun o g => Q o (with_guts g (lexer_init fs0 filename c))) g ->
      wp ((yy_scan_string str0;; mret tt);; m) (fun o g => Q o (with_guts g (lexer_init fs0 filename c))) g) as Hassoc.
    { intros m _ g. unfold wp, mbind, M_bind. by destruct (yy_scan_string str0 g) as [[] ?]. }
    apply Hassoc; [exact (mret tt)|]. apply scan_string_ok. intros p g Hop. by apply (Hopen p None).
Qed.

(** ** Closing *)

(** The buffers and streams that are there: the current buffer, and those of the
    include stack. *)
Record standing (base : gset positive) p (qs : list positive) es g : Prop := {
  st_top : top_is g (Some p);
  st_entries : es.*1 = Some <$> qs;
  st_buffers : forall r, is_Some (yy_buffers g !! r) <-> r ∈ p :: qs;
  st_streams : forall j, is_Some (streams g !! j) <-> j ∈ base \/ j ∈ es.*2;
  st_nodup : NoDup (p :: qs) /\ NoDup es.*2 /\ (forall j, j ∈ es.*2 -> j ∉ base)
}.

Lemma chain_shape fuel base g p i es bfs ps ins : chain fuel base g p i es bfs ps ins ->
  exists qs, ps = p :: qs /\ es.*1 = Some <$> qs /\ NoDup ps /\ NoDup es.*2 /\ (forall j, j ∈ es.*2 -> j ∉ base).
Proof.
  induction 1 as [p i Hb|p fp q k es bf bfs ps ins Hw Hch IH Hp Hfp Hbase].
  - exists []. split_and!; [done|done|apply NoDup_singleton|apply NoDup_nil_2|]. by intros j ?%not_elem_of_nil.
  - destruct IH as (qs & -> & E & Hd & Hd2 & Hn). exists (q :: qs). split_and!; [done|cbn; by rewrite E|by constructor| |].
    + cbn. constructor; [|done]. intros Hin. by eapply Hfp, chain_entries.
    + intros j. cbn. rewrite elem_of_cons. intros [->|Hj]; auto.
Qed.

Lemma lexing_standing fuel base l s : lexing fuel base l s ->
  length (files (context l)) = length (buffers (context l)) /\
  length (buffers (context l)) = length (buffers (scan s)) /\
  exists p qs, standing base p qs (buffers (context l)) (guts l).
Proof.
  intros [(p & ps & ins & [_ Hdep _ _ Hcur Hch Hb Hs])|(p & file & [[Ht Hst Ho Hstr _] _ [Hdom _] _ (Hf & Hb & Hb') _])].
  - split; [done|]. split.
    { clear - Hch. induction Hch; [done|]. cbn. by f_equal. }
    destruct (chain_shape _ _ _ _ _ _ _ _ _ Hch) as (qs & -> & E & Hd & Hd2 & Hn). exists p, qs.
    split; [by eapply holds_top|done|done|done|by split_and!].
  - rewrite Hf, Hb, Hb'. split; [done|]. split; [done|]. exists p, []. split; [done|done| | |].
    + intros r. rewrite list_elem_of_singleton. apply Ho.
    + intros j. cbn. rewrite elem_of_nil, <- elem_of_dom, Hdom. tauto.
    + cbn. split_and!; [apply NoDup_singleton|apply NoDup_nil_2|by intros j ?%not_elem_of_nil].
Qed.

Lemma unwind_ok base p qs k l (Q : outcome unit -> lexer -> Prop) :
  length (files (context l)) = length (buffers (context l)) -> standing base p qs (buffers (context l)) (guts l) ->
  (length (buffers (context l)) < k)%nat ->
  (forall l', buffers (context l') = [] -> standing base p [] [] (guts l') -> conf l' = conf l ->
     sc_filenames (context l') = sc_filenames (context l) -> Q (Ret tt) l') ->
  wp (unwind k) Q l.
Proof.
  unfold unwind. revert qs l. induction k as [|k IH]; intros qs l Hlen Hst Hk HQ; [lia|].
  cbn [iter]. wnext. wnext. unfold pop_include. wnext. apply wp_get. wnext. unfold scanctx_pop_include.
  destruct (buffers (context l)) as [|[b fp] es] eqn:Eb.
  - destruct (files (context l)); [|done]. apply wp_ret. wnext. apply wp_ret. wnext. apply wp_ret.
    destruct qs as [|q qs]; [by apply HQ|]. by destruct Hst.
  - destruct (files (context l)) as [|f fl]; [done|]. injection Hlen as Hlen.
    destruct Hst as [Ht He Hb Hs (Hd & Hd2 & Hn)]. destruct qs as [|q qs]; [done|]. injection He as -> He.
    apply NoDup_cons in Hd as [Hp Hd]. apply NoDup_cons in Hd as [Hq Hd]. apply NoDup_cons in Hd2 as [Hfp Hd2].
    rewrite elem_of_cons in Hp.
    wnext. apply wp_put. wnext. wnext. unfold fclose. apply wp_on_guts, wp_modify. wnext. apply wp_ret. wnext.
    wnext. apply wp_on_guts. eapply (delete_waiting_ok p q); [exact Ht|by intros ->; auto|apply (Hb q); by right; left|].
    wnext. apply wp_ret. wnext. apply (IH qs); [exact Hlen|split|cbn in *; lia|exact HQ]; cbn.
    + exact Ht.
    + exact He.
    + intros r. destruct (decide (r = q)) as [->|Hr].
      * rewrite lookup_delete_eq. split; [by intros []|]. intros Hin. apply elem_of_cons in Hin as [->|]; [by destruct Hp; left|done].
      * rewrite lookup_delete_ne, Hb by done. rewrite !elem_of_cons. tauto.
    + intros j. destruct (decide (j = fp)) as [->|Hj].
      * rewrite lookup_delete_eq. split; [by intros []|]. intros [Hin|Hin]; [|done]. exfalso. eapply Hn; [by left|done].
      * rewrite lookup_delete_ne, Hs by done. cbn. rewrite elem_of_cons. tauto.
    + split_and!; [constructor; [tauto|done]|done|]. intros j Hj. apply Hn. by right.
Qed.

Lemma close_input_ok fuel base k failed l s (Q : outcome unit -> lexer -> Prop) : lexing fuel base l s ->
  (length (buffers (scan s)) + 1 < k)%nat -> (failed = false -> buffers (scan s) = []) ->
  (forall l', yy_buffers (guts l') = ∅ -> dom (streams (guts l')) = base -> conf l' = conf l ->
     sc_filenames (context l') = sc_filenames (context l) -> Q (Ret tt) l') ->
  wp (close_input k failed) Q l.
Proof.
  intros H Hk Hfail HQ. destruct (lexing_standing _ _ _ _ H) as (E1 & E2 & p & qs & Hst).
  assert (forall l', buffers (context l') = [] -> standing base p [] [] (guts l') -> conf l' = conf l ->
    sc_filenames (context l') = sc_filenames (context l) -> wp (on_guts (yylex_destroy k);; l ← get; fclose_all (buffers (context l))) Q l') as Hend.
  { intros l' Eb [Ht _ Hb Hs _] Hc Hn. wnext. apply wp_on_guts. eapply destroy_scanner_ok; [done|apply Hb; by left|lia|].
    intros g' Eg Es. wnext. wnext. apply wp_get. wnext. cbn. rewrite Eb. apply wp_ret. apply HQ; cbn; [..|exact Hc|exact Hn].
    - rewrite Eg. apply map_eq. intros r. rewrite lookup_empty. destruct (decide (r = p)) as [->|Hr]; [apply lookup_delete_eq|].
      rewrite lookup_delete_ne by done. destruct (yy_buffers (guts l') !! r) eqn:E; [|done].
      destruct Hr. apply list_elem_of_singleton. apply Hb. by eexists.
    - apply set_eq. intros j. rewrite elem_of_dom, Es, Hs. cbn. rewrite elem_of_nil. tauto. }
  unfold close_input. wnext. destruct failed; wnext.
  - eapply unwind_ok; [done|exact Hst|lia|]. intros l' Eb Hst' Hc Hn. wnext. by apply wp_bind_inv, Hend.
  - apply wp_ret. wnext. apply wp_bind_inv, Hend.
    + apply nil_length_inv. by rewrite E2, (Hfail eq_refl).
    + assert (buffers (context l) = []) as Eb by (apply nil_length_inv; by rewrite E2, (Hfail eq_refl)).
      rewrite Eb in Hst. destruct qs as [|q qs]; [done|]. by destruct Hst.
    + done.
    + done.
Qed.

(** ** Runs of the scanner *)

(** The next tokens, at most [n] of them, up to the end of the input. *)
Fixpoint next_tokens (fs : string -> option (list read_event)) (fuel rounds n : nat) : LM (list (token * semval)) :=
  match n with
  | O => mret []
  | S m =>
      tv ← libconfig_yylex fs fuel rounds;
      match tv.1 with
      | TOK_EOF => mret [tv]
      | _ => tvs ← next_tokens fs fuel rounds m; mret (tv :: tvs)
      end
  end.

(** What a call of yylex does on both sides. *)
Definition same_call (fuel : nat) (base : gset positive) (o : outcome (token * semval)) l (r : outcome (token * semval) * pstate) : Prop :=
  let (oa, s) := r in
  match oa with
  | Ret v => o = Ret v /\ lexing fuel base l s /\
      (forall t, v = (t, SYytext) -> yytext (guts l) = (Ret (ScanCtx.yytext s), guts l))
  | Undef w => o = Undef w
  | NoFuel => o = NoFuel
  | _ => False
  end.

Lemma call_ok fs fuel base rounds l s : files_fit fuel fs -> lexing fuel base l s ->
  wp (libconfig_yylex fs fuel rounds) (fun o l' => same_call fuel base o l' (yylex (texts fs) rounds s)) l.
Proof.
  intros Hfs H. unfold libconfig_yylex. wnext. eapply first_yylex_ok; [done|]. intros l1 H1. wnext.
  eapply wp_mono; [|by apply rounds_agree]. intros o l' Ho.
  destruct (yylex (texts fs) rounds s) as [[v|z| |w|] s']; try done.
  destruct Ho as (-> & Hl & Hy). split_and!; [done|by left|done].
Qed.

Lemma next_tokens_ok fs fuel base rounds n l s tvs s' : files_fit fuel fs -> lexing fuel base l s ->
  scan_all (texts fs) rounds n s = (Ret tvs, s') ->
  wp (next_tokens fs fuel rounds n) (fun o l' => o = Ret tvs /\ lexing fuel base l' s') l.
Proof.
  intros Hfs. revert l s tvs. induction n as [|n IH]; intros l s tvs H E; cbn [next_tokens scan_all] in *.
  { injection E as <- <-. by apply wp_ret. }
  wnext. eapply wp_mono; [|by apply call_ok]. intros o l' Ho. revert E. unfold mbind at 1, M_bind at 1.
  destruct (yylex (texts fs) rounds s) as [[v|z| |w|] s1]; try done. destruct Ho as (-> & Hl & _).
  intros E. wnext. revert E. destruct (decide (v.1 = TOK_EOF)) as [->|Hne]; [intros [= <- <-]; by apply wp_ret|].
  intros E. assert ((tvs ← scan_all (texts fs) rounds n; mret (v :: tvs)) s1 = (Ret tvs, s')) as E' by (by destruct (v.1)).
  assert (wp (tvs ← next_tokens fs fuel rounds n; mret (v :: tvs)) (fun o l' => o = Ret tvs /\ lexing fuel base l' s') l') as Hw;
    [|by destruct (v.1)].
  revert E'. unfold mbind at 1, M_bind at 1. destruct (scan_all (texts fs) rounds n s1) as [[tvs1|z| |w|] s2] eqn:E2; try done.
  intros [= <- <-]. wnext. eapply wp_mono; [|by eapply IH]. intros o2 l2 [-> Hl2]. wnext. by apply wp_ret.
Qed.

(** From opening an input to closing it. *)
Definition scan_input (fs : string -> option (list read_event)) (fuel rounds n : nat) (file : option positive)
    (str0 : string) : LM (list (token * semval)) :=
  on_guts (open_input file str0);;
  tvs ← next_tokens fs fuel rounds n;
  close_input 12 true;;
  mret tvs.

(** ** A sample: a file in two blocks that includes another one

    The first read of it is interrupted by a signal. *)

Definition in_blocks (w : string) : list read_event := [Bytes (take 7 (chars w)); Bytes (drop 7 (chars w))].

Lemma blocks_clean w : clean {| events := in_blocks w; ferror := false |}.
Proof. split; [done|]. constructor; [by eexists|]. constructor; [by eexists|constructor]. Qed.

Definition sample_disk (name : string) : option (list read_event) := in_blocks <$> sample_files name.

Definition sample_streams (es : list read_event) : gmap positive stream :=
  {[2%positive := {| events := es; ferror := false |}]}.

Lemma sample_fits : files_fit 400 sample_disk.
Proof.
  intros name ev. unfold sample_disk, sample_files. destruct (String.eqb name "loop.cfg"); [|done].
  intros [= <-]. split; [apply blocks_clean|]. split; [vm_compute; reflexivity|vm_compute; lia].
Qed.

Lemma sample_within : files_within (texts sample_disk) 30 2.
Proof.
  split_and!; [done|done|]. intros name t. unfold texts, sample_disk, sample_files.
  destruct (String.eqb name "loop.cfg"); [intros [= <-]; vm_compute; split; congruence|done].
Qed.

Lemma sample_input : input_of 400 (sample_streams (in_blocks sample_text)) (Some 2%positive) "" sample_text.
Proof.
  eexists. split; [apply lookup_singleton_eq|]. split; [reflexivity|].
  split; [apply blocks_clean|]. split; [vm_compute; reflexivity|vm_compute; lia].
Qed.

(** An input is ready once the automaton has started. *)
Lemma input_ready (fs0 : gmap positive stream) i f : fs0 !! i = Some f ->
  exists p g, ready p (new_buffer (str (text_of (events f)))) g /\ yy_start g = INITIAL /\ stream_of g = f.
Proof.
  intros Hf. enough (wp ((yyrestart (Some i);; yyset_lineno 1);; yylex_first) (fun _ g =>
    exists p, ready p (new_buffer (str (text_of (events f)))) g /\ yy_start g = INITIAL /\ stream_of g = f) (yylex_init fs0)) as Hw.
  { apply wp_run in Hw as (o & g & _ & p & H). by exists p, g. }
  apply wp_bind. eapply restart_first_ok; [done|]. intros p g Hop. wnext. eapply first_call_ok; [done|].
  intros g' Hr Hi Hs Hst _ _. exists p. split_and!; [done|done|]. unfold stream_of. rewrite Hi, Hs. cbn. by rewrite Hf.
Qed.

(** A signal that interrupts a read after some characters leaves the error
    indicator set: the read that meets the end of the file is then taken for a
    failure, and the program exits. *)
Lemma interrupted_read_exits :
  fst (((yyrestart (Some 2%positive);; yyset_lineno 1);; yylex_first;; yylex_token 100)
    (yylex_init (sample_streams [Bytes (chars "a"); Interrupted]))) = Exited 2.
Proof. vm_compute. reflexivity. Qed.

(** ** The claims *)

(** C16: Refilling is invisible: whatever blocks the stream of the current buffer
    comes in, one round of yylex finds the rule, the text and the line that the
    scanner finds on the whole text, every access to the buffer's memory is
    within it and reads what was written, and what is left to scan is the rest of
    the text; at the end of the text, and only there, the end of the file is
    found.  The scanner gives up only when a read of the stream fails or is
    interrupted, and a round ends within a number of steps that the length of the
    text and the number of reads bound. *)
Theorem refilling_is_invisible p bf g fuel : ready p bf g -> condition (yy_start g) ->
  Z.of_nat (String.length (rest bf)) < 2 ^ 31 - 2 -> (token_fuel bf g <= fuel)%nat ->
  wp (yylex_token fuel) (token_post p bf g) g.
Proof. apply yylex_token_ok. Qed.

Lemma refilling_is_invisible_witness : exists p g,
  ready p (new_buffer sample_text) g /\ stream_of g = {| events := Interrupted :: in_blocks sample_text; ferror := false |} /\
  wp (yylex_token 400) (token_post p (new_buffer sample_text) g) g.
Proof.
  destruct (input_ready (sample_streams (Interrupted :: in_blocks sample_text)) 2 _ (lookup_singleton_eq _ _)) as (p & g & Hr & Hst & Hs).
  exists p, g. split_and!; [exact Hr|exact Hs|]. apply (refilling_is_invisible p (new_buffer sample_text) g 400 Hr).
  - by left.
  - vm_compute. reflexivity.
  - unfold token_fuel. rewrite Hs. vm_compute. lia.
Defined.

(** C15: yylex on buffers refines yylex on texts: with files whose reads do not
    fail, every call returns the token and the value that the scanner with the
    texts at hand returns, yytext holds the name when the value is one, the
    errors of includes are reported in the same file at the same line, and both
    go on together, through the start of an include file and the return to the
    file that includes it, however often the buffers were refilled. *)
Theorem buffered_yylex_refines fs fuel base rounds l s : files_fit fuel fs -> lexing fuel base l s ->
  wp (libconfig_yylex fs fuel rounds) (fun o l' => same_call fuel base o l' (yylex (texts fs) rounds s)) l.
Proof. apply call_ok. Qed.

Lemma buffered_yylex_refines_witness : exists l, let s := parse_start sample_text (scanctx_init None) initialised in
  lexing 400 (dom (sample_streams (in_blocks sample_text))) l s /\
  wp (libconfig_yylex sample_disk 400 100) (fun o l' => same_call 400 (dom (sample_streams (in_blocks sample_text))) o l'
    (yylex (texts sample_disk) 100 s)) l.
Proof.
  enough (exists l, lexing 400 (dom (sample_streams (in_blocks sample_text))) l (parse_start sample_text (scanctx_init None) initialised))
    as [l Hl] by (exists l; split; [exact Hl|apply (buffered_yylex_refines sample_disk 400 _ 100 l _ sample_fits Hl)]).
  assert (wp (on_guts (open_input (Some 2%positive) "")) (fun _ l =>
    lexing 400 (dom (sample_streams (in_blocks sample_text))) l (parse_start sample_text (scanctx_init None) initialised))
    (lexer_init (sample_streams (in_blocks sample_text)) None initialised)) as Hw
    by (eapply open_input_ok; [apply sample_input|intros l Hl; exact Hl]).
  apply wp_run in Hw as (o & l & _ & Hl). by exists l.
Defined.

(** From opening an input to closing it: for a stream or a string, with files
    of bounded size, the tokens are those of the text, all of them when enough
    are asked for; in the end no buffer is left and exactly the streams are open
    that were open before, also when the scan stops in the middle of an include
    file. *)
Theorem scan_frees_all fs fuel fs0 file str0 text filename c size nq rounds n :
  files_fit fuel fs -> input_of fuel fs0 file str0 text -> files_within (texts fs) size nq ->
  input_weight size nq text + 1 < 2 ^ 63 -> (S (Z.to_nat (input_weight size nq text)) <= rounds)%nat ->
  exists tvs l, scan_input fs fuel rounds n file str0 (lexer_init fs0 filename c) = (Ret tvs, l) /\
    fst (scan_all (texts fs) rounds n (parse_start text (scanctx_init filename) c)) = Ret tvs /\
    ((Z.to_nat (input_weight size nq text) < n)%nat -> ended tvs) /\
    yy_buffers (guts l) = ∅ /\ dom (streams (guts l)) = dom fs0.
Proof.
  intros Hfit Hin Hwithin Hb Hr. destruct (start_budget size nq text filename c) as [E1 E2].
  destruct (scan_all_ok (texts fs) size nq Hwithin rounds n (parse_start text (scanctx_init filename) c))
    as (tvs & s' & E & ([_ _ _ _ _ [Ls Ld Lm Lstr]] & _ & Hend & _)).
  { apply start_lex_ok. }
  { by rewrite E1. }
  { unfold lex_fuel. by rewrite E2. }
  rewrite E2 in Hend. enough (wp (scan_input fs fuel rounds n file str0)
    (fun o l => o = Ret tvs /\ yy_buffers (guts l) = ∅ /\ dom (streams (guts l)) = dom fs0) (lexer_init fs0 filename c)) as Hw.
  { apply wp_run in Hw as (o & l & Er & -> & H1 & H2). exists tvs, l. rewrite E. by split_and!. }
  unfold scan_input. wnext. eapply open_input_ok; [done|]. intros l1 H1. wnext. wnext.
  eapply wp_mono; [|by eapply next_tokens_ok]. intros o l2 [-> H2]. wnext. wnext.
  eapply close_input_ok; [exact H2|lia|done|]. intros l3 H3 H4 _ _. wnext. by apply wp_ret.
Qed.

Lemma scan_frees_all_witness : exists tvs l,
  scan_input sample_disk 400 (S (Z.to_nat (input_weight 30 2 sample_text))) 20 (Some 2%positive) ""
    (lexer_init (sample_streams (in_blocks sample_text)) None initialised) = (Ret tvs, l) /\
  fst (scan_all (texts sample_disk) (S (Z.to_nat (input_weight 30 2 sample_text))) 20
    (parse_start sample_text (scanctx_init None) initialised)) = Ret tvs /\
  ((Z.to_nat (input_weight 30 2 sample_text) < 20)%nat -> ended tvs) /\
  yy_buffers (guts l) = ∅ /\ dom (streams (guts l)) = dom (sample_streams (in_blocks sample_text)).
Proof.
  apply (scan_frees_all sample_disk 400 _ _ _ sample_text None initialised 30 2 _ 20 sample_fits sample_input sample_within).
  - vm_compute. reflexivity.
  - apply Nat.le_refl.
Defined.
