(* ===== verification/ReadRefines.v ===== *)
(** * Reading from streams does what reading texts does

    The parser on the scanner with buffers against the parser on texts, round by
    round, and __config_read and config_read_file with them. *)

From Stdlib Require Import SpecFloat.
From S2P Require Import Prelude Double CString Setting Config ConfigWf ConfigProps ConfigTree ConfigApi.
From S2P Require Import ScanCtx Scanner ScannerSpec LexerProps Grammar ParserProps ConfigRead ParserSafe ScanProps.
From S2P Require Import ScanBuffer BufferedLexer BufferProps MatchProps RefillProps RefillSpec SwitchProps LexerRefines LexerRuns.
From S2P Require Import BufferedParser ParserSees.
Local Open Scope Z_scope.

Implicit Types (l : lexer) (x : parse) (s : pstate) (y : parser).

(** ** The scanner as the parser sees it *)

Lemma lexing_context fuel base l s : lexing fuel base l s ->
  (top_filename (context l) = top_filename (scan s) /\ files (context l) = files (scan s) /\
   sc_string (context l) = sc_string (scan s) /\ sc_filenames (context l) = sc_filenames (scan s)) /\ conf l = cfg s.
Proof. by intros [(p & ps & ins & [H _ [Hc _] _ _ _ _ _])|(p & file & [_ _ _ H _ (Hc & _)])]. Qed.

Lemma lexing_lineno fuel base l s : lexing fuel base l s -> yyget_lineno (guts l) = (Ret (bs_lineno (buf s)), guts l).
Proof.
  intros [(p & ps & ins & [_ _ _ _ Hcur _ _ _])|(p & file & [[Ht Hst _ _ _] _ _ _ _ _])]; apply wp_result.
  - by eapply wp_get_lineno.
  - destruct Hst as (b & bp & c & Hb & _ & _ & _ & (b0 & bp0 & D & Hc & _ & _ & _ & _ & Hl)).
    apply is_cur_top in Hc as [_ Hb0]. change (yy_buffers (guts l) !! p = Some b0) in Hb0.
    rewrite Hb in Hb0. injection Hb0 as <-.
    assert (is_cur (guts l) p b) as Hcur by (apply is_cur_top; by split).
    unfold yyget_lineno. wnext. eapply wp_CURRENT; [done|]. wnext. wnext. eapply wp_cur; [done|]. wnext. by eapply wp_lift.
Qed.

(** The scanner goes on with a configuration that the parser changed. *)
Lemma lexing_kept fuel base l s s' : lexing fuel base l s -> kept s s' -> lexing fuel base (with_conf (cfg s') l) s'.
Proof.
  intros H <-. destruct H as [(p & ps & ins & [Hctx Hdep [_ Ho] Hst Hcur Hch Hb Hs])|(p & file & [Hop Ha Hb Hctx Hlev (_ & Ho & Hst)])].
  - left. by exists p, ps, ins.
  - right. by exists p, file.
Qed.

(** ** The end of the text *)

Lemma rule_not_end files act text s t v s' : rule_action files act text s = (Ret (inr (t, v)), s') -> t <> TOK_EOF.
Proof.
  unfold rule_action. destruct (rule_command act text) as [z| |w| | |t' v'|] eqn:E; cbn [perform].
  - done.
  - done.
  - unfold append_string, mbind, M_bind, get, lift_opt. by destruct (scanctx_append_string _ _).
  - unfold end_string, mbind, M_bind, get. destruct (scanctx_take_string _). by intros [= <- _ _].
  - rewrite open_include_eq. destruct (scanctx_push_include _ _ _ _) as [[] ?]; [done|by intros [= <- _ _]].
  - intros [= <- <- _] ->. unfold rule_command in E.
    by repeat match type of E with match ?x with _ => _ end = _ => destruct x end.
  - done.
Qed.

Lemma round_at_end files s v s' : yylex_round files s = (Ret (inr (TOK_EOF, v)), s') -> scanctx_pop_include (scan s') = None.
Proof.
  unfold yylex_round, mbind at 1, M_bind at 1, get. destruct (rest (buf s)) eqn:Er.
  - rewrite end_of_buffer_eq. by destruct (scanctx_pop_include (scan s)) as [[]|] eqn:E; [|intros [= _ <-]].
  - unfold mbind at 1, M_bind at 1, lift_opt. destruct (yy_scan _ _) as [[act len]|]; [|done]. cbn.
    destruct (split_at _ _) as [text r]. intros E. exfalso. eapply rule_not_end; [exact E|done].
Qed.

Lemma yylex_at_end files n s v s' : yylex files n s = (Ret (TOK_EOF, v), s') -> lex_ok s' -> buffers (scan s') = [].
Proof.
  unfold yylex. revert s. induction n as [|n IH]; intros s; [done|]. cbn [iter]. unfold mbind, M_bind.
  destruct (yylex_round files s) as [[[[]|tv]| | | |] s1] eqn:E; try done; [by apply IH|].
  intros [= -> <-] [_ Hd _ _]. apply round_at_end in E. unfold scanctx_pop_include in E.
  destruct (ScanCtx.files (scan s1)), (buffers (scan s1)); done.
Qed.

(** ** The parser on both *)

Section Steps.
Context (fs : string -> option (list read_event)) (fuel : nat) (Hfit : files_fit fuel fs).
Context (size nq : Z) (Hwithin : files_within (texts fs) size nq).
Context (top : option string) (bound : Z) (Hbound : bound + 1 < 2 ^ 63) (F : nat) (HF : (Z.to_nat bound < F)%nat).
Context (base : gset positive).

Record parses x s : Prop := {
  ps_lexing : lexing fuel base (scanner x) s;
  ps_parent : px_parent x = pc_parent s;
  ps_setting : px_setting x = pc_setting s;
  ps_string : px_string x = pc_string s
}.

Lemma seen_relocate line text x s : parses x s -> seen line text x = relocate (seen line text x) s.
Proof.
  intros [H E1 E2 E3]. destruct (lexing_context _ _ _ _ H) as [_ Hc]. unfold relocate, seen. cbn.
  by rewrite E1, E2, E3, Hc.
Qed.

Lemma seen_visible text x s : parses x s -> visible (seen (bs_lineno (buf s)) text x) s.
Proof.
  intros [H _ _ _]. destruct (lexing_context _ _ _ _ H) as [(E1 & E2 & _) _]. split; [|done].
  unfold scanctx_current_filename. cbn. by rewrite E1, E2.
Qed.

(** The parser's operations do the same on both, and nothing to the scanner. *)
Lemma on_parser_ok {A} text (m : PM A) x s (Q : outcome A -> parse -> Prop) : parses x s ->
  tracks (seen (bs_lineno (buf s)) text x) s m m ->
  (forall x', parses x' (snd (m s)) -> guts (scanner x') = guts (scanner x) -> kept s (snd (m s)) -> Q (fst (m s)) x') ->
  wp (on_parser text m) Q x.
Proof.
  intros H [E K] HQ. unfold on_parser. wnext. unfold wp at 1, on_scanner, on_guts.
  rewrite (lexing_lineno _ _ _ _ (ps_lexing _ _ H)). cbn [then_]. unfold wp, seeing.
  rewrite with_guts_id. assert (Parse (scanner x) (px_parent x) (px_setting x) (px_string x) = x) as -> by (by destruct x).
  rewrite (seen_relocate _ _ x s H), E. apply HQ; [|done|done]. split; [|done..].
  by apply (lexing_kept fuel base (scanner x) s (snd (m s)) (ps_lexing _ _ H)).
Qed.

(** The name that the parser would read is the one on top of the stack or ahead. *)
Definition name_at_hand y : Prop :=
  (exists v rest, yystack y = (1, v) :: rest) \/ (exists t, yychar y = Some (t, SYytext)).

Definition end_at_hand y : Prop := (exists v, yychar y = Some (TOK_EOF, v)) \/ yystate y = YYFINAL.

(** Between rounds. *)
Record in_step y x s : Prop := {
  is_parses : parses x s;
  is_running : running size nq top bound y s;
  is_name : name_at_hand y -> yytext (guts (scanner x)) = (Ret (ScanCtx.yytext s), guts (scanner x));
  is_end : end_at_hand y -> buffers (scan s) = []
}.

(** At the end, include files may be open only after an error. *)
Definition finished (z : Z) x s : Prop :=
  parses x s /\ (z = 0 -> buffers (scan s) = []) /\ (length (buffers (scan s)) <= 10)%nat.

(** How a round ends. *)
Definition round_agrees (o : outcome (parser + Z)) x (r : outcome (parser + Z) * pstate) : Prop :=
  o = fst r /\ match fst r with
    | Ret (inl y) => in_step y x (snd r)
    | Ret (inr z) => finished z x (snd r)
    | _ => False
    end.

Lemma kept_scan s s' : kept s s' -> scan s' = scan s /\ ScanCtx.yytext s' = ScanCtx.yytext s.
Proof. by intros <-. Qed.

(** An error ends the parse. *)
Lemma yyerror_round z text s x : z <> 0 -> parses x s -> lex_ok s ->
  wp (on_parser "" (libconfig_yyerror text);; mret (inr z)) (fun o x' => round_agrees o x' ((libconfig_yyerror text;; mret (inr z)) s)) x.
Proof.
  intros Hz H Hlex. wnext. eapply (on_parser_ok _ _ x s); [done|by apply yyerror_tracks, seen_visible|].
  intros x' H' _ Hk. assert (libconfig_yyerror text s = (Ret tt, snd (libconfig_yyerror text s))) as E by done.
  rewrite E. cbn [fst]. wnext. apply wp_ret. unfold round_agrees. rewrite (bind_ret _ _ _ _ _ E).
  split; [done|]. split_and!; [done|by intros ->|]. cbn [snd mret M_ret]. rewrite (proj1 (kept_scan _ _ Hk)). apply Hlex.
Qed.

(** A reduction fails with 1. *)
Lemma yyreduce_fails y rule s z : fst (yyreduce y rule s) = Ret (inr z) -> z = 1.
Proof.
  unfold yyreduce, mbind, M_bind, lift_opt. destruct (tab yyr2 rule); [|done]. destruct (tab yyr1 rule); [|done]. cbn.
  destruct (reduce_action _ _ s) as [[[]| | | |] s']; try done; cbn; [|congruence].
  destruct (drop _ _) as [|[] ?]; [done|]. destruct (tab yypgoto _); [|done]. by destruct (tab yydefgoto _).
Qed.

(** Neither the state of a name nor the final one is reached by a reduction. *)
Lemma yyreduce_state y rule s y' s' : yyreduce y rule s = (Ret (inl y'), s') -> yychar y' = yychar y.
Proof.
  unfold yyreduce, mbind, M_bind, lift_opt. destruct (tab yyr2 rule); [|done]. destruct (tab yyr1 rule); [|done]. cbn.
  destruct (reduce_action _ _ s) as [[[]| | | |] s1]; try done; cbn.
  destruct (drop _ _) as [|[] ?]; [done|]. destruct (tab yypgoto _); [|done]. destruct (tab yydefgoto _); [|done].
  by intros [= <- _].
Qed.

(** The text is read when it is the name just scanned. *)
Lemma pointed_text_ok y rule x s (Q : outcome string -> parse -> Prop) : in_step y x s -> tab yydefact (yystate y) = Some rule ->
  (forall text, (uses_string rule = true -> forall rest st, yystack y = (st, SYytext) :: rest -> text = ScanCtx.yytext s) ->
     Q (Ret text) x) -> wp (pointed_text y rule) Q x.
Proof.
  intros [Hp Hrun Hname _] Hr HQ. destruct (rn_top _ _ _ _ _ _ Hrun) as (st & v & rest & Ey & Htop).
  unfold pointed_text. assert (yystate y = st) as Es by (unfold yystate; by rewrite Ey). rewrite Ey.
  destruct v; try (apply wp_ret, HQ; intros _ rest' st' [=]; congruence).
  destruct (uses_string rule) eqn:Hu; [|by apply wp_ret, HQ].
  assert (st = 1) as ->.
  { rewrite Es in Hr. pose proof (rule_state st _ _ _ Htop rule Hr) as Hst. clear Es.
    unfold uses_string in Hu. apply orb_true_iff in Hu as [[Hu|Hu]%orb_true_iff|Hu]; apply Z.eqb_eq in Hu as ->; cbn in Hst; subst st;
      [done|by destruct (tp_value _ _ _ _ Htop _ eq_refl)..]. }
  assert (yytext (guts (scanner x)) = (Ret (ScanCtx.yytext s), guts (scanner x))) as Et by (apply Hname; left; by eexists _, _).
  unfold wp, on_scanner, on_guts. rewrite Et, with_guts_id. assert (Parse (scanner x) (px_parent x) (px_setting x) (px_string x) = x) as -> by (by destruct x).
  by apply HQ.
Qed.

Lemma reduce_agrees y x s rule : in_step y x s -> yystate y <> YYFINAL -> tab yydefact (yystate y) = Some rule -> rule <> 0 ->
  wp (reduce_on_buffers y rule) (fun o x' => round_agrees o x' (yyreduce y rule s)) x.
Proof.
  intros H Hf Hr Hr0. pose proof H as [Hp Hrun Hname Hend]. destruct (rn_top _ _ _ _ _ _ Hrun) as (st & v & rest & Ey & Htop).
  assert (yystate y = st) as Es by (unfold yystate; by rewrite Ey).
  destruct (tables_total st (chain_state st _ (tp_chain _ _ _ _ Htop))) as [_ (rule' & Hr' & Hrule)]; [congruence|].
  assert (rule' = rule) as -> by congruence. destruct Hrule as [|(len & lhs & H2 & H1)]; [done|].
  destruct (yyreduce_ok _ size nq Hwithin top bound y s st v rest rule len lhs Hbound Hrun Ey) as (r & s' & E & Hpost);
    [congruence|done..|].
  unfold reduce_on_buffers. wnext. eapply pointed_text_ok; [done..|]. intros text Htext. wnext.
  eapply (on_parser_ok _ _ x s); [done|apply yyreduce_tracks; [by apply seen_visible|exact Htext]|].
  rewrite E. cbn [fst snd]. intros x' Hp' Hg Hk. split; [done|]. cbn [fst snd]. destruct (kept_scan _ _ Hk) as [Ek1 Ek2].
  destruct r as [y'|z].
  - destruct Hpost as (Hrun' & _ & _ & Hsh). pose proof (yyreduce_state _ _ _ _ _ E) as Ec. split; [done|done| |].
    + rewrite Hg, Ek2. intros Hn. apply Hname. unfold name_at_hand in *. rewrite <- Ec.
      destruct Hn as [(v' & rest' & Ey')|Hn]; [|by right]. unfold yystate in Hsh. by rewrite Ey' in Hsh.
    + rewrite Ek1. intros He. apply Hend. unfold end_at_hand in *. rewrite <- Ec. destruct He as [He|He]; [by left|].
      by rewrite He in Hsh.
  - split_and!; [done| |rewrite Ek1; apply Hrun]. intros ->. assert (0 = 1) by (apply (yyreduce_fails y rule s); by rewrite E). done.
Qed.

Lemma yydefault_agrees y x s : in_step y x s -> yystate y <> YYFINAL ->
  wp (yydefault_with (fun w => on_parser "" (libconfig_yyerror w)) reduce_on_buffers y)
    (fun o x' => round_agrees o x' (yydefault y s)) x.
Proof.
  intros H Hf. pose proof H as [Hp Hrun _ _]. destruct (rn_top _ _ _ _ _ _ Hrun) as (st & v & rest & Ey & Htop).
  assert (yystate y = st) as Es by (unfold yystate; by rewrite Ey).
  destruct (tables_total st (chain_state st _ (tp_chain _ _ _ _ Htop))) as [_ (rule & Hr & _)]; [congruence|].
  unfold yydefault, yydefault_with. rewrite Es, Hr. wnext. apply wp_ret. wnext.
  change ((lift_opt UB_bounds (Some rule) ≫= fun rule => if rule =? 0 then yyerrlab_with libconfig_yyerror y else yyreduce y rule) s)
    with ((if rule =? 0 then yyerrlab_with libconfig_yyerror y else yyreduce y rule) s).
  destruct (Z.eqb_spec rule 0) as [->|Hr0]; [|apply reduce_agrees; rewrite ?Es; congruence || done].
  unfold yyerrlab_with. rewrite yyerrlab1_None. apply yyerror_round; [done|done|apply Hrun].
Qed.

Lemma lookahead_agrees y x s : in_step y x s -> yystate y <> YYFINAL -> yystate y <> 1 ->
  wp (match yychar y with Some tv => mret tv | None => on_scanner (libconfig_yylex fs fuel F) end) (fun o x' =>
    exists tv s', (match yychar y with Some tv => mret tv | None => yylex (texts fs) F end) s = (Ret tv, s') /\
      o = Ret tv /\ in_step (with_look y tv) x' s') x.
Proof.
  intros H Hf H1. pose proof H as [Hp Hrun Hname Hend].
  destruct (lookahead_ok _ size nq Hwithin top bound F y s Hbound HF Hrun Hf) as (tv & s' & E & Hrun' & _ & Hsc).
  destruct (yychar y) as [tv'|] eqn:Ec.
  { apply wp_ret. exists tv', s. injection E as -> <-. split_and!; [done..|].
    assert (with_look y tv = y) as -> by (destruct y; cbn in *; by subst). done. }
  specialize (Hsc eq_refl). unfold wp, on_scanner.
  pose proof (call_ok fs fuel base F (scanner x) s Hfit (ps_lexing _ _ Hp)) as Hcall. unfold wp in Hcall.
  destruct (libconfig_yylex fs fuel F (scanner x)) as [o l]. rewrite E in Hcall. destruct Hcall as (-> & Hl & Hy).
  exists tv, s'. split_and!; [done..|]. destruct Hp as [_ E1 E2 E3]. split; cbn.
  - split; cbn; [done|..]; rewrite ?(sd_parent _ _ Hsc), ?(sd_setting _ _ Hsc), ?(sd_pstring _ _ Hsc); done.
  - done.
  - intros [(v & rest & Ey)|(t & Ht)]; [|by eapply Hy; injection Ht].
    exfalso. cbn in Ey. unfold yystate in H1. by rewrite Ey in H1.
  - intros [(v & Ev)|He]; [|done]. cbn in Ev. injection Ev as ->. eapply yylex_at_end; [exact E|apply Hsc].
Qed.

(** After a shift. *)
Lemma shifted_step y x s tv pact n : in_step (with_look y tv) x s -> tab yypact (yystate y) = Some pact -> pact <> YYPACT_NINF ->
  checked (pact + translate (token_number tv.1)) (translate (token_number tv.1)) = Some n ->
  running size nq top bound {| yystack := (n, tv.2) :: yystack y; yychar := None |} s ->
  in_step {| yystack := (n, tv.2) :: yystack y; yychar := None |} x s.
Proof.
  intros [Hp Hrun Hname Hend] Hpact Hninf Hck Hrun'.
  destruct (rn_top _ _ _ _ _ _ Hrun) as (st & v & rest & Ey & Htop). cbn in Ey.
  assert (yystate y = st) as Es by (unfold yystate; by rewrite Ey). rewrite Es in Hpact.
  destruct (shift_shape st (map fst rest) tv.1 pact n (tp_chain _ _ _ _ Htop) Hpact Hninf Hck) as (_ & _ & _ & _ & Hsh & _).
  split; [done|done| |].
  - intros [(w & r & [= -> _ _])|(t & [=])]. apply Hname. right.
    destruct tv as [t w']. pose proof (Hsh _ eq_refl) as Ht. cbn in Ht. subst t.
    pose proof (rn_look _ _ _ _ _ _ Hrun TOK_NAME w' eq_refl) as Hv. cbn in Hv. subst w'. by eexists.
  - intros [(w & [=])|He]. apply Hend. left. unfold yystate in He. cbn in He. subst n.
    destruct tv as [t w']. pose proof (Hsh _ eq_refl) as Ht. cbn in Ht. subst t. by eexists.
Qed.

Lemma round_ok_both y x s : in_step y x s ->
  wp (round_on_buffers fs fuel F y) (fun o x' => round_agrees o x' (yyparse_round (texts fs) F y s)) x.
Proof.
  intros H. pose proof H as [Hp Hrun _ Hend].
  destruct (yyparse_round_ok _ size nq Hwithin top bound F y s Hbound HF Hrun) as (r & s1 & Er & Hr).
  destruct (rn_top _ _ _ _ _ _ Hrun) as (st & v & rest & Ey & Htop).
  assert (yystate y = st) as Es by (unfold yystate; by rewrite Ey). revert Er.
  unfold round_on_buffers, yyparse_round, yyparse_round_with. destruct (YYMAXDEPTH <=? _); [intros _; apply yyerror_round; [done|done|apply Hrun]|].
  destruct (Z.eqb_spec (yystate y) YYFINAL) as [Hf|Hf].
  { intros _. apply wp_ret. split; [done|]. split_and!; [done| |apply Hrun]. intros _. apply Hend. by right. }
  destruct (tables_total st (chain_state st _ (tp_chain _ _ _ _ Htop))) as [(pact & Hpact) _]; [congruence|].
  intros Er. rewrite Es, Hpact in Er |- *. rewrite (bind_ret _ _ pact s s) in Er |- * by done. wnext. apply wp_ret. wnext.
  destruct (Z.eqb_spec pact YYPACT_NINF) as [|Hninf]; [by apply yydefault_agrees|].
  wnext. eapply wp_mono; [|apply lookahead_agrees; [done|done|]].
  2:{ intros E1. rewrite <- Es, E1 in Hpact. injection Hpact as <-. by apply Hninf. }
  intros o x' (tv & s' & E & -> & H'). wnext. rewrite (bind_ret _ _ _ _ _ E) in Er |- *. cbv zeta in Er |- *.
  fold (with_look y tv) in Er |- *.
  destruct (checked _ _) as [n|] eqn:Eck; [|by apply yydefault_agrees].
  destruct (Z.leb_spec n 0) as [Hn|Hn].
  - exfalso. destruct (shift_shape st (map fst rest) tv.1 pact n (tp_chain _ _ _ _ Htop) Hpact Hninf Eck) as (Hpos & _). lia.
  - apply wp_ret. split; [done|]. injection Er as <- <-. destruct Hr as [Hr _].
    rewrite <- Es in Hpact. by eapply shifted_step.
Qed.

Lemma parse_loop_ok y x s z s' : in_step y x s -> iter F (yyparse_round (texts fs) F) y s = (Ret z, s') ->
  wp (iter F (round_on_buffers fs fuel F) y) (fun o x' => o = Ret z /\ finished z x' s') x.
Proof.
  apply (wp_iter_both _ _ in_step finished).
  clear y x s z s'. intros y x s H. pose proof (round_ok_both y x s H) as Hw.
  destruct (yyparse_round (texts fs) F y s) as [o s']. destruct (wp_run _ _ _ Hw) as (o' & x' & _ & _ & Hr). cbn in Hr.
  destruct o as [r| | | |]; [|done..]. exists r, s'. split; [done|]. eapply wp_mono; [|exact Hw]. by intros o1 x1 [-> H1].
Qed.
End Steps.

(** ** Whole inputs *)

Lemma wp_on_scanner {A} (m : LM A) (Q : outcome A -> parse -> Prop) x :
  wp m (fun o l => Q o (Parse l (px_parent x) (px_setting x) (px_string x))) (scanner x) -> wp (on_scanner m) Q x.
Proof. unfold wp, on_scanner. by destruct (m (scanner x)). Qed.

(** Opening and closing a stream. *)
Lemma dom_reopened (m m2 : gmap positive stream) i f : (i ∉ dom m) -> dom m2 = dom (<[i := f]> m) -> dom (delete i m2) = dom m.
Proof.
  intros Hi E. rewrite dom_delete_L, E, dom_insert_L, difference_union_distr_l_L, difference_diag_L, union_empty_l_L.
  by apply difference_disjoint_L, disjoint_singleton_r.
Qed.

Section Inputs.
Context (fs : string -> option (list read_event)) (fuel : nat) (Hfit : files_fit fuel fs).
Context (size nq : Z) (Hwithin : files_within (texts fs) size nq).

(** Enough for a text, and for whatever files it includes. *)
Definition enough (F : nat) (text : string) : Prop :=
  input_weight size nq text + 1 < 2 ^ 63 /\ (parse_fuel (input_weight size nq text) <= F)%nat.

Lemma start_in_step base x text filename c : sound c -> parses fuel base x (parse_start text (scanctx_init filename) c) ->
  in_step fuel size nq filename (input_weight size nq text) base yyparse_start x (parse_start text (scanctx_init filename) c).
Proof using Hwithin.
  intros Hs Hp. destruct (scanctx_init_empty filename) as (H1 & H2 & H3 & H4). split; [done|by apply start_running| |].
  - by intros [(v & rest & [=])|(t & [=])].
  - by intros [(v & [=])|[=]].
Qed.

(** What is closed in the end, and what is reported. *)
Lemma parse_finish_ok base z x s (Q : outcome bool -> parse -> Prop) : finished fuel base z x s ->
  (forall x', conf (scanner x') = with_filenames (scanctx_cleanup (scan s))
       (if z =? 0 then cfg s
        else with_error (error_text (cfg s)) (scanctx_current_filename (scan s)) (error_line (cfg s)) ERR_PARSE (cfg s)) ->
     yy_buffers (guts (scanner x')) = ∅ -> dom (streams (guts (scanner x'))) = base -> Q (Ret (z =? 0)) x') ->
  wp ((if z =? 0 then mret tt else on_scanner (modify report_failure));;
      on_scanner (close_input unwind_fuel (negb (z =? 0)));;
      on_scanner (modify (fun l => with_conf (with_filenames (scanctx_cleanup (context l)) (conf l)) l));;
      mret (z =? 0)) Q x.
Proof.
  intros ([Hl _ _ _] & Hz & Hmax) HQ. destruct (lexing_context _ _ _ _ Hl) as [(E1 & E2 & _ & E4) Ec].
  set (c := if z =? 0 then cfg s else _) in HQ.
  assert (forall l, lexing fuel base l (with_cfg c s) -> conf l = c -> sc_filenames (context l) = sc_filenames (scan s) ->
    forall pp ps pt, wp (on_scanner (close_input unwind_fuel (negb (z =? 0)));;
      on_scanner (modify (fun l => with_conf (with_filenames (scanctx_cleanup (context l)) (conf l)) l));; mret (z =? 0)) Q
      (Parse l pp ps pt)) as Hclose.
  { intros l Hl' Hc Hn pp ps pt. wnext. apply wp_on_scanner. eapply close_input_ok; [exact Hl'| | |].
    - unfold unwind_fuel. cbn. lia.
    - intros Hb%negb_false_iff%Z.eqb_eq. by apply Hz.
    - intros l' Hb Hd Hc' Hn'. wnext. wnext. apply wp_on_scanner, wp_modify. wnext. apply wp_ret.
      apply HQ; [|done|done]. cbn in Hc', Hn' |- *. unfold scanctx_cleanup. by rewrite Hn', Hc', Hn, Hc. }
  subst c. wnext. destruct (z =? 0).
  - apply wp_ret. wnext. destruct x as [l pp ps pt]. apply wp_bind_inv, Hclose; [by destruct s|exact Ec|exact E4].
  - apply wp_on_scanner, wp_modify. wnext. apply wp_bind_inv, Hclose; [|cbn|exact E4].
    + unfold report_failure. rewrite Ec. replace (scanctx_current_filename (context (scanner x))) with (scanctx_current_filename (scan s))
        by (unfold scanctx_current_filename; by rewrite E1, E2).
      by apply (lexing_kept fuel base (scanner x) s (with_cfg _ s)).
    + rewrite Ec. replace (scanctx_current_filename (context (scanner x))) with (scanctx_current_filename (scan s)); [done|].
      unfold scanctx_current_filename. by rewrite E1, E2.
Qed.

Lemma parse_input_ok F file str0 text filename ps : sound (configuration ps) -> enough F text ->
  input_of fuel (open_streams ps) file str0 text ->
  exists b c', parse_text (texts fs) F text (scanctx_init filename) (configuration ps) = (Ret b, c') /\
    run_parse fs fuel F file str0 filename ps =
      (Ret b, Process c' (snd (run_parse fs fuel F file str0 filename ps)).(open_streams) (leaked ps)) /\
    dom (open_streams (snd (run_parse fs fuel F file str0 filename ps))) = dom (open_streams ps).
Proof using Hfit Hwithin.
  intros Hs [Hb HF] Hin. destruct (scanctx_init_empty filename) as (H1 & H2 & H3 & H4).
  set (s0 := parse_start text (scanctx_init filename) (configuration ps)).
  destruct (libconfig_yyparse_ok _ size nq Hwithin filename _ F s0 Hb HF (start_running size nq filename text _ _ Hs H1 H2 H3 H4))
    as (z & s' & E & _).
  unfold parse_text, mbind at 1, M_bind at 1, get. fold s0. rewrite E. eexists _, _. split; [reflexivity|].
  enough (wp (parse_input fs fuel F file str0) (fun o x => o = Ret (z =? 0) /\
    conf (scanner x) = with_filenames (scanctx_cleanup (scan s')) (if z =? 0 then cfg s'
      else with_error (error_text (cfg s')) (scanctx_current_filename (scan s')) (error_line (cfg s')) ERR_PARSE (cfg s')) /\
    yy_buffers (guts (scanner x)) = ∅ /\ dom (streams (guts (scanner x))) = dom (open_streams ps)) (new_parse filename ps)) as Hw.
  { unfold run_parse. apply wp_run in Hw as (o & x & -> & -> & Hc & Hbuf & Hd). cbn. rewrite Hc, Hbuf, map_size_empty, Nat.add_0_r. done. }
  unfold parse_input. wnext. apply wp_on_scanner. eapply open_input_ok; [exact Hin|]. intros l Hl. wnext.
  fold s0 in Hl. set (x := Parse l _ _ _). assert (parses fuel (dom (open_streams ps)) x s0) as Hp by done.
  wnext. unfold parse_on_buffers. eapply wp_mono; [|eapply (parse_loop_ok fs fuel Hfit size nq Hwithin filename _ Hb F); [|by apply start_in_step|exact E]].
  2:{ unfold parse_fuel in HF. lia. }
  intros o x' [-> Hfin]. wnext. eapply wp_bind_inv, parse_finish_ok; [exact Hfin|]. intros x2 Hc Hbuf Hd. done.
Qed.

(** What both readings end with. *)
Definition same_reading (r : outcome bool * config) (r' : outcome bool * process) (ps : process) : Prop :=
  exists b c' m, r = (Ret b, c') /\ r' = (Ret b, Process c' m (leaked ps)) /\ dom m = dom (open_streams ps).

Lemma read_input_ok F file str0 text filename c m n : sound c -> enough F text -> input_of fuel m file str0 text ->
  same_reading (__config_read (texts fs) F text filename c) (read_input fs fuel F file str0 filename (Process c m n)) (Process c m n).
Proof using Hfit Hwithin.
  intros Hs Hen Hin. destruct (reinitialize_ok filename c Hs) as (c4 & r & s & E & Hs4 & _).
  destruct (parse_input_ok F file str0 text filename (Process c4 m n) Hs4 Hen Hin) as (b & c' & E1 & E2 & E3).
  exists b, c', (open_streams (snd (run_parse fs fuel F file str0 filename (Process c4 m n)))).
  split; [|split; [|done]].
  - unfold __config_read. by rewrite (bind_ret _ _ _ _ _ E).
  - unfold read_input. rewrite (bind_ret _ _ tt _ (Process c4 m n)); [done|]. unfold on_configuration. cbn. by rewrite E.
Qed.

Lemma read_file_ok is_directory F name c m n : sound c -> (forall text, texts fs name = Some text -> enough F text) ->
  is_directory name = false ->
  same_reading (config_read_file (texts fs) F name c) (read_file fs is_directory fuel F name (Process c m n)) (Process c m n).
Proof using Hfit Hwithin.
  intros Hs Hen Hd. unfold config_read_file, read_file, open_file. unfold texts in Hen |- * at 1. 
  destruct (fs name) as [ev|] eqn:Ef; cbn [fmap option_fmap option_map] in Hen |- *.
  2:{ by eexists _, _, m. }
  set (i := fresh (dom m)). set (m' := <[i := {| events := ev; ferror := false |}]> m).
  assert (i ∉ dom m) as Hi by apply is_fresh.
  destruct (read_input_ok F (Some i) "" (str (text_of ev)) (Some name) c m' n Hs (Hen _ eq_refl)) as (b & c' & m2 & E1 & E2 & E3).
  { exists {| events := ev; ferror := false |}. split; [apply lookup_insert_eq|]. split; [done|by eapply Hfit]. }
  exists b, c', (delete i m2). split; [exact E1|]. split.
  - change ((if is_directory name then close_file i;; cannot_open else
      ret ← read_input fs fuel F (Some i) "" (Some name); close_file i;; mret ret) (Process c m' n) = (Ret b, Process c' (delete i m2) n)).
    rewrite Hd, (bind_ret _ _ _ _ _ E2). done.
  - by eapply dom_reopened.
Qed.

(** A directory can be opened but is not read. *)
Lemma read_directory_ok is_directory F name c m n : is_directory name = true ->
  exists c' m', read_file fs is_directory fuel F name (Process c m n) = (Ret false, Process c' m' n) /\
    heap c' = heap c /\ root c' = root c /\ error_type c' = ERR_FILE_IO /\ dom m' = dom m.
Proof.
  intros Hd. unfold read_file, open_file. destruct (fs name) as [ev|].
  - eexists _, _. unfold mbind, M_bind, get, put, mret, M_ret. cbn. rewrite Hd. split; [reflexivity|]. split_and!; [done..|].
    eapply dom_reopened; [apply is_fresh|done].
  - eexists _, _. by split; [reflexivity|].
Qed.
End Inputs.

(** ** The claim *)


(** Where the samples are read from. *)
Definition sample_process : process := Process initialised (sample_streams (in_blocks sample_text)) 0.


(** A file that includes another one, read in blocks of seven characters. *)
Definition small_disk (name : string) : option (list read_event) :=
  in_blocks <$> (if String.eqb name "main.cfg" then Some ("a = 12;" +:+ String (chr 10) ("@include " +:+ String (chr 34) ("b.cfg" +:+ String (chr 34) "")))
                 else if String.eqb name "b.cfg" then Some "b : ( 1.5, true )" else None).

Example small_reading : let (o, ps) := read_file small_disk (fun _ => false) 400 200 "main.cfg" (Process initialised ∅ 0) in
  (o, leaked ps, dom (D := gset positive) (open_streams ps), length (map_to_list (heap (configuration ps))), filenames (configuration ps)) =
    (Ret true, 0%nat, ∅, 5%nat, ["main.cfg"; "b.cfg"]).
Proof. vm_compute. reflexivity. Qed.
