(* ===== verification/ParseRuns.v ===== *)
(** * Runs of the parser on known tokens

    Shifts and reductions of the automaton when the tokens ahead are known, as
    moves between configurations: the stack of states, the tokens not consumed
    yet, and what the semantic actions work on. *)

From Stdlib Require Import SpecFloat.
From S2P Require Import Prelude Double CString Printf Setting Config ConfigWf ConfigProps ConfigApi.
From S2P Require Import ScanCtx Scanner ScannerSpec LexerProps Tokens Grammar ParserProps ConfigRead.
From S2P Require Import ConfigWrite WriteTokens WriteString TreeWrite ParserSafe.
Local Open Scope Z_scope.

(** ** More fuel does not change a result *)

Definition refines {S A} (m m' : M S A) : Prop :=
  forall s o s', m s = (o, s') -> o <> NoFuel -> m' s = (o, s').

Lemma refines_refl {S A} (m : M S A) : refines m m.
Proof. by intros s o s' E _. Qed.

Lemma refines_bind {S A B} (m m' : M S A) (f f' : A -> M S B) :
  refines m m' -> (forall a, refines (f a) (f' a)) -> refines (m ≫= f) (m' ≫= f').
Proof.
  intros Hm Hf s o s' E Ho. unfold mbind, M_bind in *. destruct (m s) as [[a|z| |w|] s1] eqn:Em.
  - rewrite (Hm s (Ret a) s1 Em) by done. by apply (Hf a).
  - by rewrite (Hm s _ s1 Em).
  - by rewrite (Hm s _ s1 Em).
  - by rewrite (Hm s _ s1 Em).
  - injection E as <- <-. done.
Qed.

Lemma refines_iter {S A B} (body body' : B -> M S (B + A)) n n' b :
  (forall b, refines (body b) (body' b)) -> (n <= n')%nat -> refines (iter n body b) (iter n' body' b).
Proof.
  intros Hb. revert n' b. induction n as [|n IH]; intros n' b Hn.
  - intros s o s' [= <- <-]. done.
  - destruct n' as [|n']; [lia|]. simpl. apply refines_bind; [apply Hb|].
    intros [b'|a]; [apply IH; lia|apply refines_refl].
Qed.

Abbreviation lexeme := (token * semval)%type.

Section Runs.
Context (fs : string -> option string).

Lemma yylex_refines n n' : (n <= n')%nat -> refines (yylex fs n) (yylex fs n').
Proof. intros Hn. apply refines_iter; [|done]. intros b. apply refines_refl. Qed.

Lemma yyparse_round_refines n n' y : (n <= n')%nat -> refines (yyparse_round fs n y) (yyparse_round fs n' y).
Proof.
  intros Hn. unfold yyparse_round, yyparse_round_with. destruct (YYMAXDEPTH <=? _); [apply refines_refl|].
  destruct (yystate y =? YYFINAL); [apply refines_refl|].
  apply refines_bind; [apply refines_refl|]. intros pact.
  destruct (pact =? YYPACT_NINF); [apply refines_refl|].
  apply refines_bind; [|intros tv; apply refines_refl].
  destruct (yychar y); [apply refines_refl|]. by apply yylex_refines.
Qed.

Lemma libconfig_yyparse_refines n n' : (n <= n')%nat ->
  refines (libconfig_yyparse fs n) (libconfig_yyparse fs n').
Proof. intros Hn. apply refines_iter; [|done]. intros y. by apply yyparse_round_refines. Qed.

(** ** The tokens ahead *)

Definition ahead (ts : list lexeme) : lexeme :=
  match ts with [] => (TOK_EOF, SNone) | tv :: _ => tv end.

Lemma token_at_start w k t v : token_at fs w k t v -> starts_with token_start (w +:+ k).
Proof. intros [Hw Hs _]. by destruct w. Qed.

(** Scanning the next token of a text. *)
Lemma yylex_reads p txt ts : ready_at p txt -> reads fs txt ts ->
  exists n p' v' k, lexes fs p n ((ahead ts).1, v') p' /\ (n <= S (String.length txt))%nat /\
    passed p p' k /\ reads fs k (tail ts) /\ (String.length k <= String.length txt)%nat /\
    carries p' v' (ahead ts).2.
Proof.
  intros Hp H. destruct H as [ws Hws|ws w k t v ts Hws Ht Hk].
  - destruct (skip_white fs ws "" p Hws I) as (p1 & Hp1 & Hrun); [by rewrite app_nil_string|].
    pose proof (passed_ready _ _ _ _ Hp1 Hp) as Hr1.
    assert (yylex_round fs p1 = (Ret (inr (TOK_EOF, SNone)), p1)) as E.
    { unfold yylex_round. erewrite bind_ret; [|reflexivity]. rewrite (ra_text _ _ Hr1).
      unfold end_of_buffer. erewrite bind_ret; [|reflexivity]. unfold scanctx_pop_include.
      by rewrite (ra_files _ _ Hr1). }
    destruct (Hrun 1%nat _ _ (lexes_token fs p1 _ p1 E)) as (m & Hm & Hle).
    exists m, p1, SNone, "". split_and!; [done|lia|done|by apply (reads_end fs "")|simpl; lia|done].
  - destruct (skip_white fs ws (w +:+ k) p Hws (token_at_start w k t v Ht) Hp) as (p1 & Hp1 & Hrun).
    destruct (ta_lexes fs w k t v Ht p1 (passed_ready _ _ _ _ Hp1 Hp)) as (n & p2 & v' & Hl & Hn & Hp2 & Hc).
    destruct (Hrun n _ _ Hl) as (m & Hm & Hle). exists m, p2, v', k. rewrite !length_append.
    split_and!; [done|lia|by apply (passed_trans _ _ _ _ _ Hp1 Hp2)|done|lia|done].
Qed.

(** ** Moves *)

Context (fuel : nat).

(** What the semantic actions work on. *)
Record core := { k_cfg : config; k_parent : option loc; k_setting : option loc; k_string : strbuf_t }.

Definition core_of (p : pstate) : core :=
  {| k_cfg := cfg p; k_parent := pc_parent p; k_setting := pc_setting p; k_string := pc_string p |}.

(** The tokens [ts] are ahead; the first may have been read already. *)
Definition before (y : parser) (p : pstate) (ts : list lexeme) : Prop :=
  match yychar y with
  | None => exists txt, ready_at p txt /\ reads fs txt ts /\ (S (String.length txt) <= fuel)%nat
  | Some (t, v') => exists txt, ready_at p txt /\ reads fs txt (tail ts) /\
      (S (String.length txt) <= fuel)%nat /\ t = (ahead ts).1 /\ carries p v' (ahead ts).2
  end.

Record parsing (st : list Z) (ts : list lexeme) (K : core) (y : parser) (p : pstate) : Prop := {
  pg_stack : List.map fst (yystack y) = st;
  pg_before : before y p ts;
  pg_core : core_of p = K
}.

Inductive reach : parser -> pstate -> parser -> pstate -> Prop :=
  | reach_refl y p : reach y p y p
  | reach_step y p y1 p1 y2 p2 : yyparse_round fs fuel y p = (Ret (inl y1), p1) ->
      reach y1 p1 y2 p2 -> reach y p y2 p2.

Lemma reach_trans y1 p1 y2 p2 y3 p3 : reach y1 p1 y2 p2 -> reach y2 p2 y3 p3 -> reach y1 p1 y3 p3.
Proof. induction 1; [done|]. intros. eapply reach_step; [done|]. auto. Qed.

Lemma reach_iter y p y' p' n r : reach y p y' p' -> iter n (yyparse_round fs fuel) y' p' = r ->
  exists m, iter m (yyparse_round fs fuel) y p = r.
Proof.
  induction 1 as [y p|y p y1 p1 y2 p2 E _ IH]; intros Hr; [by exists n|].
  destruct (IH Hr) as [m Hm]. exists (S m). simpl. by rewrite (bind_ret _ _ _ _ _ E).
Qed.

(** From every state with this stack and these tokens, the parser gets to the
    others, and the actions on the way establish [Q]. *)
Definition goes (st : list Z) (ts : list lexeme) (K : core) (st' : list Z) (ts' : list lexeme)
    (Q : core -> Prop) : Prop :=
  forall y p, parsing st ts K y p -> exists y' p' K', reach y p y' p' /\ parsing st' ts' K' y' p' /\ Q K'.

Lemma goes_refl st ts K (Q : core -> Prop) : Q K -> goes st ts K st ts Q.
Proof. intros HQ y p H. exists y, p, K. split_and!; [constructor|done|done]. Qed.

Lemma goes_trans st1 ts1 K st2 ts2 st3 ts3 (P Q : core -> Prop) : goes st1 ts1 K st2 ts2 P ->
  (forall K', P K' -> goes st2 ts2 K' st3 ts3 Q) -> goes st1 ts1 K st3 ts3 Q.
Proof.
  intros H1 H2 y p Hp. destruct (H1 y p Hp) as (y1 & p1 & K1 & R1 & G1 & HP).
  destruct (H2 K1 HP y1 p1 G1) as (y2 & p2 & K2 & R2 & G2 & HQ). exists y2, p2, K2.
  split_and!; [by eapply reach_trans|done|done].
Qed.

Lemma goes_mono st ts K st' ts' (P Q : core -> Prop) : (forall K', P K' -> Q K') ->
  goes st ts K st' ts' P -> goes st ts K st' ts' Q.
Proof. intros H G. eapply goes_trans; [exact G|]. intros K' HP. apply goes_refl. auto. Qed.

(** ** The automaton *)

Definition tok_class (tv : lexeme) : Z := translate (token_number tv.1).

(** The stack after a reduction. *)
Definition after (rule : Z) (st : list Z) : option (list Z) :=
  len ← tab yyr2 rule; lhs ← tab yyr1 rule;
  match drop (Z.to_nat len) st with
  | [] => None
  | top :: rest =>
      goto ← tab yypgoto (lhs - YYNTOKENS); defgoto ← tab yydefgoto (lhs - YYNTOKENS);
      Some (default defgoto (checked (goto + top) top) :: top :: rest)
  end.

(** The state shifts the token to [n]. *)
Definition shifts (s : Z) (tv : lexeme) (n : Z) : Prop :=
  exists pact, tab yypact s = Some pact /\ (pact =? YYPACT_NINF) = false /\
    checked (pact + tok_class tv) (tok_class tv) = Some n /\ 0 < n.

(** The state reduces by its default rule, the token ahead being what it is. *)
Definition reduces (s : Z) (tv : lexeme) (rule : Z) : Prop :=
  tab yydefact s = Some rule /\ rule <> 0 /\ exists pact, tab yypact s = Some pact /\
    ((pact =? YYPACT_NINF) = true \/
     (pact =? YYPACT_NINF) = false /\ checked (pact + tok_class tv) (tok_class tv) = None).

(** The state reduces without looking ahead. *)
Definition reduces_now (s rule : Z) : Prop :=
  tab yydefact s = Some rule /\ rule <> 0 /\ tab yypact s = Some YYPACT_NINF.

Definition room (st : list Z) : Prop := Z.of_nat (length st) < YYMAXDEPTH.

(** What an action does, with a token's value and without one. *)
Definition acts_on (rule : Z) (v : semval) (K : core) (Q : core -> Prop) : Prop :=
  forall p v', core_of p = K -> carries p v' v ->
    exists p', reduce_action rule v' p = (Ret Normal, p') /\ acted p p' /\ Q (core_of p').

Definition acts_any (rule : Z) (K : core) (Q : core -> Prop) : Prop :=
  forall p v', core_of p = K ->
    exists p', reduce_action rule v' p = (Ret Normal, p') /\ acted p p' /\ Q (core_of p').

Lemma acted_before y y' p p' ts : acted p p' -> yychar y' = yychar y -> before y p ts -> before y' p' ts.
Proof.
  intros [Hsc Hb Hst Ht] E. unfold before. rewrite E. destruct (yychar y) as [[t v']|].
  - intros (txt & [H1 H2 H3 H4] & Hr & Hl & Et & Hc). exists txt. split_and!; try done.
    + split; congruence.
    + unfold carries in *. rewrite Ht. done.
  - intros (txt & [H1 H2 H3 H4] & Hr & Hl). exists txt. split_and!; try done. split; congruence.
Qed.

Lemma passed_core p p' k : passed p p' k -> core_of p' = core_of p.
Proof. by intros (b & t & -> & _). Qed.

(** The lookahead. *)
Lemma look_ahead st ts K y p : parsing st ts K y p -> exists tv p1,
  match yychar y with Some tv => mret tv | None => yylex fs fuel end p = (Ret tv, p1) /\
  parsing st ts K {| yystack := yystack y; yychar := Some tv |} p1 /\ tv.1 = (ahead ts).1.
Proof.
  intros [Hs Hb Hc]. unfold before in Hb. destruct (yychar y) as [[t v']|] eqn:Ey.
  - destruct Hb as (txt & Hr & Hrd & Hl & Et & Hca). exists (t, v'), p. split_and!; [done| |done].
    split; [done| |done]. simpl. exists txt. by split_and!.
  - destruct Hb as (txt & Hr & Hrd & Hl).
    destruct (yylex_reads p txt ts Hr Hrd) as (n & p1 & v' & k & Hlex & Hn & Hp & Hk & Hlen & Hca).
    exists ((ahead ts).1, v'), p1. split_and!; [|split; [done| |]|done].
    + apply (yylex_lexes fs p n _ p1 fuel Hlex). lia.
    + simpl. exists k. split_and!; [by eapply passed_ready|done|lia|done|done].
    + by rewrite (passed_core _ _ _ Hp).
Qed.

Lemma parsing_top st s ts K y p : parsing (s :: st) ts K y p ->
  exists v rest, yystack y = (s, v) :: rest /\ List.map fst rest = st.
Proof.
  intros [Hs _ _]. destruct (yystack y) as [|[s' v] rest]; [done|]. injection Hs as -> <-. eauto.
Qed.

(** A reduction, once its action has run. *)
Lemma yyreduce_move rule st st' ts K (Q : core -> Prop) y p v s rest0 :
  parsing (s :: st) ts K y p -> yystack y = (s, v) :: rest0 ->
  after rule (s :: st) = Some st' ->
  (exists p', reduce_action rule v p = (Ret Normal, p') /\ acted p p' /\ Q (core_of p')) ->
  exists y' p' K', yyreduce y rule p = (Ret (inl y'), p') /\ parsing st' ts K' y' p' /\ Q K'.
Proof.
  intros [Hs Hb Hc] Ey Ha (p' & E & Hact & HQ). unfold after in Ha. rewrite <- Hs in Ha.
  destruct (tab yyr2 rule) as [len|] eqn:El; [|done]. cbn [mbind option_bind] in Ha.
  destruct (tab yyr1 rule) as [lhs|] eqn:Er; [|done]. cbn [mbind option_bind] in Ha.
  rewrite skipn_map in Ha. unfold yyreduce.
  rewrite El, Er. erewrite bind_ret; [|reflexivity]. erewrite bind_ret; [|reflexivity].
  rewrite Ey in *. cbv beta zeta iota. rewrite (bind_ret _ _ _ _ _ E).
  destruct (drop (Z.to_nat len) ((s, v) :: rest0)) as [|[top v0] rest] eqn:Ed; [done|].
  cbn [List.map fst] in Ha.
  destruct (tab yypgoto _) as [goto|] eqn:Eg; [|done]. cbn [mbind option_bind] in Ha.
  destruct (tab yydefgoto _) as [defgoto|] eqn:Edg; [|done]. cbn [mbind option_bind] in Ha.
  injection Ha as <-. erewrite bind_ret; [|reflexivity]. erewrite bind_ret; [|reflexivity].
  eexists _, p', (core_of p'). split_and!; [reflexivity| |done].
  split; [done| |done]. by apply (acted_before y _ p).
Qed.

Lemma room_check st y : List.map fst (yystack y) = st -> room st ->
  (YYMAXDEPTH <=? Z.of_nat (length (yystack y))) = false.
Proof. unfold room. intros <-. rewrite length_map. lia. Qed.

(** A reduction that may need the token ahead. *)
Lemma goes_reduce s st rule st' ts K (Q : core -> Prop) : s <> YYFINAL -> room (s :: st) ->
  reduces s (ahead ts) rule -> after rule (s :: st) = Some st' -> acts_any rule K Q ->
  goes (s :: st) ts K st' ts Q.
Proof.
  intros Hf Hroom (Hdef & Hrule & pact & Hpact & Hlook) Ha Hact y p Hp.
  assert (forall y p, parsing (s :: st) ts K y p -> exists y' p' K',
    yydefault y p = (Ret (inl y'), p') /\ parsing st' ts K' y' p' /\ Q K') as Hred.
  { intros y0 p0 Hp0. destruct (parsing_top _ _ _ _ _ _ Hp0) as (v & rest & Ey & _).
    destruct (yyreduce_move rule st st' ts K Q y0 p0 v s rest Hp0 Ey Ha) as (y' & p' & K' & E & Hp' & HQ).
    { apply Hact. apply Hp0. }
    exists y', p', K'. split_and!; [|done|done]. unfold yydefault, yydefault_with, yystate. rewrite Ey, Hdef.
    erewrite bind_ret; [|reflexivity]. by rewrite (proj2 (Z.eqb_neq rule 0)). }
  destruct (parsing_top _ _ _ _ _ _ Hp) as (v & rest & Ey & _).
  assert (yystate y = s) as Es by (unfold yystate; by rewrite Ey).
  assert (exists y' p' K', yyparse_round fs fuel y p = (Ret (inl y'), p') /\
    parsing st' ts K' y' p' /\ Q K') as (y' & p' & K' & E & Hp' & HQ).
  { unfold yyparse_round, yyparse_round_with. rewrite (room_check _ y (pg_stack _ _ _ _ _ Hp) Hroom), Es.
    rewrite (proj2 (Z.eqb_neq s YYFINAL)) by done. rewrite Hpact. erewrite bind_ret; [|reflexivity].
    destruct Hlook as [-> |[-> Hnone]]; [by apply Hred|].
    destruct (look_ahead _ _ _ _ _ Hp) as (tv & p1 & El & Hp1 & Et).
    destruct (Hred _ _ Hp1) as (y' & p' & K' & E & H). exists y', p', K'. split; [|done].
    rewrite (bind_ret _ _ _ _ _ El). cbv beta zeta. rewrite Et.
    unfold tok_class in Hnone. rewrite Hnone. exact E. }
  exists y', p', K'. split_and!; [|done|done]. eapply reach_step; [exact E|constructor].
Qed.

(** The token ahead is shifted. *)
Lemma shift_round s st n ts K y p : s <> YYFINAL -> room (s :: st) ->
  shifts s (ahead ts) n -> parsing (s :: st) ts K y p ->
  exists y' p' v', yyparse_round fs fuel y p = (Ret (inl y'), p') /\
    parsing (n :: s :: st) (tail ts) K y' p' /\ carries p' v' (ahead ts).2 /\
    exists rest, yystack y' = (n, v') :: rest.
Proof.
  intros Hf Hroom (pact & Hpact & Hn & Hc & Hpos) Hp.
  destruct (parsing_top _ _ _ _ _ _ Hp) as (v & rest & Ey & _).
  assert (yystate y = s) as Es by (unfold yystate; by rewrite Ey).
  destruct (look_ahead _ _ _ _ _ Hp) as (tv & p1 & El & [Hs1 Hb1 Hc1] & Et).
  eexists _, p1, tv.2. split_and!.
  - unfold yyparse_round, yyparse_round_with. rewrite (room_check _ y (pg_stack _ _ _ _ _ Hp) Hroom), Es.
    rewrite (proj2 (Z.eqb_neq s YYFINAL)) by done. rewrite Hpact. erewrite bind_ret; [|reflexivity].
    rewrite Hn, (bind_ret _ _ _ _ _ El). cbv beta zeta. rewrite Et.
    unfold tok_class in Hc. rewrite Hc. rewrite (proj2 (Z.leb_gt n 0)) by lia. reflexivity.
  - split; [|destruct tv as [t v'], Hb1 as (txt & Hr & Hrd & Hl & _); by exists txt|done].
    simpl. f_equal. exact Hs1.
  - by destruct tv as [t v'], Hb1 as (txt & _ & _ & _ & _ & Hca).
  - by eexists.
Qed.

Lemma goes_shift s st n ts K : s <> YYFINAL -> room (s :: st) -> shifts s (ahead ts) n ->
  goes (s :: st) ts K (n :: s :: st) (tail ts) (eq K).
Proof.
  intros Hf Hroom Hsh y p Hp.
  destruct (shift_round s st n ts K y p Hf Hroom Hsh Hp) as (y' & p' & v' & E & Hp' & _).
  exists y', p', K. split_and!; [|done|done]. eapply reach_step; [exact E|constructor].
Qed.

(** A token that carries a value: shifted, then reduced without looking ahead. *)
Lemma goes_token s st n rule st' ts K (Q : core -> Prop) : s <> YYFINAL -> room (n :: s :: st) ->
  shifts s (ahead ts) n -> n <> YYFINAL -> reduces_now n rule ->
  after rule (n :: s :: st) = Some st' -> acts_on rule (ahead ts).2 K Q ->
  goes (s :: st) ts K st' (tail ts) Q.
Proof.
  intros Hf Hroom Hsh Hnf (Hdef & Hrule & Hpact) Ha Hact y p Hp.
  destruct (shift_round s st n ts K y p Hf) as (y1 & p1 & v' & E & Hp1 & Hca & rest & Ey); [|done|done|].
  { unfold room in *. simpl in *. lia. }
  destruct (yyreduce_move rule _ st' _ K Q y1 p1 v' n rest Hp1 Ey Ha) as (y' & p' & K' & E' & Hp' & HQ).
  { apply Hact; [apply Hp1|done]. }
  exists y', p', K'. split_and!; [|done|done]. eapply reach_step; [exact E|].
  eapply reach_step; [|constructor].
  unfold yyparse_round, yyparse_round_with. rewrite (room_check _ y1 (pg_stack _ _ _ _ _ Hp1) Hroom).
  assert (yystate y1 = n) as -> by (unfold yystate; by rewrite Ey).
  rewrite (proj2 (Z.eqb_neq n YYFINAL)) by done. rewrite Hpact. erewrite bind_ret; [|reflexivity].
  rewrite Z.eqb_refl. unfold yydefault, yydefault_with, yystate. rewrite Ey, Hdef.
  erewrite bind_ret; [|reflexivity]. by rewrite (proj2 (Z.eqb_neq rule 0)).
Qed.
End Runs.
