(* ===== verification/TreeParse.v ===== *)
(** * Parsing the tokens of a tree

    The semantic actions on the settings they work on, stated exactly, and the
    proof that the parser, given the tokens of a tree, builds that tree. *)

From Stdlib Require Import SpecFloat.
From S2P Require Import Prelude Double CString Printf Setting Config ConfigWf ConfigProps ConfigApi.
From S2P Require Import ScanCtx Scanner LexerProps Grammar ConfigRead ConfigWrite WriteTokens.
From S2P Require Import WriteString TreeWrite ParserSafe ParseRuns.
Local Open Scope Z_scope.

(** ** Trees in a heap *)

Lemma tree_at_mono n n' c c' l t : heap c ⊆ heap c' -> default_format c' = default_format c ->
  (n <= n')%nat -> tree_at n c l = Some t -> tree_at n' c' l = Some t.
Proof.
  intros Hh Hf. revert n' l t. induction n as [|n IH]; intros n' l t Hn; [done|].
  destruct n' as [|n']; [lia|]. cbn [tree_at].
  destruct (heap c !! l) as [s|] eqn:Hs; [|done]. rewrite (lookup_weaken _ _ _ _ Hs Hh).
  cbn [mbind option_bind].
  assert (prints_hex c' s = prints_hex c s) as -> by (unfold prints_hex; by rewrite Hf).
  assert (forall els ts, mapM (tree_at n c) els = Some ts -> mapM (tree_at n' c') els = Some ts) as Hels.
  { intros els ts H%mapM_Some. apply mapM_Some. eapply Forall2_impl; [exact H|].
    intros e t' He. apply IH; [lia|done]. }
  destruct (s_type s); try done; destruct (elements_of (s_value s)) as [els|]; try done;
    cbn [mbind option_bind].
  - destruct (mapM _ els) as [ms|] eqn:Em; [|done]. intros [= <-].
    assert (mapM (fun e => m ← heap c' !! e; name ← s_name m; t ← tree_at n' c' e; Some (name, t)) els = Some ms)
      as ->; [|done].
    apply mapM_Some. apply mapM_Some in Em. eapply Forall2_impl; [exact Em|]. simpl. intros e m.
    destruct (heap c !! e) as [se|] eqn:He; [|done]. rewrite (lookup_weaken _ _ _ _ He Hh). simpl.
    destruct (s_name se) as [nm|]; [|done]. simpl.
    destruct (tree_at n c e) as [t'|] eqn:Ht; [|done]. by rewrite (IH n' e t') by (done || lia).
  - destruct (mapM _ els) as [ts|] eqn:Em; [|done]. by rewrite (Hels els ts Em).
  - destruct (mapM _ els) as [ts|] eqn:Em; [|done]. by rewrite (Hels els ts Em).
Qed.

(** The tree at a location of a heap, with decimal as the default format. *)
Definition shows (h : gmap positive setting) (l : loc) (t : tree) : Prop :=
  exists n, tree_at n (with_heap h blank) l = Some t.

Lemma shows_mono h h' l t : h ⊆ h' -> shows h l t -> shows h' l t.
Proof. intros Hh [n H]. exists n. by eapply (tree_at_mono n n (with_heap h blank)). Qed.

(** The tree at [x] uses only [x] and locations from [lo] on. *)
Definition shown (lo : positive) (h : gmap positive setting) (x : loc) (t : tree) : Prop :=
  exists h0, h0 ⊆ h /\ (forall k, is_Some (h0 !! k) -> k = x \/ (lo <= k)%positive) /\ shows h0 x t.

Lemma shows_forall h els ts : Forall2 (shows h) els ts ->
  exists n, mapM (tree_at n (with_heap h blank)) els = Some ts.
Proof.
  induction 1 as [|e t els ts [n Hn] _ [m Hm]]; [by exists 0%nat|]. exists (Nat.max n m).
  apply mapM_Some. constructor.
  - eapply tree_at_mono; [done|done| |exact Hn]. lia.
  - apply mapM_Some in Hm. eapply Forall2_impl; [exact Hm|]. intros e' t' He.
    eapply tree_at_mono; [done|done| |exact He]. lia.
Qed.

(** ** Exact runs of the setting operations *)

(** The fields the heap operations leave alone. *)
Record same_fields (c c' : config) : Prop := {
  sf_moved : moved c' = moved c; sf_root : root c' = root c; sf_options : options c' = options c;
  sf_format : default_format c' = default_format c
}.

(** [c'] extends [c]: of the old settings only [x] may differ. *)
Record extends (x : loc) (c c' : config) : Prop := {
  ex_keep : forall l s, heap c !! l = Some s -> l <> x -> heap c' !! l = Some s;
  ex_new : forall l, is_Some (heap c' !! l) -> is_Some (heap c !! l) \/ (next c <= l)%positive;
  ex_live : forall l, is_Some (heap c' !! l) -> (l < next c')%positive;
  ex_next : (next c <= next c')%positive;
  ex_fields : same_fields c c'
}.

Definition live (c : config) : Prop := forall l, is_Some (heap c !! l) -> (l < next c)%positive.

Lemma same_fields_refl c : same_fields c c.
Proof. by split. Qed.

Lemma same_fields_trans c1 c2 c3 : same_fields c1 c2 -> same_fields c2 c3 -> same_fields c1 c3.
Proof. intros [] []. split; congruence. Qed.

Lemma extends_trans x c1 c2 c3 : extends x c1 c2 -> extends x c2 c3 -> extends x c1 c3.
Proof.
  intros [K1 N1 L1 X1 F1] [K2 N2 L2 X2 F2]. split; [auto| |done|lia|by eapply same_fields_trans].
  intros l Hl. destruct (N2 l Hl) as [H|]; [|right; lia]. by apply N1.
Qed.

(** An old setting overwritten. *)
Lemma extends_store x c s s' : live c -> heap c !! x = Some s ->
  extends x c (with_heap (<[x := s']> (heap c)) c).
Proof.
  intros Hl Hs. split; simpl; [..|lia|done].
  - intros l sl Hk Hn. by rewrite lookup_insert_ne.
  - intros l Hk. left. apply lookup_insert_is_Some in Hk as [<-|[_ ?]]; [by eauto|done].
  - intros l Hk. apply Hl. apply lookup_insert_is_Some in Hk as [<-|[_ ?]]; [by eauto|done].
Qed.

(** A change of a new setting does not show from before. *)
Lemma extends_deeper x y c1 c2 c3 : extends x c1 c2 -> extends y c2 c3 -> heap c1 !! y = None ->
  extends x c1 c3.
Proof.
  intros [K1 N1 L1 X1 F1] [K2 N2 L2 X2 F2] Hy. split; [| |done|lia|by eapply same_fields_trans].
  - intros l s Hl Hn. apply K2; [by apply K1|]. intros ->. congruence.
  - intros l Hl. destruct (N2 l Hl) as [H|]; [by apply N1|right; lia].
Qed.

Lemma live_next c : live c -> heap c !! next c = None.
Proof.
  intros Hl. destruct (heap c !! next c) as [s|] eqn:E; [|done].
  pose proof (Hl (next c) (ex_intro _ s E)). lia.
Qed.

(** The elements of an aggregate that is being built. *)
Definition has_elements (v : value) (els : list loc) : Prop :=
  v = VZero /\ els = [] \/ exists lst, v = VList lst /\ list_ok lst /\ elements lst = els.

Lemma has_elements_of v els : has_elements v els -> elements_of v = Some els.
Proof. intros [[-> ->]|(lst & -> & _ & <-)]; done. Qed.

Lemma list_of_elements s c els : has_elements (s_value s) els -> exists o, list_of s c = (Ret o, c) /\
  match o with Some lst => list_ok lst /\ elements lst = els | None => els = [] end.
Proof.
  unfold list_of. intros [[-> ->]|(lst & -> & Hok & He)]; [by exists None|]. by exists (Some lst).
Qed.

(** A new setting, appended to its parent's list. *)
Lemma create_run p ps els name t c : live c -> heap c !! p = Some ps -> is_aggregate (s_type ps) = true ->
  has_elements (s_value ps) els ->
  exists lst c', config_setting_create p name t c = (Ret (Some (next c)), c') /\
    list_ok lst /\ elements lst = els ++ [next c] /\
    heap c' = <[p := set_value (VList lst) ps]> (<[next c := created p name t]> (heap c)) /\
    next c' = Pos.succ (next c) /\ same_fields c c'.
Proof.
  intros Hl Hp Ha Hels. pose proof (live_next c Hl) as Hn. unfold config_setting_create.
  rewrite (bind_ret _ _ _ _ _ (deref_live p ps c Hp)), Ha. cbn [negb].
  erewrite bind_ret; [|reflexivity].
  match goal with |- context [(_ ≫= _) ?c1] => set (c1' := c1) end.
  destruct (list_of_elements ps c1' els Hels) as (o & Eo & Ho). rewrite (bind_ret _ _ _ _ _ Eo).
  cbv beta zeta.
  destruct (list_add_ok (default {| elements := []; capacity := 0 |} o) (next c) c1') as (lst & El & Hok & He).
  { destruct o; [by destruct Ho|]. split; [apply Z.divide_0_r|done]. }
  rewrite (bind_ret _ _ _ _ _ El). exists lst. eexists. split_and!.
  - erewrite bind_ret; [reflexivity|]. apply (update_live p _ ps).
    subst c1'. simpl. rewrite lookup_insert_ne; [done|]. intros E. congruence.
  - done.
  - rewrite He. f_equal. destruct o; simpl; [by destruct Ho|done].
  - reflexivity.
  - reflexivity.
  - by split.
Qed.

Lemma create_extends p ps lst name t c c' : live c -> heap c !! p = Some ps ->
  heap c' = <[p := set_value (VList lst) ps]> (<[next c := created p name t]> (heap c)) ->
  next c' = Pos.succ (next c) -> same_fields c c' -> extends p c c' /\ live c' /\
    heap c' !! next c = Some (created p name t) /\ heap c' !! p = Some (set_value (VList lst) ps).
Proof.
  intros Hl Hp Eh En Hf. pose proof (live_next c Hl) as Hn.
  assert (p <> next c) as Hpn by congruence.
  assert (forall l, is_Some (heap c' !! l) -> is_Some (heap c !! l) \/ l = next c) as Hnew.
  { intros l. rewrite Eh. intros [<-|[_ H]]%lookup_insert_is_Some; [by eauto|].
    apply lookup_insert_is_Some in H as [<-|[_ ?]]; auto. }
  assert (live c') as Hl'.
  { intros l H. rewrite En. destruct (Hnew l H) as [H'| ->]; [|lia]. specialize (Hl l H'). lia. }
  split_and!; [|done|rewrite Eh, lookup_insert_ne, lookup_insert_eq; done|by rewrite Eh, lookup_insert_eq].
  split; [|intros l H; destruct (Hnew l H); [by left|right; lia]|done|lia|done].
  intros l s Hk Hne. rewrite Eh, lookup_insert_ne, lookup_insert_ne; [done|congruence|done].
Qed.

(** Setters on a setting that has no type yet, or the right one. *)
Definition ready_for (t : ctype) (s : setting) : Prop :=
  (s_type s = T_NONE \/ s_type s = t) /\ s_value s = VZero.

Definition sets (set : loc -> CM bool) (t : ctype) (v : value) : Prop := forall l s c,
  heap c !! l = Some s -> ready_for t s ->
  set l c = (Ret true, with_heap (<[l := with_scalar t v s]> (heap c)) c).

Ltac set_run := intros l s c Hs [Ht Hv];
  unfold config_setting_set_int, config_setting_set_int64, config_setting_set_bool,
    config_setting_set_float, config_setting_set_string;
  rewrite (bind_ret _ _ _ _ _ (deref_live l s c Hs));
  destruct s as [? ty ? ? ? ? ? ?]; simpl in *; subst; by destruct Ht as [-> | ->].

Lemma sets_int z : sets (fun l => config_setting_set_int l z) T_INT (VInt z).
Proof. set_run. Qed.
Lemma sets_int64 z : sets (fun l => config_setting_set_int64 l z) T_INT64 (VInt64 z).
Proof. set_run. Qed.
Lemma sets_bool z : sets (fun l => config_setting_set_bool l z) T_BOOL (VInt z).
Proof. set_run. Qed.
Lemma sets_float d : sets (fun l => config_setting_set_float l d) T_FLOAT (VFloat d).
Proof. set_run. Qed.
Lemma sets_string o : sets (fun l => config_setting_set_string l o) T_STRING (VString o).
Proof. set_run. Qed.

(** Whether a vector takes another element of type [t]. *)
Definition accepts (c : config) (vt : ctype) (els : list loc) (t : ctype) : Prop :=
  vt = T_LIST \/ forall e rest, els = e :: rest -> exists se, heap c !! e = Some se /\ s_type se = t.

Lemma checktype_run v sv els t c : heap c !! v = Some sv -> has_elements (s_value sv) els ->
  accepts c (s_type sv) els t -> config_vector_checktype v t c = (Ret true, c).
Proof.
  intros Hv Hels Hacc. unfold config_vector_checktype.
  rewrite (bind_ret _ _ _ _ _ (deref_live v sv c Hv)).
  destruct (list_of_elements sv c els Hels) as (o & Eo & Ho). rewrite (bind_ret _ _ _ _ _ Eo).
  destruct o as [lst|]; [|done]. destruct Ho as [_ <-]. destruct (list_length lst =? 0) eqn:E; [done|].
  destruct (decide (s_type sv = T_LIST)); [done|]. destruct Hacc as [|Hacc]; [done|].
  unfold list_length in E. destruct (elements lst) as [|e rest]; [done|].
  destruct (Hacc e rest eq_refl) as (se & He & Ht). rewrite (bind_ret _ _ _ _ _ (deref_live e se c He)).
  by rewrite bool_decide_eq_true_2.
Qed.

(** The form that the five set_*_elem operations share. *)
Definition set_new_elem (t : ctype) (set : loc -> CM bool) (v : loc) : CM (option loc) :=
  e ← elem_to_set v (-1) t;
  match e with
  | None => mret None
  | Some e => ok ← set e; mret (if ok : bool then Some e else None)
  end.

Lemma set_new_elem_run v sv els t set val c : live c -> heap c !! v = Some sv ->
  is_vector (s_type sv) = true -> has_elements (s_value sv) els -> accepts c (s_type sv) els t ->
  sets set t val ->
  exists lst c1, set_new_elem t set v c =
      (Ret (Some (next c)), with_heap (<[next c := with_scalar t val (created v None t)]> (heap c1)) c1) /\
    list_ok lst /\ elements lst = els ++ [next c] /\
    heap c1 = <[v := set_value (VList lst) sv]> (<[next c := created v None t]> (heap c)) /\
    next c1 = Pos.succ (next c) /\ same_fields c c1.
Proof.
  intros Hl Hv Hvec Hels Hacc Hset.
  destruct (create_run v sv els None t c Hl Hv) as (lst & c1 & E & Hok & He & Eh & En & Hf); [by destruct (s_type sv)|done|].
  exists lst, c1. split_and!; try done. unfold set_new_elem, elem_to_set.
  assert ((v0 ← deref v;
    if negb (is_vector (s_type v0)) then mret None
    else if -1 <? 0 then ok ← config_vector_checktype v t;
      if ok : bool then config_setting_create v None t else mret None
    else config_setting_get_elem v (-1)) c = (Ret (Some (next c)), c1)) as E1.
  { rewrite (bind_ret _ _ _ _ _ (deref_live v sv c Hv)), Hvec. change (-1 <? 0) with true. cbn [negb].
    rewrite (bind_ret _ _ _ _ _ (checktype_run v sv els t c Hv Hels Hacc)). exact E. }
  rewrite (bind_ret _ _ _ _ _ E1).
  destruct (create_extends v sv lst None t c c1 Hl Hv Eh En Hf) as (_ & _ & Hn & _).
  rewrite (bind_ret _ _ _ _ _ (Hset (next c) (created v None t) c1 Hn (conj (or_intror eq_refl) eq_refl))).
  done.
Qed.

(** ** Where a value goes *)

(** The current setting, a member of a group that has no value yet; or the end
    of the list or array that is the parent. *)
Inductive slot := Member (x : loc) | Elem (v : loc) (els : list loc).

Record steady (K : core) : Prop := {
  sy_live : live (k_cfg K);
  sy_format : default_format (k_cfg K) = 0;
  sy_string : k_string K = empty_strbuf
}.

Definition slot_ok (sl : slot) (K : core) : Prop :=
  match sl with
  | Member x => k_setting K = Some x /\ exists s g sg, heap (k_cfg K) !! x = Some s /\
      s_type s = T_NONE /\ s_value s = VZero /\ s_format s = 0 /\
      s_parent s = k_parent K /\ k_parent K = Some g /\ heap (k_cfg K) !! g = Some sg /\ s_type sg = T_GROUP
  | Elem v els => k_parent K = Some v /\ exists sv, heap (k_cfg K) !! v = Some sv /\
      is_vector (s_type sv) = true /\ has_elements (s_value sv) els
  end.

(** A scalar of type [t] fits: arrays take one type. *)
Definition slot_accepts (sl : slot) (K : core) (t : ctype) : Prop :=
  match sl with
  | Member _ => True
  | Elem v els => forall sv, heap (k_cfg K) !! v = Some sv -> accepts (k_cfg K) (s_type sv) els t
  end.

Definition slot_loc (sl : slot) : loc := match sl with Member x => x | Elem v _ => v end.

(** The setting at [x] holds the tree [t]; it keeps its name and parent. *)
Definition member_filled (x : loc) (t : tree) (c c' : config) : Prop :=
  forall s, heap c !! x = Some s -> exists s', heap c' !! x = Some s' /\
    s_name s' = s_name s /\ s_parent s' = s_parent s /\ shown (next c) (heap c') x t.

(** The vector at [v] has one more element, which holds [t]. *)
Definition elem_filled (v : loc) (els : list loc) (t : tree) (c c' : config) : Prop :=
  forall sv, heap c !! v = Some sv -> exists lst e, heap c' !! v = Some (set_value (VList lst) sv) /\
    list_ok lst /\ elements lst = els ++ [e] /\ (next c <= e)%positive /\ is_Some (heap c' !! e) /\
    shown (next c) (heap c') e t.

Record filled (sl : slot) (K : core) (t : tree) (K' : core) : Prop := {
  fi_parent : k_parent K' = k_parent K;
  fi_steady : steady K';
  fi_extends : extends (slot_loc sl) (k_cfg K) (k_cfg K');
  fi_value : match sl with
             | Member x => member_filled x t (k_cfg K) (k_cfg K')
             | Elem v els => elem_filled v els t (k_cfg K) (k_cfg K')
             end
}.

(** ** Scalars *)

(** The type, value and format that a scalar tree is stored with. *)
Definition scalar_of (t : tree) : option (ctype * value * option Z) :=
  match t with
  | TInt hex z => Some (T_INT, VInt z, Some (if hex then FORMAT_HEX else FORMAT_DEFAULT))
  | TInt64 hex z => Some (T_INT64, VInt64 z, Some (if hex then FORMAT_HEX else FORMAT_DEFAULT))
  | TFloat d => Some (T_FLOAT, VFloat d, None)
  | TBool b => Some (T_BOOL, VInt (b2i b), None)
  | TString s => Some (T_STRING, VString (Some s), None)
  | _ => None
  end.

Lemma scalar_shows t ty val fmt h x s : scalar_of t = Some (ty, val, fmt) -> h !! x = Some s ->
  s_type s = ty -> s_value s = val -> (forall f, fmt = Some f -> s_format s = f) -> shows h x t.
Proof.
  intros Ht Hx Hty Hv Hf. exists 1%nat. cbn [tree_at]. cbn [heap with_heap]. rewrite Hx.
  cbn [mbind option_bind]. rewrite Hty, Hv.
  destruct t as [hex z|hex z|d|b|str| | |]; try done; injection Ht as <- <- <-; simpl; try done.
  - unfold prints_hex. rewrite (Hf _ eq_refl). by destruct hex.
  - unfold prints_hex. rewrite (Hf _ eq_refl). by destruct hex.
  - by destruct b.
Qed.

(** A location that holds the scalar shows it, whatever else the heap holds. *)
Lemma scalar_shown t ty val fmt lo h x s : scalar_of t = Some (ty, val, fmt) -> h !! x = Some s ->
  s_type s = ty -> s_value s = val -> (forall f, fmt = Some f -> s_format s = f) -> shown lo h x t.
Proof.
  intros Ht Hx Hty Hv Hf. exists {[x := s]}. split_and!.
  - by apply map_singleton_subseteq_l.
  - intros k [s' [<- _]%lookup_singleton_Some]. by left.
  - eapply scalar_shows; [done| |done..]. by rewrite lookup_singleton_eq.
Qed.

(** Formats go with integers. *)
Definition format_ok (ty : ctype) (fmt : option Z) : Prop :=
  match fmt with
  | None => True
  | Some f => (ty = T_INT \/ ty = T_INT64) /\ (f = FORMAT_DEFAULT \/ f = FORMAT_HEX)
  end.

Definition formatted (fmt : option Z) (s : setting) : setting :=
  match fmt with Some f => set_format f s | None => s end.

Definition put_format (fmt : option Z) (l : loc) : PM unit :=
  match fmt with
  | Some f => on_config (config_setting_set_format l f);; mret tt
  | None => mret tt
  end.

Lemma format_run ty fmt l s p : heap (cfg p) !! l = Some s -> s_type s = ty -> format_ok ty fmt ->
  put_format fmt l p =
    (Ret tt, with_cfg (with_heap (<[l := formatted fmt s]> (heap (cfg p))) (cfg p)) p).
Proof.
  intros Hs Ht Hf. destruct fmt as [f|]; simpl.
  - destruct Hf as [Hty Hf]. erewrite bind_ret; [reflexivity|]. unfold on_config, config_setting_set_format.
    rewrite (bind_ret _ _ _ _ _ (deref_live l s (cfg p) Hs)), Ht.
    destruct Hty as [-> | ->], Hf as [-> | ->]; reflexivity.
  - rewrite insert_id by done. destruct p as [[] ? ? ? ? ? ? ? ?]. reflexivity.
Qed.

Lemma capture_run l s p : heap (cfg p) !! l = Some s -> exists line file,
  capture_parse_pos l p =
    (Ret tt, with_cfg (with_heap (<[l := set_pos line file s]> (heap (cfg p))) (cfg p)) p).
Proof.
  intros Hs. eexists _, _. unfold capture_parse_pos. erewrite bind_ret; [|reflexivity].
  unfold on_config. rewrite (update_live l _ s) by done. reflexivity.
Qed.

(** IN_ARRAY and IN_LIST *)
Lemma parent_type_run p g sg : pc_parent p = Some g -> heap (cfg p) !! g = Some sg ->
  parent_type p = (Ret (Some (s_type sg)), p).
Proof.
  intros Hp Hg. unfold parent_type. erewrite bind_ret; [|reflexivity]. rewrite Hp. unfold on_config.
  erewrite bind_ret; [|by rewrite (deref_live g sg)]. by destruct p.
Qed.

Lemma in_aggregate_run p g sg : pc_parent p = Some g -> heap (cfg p) !! g = Some sg ->
  IN_ARRAY p = (Ret (bool_decide (s_type sg = T_ARRAY)), p) /\
  IN_LIST p = (Ret (bool_decide (s_type sg = T_LIST)), p).
Proof.
  intros Hp Hg. unfold IN_ARRAY, IN_LIST. rewrite !(bind_ret _ _ _ _ _ (parent_type_run p g sg Hp Hg)).
  split; unfold mret, M_ret; do 2 f_equal; apply bool_decide_ext; split; congruence.
Qed.

Section Scalar.
Context (sl : slot) (K : core) (set_elem : loc -> CM (option loc)) (set : loc -> CM bool).
Context (t : tree) (ty : ctype) (val : value) (fmt : option Z).
Hypothesis Ht : scalar_of t = Some (ty, val, fmt).
Hypothesis Hset : sets set ty val.
Hypothesis Helem : forall v c, set_elem v c = set_new_elem ty set v c.
Hypothesis Hsteady : steady K.
Hypothesis Hslot : slot_ok sl K.
Hypothesis Hacc : slot_accepts sl K ty.

Lemma scalar_format_ok : format_ok ty fmt.
Proof using Ht. clear -Ht. destruct t as [[]|[]| | | | | |]; try done; injection Ht as <- <- <-; simpl; auto. Qed.

Lemma formatted_fields s : s_type (formatted fmt s) = s_type s /\ s_value (formatted fmt s) = s_value s /\
  s_name (formatted fmt s) = s_name s /\ s_parent (formatted fmt s) = s_parent s /\
  forall f, fmt = Some f -> s_format (formatted fmt s) = f.
Proof using. clear. destruct fmt; simpl; split_and!; try done; intros ? [= <-]; done. Qed.

Lemma scalar_member x p : sl = Member x -> core_of p = K ->
  exists p', scalar_value set_elem set fmt p = (Ret Normal, p') /\ acted p p' /\ filled sl K t (core_of p').
Proof using Ht Hset Hsteady Hslot Hacc.
  intros -> EK. destruct Hslot as (Hx & s & g & sg & Hs & Hty & Hv & _ & Hpar & Hg & Hsg & Hgt).
  rewrite <- EK in *. cbn [core_of k_cfg k_parent k_setting] in *.
  destruct (in_aggregate_run p g sg Hg Hsg) as [E1 E2].
  rewrite Hgt, bool_decide_eq_false_2 in E1, E2 by done.
  unfold scalar_value. rewrite (bind_ret _ _ _ _ _ E1), (bind_ret _ _ _ _ _ E2).
  erewrite bind_ret; [|reflexivity]. cbn [orb]. rewrite Hx. erewrite bind_ret; [|reflexivity].
  set (s1 := with_scalar ty val s).
  set (p1 := with_cfg (with_heap (<[x := s1]> (heap (cfg p))) (cfg p)) p).
  erewrite bind_ret; [|unfold on_config; rewrite (Hset x s (cfg p) Hs (conj (or_introl Hty) Hv)); reflexivity].
  assert (heap (cfg p1) !! x = Some s1) as Hs1 by (subst p1; simpl; by rewrite lookup_insert_eq).
  pose proof (format_run ty fmt x s1 p1 Hs1 eq_refl scalar_format_ok) as Ef. unfold put_format in Ef.
  rewrite (bind_ret _ _ _ _ _ Ef). set (c2 := with_heap (<[x := formatted fmt s1]> (heap (cfg p))) (cfg p)).
  exists (with_cfg c2 p). split.
  { subst p1 c2. cbn [cfg with_cfg heap with_heap]. by rewrite insert_insert_eq. }
  split; [by split|]. clear Ef Hs1 p1.
  destruct (formatted_fields s1) as (F1 & F2 & F3 & F4 & F5). destruct Hsteady as [Hl Hdf Hst].
  pose proof (extends_store x (cfg p) s (formatted fmt s1) Hl Hs) as Hext.
  split; [done| |exact Hext|].
  - split; [exact (ex_live _ _ _ Hext)|done|done].
  - intros s' Hs'. assert (s' = s) as -> by (cbn in Hs'; congruence). exists (formatted fmt s1).
    change (heap (k_cfg (core_of (with_cfg c2 p)))) with (<[x := formatted fmt s1]> (heap (cfg p))).
    rewrite lookup_insert_eq. split_and!; [done|by rewrite F3|by rewrite F4|].
    eapply scalar_shown; [done|by rewrite lookup_insert_eq|by rewrite F1|by rewrite F2|done].
Qed.

Lemma scalar_elem v els p : sl = Elem v els -> core_of p = K ->
  exists p', scalar_value set_elem set fmt p = (Ret Normal, p') /\ acted p p' /\ filled sl K t (core_of p').
Proof using Ht Hset Helem Hsteady Hslot Hacc.
  intros -> EK. destruct Hslot as (Hp & sv & Hv & Hvec & Hels). specialize (Hacc sv Hv).
  rewrite <- EK in *. cbn [core_of k_cfg k_parent k_setting] in *. destruct Hsteady as [Hl Hdf Hst].
  cbn [core_of k_cfg k_string] in Hl, Hdf, Hst.
  destruct (in_aggregate_run p v sv Hp Hv) as [E1 E2].
  unfold scalar_value. rewrite (bind_ret _ _ _ _ _ E1), (bind_ret _ _ _ _ _ E2).
  erewrite bind_ret; [|reflexivity].
  assert (bool_decide (s_type sv = T_ARRAY) || bool_decide (s_type sv = T_LIST) = true) as ->
    by (destruct (s_type sv); done).
  rewrite Hp. erewrite bind_ret; [|reflexivity].
  destruct (set_new_elem_run v sv els ty set val (cfg p) Hl Hv Hvec Hels Hacc Hset)
    as (lst & c1 & E & Hok & He & Eh & En & Hf).
  destruct (create_extends v sv lst None ty (cfg p) c1 Hl Hv Eh En Hf) as (Hext & Hl1 & Hne & Hv1).
  set (e := next (cfg p)) in *. set (s1 := with_scalar ty val (created v None ty)) in *.
  set (c2 := with_heap (<[e := s1]> (heap c1)) c1) in *.
  erewrite bind_ret; [|unfold on_config; rewrite Helem, E; reflexivity].
  set (p2 := with_cfg c2 p).
  assert (heap (cfg p2) !! e = Some s1) as Hs1 by (subst p2 c2; simpl; by rewrite lookup_insert_eq).
  pose proof (format_run ty fmt e s1 p2 Hs1 eq_refl scalar_format_ok) as Ef. unfold put_format in Ef.
  cbv beta iota. rewrite (bind_ret _ _ _ _ _ Ef). set (s2 := formatted fmt s1).
  match goal with |- context [(_ ≫= _) ?q] => set (p3 := q) end.
  assert (heap (cfg p3) !! e = Some s2) as Hs2 by (subst p3; simpl; by rewrite lookup_insert_eq).
  destruct (capture_run e s2 p3 Hs2) as (line & file & Ec). rewrite (bind_ret _ _ _ _ _ Ec).
  eexists. split; [reflexivity|]. split; [by split|].
  destruct (formatted_fields s1) as (F1 & F2 & F3 & F4 & F5).
  set (s3 := set_pos line file s2). set (c3 := with_heap (<[e := s3]> (heap (cfg p3))) (cfg p3)).
  assert (heap c3 = <[e := s3]> (heap c1)) as Eh3.
  { subst c3 p3 p2 c2. cbn [cfg with_cfg heap with_heap]. by rewrite !insert_insert_eq. }
  assert (extends e c1 c3) as Hext3.
  { pose proof (extends_store e c1 (created v None ty) s3 Hl1 Hne) as [X1 X2 X3 X4 X5].
    split; rewrite ?Eh3; try done. }
  assert (e <> v) as Hev. { intros Eev. pose proof (live_next _ Hl) as Hn. fold e in Hn. congruence. }
  split; [done| | |].
  - split; [exact (ex_live _ _ _ Hext3)|change (default_format c1 = 0); by rewrite (sf_format _ _ Hf)|done].
  - by apply (extends_deeper v e _ c1 c3 Hext Hext3), live_next.
  - intros sv' Hsv'. assert (sv' = sv) as -> by (cbn in Hsv'; congruence). exists lst, e.
    change (heap (k_cfg (core_of (with_cfg c3 p3)))) with (heap c3).
    rewrite Eh3, lookup_insert_ne, lookup_insert_eq by done. split_and!; [done..|by eexists|].
    eapply scalar_shown; [done|by rewrite lookup_insert_eq|exact F1|exact F2|exact F5].
Qed.

Lemma scalar_runs p : core_of p = K ->
  exists p', scalar_value set_elem set fmt p = (Ret Normal, p') /\ acted p p' /\ filled sl K t (core_of p').
Proof using Ht Hset Helem Hsteady Hslot Hacc.
  intros Hp. assert ((exists x, sl = Member x) \/ exists v els, sl = Elem v els) as [[x E]|(v & els & E)]
    by (clear; destruct sl; eauto).
  - by apply (scalar_member x).
  - by apply (scalar_elem v els).
Qed.
End Scalar.

(** The action of a scalar's token. *)
Definition scalar_rule (t : tree) : Z :=
  match t with
  | TBool _ => 23 | TInt false _ => 24 | TInt64 false _ => 25
  | TInt true _ => 26 | TInt64 true _ => 27 | TFloat _ => 28 | _ => 0
  end.

Definition scalar_token (t : tree) : lexeme :=
  match tokens false t with tv :: _ => tv | [] => (TOK_EOF, SNone) end.

Lemma carries_same p v v' : carries p v' v -> (forall s, v <> SString s) -> v' = v.
Proof. intros Hc Hv. destruct v'; simpl in Hc; try done. by destruct (Hv (c_str (yytext p))). Qed.

Lemma scalar_acts sl K t ty : steady K -> slot_ok sl K -> slot_accepts sl K ty ->
  scalar_type t = Some ty -> ty <> T_STRING ->
  acts_on (scalar_rule t) (scalar_token t).2 K (filled sl K (reread t)).
Proof.
  intros Hst Hsl Hacc Hty Hns p v' EK Hc.
  assert (v' = (scalar_token t).2) as ->.
  { apply (carries_same p); [done|]. destruct t as [[]|[]| | | | | |]; try done; by injection Hty as <-. }
  destruct t as [[] z|[] z|d|b|s| | |]; try done; injection Hty as <-; try done;
    cbn [scalar_token tokens scalar_rule reduce_action snd];
    (erewrite bind_ret; [|reflexivity]);
    eapply (scalar_runs sl K); try done;
    first [apply sets_int|apply sets_int64|apply sets_float|apply sets_bool].
Qed.

Definition with_kstring (b : strbuf_t) (K : core) : core :=
  {| k_cfg := k_cfg K; k_parent := k_parent K; k_setting := k_setting K; k_string := b |}.

Lemma string_starts s K : steady K -> c_string s = true -> strlen s + 1 < 2 ^ 63 ->
  acts_on 21 (SString s) K (fun K' => exists b, K' = with_kstring b K /\ sb_string b = Some s).
Proof.
  intros Hst Hc Hl p v' EK Hca. cbn [reduce_action]. unfold append_literal.
  assert (sval_of v' p = (Ret s, p)) as E.
  { destruct v'; simpl in Hca; try done; injection Hca as ->; done. }
  rewrite (bind_ret _ _ _ _ _ E). erewrite bind_ret; [|reflexivity].
  assert (pc_string p = empty_strbuf) as Ep by (pose proof (sy_string K Hst) as H; by rewrite <- EK in H).
  destruct (strbuf_append_ok empty_strbuf s) as (b & Eb & _ & Es);
    [split; [done|by exists 0]|rewrite c_str_id by done; simpl; lia|].
  rewrite Ep, Eb. erewrite bind_ret; [|reflexivity]. eexists. split; [reflexivity|]. split; [by split|].
  exists b. split; [subst K; by destruct p|]. rewrite Es. simpl. by rewrite c_str_id.
Qed.

Lemma string_acts sl K s b : steady K -> slot_ok sl K -> slot_accepts sl K T_STRING ->
  sb_string b = Some s -> acts_any 29 (with_kstring b K) (filled sl K (TString s)).
Proof.
  intros Hst Hsl Hacc Hs p v' EK. cbn [reduce_action]. unfold scalar_string.
  erewrite bind_ret; [|reflexivity]. unfold strbuf_release.
  assert (pc_string p = b) as -> by (apply (f_equal k_string) in EK; done). rewrite Hs.
  erewrite bind_ret; [|reflexivity].
  set (p1 := with_pstring empty_strbuf p).
  destruct (scalar_runs sl K (fun l => config_setting_set_string_elem l (-1) (Some s))
    (fun l => config_setting_set_string l (Some s)) (TString s) T_STRING (VString (Some s)) None)
    with (p := p1) as (p' & E & Ha & Hf); try done.
  - apply sets_string.
  - pose proof (sy_string K Hst). destruct p, K. unfold with_kstring in EK. simpl in *. by injection EK as -> -> -> _; subst.
  - exists p'. split_and!; [exact E| |done]. eapply acted_trans; [|exact Ha]. by split.
Qed.

(** ** Aggregates: opening and closing *)

Definition slot_list (sl : slot) (K : core) : Prop :=
  match sl with
  | Member _ => True
  | Elem v els => forall sv, heap (k_cfg K) !! v = Some sv -> s_type sv = T_LIST
  end.

(** The aggregate at [x] has begun in the slot; [sx] is what it starts from. *)
Record opens_at (sl : slot) (K : core) (ty : ctype) (x : loc) (sx : setting) (K1 : core) : Prop := {
  op_steady : steady K1;
  op_parent : k_parent K1 = Some x;
  op_extends : extends (slot_loc sl) (k_cfg K) (k_cfg K1);
  op_start : heap (k_cfg K1) !! x = Some sx;
  op_type : s_type sx = ty;
  op_value : s_value sx = VZero;
  op_up : s_parent sx = k_parent K;
  op_old : (x < next (k_cfg K1))%positive;
  op_place : match sl with
    | Member y => x = y /\ forall s, heap (k_cfg K) !! y = Some s -> s_name sx = s_name s
    | Elem v els => x = next (k_cfg K) /\ forall sv, heap (k_cfg K) !! v = Some sv ->
        exists lst, heap (k_cfg K1) !! v = Some (set_value (VList lst) sv) /\ list_ok lst /\
          elements lst = els ++ [x]
    end
}.

Lemma add_elem_run v sv els ty c : live c -> heap c !! v = Some sv -> is_vector (s_type sv) = true ->
  has_elements (s_value sv) els -> is_aggregate ty = true ->
  exists lst c1, config_setting_add (Some v) None (Z_of_ctype ty) c = (Ret (Some (next c)), c1) /\
    list_ok lst /\ elements lst = els ++ [next c] /\
    heap c1 = <[v := set_value (VList lst) sv]> (<[next c := created v None ty]> (heap c)) /\
    next c1 = Pos.succ (next c) /\ same_fields c c1.
Proof.
  intros Hl Hv Hvec Hels Hagg.
  destruct (create_run v sv els None ty c Hl Hv) as (lst & c1 & E & H); [by destruct (s_type sv)|done|].
  exists lst, c1. split; [|done]. unfold config_setting_add.
  assert (ctype_of_Z (Z_of_ctype ty) = Some ty) as -> by by destruct ty.
  rewrite (bind_ret _ _ _ _ _ (deref_live v sv c Hv)), Hvec.
  rewrite (bind_ret _ _ _ _ _ (get_member_null c v sv Hv ltac:(by destruct (s_type sv)))). exact E.
Qed.

Lemma open_runs sl K ty p : steady K -> slot_ok sl K -> slot_list sl K -> is_aggregate ty = true ->
  core_of p = K -> exists p' x sx, open_aggregate ty p = (Ret Normal, p') /\ acted p p' /\
    opens_at sl K ty x sx (core_of p').
Proof.
  intros [Hl Hdf Hst] Hsl Hlist Hagg <-. cbn [core_of k_cfg k_string] in Hl, Hdf, Hst.
  unfold open_aggregate. destruct sl as [x|v els].
  - destruct Hsl as (Hx & s & g & sg & Hs & Hty & Hv & _ & Hpar & Hg & Hsg & Hgt).
    cbn [core_of k_cfg k_parent k_setting] in *.
    destruct (in_aggregate_run p g sg Hg Hsg) as [_ E2]. rewrite Hgt in E2.
    rewrite (bind_ret _ _ _ _ _ E2). erewrite bind_ret; [|reflexivity].
    rewrite bool_decide_eq_false_2 by done. rewrite Hx. erewrite bind_ret; [|reflexivity].
    erewrite bind_ret; [|unfold on_config; rewrite (update_live x _ s) by done; reflexivity].
    erewrite bind_ret; [|reflexivity]. eexists _, x, (set_type ty s). split; [reflexivity|].
    split; [by split|]. pose proof (extends_store x (cfg p) s (set_type ty s) Hl Hs) as Hext.
    split; try done.
    + split; [exact (ex_live _ _ _ Hext)|done|done].
    + cbn. by rewrite lookup_insert_eq.
    + apply (ex_live _ _ _ Hext). cbn. rewrite lookup_insert_eq. by eexists.
    + split; [done|]. intros s' Hs'. cbn in Hs'. by assert (s' = s) as -> by congruence.
  - destruct Hsl as (Hp & sv & Hv & Hvec & Hels). specialize (Hlist sv Hv).
    cbn [core_of k_cfg k_parent] in *.
    destruct (in_aggregate_run p v sv Hp Hv) as [_ E2]. rewrite Hlist in E2.
    rewrite (bind_ret _ _ _ _ _ E2). erewrite bind_ret; [|reflexivity].
    rewrite bool_decide_eq_true_2 by done. rewrite Hp.
    destruct (add_elem_run v sv els ty (cfg p) Hl Hv Hvec Hels Hagg) as (lst & c1 & E & Hok & He & Eh & En & Hf).
    erewrite bind_ret; [|unfold on_config; rewrite E; reflexivity].
    erewrite bind_ret; [|reflexivity]. erewrite bind_ret; [|reflexivity].
    destruct (create_extends v sv lst None ty (cfg p) c1 Hl Hv Eh En Hf) as (Hext & Hl1 & Hne & Hv1).
    set (e := next (cfg p)) in *.
    match goal with |- context [(_ ≫= _) ?q] => set (p2 := q) end.
    destruct (capture_run e (created v None ty) p2 Hne) as (line & file & Ec).
    rewrite (bind_ret _ _ _ _ _ Ec). set (sx := set_pos line file (created v None ty)) in *.
    eexists _, e, sx. split; [reflexivity|]. split; [by split|].
    pose proof (extends_store e c1 (created v None ty) sx Hl1 Hne) as Hext3.
    set (c3 := with_heap (<[e := sx]> (heap c1)) c1) in *.
    assert (e <> v) as Hev by (intros Eev; pose proof (live_next _ Hl) as Hn; fold e in Hn; congruence).
    split; cbn [core_of k_cfg k_parent]; try done.
    + split; [exact (ex_live _ _ _ Hext3)|change (default_format c1 = 0); by rewrite (sf_format _ _ Hf)|done].
    + exact (extends_deeper v e _ c1 c3 Hext Hext3 (live_next _ Hl)).
    + change (heap c3 !! e = Some sx). subst c3. cbn. by rewrite lookup_insert_eq.
    + change (e < next c1)%positive. rewrite En. lia.
    + split; [done|]. intros sv' Hsv'. assert (sv' = sv) as -> by congruence. exists lst.
      change (heap (cfg _)) with (heap c3). subst c3. cbn [heap with_heap].
      by rewrite lookup_insert_ne.
Qed.

(** The aggregate at [x] holds [t] now, and its parent is current again. *)
Record built (x : loc) (sx : setting) (t : tree) (K1 K2 : core) : Prop := {
  bu_steady : steady K2;
  bu_parent : k_parent K2 = Some x;
  bu_extends : extends x (k_cfg K1) (k_cfg K2);
  bu_value : exists v, heap (k_cfg K2) !! x = Some (set_value v sx);
  bu_shown : shown (next (k_cfg K1)) (heap (k_cfg K2)) x t
}.

Lemma shown_lower lo lo' h x t : (lo' <= lo)%positive -> shown lo h x t -> shown lo' h x t.
Proof.
  intros Hlo (h0 & Hsub & Hdom & Hs). exists h0. split_and!; [done| |done].
  intros k Hk. destruct (Hdom k Hk); [by left|right; lia].
Qed.

Lemma close_runs sl K ty x sx t K1 K2 p : steady K -> slot_ok sl K -> opens_at sl K ty x sx K1 ->
  built x sx t K1 K2 -> core_of p = K2 ->
  exists p', close_aggregate p = (Ret Normal, p') /\ acted p p' /\ filled sl K t (core_of p').
Proof.
  intros HstK Hsl [_ _ Hext Hsx Hty Hv Hup Hold Hplace] [[Hl Hdf Hst] Hp Hext2 [val Hx] Hsh] <-.
  cbn [core_of k_cfg k_parent k_string] in *.
  unfold close_aggregate. erewrite bind_ret; [|reflexivity]. rewrite Hp.
  erewrite bind_ret; [|unfold on_config; rewrite (deref_live x _ (cfg p) Hx); reflexivity].
  erewrite bind_ret; [|reflexivity]. eexists. split; [reflexivity|]. split; [by split|].
  assert (extends (slot_loc sl) (k_cfg K) (cfg p)) as Hext3.
  { destruct sl as [y|v els]; destruct Hplace as [-> _].
    - by eapply extends_trans.
    - eapply extends_deeper; [exact Hext|exact Hext2|]. apply live_next, HstK. }
  pose proof (ex_next _ _ _ Hext) as Hnext.
  split; [done|by split|done|]. cbn [k_cfg core_of cfg with_cfg with_parent]. destruct sl as [y|v els].
  - destruct Hplace as [-> Hname]. intros s Hs. eexists. split; [exact Hx|]. cbn.
    rewrite (Hname s Hs), Hup. split_and!; [done| |by eapply shown_lower].
    destruct Hsl as (_ & s' & g & sg & Hs' & _ & _ & _ & Hpar & _). congruence.
  - destruct Hplace as [-> Hel]. intros sv Hsv. destruct (Hel sv Hsv) as (lst & Hv' & Hok & He).
    exists lst, (next (k_cfg K)). split_and!; [|done|done|lia|by eexists|by eapply shown_lower].
    apply (ex_keep _ _ _ Hext2); [done|]. intros ->. pose proof (live_next _ (sy_live _ HstK)). congruence.
Qed.
