(* ===== verification/TreeMoves.v ===== *)
(** * The parser builds the tree of its tokens

    By induction on trees: from a state that expects a value, the tokens of a
    tree lead the parser to the state after that value, with the tree stored
    where the value goes. *)

From Stdlib Require Import SpecFloat.
From S2P Require Import Prelude Double CString Printf Setting Config ConfigWf ConfigProps ConfigApi.
From S2P Require Import ScanCtx Scanner LexerProps Grammar ConfigRead ConfigWrite WriteTokens.
From S2P Require Import WriteString TreeWrite ParserSafe ParseRuns TreeParse.
Local Open Scope Z_scope.

(** Looks the tables up. *)
Ltac tables := repeat (eexists || split);
  first [vm_compute; reflexivity | vm_compute; congruence | lia | right; split; vm_compute; reflexivity].

(** Nesting, and the room on the parser's stack that a value needs. *)
Fixpoint height (t : tree) : nat :=
  match t with
  | TArray ts | TList ts => S (list_max (List.map height ts))
  | TGroup ms => S (list_max (List.map (fun m => height m.2) ms))
  | _ => 0
  end.

Definition fits (st : list Z) (h : nat) : Prop := Z.of_nat (length st) + 7 * Z.of_nat h + 8 < YYMAXDEPTH.

Ltac roomy := unfold room, fits, YYMAXDEPTH in *; cbn [length] in *; lia.

Section Moves.
Context (fs : string -> option string) (fuel : nat) (semi : bool).

Abbreviation goes := (goes fs fuel).

Lemma acts_nothing rule K : (forall v, reduce_action rule v = mret Normal) -> acts_any rule K (eq K).
Proof. intros H p v EK. rewrite H. exists p. split_and!; [done|apply acted_refl|done]. Qed.

(** The states that expect a simple value, and the ones after it. *)
Definition simple_goto (s : Z) : Z := match s with 25 => 32 | 40 => 45 | _ => 23 end.
Definition value_goto (s : Z) : Z := match s with 26 => 35 | 42 => 46 | _ => 21 end.

Definition expects_value (s : Z) : Prop := s = 8 \/ s = 26 \/ s = 42.
Definition expects_simple (s : Z) : Prop := expects_value s \/ s = 25 \/ s = 40.

Definition no_string_ahead (ts : list lexeme) : Prop := (ahead ts).1 <> TOK_STRING.

Lemma scalar_tokens t ty : scalar_type t = Some ty -> tokens semi t = [scalar_token t].
Proof. by destruct t. Qed.

(** The state that shifts a scalar's token. *)
Definition token_state (t : tree) : Z :=
  match t with
  | TBool _ => 9 | TInt false _ => 10 | TInt true _ => 11
  | TInt64 false _ => 12 | TInt64 true _ => 13 | TFloat _ => 14 | _ => 0
  end.

Lemma scalar_moves s st t ty ts sl K : expects_simple s -> fits st 0 -> steady K -> slot_ok sl K ->
  slot_accepts sl K ty -> scalar_type t = Some ty -> writable t = true -> no_string_ahead ts ->
  goes (s :: st) (scalar_token t :: ts) K (simple_goto s :: s :: st) ts (filled sl K (reread t)).
Proof.
  intros Hs Hfit Hst Hsl Hacc Hty Hw Hno.
  assert (s <> YYFINAL) as Hf by (unfold expects_simple, expects_value, YYFINAL in *; lia).
  destruct (decide (ty = T_STRING)) as [->|Hns].
  - destruct t as [| | | |str| | |]; try done. cbn [writable] in Hw. apply andb_prop in Hw as [Hc Hl].
    apply Z.ltb_lt in Hl. eapply goes_trans.
    + eapply (goes_token fs fuel s st 15 21 (22 :: s :: st) ((TOK_STRING, SString str) :: ts) K); try done.
      * roomy.
      * destruct Hs as [[-> |[-> | ->]]|[-> | ->]]; tables.
      * destruct Hs as [[-> |[-> | ->]]|[-> | ->]]; vm_compute; reflexivity.
      * by apply string_starts.
    + intros K1 (b & -> & Hb). apply (goes_reduce fs fuel 22 (s :: st) 29); [done|roomy| | |].
      * cbn [tail]. unfold no_string_ahead in Hno. destruct (ahead ts) as [tk v]. cbn [fst] in Hno.
        repeat split; [done|]. eexists. split; [reflexivity|]. right. by destruct tk.
      * destruct Hs as [[-> |[-> | ->]]|[-> | ->]]; vm_compute; reflexivity.
      * cbn [reread]. by apply string_acts.
  - eapply (goes_token fs fuel s st (token_state t) (scalar_rule t) _ (scalar_token t :: ts) K);
      [done|roomy|..]; cbn [ahead].
    + destruct t as [[]|[]| | | | | |]; try done; try (by injection Hty as <-);
        destruct Hs as [[-> |[-> | ->]]|[-> | ->]]; tables.
    + destruct t as [[]|[]| | | | | |]; done.
    + destruct t as [[]|[]| | | | | |]; try done; by injection Hty as <-.
    + destruct t as [[]|[]| | | | | |]; try done; try (by injection Hty as <-);
        destruct Hs as [[-> |[-> | ->]]|[-> | ->]]; vm_compute; reflexivity.
    + by apply (scalar_acts _ _ _ ty).
Qed.

(** ** Elements *)

(** The vector at [x], begun with [sx] in [K1], has the elements [els] with the
    trees [ts]. *)
Record listing (x : loc) (sx : setting) (K1 : core) (els : list loc) (ts : list tree) (K : core) : Prop := {
  li_steady : steady K;
  li_parent : k_parent K = Some x;
  li_extends : extends x (k_cfg K1) (k_cfg K);
  li_value : exists v, heap (k_cfg K) !! x = Some (set_value v sx) /\ has_elements v els;
  li_elems : Forall2 (fun e t => (next (k_cfg K1) <= e)%positive /\ is_Some (heap (k_cfg K) !! e) /\
    shown (next (k_cfg K1)) (heap (k_cfg K)) e t) els ts
}.

(** Trees made of settings from [lo] on survive changes below. *)
Lemma shown_extends lo x e t c c' : (x < lo)%positive -> (lo <= e)%positive -> extends x c c' ->
  shown lo (heap c) e t -> shown lo (heap c') e t.
Proof.
  intros Hx He Hext (h0 & Hsub & Hdom & Hs). exists h0. split_and!; [|done|done].
  apply map_subseteq_spec. intros k s Hk. apply (ex_keep _ _ _ Hext); [by eapply lookup_weaken|].
  intros ->. destruct (Hdom x (ex_intro _ s Hk)); lia.
Qed.

Lemma listing_start sl K ty x sx K1 : opens_at sl K ty x sx K1 -> listing x sx K1 [] [] K1.
Proof.
  intros [Hst Hp _ Hx _ Hv _ _ _]. destruct Hst as [Hl Hd Hs]. split; [by split|done| | |constructor].
  - split; [done|by left|done|lia|done].
  - exists VZero. split; [|by left]. rewrite Hx. f_equal. destruct sx. simpl in *. by subst.
Qed.

Lemma listing_slot x sx K1 els ts K : is_vector (s_type sx) = true -> listing x sx K1 els ts K ->
  slot_ok (Elem x els) K.
Proof. intros Hv [_ Hp _ (v & Hx & Hels) _]. split; [done|]. by exists (set_value v sx). Qed.

Lemma listing_next x sx K1 els ts t K K' : (x < next (k_cfg K1))%positive -> listing x sx K1 els ts K ->
  filled (Elem x els) K t K' -> exists e, listing x sx K1 (els ++ [e]) (ts ++ [t]) K'.
Proof.
  intros Hlt [Hst Hp Hext (v & Hx & Hels) Hall] [Hp' Hst' Hext' Hf]. cbn [slot_loc] in Hext'.
  destruct (Hf _ Hx) as (lst & e & Hx' & Hok & Hl & He & Hlive & Hsh). exists e.
  pose proof (ex_next _ _ _ Hext) as Hn.
  split; [done|congruence|by eapply extends_trans| |].
  - exists (VList lst). split; [done|]. right. by exists lst.
  - apply Forall2_app.
    + eapply Forall2_impl; [exact Hall|]. intros e' t' (H1 & [se H2] & H3). split_and!; [done| |].
      * exists se. apply (ex_keep _ _ _ Hext'); [done|]. intros ->. lia.
      * by eapply shown_extends.
    + constructor; [|constructor]. split_and!; [lia|done|by eapply shown_lower].
Qed.

(** What a vector's elements show, the vector shows. *)
Definition from (x lo : positive) (h : gmap positive setting) : gmap positive setting :=
  filter (fun kv => kv.1 = x \/ (lo <= kv.1)%positive) h.

Lemma from_shown lo h e t x : (lo <= e)%positive -> shown lo h e t -> shows (from x lo h) e t.
Proof.
  intros He (h0 & Hsub & Hdom & Hs). eapply shows_mono; [|exact Hs]. apply map_subseteq_spec.
  intros k s Hk. apply map_lookup_filter_Some. split; [by eapply lookup_weaken|]. simpl.
  right. destruct (Hdom k (ex_intro _ s Hk)) as [-> |]; lia.
Qed.

Lemma from_dom lo h x k : is_Some (from x lo h !! k) -> k = x \/ (lo <= k)%positive.
Proof. intros [s [_ H]%map_lookup_filter_Some]. done. Qed.

Lemma listing_built x sx K1 els ts K : listing x sx K1 els ts K ->
  (s_type sx = T_LIST -> built x sx (TList ts) K1 K) /\ (s_type sx = T_ARRAY -> built x sx (TArray ts) K1 K).
Proof.
  intros [Hst Hp Hext (v & Hx & Hels) Hall].
  assert (exists n, mapM (tree_at n (with_heap (from x (next (k_cfg K1)) (heap (k_cfg K))) blank)) els = Some ts)
    as [n Hn].
  { apply shows_forall. eapply Forall2_impl; [exact Hall|]. intros e t (H1 & _ & H3). by apply from_shown. }
  assert (from x (next (k_cfg K1)) (heap (k_cfg K)) !! x = Some (set_value v sx)) as Hx0
    by (apply map_lookup_filter_Some; split; [done|by left]).
  assert (forall t, tree_at (S n) (with_heap (from x (next (k_cfg K1)) (heap (k_cfg K))) blank) x = Some t ->
    built x sx t K1 K) as Hb.
  { intros t Ht. split; [done|done|done|by eexists|]. exists (from x (next (k_cfg K1)) (heap (k_cfg K))).
    split_and!; [apply map_filter_subseteq|apply from_dom|by exists (S n)]. }
  split; intros Hty; apply Hb; cbn [tree_at heap with_heap]; rewrite Hx0; cbn [mbind option_bind s_type set_value s_value];
    rewrite Hty, (has_elements_of v els Hels); cbn [mbind option_bind]; by rewrite Hn.
Qed.

Lemma goes_now s st rule st' ts K : s <> YYFINAL -> room (s :: st) -> reduces_now s rule ->
  after rule (s :: st) = Some st' -> (forall v, reduce_action rule v = mret Normal) ->
  goes (s :: st) ts K st' ts (eq K).
Proof.
  intros Hf Hr (H1 & H2 & H3) Ha Hq. apply (goes_reduce fs fuel s st rule); [done|done| |done|by apply acts_nothing].
  split_and!; [done|done|]. eexists. split; [exact H3|]. by left.
Qed.

(** ** The loops over elements

    Lists and arrays have the same shape in the grammar, and their elements are
    parsed by the same moves in different states. *)

Record loop := {
  lp_start : Z; lp_first : Z; lp_more : Z; lp_sep : Z; lp_second : Z; lp_end : Z;
  lp_rfirst : Z; lp_rsecond : Z; lp_rend : Z; lp_rempty : Z;
  lp_close : lexeme
}.

Definition list_loop : loop := {|
  lp_start := 26; lp_first := 35; lp_more := 36; lp_sep := 42; lp_second := 46; lp_end := 37;
  lp_rfirst := 30; lp_rsecond := 31; lp_rend := 33; lp_rempty := 32; lp_close := (TOK_LIST_END, SNone) |}.

Definition array_loop : loop := {|
  lp_start := 25; lp_first := 32; lp_more := 33; lp_sep := 40; lp_second := 45; lp_end := 34;
  lp_rfirst := 34; lp_rsecond := 35; lp_rend := 37; lp_rempty := 36; lp_close := (TOK_ARRAY_END, SNone) |}.

Record loop_ok (L : loop) : Prop := {
  lo_first : reduces_now (lp_first L) (lp_rfirst L) /\
    forall st, after (lp_rfirst L) (lp_first L :: lp_start L :: st) = Some (lp_more L :: lp_start L :: st);
  lo_sep : shifts (lp_more L) comma (lp_sep L);
  lo_second : reduces_now (lp_second L) (lp_rsecond L) /\
    forall st, after (lp_rsecond L) (lp_second L :: lp_sep L :: lp_more L :: lp_start L :: st) =
      Some (lp_more L :: lp_start L :: st);
  lo_end : reduces (lp_more L) (lp_close L) (lp_rend L) /\
    forall st, after (lp_rend L) (lp_more L :: lp_start L :: st) = Some (lp_end L :: lp_start L :: st);
  lo_empty : reduces (lp_start L) (lp_close L) (lp_rempty L) /\
    forall st, after (lp_rempty L) (lp_start L :: st) = Some (lp_end L :: lp_start L :: st);
  lo_quiet : Forall (fun r => forall v, reduce_action r v = mret Normal)
    [lp_rfirst L; lp_rsecond L; lp_rend L; lp_rempty L];
  lo_nofinal : Forall (fun s => s <> YYFINAL) [lp_start L; lp_first L; lp_more L; lp_second L];
  lo_close : (lp_close L).1 <> TOK_STRING
}.

Ltac loop_tables :=
  match goal with
  | |- Forall _ (_ :: _) => constructor; [cbv beta; loop_tables|loop_tables]
  | |- Forall _ [] => constructor
  | |- forall v : semval, reduce_action _ _ = _ => reflexivity
  | |- _ /\ forall _, _ => split; [tables|vm_compute; reflexivity]
  | |- shifts _ _ _ => tables
  | |- _ <> _ => done
  end.

Lemma list_loop_ok : loop_ok list_loop.
Proof. split; cbn [list_loop lp_start lp_first lp_more lp_sep lp_second lp_end lp_rfirst lp_rsecond lp_rend lp_rempty lp_close]; loop_tables. Qed.

Lemma array_loop_ok : loop_ok array_loop.
Proof. split; cbn [array_loop lp_start lp_first lp_more lp_sep lp_second lp_end lp_rfirst lp_rsecond lp_rend lp_rempty lp_close]; loop_tables. Qed.

(** The tokens after an element. *)
Definition further (l : list tree) : list lexeme :=
  match l with [] => [] | _ => comma :: commas (List.map (tokens semi) l) end.

Lemma commas_cons t l : commas (List.map (tokens semi) (t :: l)) = tokens semi t ++ further l.
Proof. by destruct l. Qed.

Lemma no_string_further l tv ts : tv.1 <> TOK_STRING -> no_string_ahead (further l ++ tv :: ts).
Proof. by destruct l. Qed.

(** From the state [s], the tree is parsed as one more element. *)
Definition element_moves (x : loc) (sx : setting) (K1 : core) (P : tree -> Prop) (t : tree) (s s' : Z)
    (st : list Z) : Prop := P (reread t) /\
  forall els done_ K ts, Forall P done_ -> listing x sx K1 els done_ K -> no_string_ahead ts ->
    goes (s :: st) (tokens semi t ++ ts) K (s' :: s :: st) ts (filled (Elem x els) K (reread t)).

Lemma more_elements L x sx K1 P rest l : forall ts els done_ K, loop_ok L ->
  (x < next (k_cfg K1))%positive ->
  room (lp_second L :: lp_sep L :: lp_more L :: lp_start L :: rest) -> Forall P done_ ->
  Forall (fun t => element_moves x sx K1 P t (lp_sep L) (lp_second L) (lp_more L :: lp_start L :: rest)) l ->
  listing x sx K1 els done_ K ->
  goes (lp_more L :: lp_start L :: rest) (further l ++ lp_close L :: ts) K
    (lp_end L :: lp_start L :: rest) (lp_close L :: ts)
    (fun K' => exists els', listing x sx K1 els' (done_ ++ List.map reread l) K').
Proof.
  induction l as [|t l IH]; intros ts els done_ K HL Hx Hroom Hdone Hl Hlist;
    pose proof (lo_quiet L HL) as Hq; pose proof (lo_nofinal L HL) as Hnf;
    rewrite !Forall_cons in Hq, Hnf; destruct Hq as (Q1 & Q2 & Q3 & Q4 & _), Hnf as (N1 & N2 & N3 & N4 & _).
  - cbn [further app]. eapply goes_mono; [|apply (goes_reduce fs fuel _ _ (lp_rend L)); 
      [done|roomy|apply (lo_end L HL)|apply (lo_end L HL)|by apply acts_nothing]].
    intros K' <-. exists els. by rewrite app_nil_r.
  - apply Forall_cons in Hl as [[HPt Ht] Hl]. cbn [further app]. rewrite commas_cons, <- app_assoc.
    eapply goes_trans; [apply (goes_shift fs fuel _ _ (lp_sep L)); [done|roomy|apply (lo_sep L HL)]|]. intros K' <-. cbn [tail].
    eapply goes_trans; [eapply Ht; [done|done|by apply no_string_further, (lo_close L HL)]|]. intros K2 H2.
    destruct (listing_next x sx K1 els done_ (reread t) K K2 Hx Hlist H2) as [e He].
    eapply goes_trans; [apply (goes_now _ _ (lp_rsecond L));
      [done|done|apply (lo_second L HL)|apply (lo_second L HL)|done]|]. intros K3 <-.
    eapply goes_mono; [|eapply IH; [done|done|done| |done|exact He]].
    + intros K4 [els' H4]. exists els'. by rewrite <- app_assoc in H4.
    + apply Forall_app. split; [done|]. by constructor.
Qed.

Lemma elements_moves L x sx K1 P rest l ts : loop_ok L -> (x < next (k_cfg K1))%positive ->
  room (lp_second L :: lp_sep L :: lp_more L :: lp_start L :: rest) ->
  Forall (fun t => element_moves x sx K1 P t (lp_start L) (lp_first L) rest) l ->
  Forall (fun t => element_moves x sx K1 P t (lp_sep L) (lp_second L) (lp_more L :: lp_start L :: rest)) l ->
  listing x sx K1 [] [] K1 ->
  goes (lp_start L :: rest) (commas (List.map (tokens semi) l) ++ lp_close L :: ts) K1
    (lp_end L :: lp_start L :: rest) (lp_close L :: ts)
    (fun K' => exists els', listing x sx K1 els' (List.map reread l) K').
Proof.
  intros HL Hx Hroom Hl1 Hl2 Hlist. pose proof (lo_quiet L HL) as Hq. pose proof (lo_nofinal L HL) as Hnf.
  rewrite !Forall_cons in Hq, Hnf. destruct Hq as (Q1 & Q2 & Q3 & Q4 & _), Hnf as (N1 & N2 & N3 & N4 & _).
  destruct l as [|t l].
  - eapply goes_mono; [|apply (goes_reduce fs fuel _ _ (lp_rempty L));
      [done|roomy|apply (lo_empty L HL)|apply (lo_empty L HL)|by apply acts_nothing]].
    intros K' <-. by exists [].
  - apply Forall_cons in Hl1 as [[HPt Ht] _]. apply Forall_cons in Hl2 as [_ Hl2].
    rewrite commas_cons, <- app_assoc.
    eapply goes_trans; [eapply Ht; [constructor|done|by apply no_string_further, (lo_close L HL)]|].
    intros K2 H2. destruct (listing_next x sx K1 [] [] (reread t) K1 K2 Hx Hlist H2) as [e He].
    eapply goes_trans; [apply (goes_now _ _ (lp_rfirst L));
      [done|roomy|apply (lo_first L HL)|apply (lo_first L HL)|done]|].
    intros K3 <-. eapply (more_elements L x sx K1 P rest l ts [e] [reread t]); try done.
    by constructor.
Qed.
End Moves.
