(* ===== verification/ValueMoves.v ===== *)
(** * The parser builds the tree of its tokens: aggregates

    Arrays, lists and groups as brackets around what they hold, and the
    induction on trees: the tokens of a writable tree lead the parser past the
    value, with the tree stored where the value goes. *)

From Stdlib Require Import SpecFloat.
From S2P Require Import Prelude Double CString Printf Setting Config ConfigWf ConfigProps ConfigApi.
From S2P Require Import ScanCtx Scanner LexerProps Grammar ConfigRead ConfigWrite WriteTokens.
From S2P Require Import WriteString TreeWrite ParserSafe ParseRuns TreeParse TreeMoves.
Local Open Scope Z_scope.

Ltac value_states H := destruct H as [-> |[-> | ->]].

Section Values.
Context (fs : string -> option string) (fuel : nat) (semi : bool).

Abbreviation goes := (goes fs fuel).
Abbreviation tokens := (tokens semi).

(** ** Brackets *)

Record bracket := {
  br_type : ctype; br_open : token; br_close : token;
  br_shift : Z; br_inner : Z; br_end : Z; br_shut : Z; br_goto : Z;
  br_ropen : Z; br_rclose : Z; br_rvalue : Z
}.

Definition list_bracket : bracket := {|
  br_type := T_LIST; br_open := TOK_LIST_START; br_close := TOK_LIST_END;
  br_shift := 17; br_inner := 26; br_end := 37; br_shut := 43; br_goto := 20;
  br_ropen := 15; br_rclose := 16; br_rvalue := 19 |}.

Definition array_bracket : bracket := {|
  br_type := T_ARRAY; br_open := TOK_ARRAY_START; br_close := TOK_ARRAY_END;
  br_shift := 16; br_inner := 25; br_end := 34; br_shut := 41; br_goto := 19;
  br_ropen := 13; br_rclose := 14; br_rvalue := 18 |}.

Definition group_bracket : bracket := {|
  br_type := T_GROUP; br_open := TOK_GROUP_START; br_close := TOK_GROUP_END;
  br_shift := 18; br_inner := 27; br_end := 39; br_shut := 44; br_goto := 24;
  br_ropen := 38; br_rclose := 39; br_rvalue := 20 |}.

Record bracket_ok (b : bracket) : Prop := {
  bo_type : is_aggregate (br_type b) = true;
  bo_open : forall s, expects_value s -> shifts s (br_open b, SNone) (br_shift b);
  bo_inner : reduces_now (br_shift b) (br_ropen b) /\
    forall st, after (br_ropen b) (br_shift b :: st) = Some (br_inner b :: br_shift b :: st);
  bo_ropen : forall v, reduce_action (br_ropen b) v = open_aggregate (br_type b);
  bo_close : shifts (br_end b) (br_close b, SNone) (br_shut b);
  bo_shut : reduces_now (br_shut b) (br_rclose b) /\ forall s st, expects_value s ->
    after (br_rclose b) (br_shut b :: br_end b :: br_inner b :: br_shift b :: s :: st) =
    Some (br_goto b :: s :: st);
  bo_rclose : forall v, reduce_action (br_rclose b) v = close_aggregate;
  bo_value : reduces_now (br_goto b) (br_rvalue b) /\ forall s st, expects_value s ->
    after (br_rvalue b) (br_goto b :: s :: st) = Some (value_goto s :: s :: st);
  bo_rvalue : forall v, reduce_action (br_rvalue b) v = mret Normal;
  bo_nofinal : Forall (fun s => s <> YYFINAL) [br_shift b; br_end b; br_shut b; br_goto b]
}.

Ltac bracket_tables :=
  match goal with
  | |- Forall _ (_ :: _) => constructor; [cbv beta; bracket_tables|bracket_tables]
  | |- Forall _ [] => constructor
  | |- forall v : semval, reduce_action _ _ = _ => reflexivity
  | |- _ /\ _ => split; [tables|bracket_tables]
  | |- shifts _ _ _ => tables
  | H : expects_value _ |- _ => value_states H; [bracket_tables..]
  | |- after _ _ = _ => vm_compute; reflexivity
  | |- forall _, _ => intros; bracket_tables
  | |- _ => done
  end.

Ltac bracket_facts b :=
  split; cbn [b br_type br_open br_close br_shift br_inner br_end br_shut br_goto br_ropen br_rclose br_rvalue];
  bracket_tables.

Lemma list_bracket_ok : bracket_ok list_bracket.
Proof. bracket_facts list_bracket. Qed.

Lemma array_bracket_ok : bracket_ok array_bracket.
Proof. bracket_facts array_bracket. Qed.

Lemma group_bracket_ok : bracket_ok group_bracket.
Proof. bracket_facts group_bracket. Qed.

Lemma value_not_final s : expects_value s -> s <> YYFINAL.
Proof. unfold expects_value, YYFINAL. lia. Qed.

Lemma opens_acts b sl K : bracket_ok b -> steady K -> slot_ok sl K -> slot_list sl K ->
  acts_on (br_ropen b) SNone K (fun K1 => exists x sx, opens_at sl K (br_type b) x sx K1).
Proof.
  intros Hb Hst Hsl Hl p v EK _. rewrite (bo_ropen b Hb).
  destruct (open_runs sl K (br_type b) p Hst Hsl Hl (bo_type b Hb) EK) as (p' & x & sx & E & Ha & Ho).
  exists p'. split_and!; [done|done|]. by exists x, sx.
Qed.

Lemma closes_acts b sl K x sx t K1 K2 : bracket_ok b -> steady K -> slot_ok sl K ->
  opens_at sl K (br_type b) x sx K1 -> built x sx t K1 K2 -> acts_on (br_rclose b) SNone K2 (filled sl K t).
Proof.
  intros Hb Hst Hsl Ho Hbu p v EK _. rewrite (bo_rclose b Hb).
  by apply (close_runs sl K (br_type b) x sx t K1 K2 p).
Qed.

(** What is between the brackets builds the aggregate. *)
Lemma bracket_moves b s st ts sl K t inner : bracket_ok b -> expects_value s ->
  room (br_end b :: br_inner b :: br_shift b :: br_goto b :: s :: st) -> steady K -> slot_ok sl K -> slot_list sl K ->
  (forall x sx K1, opens_at sl K (br_type b) x sx K1 ->
    goes (br_inner b :: br_shift b :: s :: st) (inner ++ (br_close b, SNone) :: ts) K1
      (br_end b :: br_inner b :: br_shift b :: s :: st) ((br_close b, SNone) :: ts) (built x sx t K1)) ->
  goes (s :: st) ((br_open b, SNone) :: inner ++ (br_close b, SNone) :: ts) K
    (value_goto s :: s :: st) ts (filled sl K t).
Proof.
  intros Hb Hs Hroom Hst Hsl Hl Hinner. pose proof (value_not_final s Hs) as Hf.
  pose proof (bo_nofinal b Hb) as Hn. rewrite !Forall_cons in Hn. destruct Hn as (N1 & N2 & N3 & N4 & _).
  eapply goes_trans.
  { apply (goes_token fs fuel s st (br_shift b) (br_ropen b));
      [done|roomy|by apply (bo_open b Hb)|done|apply (bo_inner b Hb)|apply (bo_inner b Hb)|by apply opens_acts]. }
  intros K1 (x & sx & Hop). cbn [tail].
  eapply goes_trans; [apply (Hinner x sx K1 Hop)|]. intros K2 Hbu.
  eapply goes_trans.
  { apply (goes_token fs fuel (br_end b) _ (br_shut b) (br_rclose b) (br_goto b :: s :: st));
      [done|roomy|apply (bo_close b Hb)|done|apply (bo_shut b Hb)|by apply (bo_shut b Hb)|].
    by apply (closes_acts b sl K x sx t K1 K2). }
  intros K3 H3. cbn [tail].
  eapply goes_mono; [|apply (goes_now fs fuel _ _ (br_rvalue b));
    [done|roomy|apply (bo_value b Hb)|by apply (bo_value b Hb)|apply (bo_rvalue b Hb)]].
  by intros K4 <-.
Qed.

(** ** Values *)

(** What the parser does with the tokens of a tree, wherever a value may stand. *)
Definition value_moves (t : tree) : Prop := forall s st ts sl K,
  expects_value s -> fits st (height t) -> steady K -> slot_ok sl K -> slot_list sl K ->
  writable t = true -> no_string_ahead ts ->
  goes (s :: st) (tokens t ++ ts) K (value_goto s :: s :: st) ts (filled sl K (reread t)).

Lemma slot_list_accepts sl K ty : slot_list sl K -> slot_accepts sl K ty.
Proof. destruct sl as [x|v els]; [done|]. intros H sv Hv. left. by apply H. Qed.

Lemma scalar_value_moves t ty : scalar_type t = Some ty -> value_moves t.
Proof.
  intros Hty s st ts sl K Hs Hfit Hst Hsl Hl Hw Hno. rewrite (scalar_tokens semi t ty Hty). cbn [app].
  eapply goes_trans; [eapply (scalar_moves fs fuel s st t ty); try done|].
  - by left.
  - unfold fits in *. lia.
  - by apply slot_list_accepts.
  - intros K' H'. assert (simple_goto s = 23) as -> by (by value_states Hs).
    eapply goes_mono; [|apply (goes_now fs fuel 23 (s :: st) 17)]; [by intros K2 <-|done|roomy|tables| |done].
    value_states Hs; vm_compute; reflexivity.
Qed.

Lemma fits_elem st h hs : In h hs -> fits st (S (list_max hs)) -> Z.of_nat (length st) + 7 * Z.of_nat h + 15 < YYMAXDEPTH.
Proof.
  intros Hin Hf. assert (h <= list_max hs)%nat as Hle.
  { pose proof (proj1 (list_max_le hs (list_max hs)) (le_n _)) as H. rewrite List.Forall_forall in H. by apply H. }
  unfold fits in Hf. lia.
Qed.

Lemma list_moves l : Forall value_moves l -> value_moves (TList l).
Proof.
  intros IH s st ts sl K Hs Hfit Hst Hsl Hl Hw Hno.
  cbn [TreeWrite.tokens height writable reread] in *. rewrite <- app_comm_cons, <- app_assoc.
  apply (bracket_moves list_bracket s st ts sl K); try done; [exact list_bracket_ok|roomy|].
  intros x sx K1 Hop. pose proof (op_old _ _ _ _ _ _ Hop) as Hx.
  assert (forall s0 s0' st0, expects_value s0 -> s0' = value_goto s0 ->
    (length st0 <= 5 + length st)%nat ->
    Forall (fun t => element_moves fs fuel semi x sx K1 (fun _ => True) t s0 s0' st0) l) as Hel.
  { intros s0 s0' st0 Hs0 -> Hst0. apply List.Forall_forall. intros t Ht. split; [done|].
    intros els done_ K' ts' _ Hli Hno'. rewrite List.Forall_forall in IH. rewrite forallb_forall in Hw.
    assert (s_type sx = T_LIST) as Hty by apply (op_type _ _ _ _ _ _ Hop).
    apply (IH t Ht s0 st0 ts' (Elem x els) K'); try done.
    - pose proof (fits_elem st (height t) _ (in_map height l t Ht) Hfit). unfold fits. lia.
    - apply Hli.
    - eapply listing_slot; [|exact Hli]. by rewrite Hty.
    - intros sv Hsv. destruct (li_value _ _ _ _ _ _ Hli) as (v & Hv & _). simpl in Hsv.
      rewrite Hv in Hsv. injection Hsv as <-. exact Hty.
    - by apply Hw. }
  eapply goes_mono; [|apply (elements_moves fs fuel semi list_loop x sx K1 (fun _ => True)
    (br_shift list_bracket :: s :: st) l ts list_loop_ok Hx)].
  - intros K' [els' Hli]. by apply (listing_built x sx K1 els' _ K' Hli), (op_type _ _ _ _ _ _ Hop).
  - roomy.
  - apply Hel; [by right; left|done|simpl; lia].
  - apply Hel; [by right; right|done|simpl; lia].
  - by apply (listing_start sl K T_LIST).
Qed.

Lemma scalar_type_reread t : scalar_type (reread t) = scalar_type t.
Proof. by destruct t. Qed.

Lemma homogeneous_type l : homogeneous l = true ->
  exists ty, Forall (fun t => scalar_type t = Some ty) l.
Proof.
  destruct l as [|t l]; [by exists T_INT|]. cbn [homogeneous]. destruct (scalar_type t) as [ty|]; [|done].
  intros H. exists ty. apply List.Forall_forall. intros t' Ht'. rewrite forallb_forall in H.
  by apply (bool_decide_eq_true_1 _ (H t' Ht')).
Qed.

(** A location that shows a scalar has the scalar's type. *)
Lemma shown_type lo h e t ty se : scalar_type t = Some ty -> shown lo h e t -> h !! e = Some se -> s_type se = ty.
Proof.
  intros Hty (h0 & Hsub & _ & [n Hn]) Hse. destruct n as [|n]; [done|]. cbn [tree_at heap with_heap] in Hn.
  destruct (h0 !! e) as [s0|] eqn:E0; [|done]. cbn [mbind option_bind] in Hn.
  assert (s0 = se) as -> by (pose proof (lookup_weaken _ _ _ _ E0 Hsub); congruence).
  assert (forall A (f : A -> option tree) (o : option A), o ≫= f = Some t -> exists a, f a = Some t) as Hsome
    by (intros A f [a|]; [by exists a|done]).
  destruct (s_type se); try done;
    match type of Hn with _ <$> _ = _ => idtac | _ => apply Hsome in Hn as [els Hn] end;
    match type of Hn with _ <$> ?o = _ => destruct o; [|done] end; injection Hn as <-; cbn in Hty; congruence.
Qed.

Lemma listing_accepts x sx K1 els ts K ty : listing x sx K1 els ts K ->
  Forall (fun t => scalar_type t = Some ty) ts -> slot_accepts (Elem x els) K ty.
Proof.
  intros [_ _ _ _ Hall] Hts sv _. right. intros e rest ->.
  destruct ts as [|t ts]; [by inversion Hall|]. apply Forall2_cons in Hall as [(_ & [se Hse] & Hsh) _].
  apply Forall_cons in Hts as [Ht _]. exists se. split; [done|]. by eapply shown_type.
Qed.

Lemma array_moves l : value_moves (TArray l).
Proof.
  intros s st ts sl K Hs Hfit Hst Hsl Hl Hw Hno.
  cbn [TreeWrite.tokens height writable reread] in *. rewrite <- app_comm_cons, <- app_assoc.
  apply andb_prop in Hw as [[ty Hty]%homogeneous_type Hw].
  apply (bracket_moves array_bracket s st ts sl K); try done; [exact array_bracket_ok|roomy|].
  intros x sx K1 Hop. pose proof (op_old _ _ _ _ _ _ Hop) as Hx.
  assert (forall s0 s0' st0, s0 = 25 \/ s0 = 40 -> s0' = simple_goto s0 ->
    (length st0 <= 5 + length st)%nat ->
    Forall (fun t => element_moves fs fuel semi x sx K1 (fun t' => scalar_type t' = Some ty) t s0 s0' st0) l) as Hel.
  { intros s0 s0' st0 Hs0 -> Hst0. apply List.Forall_forall. intros t Ht.
    rewrite List.Forall_forall in Hty. rewrite forallb_forall in Hw.
    split; [rewrite scalar_type_reread; by apply Hty|]. intros els done_ K' ts' Hd Hli Hno'.
    rewrite (scalar_tokens semi t ty) by (by apply Hty). cbn [app].
    apply (scalar_moves fs fuel s0 st0 t ty ts' (Elem x els) K'); try done.
    - by right.
    - unfold fits in *. lia.
    - apply Hli.
    - eapply listing_slot; [|exact Hli]. by rewrite (op_type _ _ _ _ _ _ Hop).
    - by eapply listing_accepts.
    - by apply Hty.
    - by apply Hw. }
  eapply goes_mono; [|apply (elements_moves fs fuel semi array_loop x sx K1 (fun t' => scalar_type t' = Some ty)
    (br_shift array_bracket :: s :: st) l ts array_loop_ok Hx)].
  - intros K' [els' Hli]. by apply (listing_built x sx K1 els' _ K' Hli), (op_type _ _ _ _ _ _ Hop).
  - roomy.
  - apply Hel; [by left|done|simpl; lia].
  - apply Hel; [by right|done|simpl; lia].
  - by apply (listing_start sl K T_ARRAY).
Qed.
End Values.
