(* ===== verification/GroupMoves.v ===== *)
(** * The parser builds the tree of its tokens: groups and the whole text *)

From Stdlib Require Import SpecFloat.
From S2P Require Import Prelude Double CString Printf Setting Config ConfigWf ConfigProps ConfigApi.
From S2P Require Import ScanCtx Scanner LexerProps Tokens Grammar ConfigRead ConfigWrite WriteTokens.
From S2P Require Import WriteString TreeWrite ParserSafe ParseRuns TreeParse TreeMoves ValueMoves.
Local Open Scope Z_scope.

(** The group at [g], begun with [sg] in [K1], has the members [ms]. *)
Record grouping (g : loc) (sg : setting) (K1 : core) (els : list loc) (ms : list (string * tree))
    (K : core) : Prop := {
  gr_steady : steady K;
  gr_parent : k_parent K = Some g;
  gr_extends : extends g (k_cfg K1) (k_cfg K);
  gr_value : exists v, heap (k_cfg K) !! g = Some (set_value v sg) /\ has_elements v els;
  gr_members : Forall2 (fun e m => (next (k_cfg K1) <= e)%positive /\
    (exists se, heap (k_cfg K) !! e = Some se /\ s_name se = Some m.1) /\
    shown (next (k_cfg K1)) (heap (k_cfg K)) e m.2) els ms
}.

Lemma writable_valid n : writable_name n = true -> valid_name n.
Proof. intros [[H1 H2]%andb_prop _]%andb_prop. by split. Qed.

(** No member has the name yet. *)
Lemma find_fresh c els (ms : list (string * tree)) n lo :
  Forall2 (fun e m => (lo <= e)%positive /\ (exists se, heap c !! e = Some se /\ s_name se = Some m.1) /\
    shown lo (heap c) e m.2) els ms ->
  Forall (fun m => valid_name m.1 /\ m.1 <> n) ms -> valid_name n ->
  (forall e, e ∈ els -> is_Some (heap c !! e)) /\ find_named c els n = None.
Proof.
  intros H Hms Hn. induction H as [|e m els ms (_ & (se & He & Hse) & _) _ IH].
  { split; [|done]. intros e He. by apply not_elem_of_nil in He. }
  apply Forall_cons in Hms as [[Hm Hne] Hms]. destruct (IH Hms) as [IH1 IH2]. split.
  - intros e' [-> |He']%elem_of_cons; [by eexists|by apply IH1].
  - simpl. rewrite He, Hse, !valid_name_key by done. rewrite decide_False by congruence. done.
Qed.

Section Groups.
Context (fs : string -> option string) (fuel : nat) (semi : bool).

Abbreviation goes := (goes fs fuel).
Abbreviation tokens := (tokens semi).
Abbreviation member_tokens := (member_tokens semi).

(** ** A member *)

(** Rule 11 has added the setting [x] for a new member. *)
Record begun (g : loc) (els : list loc) (n : string) (K K' : core) : Prop := {
  be_steady : steady K';
  be_parent : k_parent K' = Some g;
  be_setting : k_setting K' = Some (next (k_cfg K));
  be_extends : extends g (k_cfg K) (k_cfg K');
  be_new : (next (k_cfg K) < next (k_cfg K'))%positive;
  be_name : exists s, heap (k_cfg K') !! next (k_cfg K) = Some s /\ s_type s = T_NONE /\ s_value s = VZero /\
    s_format s = 0 /\ s_parent s = Some g /\ s_name s = Some n;
  be_group : forall sg, heap (k_cfg K) !! g = Some sg -> exists lst,
    heap (k_cfg K') !! g = Some (set_value (VList lst) sg) /\ list_ok lst /\
    elements lst = els ++ [next (k_cfg K)]
}.

Lemma add_member_run g sg els n c : live c -> heap c !! g = Some sg -> s_type sg = T_GROUP ->
  has_elements (s_value sg) els -> valid_name n -> (forall e, e ∈ els -> is_Some (heap c !! e)) ->
  find_named c els n = None ->
  exists lst c1, config_setting_add (Some g) (Some n) (Z_of_ctype T_NONE) c = (Ret (Some (next c)), c1) /\
    list_ok lst /\ elements lst = els ++ [next c] /\
    heap c1 = <[g := set_value (VList lst) sg]> (<[next c := created g (Some n) T_NONE]> (heap c)) /\
    next c1 = Pos.succ (next c) /\ same_fields c c1.
Proof.
  intros Hl Hg Hty Hels [Hv Hc] Hlive Hf.
  destruct (create_run g sg els (Some n) T_NONE c Hl Hg) as (lst & c1 & E & H); [by rewrite Hty|done|].
  exists lst, c1. split; [|done]. unfold config_setting_add. change (ctype_of_Z (Z_of_ctype T_NONE)) with (Some T_NONE). cbv beta iota.
  rewrite (bind_ret _ _ _ _ _ (deref_live g sg c Hg)), Hty. change (is_vector T_GROUP) with false. cbv beta zeta iota.
  rewrite Hv. cbn [negb].
  assert (config_setting_get_member g (Some n) c = (Ret None, c)) as Em; [|by rewrite (bind_ret _ _ _ _ _ Em)].
  unfold config_setting_get_member. rewrite (bind_ret _ _ _ _ _ (deref_live g sg c Hg)).
  rewrite decide_True by done. destruct (list_of_elements sg c els Hels) as (o & Eo & Ho).
  rewrite (bind_ret _ _ _ _ _ Eo). destruct o as [l|]; [|done]. destruct Ho as [_ <-]. cbn [config_list_search].
  destruct (list_search_named c (elements l) 0 n Hlive) as (r & Er & Hr & _). rewrite (bind_ret _ _ _ _ _ Er), Hr.
  by rewrite Hf.
Qed.

Lemma name_acts g sg K1 els ms n K : grouping g sg K1 els ms K -> s_type sg = T_GROUP ->
  Forall (fun m => valid_name m.1 /\ m.1 <> n) ms -> valid_name n ->
  acts_on 11 (SString n) K (begun g els n K).
Proof.
  intros [[Hl Hdf Hst] Hp Hext (v & Hg & Hels) Hms] Hty Hne Hn p v' EK Hca. cbn [reduce_action]. unfold add_setting.
  assert (sval_of v' p = (Ret n, p)) as E by (destruct v'; simpl in Hca; try done; injection Hca as ->; done).
  rewrite (bind_ret _ _ _ _ _ E). erewrite bind_ret; [|reflexivity]. subst K.
  cbn [core_of k_cfg k_parent k_string] in *. rewrite Hp.
  destruct (find_fresh _ _ _ _ _ Hms Hne Hn) as [Hlive Hf].
  destruct (add_member_run g (set_value v sg) els n (cfg p) Hl Hg Hty Hels Hn Hlive Hf)
    as (lst & c1 & Ea & Hok & He & Eh & En & Hsf).
  erewrite bind_ret; [|unfold on_config; rewrite Ea; reflexivity]. erewrite bind_ret; [|reflexivity].
  destruct (create_extends g _ lst (Some n) T_NONE (cfg p) c1 Hl Hg Eh En Hsf) as (Hext1 & Hl1 & Hx1 & Hg1).
  set (x := next (cfg p)) in *.
  match goal with |- context [(_ ≫= _) ?q] => set (p2 := q) end.
  destruct (capture_run x (created g (Some n) T_NONE) p2 Hx1) as (line & file & Ec).
  cbv beta iota. rewrite (bind_ret _ _ _ _ _ Ec). set (sx := set_pos line file (created g (Some n) T_NONE)).
  eexists. split; [reflexivity|]. split; [by split|].
  pose proof (extends_store x c1 (created g (Some n) T_NONE) sx Hl1 Hx1) as Hext2.
  set (c2 := with_heap (<[x := sx]> (heap c1)) c1) in *.
  assert (x <> g) as Hxg by (intros Exg; pose proof (live_next _ Hl) as Hn'; fold x in Hn'; congruence).
  split; cbn [core_of k_cfg k_parent]; try done.
  - split; [exact (ex_live _ _ _ Hext2)|change (default_format c1 = 0); by rewrite (sf_format _ _ Hsf)|done].
  - exact (extends_deeper g x _ c1 c2 Hext1 Hext2 (live_next _ Hl)).
  - change (x < next c1)%positive. rewrite En. lia.
  - exists sx. split; [|done]. change (heap c2 !! x = Some sx). subst c2. cbn. by rewrite lookup_insert_eq.
  - intros sg' Hsg'. assert (sg' = set_value v sg) as -> by congruence. exists lst.
    change (heap (cfg _)) with (heap c2). subst c2. cbn [heap with_heap]. by rewrite lookup_insert_ne.
Qed.

(** A member with its value, in its group. *)
Lemma grouping_next g sg K1 els ms n t K K2 K3 : (g < next (k_cfg K1))%positive -> s_type sg = T_GROUP ->
  grouping g sg K1 els ms K ->
  begun g els n K K2 -> filled (Member (next (k_cfg K))) K2 t K3 ->
  grouping g sg K1 (els ++ [next (k_cfg K)]) (ms ++ [(n, t)]) K3.
Proof.
  intros Hgk Hty [Hst Hp Hext (v & Hg & Hels) Hms] [Hst2 Hp2 Hs2 Hext2 Hnew (s & Hs & _ & _ & _ & _ & Hnm) Hgr]
    [Hp3 Hst3 Hext3 Hf3].
  cbn [slot_loc] in *. set (x := next (k_cfg K)) in *.
  destruct (Hgr _ Hg) as (lst & Hg2 & Hok & He). destruct (Hf3 s Hs) as (s' & Hs' & Hnm' & _ & Hsh).
  pose proof (ex_next _ _ _ Hext) as N1. pose proof (ex_next _ _ _ Hext2) as N2. fold x in N1, N2.
  assert (extends g (k_cfg K) (k_cfg K3)) as Hext23.
  { eapply extends_deeper; [exact Hext2|exact Hext3|]. apply live_next, Hst. }
  assert (g <> x) as Hgx by lia.
  split; [done|congruence|by eapply extends_trans| |].
  - exists (VList lst). split; [by apply (ex_keep _ _ _ Hext3)|]. right. by exists lst.
  - apply Forall2_app.
    + eapply Forall2_impl; [exact Hms|]. intros e m (H1 & (se & H2 & H3) & H4).
      assert (e <> g) by lia. split_and!; [done| |by eapply shown_extends].
      exists se. split; [by apply (ex_keep _ _ _ Hext23)|done].
    + constructor; [|constructor]. split_and!; [done|exists s'; split; [done|cbn [fst]; congruence]|].
      eapply shown_lower; [|exact Hsh]. lia.
Qed.

(** ** Lists of members

    In a group the loop starts in one state, in the whole text in another. *)
Record members := { mb_start : Z; mb_list : Z }.

Definition group_members : members := {| mb_start := 27; mb_list := 38 |}.
Definition root_members : members := {| mb_start := 0; mb_list := 3 |}.

Definition member_state (M : members) (s : Z) : Prop := s = mb_start M \/ s = mb_list M.

(** The tokens that may follow a member. *)
Definition follows (ts : list lexeme) : Prop :=
  (ahead ts).1 = TOK_NAME \/ (ahead ts).1 = TOK_GROUP_END \/ (ahead ts).1 = TOK_EOF.

Record members_ok (M : members) : Prop := {
  mo_name : forall s v, member_state M s -> shifts s (TOK_NAME, SString v) 1;
  mo_nofinal : Forall (fun s => s <> YYFINAL) [mb_start M; mb_list M];
  mo_begin : forall s st, member_state M s -> after 11 (1 :: s :: st) = Some (5 :: 1 :: s :: st);
  mo_first : forall st, after 12 (30 :: 21 :: 8 :: 5 :: 1 :: mb_start M :: st) = Some (4 :: mb_start M :: st) /\
    after 4 (4 :: mb_start M :: st) = Some (mb_list M :: mb_start M :: st);
  mo_next : forall st, after 12 (30 :: 21 :: 8 :: 5 :: 1 :: mb_list M :: st) = Some (7 :: mb_list M :: st) /\
    after 5 (7 :: mb_list M :: mb_start M :: st) = Some (mb_list M :: mb_start M :: st)
}.

Lemma group_members_ok : members_ok group_members.
Proof.
  split; cbn [mb_start mb_list group_members].
  - intros s v [-> | ->]; tables.
  - repeat constructor; done.
  - intros s st [-> | ->]; vm_compute; reflexivity.
  - intros st. split; vm_compute; reflexivity.
  - intros st. split; vm_compute; reflexivity.
Qed.

Lemma root_members_ok : members_ok root_members.
Proof.
  split; cbn [mb_start mb_list root_members].
  - intros s v [-> | ->]; tables.
  - repeat constructor; done.
  - intros s st [-> | ->]; vm_compute; reflexivity.
  - intros st. split; vm_compute; reflexivity.
  - intros st. split; vm_compute; reflexivity.
Qed.

(** The separator, when the writer puts one. *)
Lemma terminator_moves st ts K : room (30 :: 21 :: st) -> follows ts ->
  goes (21 :: st) (terminator semi ++ ts) K (30 :: 21 :: st) ts (eq K).
Proof.
  intros Hroom Hf. unfold terminator. destruct semi; cbn [app].
  - eapply goes_trans; [apply (goes_shift fs fuel 21 st 29); [done|roomy|tables]|]. intros K' <-. cbn [tail].
    apply (goes_now fs fuel 29 (21 :: st) 9); [done|roomy|tables|vm_compute; reflexivity|done].
  - apply (goes_reduce fs fuel 21 st 8); [done|roomy| |vm_compute; reflexivity|by apply acts_nothing].
    unfold follows in Hf. destruct (ahead ts) as [tk v]. cbn [fst] in Hf.
    destruct Hf as [-> |[-> | ->]]; tables.
Qed.

Lemma follows_no_string ts : follows ts -> no_string_ahead (terminator semi ++ ts).
Proof. unfold follows, no_string_ahead, terminator. destruct semi; [done|]. by intros [H|[H|H]]; cbn [app]; rewrite H. Qed.

(** One member, up to its reduction. *)
Lemma member_moves M s st ts g sg K1 els ms n t K : members_ok M -> member_state M s ->
  (g < next (k_cfg K1))%positive -> s_type sg = T_GROUP ->
  value_moves fs fuel semi t -> fits (5 :: 1 :: s :: st) (height t) -> writable t = true ->
  Forall (fun m => valid_name m.1 /\ m.1 <> n) ms -> valid_name n -> follows ts ->
  grouping g sg K1 els ms K ->
  goes (s :: st) (member_tokens (n, t) ++ ts) K (30 :: 21 :: 8 :: 5 :: 1 :: s :: st) ts
    (fun K' => exists e, grouping g sg K1 (els ++ [e]) (ms ++ [(n, reread t)]) K').
Proof.
  intros HM Hs Hgk Hty Ht Hfit Hw Hms Hn Hfol Hgr. pose proof (mo_nofinal M HM) as Hnf.
  rewrite !Forall_cons in Hnf. destruct Hnf as (N1 & N2 & _).
  assert (s <> YYFINAL) as Hsf by (by destruct Hs as [-> | ->]).
  unfold TreeWrite.member_tokens. cbn [fst snd app]. rewrite <- app_assoc.
  eapply goes_trans.
  { apply (goes_token fs fuel s st 1 11 (5 :: 1 :: s :: st));
      [done|roomy|by apply (mo_name M HM)|done|tables|by apply (mo_begin M HM)|by eapply name_acts]. }
  intros K2 H2. cbn [tail]. pose proof H2 as [Hst2 Hp2 Hs2 Hext2 Hnew2 Hname2 Hg2].
  eapply goes_trans; [apply (goes_shift fs fuel 5 _ 8); [done|roomy|tables]|]. intros K' <-. cbn [tail].
  eapply goes_trans.
  { apply (Ht 8 (5 :: 1 :: s :: st) _ (Member (next (k_cfg K))) K2); try done.
    - by left.
    - split; [done|]. destruct Hname2 as (sx & ? & ? & ? & ? & ? & _).
      destruct (gr_value _ _ _ _ _ _ Hgr) as (v & Hv & _). destruct (Hg2 _ Hv) as (lst & Hg3 & _).
      exists sx, g, (set_value (VList lst) (set_value v sg)). by rewrite Hp2.
    - by apply follows_no_string. }
  intros K3 H3. change (value_goto 8) with 21.
  eapply goes_mono; [|apply terminator_moves; [roomy|done]].
  intros K4 <-. eexists. by eapply (grouping_next g sg K1 els ms n (reread t) K K2 K3).
Qed.

Definition reread_member (m : string * tree) : string * tree := (m.1, reread m.2).

(** What the values of the members need. *)
Definition members_fit (M : members) (st : list Z) (ms : list (string * tree)) : Prop :=
  Forall (fun m => value_moves fs fuel semi m.2 /\
    fits (5 :: 1 :: mb_list M :: mb_start M :: st) (height m.2) /\ valid_name m.1 /\ writable m.2 = true) ms.

Lemma follows_members ms ts : follows ts -> follows (List.concat (List.map member_tokens ms) ++ ts).
Proof. destruct ms as [|m ms]; [done|]. intros _. by left. Qed.

Lemma NoDup_fresh (done_ ms : list (string * tree)) n t :
  List.NoDup (List.map fst (done_ ++ (n, t) :: ms)) -> Forall (fun m => valid_name m.1) done_ ->
  Forall (fun m => valid_name m.1 /\ m.1 <> n) done_.
Proof.
  rewrite map_app. cbn [List.map fst]. intros Hnd%List.NoDup_remove_2 Hv.
  apply List.Forall_forall. intros m Hm. rewrite List.Forall_forall in Hv. split; [by apply Hv|].
  intros <-. apply Hnd. apply in_or_app. left. by apply in_map.
Qed.

Lemma more_members M st ms : forall ts g sg K1 els done_ K, members_ok M ->
  (g < next (k_cfg K1))%positive -> s_type sg = T_GROUP -> members_fit M st ms ->
  List.NoDup (List.map fst (done_ ++ ms)) -> Forall (fun m => valid_name m.1) done_ -> follows ts ->
  room (7 :: mb_list M :: mb_start M :: st) -> grouping g sg K1 els done_ K ->
  goes (mb_list M :: mb_start M :: st) (List.concat (List.map member_tokens ms) ++ ts) K
    (mb_list M :: mb_start M :: st) ts
    (fun K' => exists els', grouping g sg K1 els' (done_ ++ List.map reread_member ms) K').
Proof.
  induction ms as [|[n t] ms IH]; intros ts g sg K1 els done_ K HM Hgk Hty Hfit Hnd Hv Hfol Hroom Hgr.
  { apply goes_refl. exists els. by rewrite app_nil_r. }
  apply Forall_cons in Hfit as [(Ht & Hf & Hn & Hw) Hfit]. cbn [fst snd] in *.
  cbn [List.map List.concat]. rewrite <- app_assoc.
  eapply goes_trans.
  { apply (member_moves M (mb_list M) (mb_start M :: st) _ g sg K1 els done_); try done;
      [by right|by eapply NoDup_fresh|by apply follows_members]. }
  intros K2 [e Hgr2].
  eapply goes_trans.
  { apply (goes_now fs fuel 30 _ 12 (7 :: mb_list M :: mb_start M :: st));
      [done|roomy|tables|apply (mo_next M HM)|done]. }
  intros K3 <-.
  eapply goes_trans.
  { apply (goes_now fs fuel 7 _ 5); [done|roomy|tables|apply (mo_next M HM)|done]. }
  intros K4 <-.
  eapply goes_mono; [|eapply (IH ts g sg K1 _ (done_ ++ [(n, reread t)])); try done].
  - intros K5 [els' H5]. exists els'. by rewrite <- app_assoc in H5.
  - rewrite <- app_assoc, map_app in *. by rewrite map_app.
  - apply Forall_app. split; [done|]. by constructor.
Qed.

(** The members of a group or of the whole text; there may be none. *)
Lemma members_moves M st m ms ts g sg K1 : members_ok M -> (g < next (k_cfg K1))%positive ->
  s_type sg = T_GROUP -> members_fit M st (m :: ms) -> List.NoDup (List.map fst (m :: ms)) -> follows ts ->
  room (7 :: mb_list M :: mb_start M :: st) -> grouping g sg K1 [] [] K1 ->
  goes (mb_start M :: st) (List.concat (List.map member_tokens (m :: ms)) ++ ts) K1
    (mb_list M :: mb_start M :: st) ts
    (fun K' => exists els', grouping g sg K1 els' (List.map reread_member (m :: ms)) K').
Proof.
  intros HM Hgk Hty Hfit Hnd Hfol Hroom Hgr. destruct m as [n t].
  apply Forall_cons in Hfit as [(Ht & Hf & Hn & Hw) Hfit]. cbn [fst snd] in *.
  cbn [List.map List.concat]. rewrite <- app_assoc.
  eapply goes_trans.
  { apply (member_moves M (mb_start M) st _ g sg K1 [] []); try done;
      [by left|unfold fits in *; cbn [length] in *; lia|by apply follows_members]. }
  intros K2 [e Hgr2].
  eapply goes_trans.
  { apply (goes_now fs fuel 30 _ 12 (4 :: mb_start M :: st)); [done|roomy|tables|apply (mo_first M HM)|done]. }
  intros K3 <-.
  eapply goes_trans.
  { apply (goes_now fs fuel 4 _ 4); [done|roomy|tables|apply (mo_first M HM)|done]. }
  intros K4 <-.
  eapply (more_members M st ms ts g sg K1 _ [(n, reread t)]); try done. by constructor.
Qed.

(** ** Groups *)

Lemma grouping_start sl K x sx K1 : opens_at sl K T_GROUP x sx K1 -> grouping x sx K1 [] [] K1.
Proof.
  intros H. destruct (listing_start sl K T_GROUP x sx K1 H) as [H1 H2 H3 H4 _]. by split.
Qed.

Lemma grouping_built x sx K1 els ms K : grouping x sx K1 els ms K -> s_type sx = T_GROUP ->
  built x sx (TGroup ms) K1 K.
Proof.
  intros [Hst Hp Hext (v & Hx & Hels) Hall] Hty. set (h0 := from x (next (k_cfg K1)) (heap (k_cfg K))).
  assert (Forall2 (shows h0) els (List.map snd ms)) as Hsh.
  { apply Forall2_fmap_r. eapply Forall2_impl; [exact Hall|]. intros e m (H1 & _ & H3). by apply from_shown. }
  apply shows_forall in Hsh as [n Hn].
  assert (h0 !! x = Some (set_value v sx)) as Hx0 by (apply map_lookup_filter_Some; split; [done|by left]).
  assert (mapM (fun e => m ← h0 !! e; name ← s_name m; t ← tree_at n (with_heap h0 Config.blank) e; Some (name, t)) els
    = Some ms) as Hm.
  { apply mapM_Some. apply mapM_Some in Hn. clear -Hall Hn.
    induction Hall as [|e m els ms (H1 & (se & Hse & Hnm) & _) _ IH]; [constructor|].
    apply Forall2_cons in Hn as [He Hn]. constructor; [|by apply IH].
    assert (h0 !! e = Some se) as -> by (apply map_lookup_filter_Some; split; [done|by right]).
    cbn [mbind option_bind]. rewrite Hnm. cbn [mbind option_bind]. rewrite He. by destruct m. }
  split; [done|done|done|by eexists|]. exists h0.
  split_and!; [apply map_filter_subseteq|apply from_dom|]. exists (S n).
  cbn [tree_at heap with_heap]. rewrite Hx0. cbn [mbind option_bind s_type set_value s_value].
  rewrite Hty, (has_elements_of v els Hels). cbn [mbind option_bind]. by rewrite Hm.
Qed.

Lemma distinct_NoDup l : distinct l = true -> List.NoDup l.
Proof.
  induction l as [|x l IH]; [constructor|]. cbn [distinct]. intros [Hx Hl]%andb_prop.
  constructor; [|by apply IH]. intros Hin. apply negb_true_iff in Hx.
  assert (existsb (String.eqb x) l = true) as H; [|congruence].
  apply existsb_exists. exists x. split; [done|]. apply String.eqb_refl.
Qed.

Lemma members_writable M st ms : Forall (fun m => value_moves fs fuel semi m.2) ms ->
  writable (TGroup ms) = true -> Z.of_nat (length st) + 7 * Z.of_nat (height (TGroup ms)) + 5 < YYMAXDEPTH ->
  members_fit M st ms /\ List.NoDup (List.map fst ms).
Proof.
  intros IH Hw Hfit. cbn [writable] in Hw. apply andb_prop in Hw as [Hd Hw].
  split; [|by apply distinct_NoDup].
  apply List.Forall_forall. intros m Hm. rewrite List.Forall_forall in IH. rewrite forallb_forall in Hw.
  specialize (Hw m Hm). apply andb_prop in Hw as [Hn Hw]. split_and!; [by apply IH| |by apply writable_valid|done].
  assert (height m.2 <= list_max (List.map (fun m => height m.2) ms))%nat as Hle.
  { pose proof (proj1 (list_max_le (List.map (fun m => height m.2) ms) _) (le_n _)) as H.
    rewrite List.Forall_forall in H. apply H. by apply (in_map (fun m => height m.2)). }
  cbn [height] in Hfit. unfold fits. cbn [length]. lia.
Qed.

Lemma group_moves ms : Forall (fun m => value_moves fs fuel semi m.2) ms -> value_moves fs fuel semi (TGroup ms).
Proof.
  intros IH s st ts sl K Hs Hfit Hst Hsl Hl Hw Hno.
  destruct (members_writable group_members (18 :: s :: st) ms IH Hw) as [Hmf Hnd].
  { unfold fits in Hfit. cbn [length]. lia. }
  cbn [TreeWrite.tokens reread]. rewrite <- app_comm_cons, <- app_assoc.
  apply (bracket_moves fs fuel group_bracket s st ts sl K); try done; [exact group_bracket_ok|roomy|].
  intros x sx K1 Hop. pose proof (op_old _ _ _ _ _ _ Hop) as Hx. pose proof (op_type _ _ _ _ _ _ Hop) as Hty.
  pose proof (grouping_start sl K x sx K1 Hop) as Hgr. cbn [br_inner br_shift br_end br_close group_bracket] in *.
  destruct ms as [|m ms].
  - cbn [List.map List.concat app].
    eapply goes_mono; [|apply (goes_reduce fs fuel 27 _ 6); [done|roomy|tables|vm_compute; reflexivity|by apply acts_nothing]].
    intros K' <-. by apply (grouping_built x sx K1 []).
  - eapply goes_trans.
    { apply (members_moves group_members (18 :: s :: st) m ms _ x sx K1); try done;
        [exact group_members_ok|by right; left|roomy]. }
    intros K2 [els' H2]. cbn [mb_start mb_list group_members].
    eapply goes_mono; [|apply (goes_reduce fs fuel 38 _ 7); [done|roomy|tables|vm_compute; reflexivity|by apply acts_nothing]].
    intros K' <-. by apply (grouping_built x sx K1 els').
Qed.

Lemma all_values t : value_moves fs fuel semi t.
Proof.
  induction t as [| | | | |ts _|ts IH|ms IH] using tree_induction.
  - by eapply scalar_value_moves.
  - by eapply scalar_value_moves.
  - by eapply scalar_value_moves.
  - by eapply scalar_value_moves.
  - by eapply scalar_value_moves.
  - apply array_moves.
  - by apply list_moves.
  - by apply group_moves.
Qed.

(** ** The whole text *)

(** The parser accepts the tokens of a writable tree, and the root holds it. *)
Lemma text_moves ms g sg p txt : writable (TGroup ms) = true ->
  7 * Z.of_nat (height (TGroup ms)) + 6 < YYMAXDEPTH ->
  ready_at p txt -> reads fs txt (List.concat (List.map member_tokens ms)) -> (S (String.length txt) <= fuel)%nat ->
  (g < next (cfg p))%positive -> s_type sg = T_GROUP -> grouping g sg (core_of p) [] [] (core_of p) ->
  exists n p' els, iter n (yyparse_round fs fuel) yyparse_start p = (Ret 0, p') /\
    grouping g sg (core_of p) els (List.map reread_member ms) (core_of p').
Proof.
  intros Hw Hfit Hr Hrd Hfuel Hg Hty Hgr.
  destruct (members_writable root_members [] ms) as [Hmf Hnd]; [|done|cbn [length]; lia|].
  { apply List.Forall_forall. intros m _. apply all_values. }
  assert (goes [0] (List.concat (List.map member_tokens ms) ++ []) (core_of p) [2; 0] []
    (fun K' => exists els, grouping g sg (core_of p) els (List.map reread_member ms) K')) as Hgo.
  { destruct ms as [|m ms].
    - eapply goes_mono; [|apply (goes_reduce fs fuel 0 [] 2); [done|roomy|tables|vm_compute; reflexivity|by apply acts_nothing]].
      intros K' <-. by exists [].
    - eapply goes_trans.
      { apply (members_moves root_members [] m ms [] g sg (core_of p)); try done;
          [exact root_members_ok|by right; right]. }
      intros K2 [els' H2]. cbn [mb_start mb_list root_members].
      eapply goes_mono; [|apply (goes_reduce fs fuel 3 [0] 3); [done|roomy|tables|vm_compute; reflexivity|by apply acts_nothing]].
      intros K' <-. by exists els'. }
  rewrite app_nil_r in Hgo.
  assert (goes [0] (List.concat (List.map member_tokens ms)) (core_of p) [6; 2; 0] []
    (fun K' => exists els, grouping g sg (core_of p) els (List.map reread_member ms) K')) as Hgo2.
  { eapply goes_trans; [exact Hgo|]. intros K2 H2.
    eapply goes_mono; [|apply (goes_shift fs fuel 2 [0] 6 [] K2); [done|roomy|tables]]. by intros K' <-. }
  destruct (Hgo2 yyparse_start p) as (y' & p' & K' & Hre & Hp' & els & Hels).
  { split; [done| |done]. exists txt. by split_and!. }
  destruct (reach_iter fs fuel _ _ _ _ 1 (Ret 0, p') Hre) as [n Hn].
  { simpl. unfold yyparse_round, yyparse_round_with. rewrite (room_check _ y' (pg_stack _ _ _ _ _ _ _ Hp')) by roomy.
    destruct (parsing_top _ _ _ _ _ _ _ _ Hp') as (v & rest & Ey & _).
    assert (yystate y' = YYFINAL) as -> by (unfold yystate; by rewrite Ey). done. }
  exists n, p', els. split; [done|]. by rewrite (pg_core _ _ _ _ _ _ _ Hp').
Qed.
End Groups.
