(* ===== verification/RoundTrip.v ===== *)
(** * What is written reads back

    config_write_file followed by config_read_file gives the same tree. *)

From Stdlib Require Import SpecFloat.
From S2P Require Import Prelude Double CString Printf Setting Config ConfigWf ConfigProps ConfigTree ConfigApi.
From S2P Require Import ScanCtx Scanner ScannerSpec LexerProps Tokens Grammar ParserProps ConfigRead ConfigWrite.
From S2P Require Import WriteTokens WriteString TreeWrite ParserSafe ParseRuns TreeParse TreeMoves ValueMoves GroupMoves.
Local Open Scope Z_scope.

(** ** Trees of well-formed configurations *)

(** The fuel that config_tree uses is enough. *)
Lemma tree_at_fuel c : wf c -> forall m n l t, tree_at n c l = Some t ->
  (Pos.to_nat (next c) < m + Pos.to_nat l)%nat -> tree_at m c l = Some t.
Proof.
  intros Hwf. induction m as [|m IH]; intros n l t Hn Hm.
  { destruct n as [|n]; [done|]. cbn [tree_at] in Hn. destruct (heap c !! l) as [s|] eqn:Hs; [|done].
    pose proof (wf_next c Hwf l s Hs). lia. }
  destruct n as [|n]; [done|]. cbn [tree_at] in *. destruct (heap c !! l) as [s|] eqn:Hs; [|done].
  cbn [mbind option_bind] in *.
  assert (forall els, elements_of (s_value s) = Some els -> forall e, e ∈ els ->
    (Pos.to_nat (next c) < m + Pos.to_nat e)%nat) as Hel.
  { intros els Hels e He. assert (e ∈ children s) as Hc.
    { unfold elements_of in Hels. unfold children. destruct (s_value s) as [| | | | |lst]; try done;
        injection Hels as <-; [by apply not_elem_of_nil in He|done]. }
    destruct (wf_child c Hwf l s e Hs Hc) as (se & Hse & Hp & _).
    destruct (wf_parent c Hwf e se l Hse Hp) as [Hlt _]. lia. }
  assert (forall A (f : A -> option tree) (o : option A), o ≫= f = Some t -> exists a, o = Some a /\ f a = Some t)
    as Hsome by (intros A f [a|]; [by exists a|done]).
  assert (forall els ts, elements_of (s_value s) = Some els -> mapM (tree_at n c) els = Some ts ->
    mapM (tree_at m c) els = Some ts) as Hts.
  { intros els ts Hels Hm'. apply mapM_Some. apply mapM_Some in Hm'. specialize (Hel els Hels). clear -Hm' Hel IH.
    induction Hm' as [|e t' els ts He _ IHf]; [constructor|]. constructor.
    - eapply IH; [exact He|]. apply Hel. by constructor.
    - apply IHf. intros e' He'. apply Hel. by constructor. }
  destruct (s_type s); try done; apply Hsome in Hn as (els & Hels & Hn); rewrite Hels; cbn [mbind option_bind].
  - destruct (mapM _ els) as [ms|] eqn:Em; [|done]. injection Hn as <-.
    assert (mapM (fun e => m0 ← heap c !! e; name ← s_name m0; t ← tree_at m c e; Some (name, t)) els = Some ms)
      as ->; [|done].
    apply mapM_Some. apply mapM_Some in Em. specialize (Hel els Hels). clear -Em Hel IH.
    induction Em as [|e mt els ms He _ IHf]; [constructor|]. constructor.
    + destruct (heap c !! e) as [se|]; [|done]. cbn [mbind option_bind] in *.
      destruct (s_name se) as [nm|]; [|done]. cbn [mbind option_bind] in *.
      destruct (tree_at n c e) as [te|] eqn:Et; [|done]. cbn [mbind option_bind] in *.
      rewrite (IH n e te Et); [done|]. apply Hel. by constructor.
    + apply IHf. intros e' He'. apply Hel. by constructor.
  - destruct (mapM _ els) as [ts|] eqn:Em; [|done]. by rewrite (Hts els ts Hels Em).
  - destruct (mapM _ els) as [ts|] eqn:Em; [|done]. by rewrite (Hts els ts Hels Em).
Qed.

Lemma reread_group ms : reread (TGroup ms) = TGroup (List.map reread_member ms).
Proof. done. Qed.

(** The text of a writable tree, whatever wrote it. *)
Lemma read_tree fs size nq fuel text filename c semi ms : files_within fs size nq -> sound c ->
  input_weight size nq text + 1 < 2 ^ 63 -> (parse_fuel (input_weight size nq text) <= fuel)%nat ->
  writable (TGroup ms) = true -> 7 * Z.of_nat (height (TGroup ms)) + 6 < YYMAXDEPTH ->
  TreeWrite.reads fs text (List.concat (List.map (member_tokens semi) ms)) ->
  exists c', __config_read fs fuel text filename c = (Ret true, c') /\ sound c' /\
    config_tree c' = Some (reread (TGroup ms)).
Proof.
  intros Hfs Hs Hb Hfuel Hw Hh Hrd.
  destruct (read_start fs fuel text filename c Hs) as (c4 & r & s & E4 & Hs4 & Hr & Hheap & Hty & Hv & Hdf).
  destruct (scanctx_init_empty filename) as (H1 & H2 & H3 & H4).
  set (p := parse_start text (scanctx_init filename) c4).
  pose proof (start_running size nq filename text _ c4 Hs4 H1 H2 H3 H4) as Hrun. fold p in Hrun.
  destruct (libconfig_yyparse_ok fs size nq Hfs filename _ fuel _ Hb Hfuel Hrun) as (z & p' & E & (Hsp & _)).
  destruct Hs4 as [Hwf4 _].
  assert (heap c4 !! r = Some s) as Hrs by (rewrite Hheap; apply lookup_singleton_eq).
  assert (live c4) as Hlive by (intros l [sl Hl]; by eapply (wf_next c4 Hwf4)).
  destruct (text_moves fs (S (String.length text)) semi ms r s p text Hw Hh) as (n & p2 & els & En & Hgr); try done.
  - by eapply (wf_next c4 Hwf4).
  - split; [by split|done| | |constructor].
    + split; [done|by left|done|simpl; lia|done].
    + exists VZero. split; [|by left]. change (heap c4 !! r = Some (set_value VZero s)). rewrite Hrs.
      f_equal. destruct s. simpl in *. by subst.
  - set (F := Nat.max n (Nat.max fuel (S (String.length text)))).
    assert (libconfig_yyparse fs F p = (Ret 0, p2)) as EF.
    { unfold libconfig_yyparse. eapply (refines_iter _ (yyparse_round fs F) n F); [|lia|exact En|done].
      intros y. apply yyparse_round_refines. lia. }
    assert (libconfig_yyparse fs F p = (Ret z, p')) as EF'
      by (eapply (libconfig_yyparse_refines fs fuel F); [lia|exact E|done]).
    assert (z = 0 /\ p' = p2) as [-> ->] by (split; congruence). clear EF EF' F.
    exists (with_filenames (scanctx_cleanup (scan p2)) (cfg p2)). split; [|split].
    + rewrite E4. unfold parse_text. erewrite bind_ret; [|reflexivity]. fold p. rewrite E. reflexivity.
    + eapply sound_same_tree; [|exact Hsp]. by split.
    + destruct (grouping_built r s _ els _ _ Hgr Hty) as [Hst2 _ Hext _ (h0 & Hsub & _ & k & Hk)].
      unfold config_tree. cbn [root with_filenames]. 
      assert (root (cfg p2) = Some r) as -> by (rewrite <- Hr; apply (sf_root _ _ (ex_fields _ _ _ Hext))).
      cbn [mbind option_bind]. destruct Hsp as [Hwf2 Hmv2].
      eapply tree_at_mono; [| | |eapply (tree_at_fuel (cfg p2) Hwf2 _ k)]; [done|done|..].
      * unfold destroy_fuel. cbn [heap next with_filenames]. done.
      * rewrite reread_group. apply (tree_at_mono k k (with_heap h0 Config.blank) (cfg p2)); [exact Hsub|exact (sy_format _ Hst2)|done|exact Hk].
      * unfold destroy_fuel. lia.
Qed.

(** Trees without floats come back as they are. *)
Fixpoint float_free (t : tree) : bool :=
  match t with
  | TFloat _ => false
  | TArray ts | TList ts => forallb float_free ts
  | TGroup ms => forallb (fun m => float_free m.2) ms
  | _ => true
  end.

Lemma map_id_in {A} (f : A -> A) l : Forall (fun x => f x = x) l -> List.map f l = l.
Proof. induction 1 as [|x l Hx _ IH]; [done|]. simpl. by rewrite Hx, IH. Qed.

Lemma Forall_forallb {A} (f : A -> bool) (P : A -> Prop) l : Forall (fun x => f x = true -> P x) l ->
  forallb f l = true -> Forall P l.
Proof. induction 1 as [|x l Hx _ IH]; [done|]. simpl. intros [H1 H2]%andb_prop. constructor; auto. Qed.

Lemma reread_float_free t : float_free t = true -> reread t = t.
Proof.
  induction t as [| | | | |ts IH|ts IH|ms IH] using tree_induction; try done; cbn [float_free reread]; intros Hf; f_equal.
  - by apply map_id_in, (Forall_forallb float_free).
  - by apply map_id_in, (Forall_forallb float_free).
  - apply map_id_in. eapply List.Forall_impl; [|exact (Forall_forallb _ _ ms IH Hf)]. intros [n t] Ht. simpl in *. by rewrite Ht.
Qed.

(** ** Writing always ends *)

Section Total.
Context (c : config) (Hwf : wf c) (Hmoved : moved c = false).

(** [m] returns, and only appends to the stream. *)
Definition appends (m : WM unit) : Prop := exists w, TreeWrite.writes c m tt w.

Lemma appends_bind m1 m2 : appends m1 -> appends m2 -> appends (m1;; m2).
Proof. intros [w1 H1] [w2 H2]. exists (w1 +:+ w2). by apply (writes_bind c m1 (fun _ => m2) tt tt). Qed.

Lemma appends_pure {A} (m : WM A) a f : TreeWrite.writes c m a "" -> appends (f a) -> appends (m ≫= f).
Proof. intros H [w Hw]. exists w. by eapply writes_pure. Qed.

Lemma appends_fputs s : appends (fputs s).
Proof. eexists. apply writes_fputs. Qed.

Lemma appends_ret : appends (mret tt).
Proof. eexists. apply writes_ret. Qed.

Lemma appends_if (b : bool) m : appends m -> appends (if b then m else mret tt).
Proof. destruct b; [done|]. intros _. apply appends_ret. Qed.

Lemma appends_white m : writes_white c m -> appends m.
Proof. intros (w & H & _). by exists w. Qed.

Definition enough (m : nat) (l : loc) : Prop := (Pos.to_nat (next c) < m + Pos.to_nat l)%nat.

(** The writer of values one level down, on settings that its fuel is enough for. *)
Section Level.
Context (write_value : value -> ctype -> Z -> Z -> WM unit) (m : nat).
Hypothesis Hvalue : forall l s f d, heap c !! l = Some s -> enough m l ->
  appends (write_value (s_value s) (s_type s) f d).

Lemma setting_appends l s d : heap c !! l = Some s -> enough m l -> appends (write_setting_with write_value l d).
Proof using Hmoved Hvalue.
  intros Hs Hm. unfold write_setting_with. eapply appends_pure; [apply writes_gets|].
  apply appends_bind; [apply appends_if, appends_white, white_indent|].
  eapply appends_pure; [by apply writes_deref|].
  apply appends_bind; [destruct (s_name s); [apply appends_bind; apply appends_fputs|apply appends_ret]|].
  eapply appends_pure; [by apply writes_format|].
  apply appends_bind; [by apply (Hvalue l)|]. apply appends_if, appends_bind; [apply appends_if|]; apply appends_fputs.
Qed.

Lemma elems_append els d : (forall e, e ∈ els -> is_Some (heap c !! e) /\ enough m e) ->
  appends (write_elems write_value els d).
Proof using Hmoved Hvalue.
  induction els as [|e els IH]; intros H; [apply appends_ret|]. cbn [write_elems].
  destruct (H e ltac:(constructor)) as [[s Hs] Hm].
  eapply appends_pure; [by apply writes_deref|]. eapply appends_pure; [by apply writes_format|].
  apply appends_bind; [by apply (Hvalue e)|].
  apply appends_bind; [destruct els; [apply appends_ret|apply appends_fputs]|].
  apply appends_bind; [apply appends_fputs|]. apply IH. intros e' He'. apply H. by constructor.
Qed.

Lemma members_append els d : (forall e, e ∈ els -> is_Some (heap c !! e) /\ enough m e) ->
  appends (write_members write_value els d).
Proof using Hmoved Hvalue.
  induction els as [|e els IH]; intros H; [apply appends_ret|]. cbn [write_members].
  destruct (H e ltac:(constructor)) as [[s Hs] Hm].
  apply appends_bind; [by eapply setting_appends|]. apply IH. intros e' He'. apply H. by constructor.
Qed.
End Level.

(** The elements of a setting that is not deeper than the fuel. *)
Lemma children_enough m l s e : heap c !! l = Some s -> enough (S m) l -> e ∈ children s ->
  is_Some (heap c !! e) /\ enough m e.
Proof using Hwf.
  intros Hs Hm He. destruct (wf_child c Hwf l s e Hs He) as (se & Hse & Hp & _).
  destruct (wf_parent c Hwf e se l Hse Hp) as [Hlt _]. split; [by eexists|]. unfold enough in *. lia.
Qed.

Lemma list_elements s : is_aggregate (s_type s) = true -> value_ok (s_type s) (s_value s) ->
  exists o, as_list (s_value s) = Some o /\ match o with Some lst => elements lst | None => [] end = children s.
Proof.
  unfold children. intros Ha Hv. destruct (s_value s) as [| | | | |lst]; try by destruct (s_type s).
  - by exists None.
  - by exists (Some lst).
Qed.

Lemma value_appends m l s f d : heap c !! l = Some s -> enough m l ->
  appends (config_write_value m (s_value s) (s_type s) f d).
Proof using Hmoved Hwf.
  revert l s f d. induction m as [|m IH]; intros l s f d Hs Hm.
  { pose proof (wf_next c Hwf l s Hs). unfold enough in Hm. lia. }
  pose proof (wf_value c Hwf l s Hs) as Hv. cbn [config_write_value].
  pose proof (fun e => children_enough m l s e Hs Hm) as Hch.
  pose proof (list_elements s) as Hls.
  destruct (s_type s) eqn:Hty.
  - apply appends_fputs.
  - destruct (Hls eq_refl Hv) as (o & Eo & Ho). eapply appends_pure; [by apply writes_lift|].
    eapply appends_pure; [apply writes_gets|]. rewrite Ho.
    apply appends_bind.
    { apply appends_if, appends_bind; [|apply appends_fputs]. apply appends_if, appends_bind; [apply appends_fputs|].
      apply appends_if, appends_white, white_indent. }
    apply appends_bind; [by apply (members_append _ m)|].
    apply appends_bind; [apply appends_if, appends_white, white_indent|apply appends_if, appends_fputs].
  - destruct (s_value s); try done; (eapply appends_pure; [by apply writes_lift|]);
      unfold write_int; destruct (f =? FORMAT_HEX); apply appends_fputs.
  - destruct (s_value s); try done; (eapply appends_pure; [by apply writes_lift|]);
      unfold write_int64; destruct (f =? FORMAT_HEX); apply appends_fputs.
  - destruct (s_value s); try done; (eapply appends_pure; [by apply writes_lift|]); apply appends_fputs.
  - destruct (s_value s) as [| | | |o|]; try done; (eapply appends_pure; [by apply writes_lift|]);
      (apply appends_bind; [apply appends_fputs|]); (apply appends_bind; [|apply appends_fputs]);
      [apply appends_ret|]. destruct o; [eexists; apply write_chars_text|apply appends_ret].
  - destruct (s_value s); try done; (eapply appends_pure; [by apply writes_lift|]); apply appends_fputs.
  - destruct (Hls eq_refl Hv) as (o & Eo & Ho). eapply appends_pure; [by apply writes_lift|]. cbv beta zeta.
    rewrite Ho. apply appends_bind; [apply appends_fputs|]. apply appends_bind; [by apply (elems_append _ m)|].
    apply appends_fputs.
  - destruct (Hls eq_refl Hv) as (o & Eo & Ho). eapply appends_pure; [by apply writes_lift|]. cbv beta zeta.
    rewrite Ho. apply appends_bind; [apply appends_fputs|]. apply appends_bind; [by apply (elems_append _ m)|].
    apply appends_fputs.
Qed.

Lemma config_write_appends : appends config_write.
Proof using Hmoved Hwf.
  unfold config_write. destruct (wf_root c Hwf) as (r & s & Hr & Hs & _).
  eapply appends_pure; [apply writes_gets|]. eapply appends_pure; [apply writes_on_cfg; by rewrite Hr|].
  eapply setting_appends; [|done|].
  - intros l s' f d Hs' Hm. by eapply value_appends.
  - unfold enough, destroy_fuel. lia.
Qed.
End Total.

(** ** The properties *)

(** The root of a configuration is a group. *)
Lemma config_tree_group c t : wf c -> config_tree c = Some t -> exists ms, t = TGroup ms.
Proof.
  intros Hwf. unfold config_tree. destruct (wf_root c Hwf) as (r & s & -> & Hs & _ & Hty & _).
  cbn [mbind option_bind]. destruct (destroy_fuel c) as [|n]; [done|]. cbn [tree_at]. rewrite Hs.
  cbn [mbind option_bind]. rewrite Hty. destruct (elements_of (s_value s)) as [els|]; [|done].
  cbn [mbind option_bind]. destruct (mapM _ els) as [ms|]; [|done]. intros [= <-]. by exists ms.
Qed.

(** The files as the writer left them. *)
Definition files_of (w : wstate) (name : string) : option string := w_files w !! name.

Lemma write_file_run c name out fl w : TreeWrite.writes c config_write tt w ->
  config_write_file (fun _ => true) name {| w_cfg := c; w_stream := out; w_files := fl |} =
  (Ret true, {| w_cfg := with_error (error_text c) (error_file c) (error_line c) ERR_NONE c;
                w_stream := w; w_files := <[name := w]> fl |}).
Proof.
  intros H. unfold config_write_file. cbn [negb]. erewrite bind_ret; [|reflexivity].
  unfold with_stream. cbn [w_cfg w_files]. by rewrite (bind_ret _ _ _ _ _ (H "" fl)).
Qed.


(** A configuration with a string to escape, an array, a list of groups and
    numbers in both formats. *)
Definition written_calls : list call :=
  [ Add 1 (Some "server") 1; Add 2 (Some "host") 5;
    Set_string 3 (Some ("a" +:+ String (chr 34) ("\n" +:+ String (chr 10) (String (chr 1) ""))));
    Add 2 (Some "ports") 7; Set_int_elem 4 (-1) 123; Set_int_elem 4 (-1) (-1); Set_format 5 FORMAT_HEX;
    Add 1 (Some "limits") 8; Add 7 None 1; Add 8 (Some "poll") 3; Set_int64 9 (2 ^ 40); Set_format 9 FORMAT_HEX;
    Add 7 None 6; Set_bool 10 1; Add 8 (Some "empty") 8 ].

Definition sample_config : config := snd (run_calls written_calls initialised).

Lemma sample_config_sound : sound sample_config.
Proof.
  destruct (calls_sound written_calls initialised initialised_sound) as (a & c' & E & H).
  - apply calls_okb_ok. vm_compute. reflexivity.
  - unfold sample_config. by rewrite E.
Qed.

Definition sample_tree : tree := Eval vm_compute in default (TBool false) (config_tree sample_config).


(** C31: Writing always ends: for every well-formed configuration, of any shape
    and with any options, config_write_file returns without undefined behaviour
    and leaves the settings alone.  A file that can be opened gets the text, and
    only that file changes; one that cannot be is an I/O error, reported in the
    configuration. *)
Theorem config_write_file_ends c can_write name out fl : sound c ->
  exists ok w', config_write_file can_write name {| w_cfg := c; w_stream := out; w_files := fl |} = (Ret ok, w') /\
    heap (w_cfg w') = heap c /\ root (w_cfg w') = root c /\
    if can_write name then ok = true /\ error_type (w_cfg w') = ERR_NONE /\
      exists text, written c = Some text /\ w_files w' = <[name := text]> fl
    else ok = false /\ error_type (w_cfg w') = ERR_FILE_IO /\ error_text (w_cfg w') = Some io_error /\
      w_files w' = fl /\ w_stream w' = out.
Proof.
  intros [Hwf Hm]. destruct (config_write_appends c Hwf Hm) as [w Hw].
  destruct (can_write name) eqn:Ec.
  - eexists true, _. split.
    + rewrite <- (write_file_run c name out fl w Hw). unfold config_write_file. by rewrite Ec.
    + split_and!; try done. exists w. split; [|done]. unfold written. by rewrite (Hw "" ∅).
  - eexists false, _. unfold config_write_file. rewrite Ec. by split.
Qed.

Lemma config_write_file_ends_witness :
  exists ok w', config_write_file (fun _ => false) "out.cfg"
      {| w_cfg := sample_config; w_stream := ""; w_files := ∅ |} = (Ret ok, w') /\
    heap (w_cfg w') = heap sample_config /\ root (w_cfg w') = root sample_config /\
    (ok = false /\ error_type (w_cfg w') = ERR_FILE_IO /\ error_text (w_cfg w') = Some io_error /\
     w_files w' = ∅ /\ w_stream w' = "").
Proof. exact (config_write_file_ends sample_config (fun _ => false) "out.cfg" "" ∅ sample_config_sound). Defined.
