(* ===== verification/FloatText.v ===== *)
(** * The text of a float fits its buffer

    __config_write_value prints a double into the 64 characters of fbuf and may
    append to it.  The decimal exponent that the conversion finds is the right
    one, so there are exactly fifteen significant digits, and the text is short
    enough that snprintf never truncates it and the appended digits fit. *)

From Stdlib Require Import SpecFloat.
From S2P Require Import Prelude Double CString Printf Setting Config ScanCtx ConfigWrite.
Local Open Scope Z_scope.

(** ** The decimal exponent *)

(** A table of powers of ten, and the powers that the check below uses. *)
Fixpoint tens (n : nat) (acc : Z) : list Z :=
  match n with O => [] | S m => acc :: tens m (10 * acc) end.

Definition table_pow (table : list Z) (b x : Z) : Z :=
  if b =? 10 then match table !! Z.to_nat x with Some z => z | None => 10 ^ x end else b ^ x.

Lemma tens_lookup n acc i z : tens n acc !! i = Some z -> z = acc * 10 ^ Z.of_nat i.
Proof.
  revert acc i. induction n as [|n IH]; intros acc [|i] H; cbn [tens] in H; try done.
  - injection H as <-. rewrite Z.pow_0_r. lia.
  - apply IH in H as ->. rewrite Nat2Z.inj_succ, Z.pow_succ_r by lia. lia.
Qed.

Lemma table_pow_eq n b x : 0 <= x -> table_pow (tens n 1) b x = b ^ x.
Proof.
  intros Hx. unfold table_pow. destruct (Z.eqb_spec b 10) as [->|]; [|done].
  destruct (tens n 1 !! Z.to_nat x) as [z|] eqn:E; [|done]. apply tens_lookup in E as ->.
  rewrite Z2Nat.id by done. lia.
Qed.

(** Between 2^L and 2^(L+1), six steps up from the low exponent are enough. *)
Definition exponent_bracket (power : Z -> Z -> Z) (L : Z) : bool :=
  let x0 := L * 1233 / 4096 - 2 in
  (power 10 (Z.max x0 0) * power 2 (Z.max (- L) 0) <=?
    power 2 (Z.max L 0) * power 10 (Z.max (- x0) 0)) &&
  (power 2 (Z.max (L + 1) 0) * power 10 (Z.max (- (x0 + 7)) 0) <?
    power 10 (Z.max (x0 + 7) 0) * power 2 (Z.max (- (L + 1)) 0)).

Definition min_log : Z := -1074.
Definition max_log : Z := 1023.

Lemma exponent_brackets : (let table := tens 330 1 in
  forallb (exponent_bracket (table_pow table)) (seqZ min_log (max_log - min_log + 1))) = true.
Proof. vm_compute. reflexivity. Qed.

Lemma pow10_le_max x num den : pow10_le x num den = (10 ^ Z.max x 0 * den <=? num * 10 ^ Z.max (- x) 0).
Proof.
  unfold pow10_le. destruct (Z.leb_spec 0 x).
  - rewrite (Z.max_l x 0), (Z.max_r (- x) 0) by lia. f_equal. change (10 ^ 0) with 1. lia.
  - rewrite (Z.max_r x 0), (Z.max_l (- x) 0) by lia. f_equal. change (10 ^ 0) with 1. lia.
Qed.

(** Comparing with a power of ten is monotone in the number compared. *)
Lemma pow10_le_mono x n1 d1 n2 d2 : 0 < d1 -> 0 < d2 -> n1 * d2 <= n2 * d1 ->
  pow10_le x n1 d1 = true -> pow10_le x n2 d2 = true.
Proof.
  intros H1 H2 Hle. unfold pow10_le. destruct (Z.leb_spec 0 x); rewrite !Z.leb_le; intros Hx.
  - pose proof (Z.pow_pos_nonneg 10 x ltac:(lia) ltac:(lia)). nia.
  - pose proof (Z.pow_pos_nonneg 10 (- x) ltac:(lia) ltac:(lia)). nia.
Qed.

Lemma log_bracket num den L : 0 < num -> 0 < den -> min_log <= L <= max_log ->
  2 ^ Z.max L 0 * den <= num * 2 ^ Z.max (- L) 0 ->
  num * 2 ^ Z.max (- (L + 1)) 0 < 2 ^ Z.max (L + 1) 0 * den ->
  let x0 := L * 1233 / 4096 - 2 in
  pow10_le x0 num den = true /\ pow10_le (x0 + 7) num den = false.
Proof.
  intros Hn Hd HL Hlo Hhi x0. pose proof exponent_brackets as Hb. cbv zeta in Hb. rewrite forallb_forall in Hb.
  specialize (Hb L). rewrite <- list_elem_of_In, elem_of_seqZ in Hb. specialize (Hb ltac:(lia)).
  unfold exponent_bracket in Hb. rewrite !table_pow_eq in Hb by lia. fold x0 in Hb. rewrite <- pow10_le_max in Hb.
  apply andb_prop in Hb as [H1 H2]. rewrite Z.ltb_antisym, <- pow10_le_max in H2.
  pose proof (Z.pow_pos_nonneg 2 (Z.max (- L) 0) ltac:(lia) ltac:(lia)).
  pose proof (Z.pow_pos_nonneg 2 (Z.max (- (L + 1)) 0) ltac:(lia) ltac:(lia)).
  split; [eapply pow10_le_mono; [| |exact Hlo|exact H1]; lia|].
  destruct (pow10_le (x0 + 7) num den) eqn:E; [|done].
  apply (pow10_le_mono _ num den (2 ^ Z.max (L + 1) 0) (2 ^ Z.max (- (L + 1)) 0)) in E; [by rewrite E in H2|lia..].
Qed.

Lemma climb_spec fuel x num den : pow10_le x num den = true ->
  pow10_le (x + Z.of_nat fuel + 1) num den = false ->
  let y := climb fuel x num den in
  x <= y <= x + Z.of_nat fuel /\ pow10_le y num den = true /\ pow10_le (y + 1) num den = false.
Proof.
  revert x. induction fuel as [|n IH]; intros x Hx Hf; cbn [climb].
  - rewrite Z.add_0_r in Hf. split_and!; [lia|lia|done|done].
  - destruct (pow10_le (x + 1) num den) eqn:E.
    + destruct (IH (x + 1) E) as (H1 & H2 & H3); [by replace (x + 1 + Z.of_nat n + 1) with (x + Z.of_nat (S n) + 1) by lia|].
      split_and!; [lia|lia|done|done].
    + split_and!; [lia|lia|done|done].
Qed.

(** ** Fifteen digits *)

Lemma pow10_split a b : 0 <= a -> 0 <= b -> 10 ^ (a + b) = 10 ^ a * 10 ^ b.
Proof. intros. by apply Z.pow_add_r. Qed.

(** Rounding keeps a number between two integers. *)
Lemma rounded_between a b n d : 0 < d -> a * d <= n -> n < b * d ->
  let q := n / d in
  a <= (match 2 * (n mod d) ?= d with Lt => q | Gt => q + 1 | Eq => if Z.even q then q else q + 1 end) <= b.
Proof.
  intros Hd Ha Hb q. assert (a <= q < b) as Hq.
  { unfold q. split; [apply Z.div_le_lower_bound; lia|apply Z.div_lt_upper_bound; lia]. }
  destruct (_ ?= _); [destruct (Z.even q)|..]; lia.
Qed.

Lemma scaled_round_range x num den : 0 < num -> 0 < den ->
  pow10_le x num den = true -> pow10_le (x + 1) num den = false ->
  10 ^ (DBL_DIG - 1) <= scaled_round num den (DBL_DIG - 1 - x) <= 10 ^ DBL_DIG.
Proof.
  intros Hn Hd Hlo Hhi. unfold scaled_round, pow10_le, DBL_DIG in *.
  replace (15 - 1 - x) with (14 - x) in * by lia. change (15 - 1) with 14.
  assert (forall k, 0 <= k -> 0 < 10 ^ k) as Hpow by (intros; apply Z.pow_pos_nonneg; lia).
  destruct (Z.leb_spec 0 (14 - x)) as [Hk|Hk].
  - apply rounded_between; [done|..].
    + destruct (Z.leb_spec 0 x) as [Hx|Hx]; apply Z.leb_le in Hlo.
      * replace 14 with (x + (14 - x)) at 1 by lia. rewrite pow10_split by lia. specialize (Hpow (14 - x)). nia.
      * replace (14 - x) with (14 + - x) by lia. rewrite pow10_split by lia. specialize (Hpow 14). nia.
    + destruct (Z.leb_spec 0 (x + 1)) as [Hx|Hx]; apply Z.leb_gt in Hhi.
      * replace 15 with ((x + 1) + (14 - x)) by lia. rewrite pow10_split by lia. specialize (Hpow (14 - x)). nia.
      * replace (14 - x) with (15 + - (x + 1)) by lia. rewrite pow10_split by lia. specialize (Hpow 15). nia.
  - rewrite (proj2 (Z.leb_le 0 x)) in Hlo by lia. rewrite (proj2 (Z.leb_le 0 (x + 1))) in Hhi by lia.
    apply Z.leb_le in Hlo. apply Z.leb_gt in Hhi. replace (- (14 - x)) with (x - 14) by lia.
    apply rounded_between; [specialize (Hpow (x - 14)); nia|..].
    + replace x with (14 + (x - 14)) in Hlo by lia. rewrite pow10_split in Hlo by lia. nia.
    + replace (x + 1) with (15 + (x - 14)) in Hhi by lia. rewrite pow10_split in Hhi by lia. nia.
Qed.

(** The numbers that doubles are quotients of. *)
Definition in_range (num den : Z) : Prop := 0 < num /\ 0 < den /\
  exists L, L = Z.log2 num - Z.log2 den /\ min_log <= L <= max_log /\
    2 ^ Z.max L 0 * den <= num * 2 ^ Z.max (- L) 0 /\
    num * 2 ^ Z.max (- (L + 1)) 0 < 2 ^ Z.max (L + 1) 0 * den.

Lemma significand_range num den : in_range num den ->
  10 ^ (DBL_DIG - 1) <= (significand num den).1 < 10 ^ DBL_DIG /\ -400 <= (significand num den).2 <= 400.
Proof.
  intros (Hn & Hd & L & EL & HL & Hlo & Hhi).
  destruct (log_bracket num den L Hn Hd HL Hlo Hhi) as [H1 H2].
  unfold significand, decimal_exponent, low_exponent. rewrite <- EL.
  set (x0 := L * 1233 / 4096 - 2) in *.
  assert (-400 + 1 <= x0 <= 400 - 8) as Hx0.
  { unfold x0, min_log, max_log in *. split.
    - assert (-340 <= L * 1233 / 4096) by (apply Z.div_le_lower_bound; lia). lia.
    - assert (L * 1233 / 4096 < 340) by (apply Z.div_lt_upper_bound; lia). lia. }
  destruct (climb_spec 6 x0 num den H1) as (Hy & Hy1 & Hy2).
  { by replace (x0 + Z.of_nat 6 + 1) with (x0 + 7) by lia. }
  set (y := climb 6 x0 num den) in *.
  pose proof (scaled_round_range y num den Hn Hd Hy1 Hy2) as Hs.
  destruct (Z.eqb_spec (scaled_round num den (DBL_DIG - 1 - y)) (10 ^ DBL_DIG)); cbn [fst snd].
  - unfold DBL_DIG. lia.
  - lia.
Qed.

(** ** Doubles *)

Lemma digits2_log2 p : Zpos (digits2_pos p) = Z.log2 (Zpos p) + 1.
Proof.
  induction p as [p IH|p IH|]; cbn [digits2_pos]; rewrite ?Pos2Z.inj_succ, ?IH; [| |done].
  - rewrite (Pos2Z.inj_xI p), Z.log2_succ_double by done. lia.
  - rewrite (Pos2Z.inj_xO p), Z.log2_double by done. lia.
Qed.

(** The value is num/den with 2^L <= num/den < 2^(L+1). *)
Lemma log2_range m k L : 0 < m -> 0 <= k -> Z.log2 m = L + k -> 2 ^ Z.max L 0 * 2 ^ k <= m * 2 ^ Z.max (- L) 0 /\
  m * 2 ^ Z.max (- (L + 1)) 0 < 2 ^ Z.max (L + 1) 0 * 2 ^ k.
Proof.
  intros Hm Hk EL. pose proof (Z.log2_spec m Hm) as [H1 H2]. rewrite EL in H1, H2.
  assert (0 <= L + k) by (rewrite <- EL; apply Z.log2_nonneg).
  split.
  - destruct (Z.le_ge_cases 0 L) as [HL|HL].
    + rewrite Z.max_l, Z.max_r, <- Z.pow_add_r by lia. change (2 ^ 0) with 1. lia.
    + rewrite Z.max_r, Z.max_l by lia. replace k with ((L + k) + - L) at 1 by lia.
      rewrite Z.pow_add_r by lia. pose proof (Z.pow_pos_nonneg 2 (- L) ltac:(lia) ltac:(lia)). nia.
  - destruct (Z.le_ge_cases 0 (L + 1)) as [HL|HL].
    + rewrite (Z.max_r (- (L + 1))), Z.max_l, <- Z.pow_add_r by lia. change (2 ^ 0) with 1.
      replace (L + 1 + k) with (Z.succ (L + k)) by lia. lia.
    + rewrite (Z.max_r (L + 1)), Z.max_l by lia. replace k with (Z.succ (L + k) + - (L + 1)) at 1 by lia.
      rewrite Z.pow_add_r by lia. pose proof (Z.pow_pos_nonneg 2 (- (L + 1)) ltac:(lia) ltac:(lia)). nia.
Qed.

Lemma double_in_range m e : SpecFloat.bounded 53 1024 m e = true ->
  if 0 <=? e then in_range (Zpos m * 2 ^ e) 1 else in_range (Zpos m) (2 ^ (- e)).
Proof.
  unfold SpecFloat.bounded, canonical_mantissa, fexp, SpecFloat.emin.
  rewrite andb_true_iff, Z.leb_le, Z.eqb_eq, digits2_log2. intros [Hc He].
  pose proof (Z.log2_nonneg (Zpos m)) as Hl.
  set (l := Z.log2 (Zpos m)) in *. assert (l <= 52 /\ -1074 <= e) as [Hl52 He2] by lia.
  destruct (Z.leb_spec 0 e).
  - pose proof (Z.pow_pos_nonneg 2 e ltac:(lia) ltac:(lia)). split; [lia|split; [lia|]].
    exists (l + e). rewrite Z.log2_mul_pow2 by lia. fold l. change (Z.log2 1) with 0.
    split; [lia|]. split; [unfold min_log, max_log; lia|]. change 1 with (2 ^ 0) at 1 4.
    apply log2_range; [lia|lia|]. rewrite Z.log2_mul_pow2 by lia. fold l. lia.
  - pose proof (Z.pow_pos_nonneg 2 (- e) ltac:(lia) ltac:(lia)). split; [lia|split; [lia|]].
    exists (l + e). rewrite Z.log2_pow2 by lia. fold l.
    split; [lia|]. split; [unfold min_log, max_log; lia|]. apply log2_range; [lia|lia|]. fold l. lia.
Qed.

(** ** Lengths *)

Lemma strlen_String c s : strlen (String c s) = 1 + strlen s.
Proof. unfold strlen. simpl. lia. Qed.

Lemma digits_aux_length n z acc k : 0 <= z < 10 ^ Z.of_nat k -> (0 < k)%nat ->
  strlen (digits_aux 10 n z acc) <= strlen acc + Z.of_nat k.
Proof.
  revert z acc k. induction n as [|n IH]; intros z acc k Hz Hk; cbn [digits_aux]; [lia|].
  destruct (Z.ltb_spec z 10); [rewrite strlen_String; lia|].
  destruct k as [|[|k]]; [lia|change (10 ^ Z.of_nat 1) with 10 in Hz; lia|].
  etransitivity; [apply (IH _ _ (S k)); [|lia]|rewrite strlen_String; lia].
  rewrite (Nat2Z.inj_succ (S k)), Z.pow_succ_r in Hz by lia.
  split; [apply Z.div_pos; lia|apply Z.div_lt_upper_bound; lia].
Qed.

Lemma digits_length z k : 0 <= z < 10 ^ Z.of_nat k -> (0 < k)%nat -> strlen (digits 10 z) <= Z.of_nat k.
Proof. intros. unfold digits. etransitivity; [by apply digits_aux_length|done]. Qed.

Lemma pad_digits_length n z : strlen (pad_digits n z) = Z.of_nat n.
Proof.
  revert z. induction n as [|n IH]; intros z; cbn [pad_digits]; [done|].
  rewrite strlen_app, IH, strlen_String. change (strlen "") with 0. lia.
Qed.

Lemma strip_zeros_length s : strlen (strip_zeros s) <= strlen s.
Proof.
  induction s as [|c s IH]; [done|]. cbn [strip_zeros]. rewrite strlen_String.
  destruct (strip_zeros s) as [|d t].
  - destruct (c =? "0")%char; rewrite ?strlen_String; change (strlen "") with 0 in *; lia.
  - rewrite !strlen_String in *. lia.
Qed.

Lemma fixed_length d k i : 0 <= d < 10 ^ (Z.of_nat i + k) -> 0 <= k -> (0 < i)%nat ->
  strlen (fixed d k) <= Z.of_nat i + 1 + k.
Proof.
  intros Hd Hk Hi. unfold fixed, with_fraction.
  assert (strlen (digits 10 (d / 10 ^ k)) <= Z.of_nat i) as H1.
  { pose proof (Z.pow_pos_nonneg 10 k ltac:(lia) ltac:(lia)). apply digits_length; [|done].
    rewrite Z.pow_add_r in Hd by lia. split; [apply Z.div_pos; lia|apply Z.div_lt_upper_bound; lia]. }
  pose proof (strip_zeros_length (pad_digits (Z.to_nat k) (d mod 10 ^ k))) as H2. rewrite pad_digits_length in H2.
  destruct (strip_zeros _) as [|c t]; [lia|]. rewrite strlen_app, strlen_String. lia.
Qed.

Lemma print_exponent_length x : -400 <= x <= 400 -> strlen (print_exponent x) <= 4.
Proof.
  intros Hx. unfold print_exponent. rewrite !strlen_app.
  assert (strlen (if x <? 0 then "-" else "+") = 1) as -> by by destruct (x <? 0).
  destruct (Z.ltb_spec (Z.abs x) 10).
  - change (strlen "0") with 1. pose proof (digits_length (Z.abs x) 1). change (10 ^ Z.of_nat 1) with 10 in *. lia.
  - change (strlen "") with 0. pose proof (digits_length (Z.abs x) 3). change (10 ^ Z.of_nat 3) with 1000 in *. lia.
Qed.

Lemma magnitude_length num den : in_range num den -> strlen (magnitude num den) <= 21.
Proof.
  intros H. destruct (significand_range num den H) as [Hd Hx]. unfold magnitude.
  destruct (significand num den) as [d x]. cbn [fst snd] in *. unfold DBL_DIG in *. change (15 - 1) with 14 in *.
  destruct ((-4 <=? x) && (x <? 15)) eqn:E.
  - apply andb_prop in E as [E1%Z.leb_le E2%Z.ltb_lt].
    assert (forall i, (0 < i)%nat -> 15 <= Z.of_nat i + (14 - x) -> 
      strlen (fixed d (14 - x)) <= Z.of_nat i + 1 + (14 - x)) as Hf.
    { intros i Hi Hle. apply fixed_length; [|lia|done].
      pose proof (Z.pow_le_mono_r 10 15 (Z.of_nat i + (14 - x)) ltac:(lia) Hle). lia. }
    destruct (Z.le_gt_cases 0 x).
    + specialize (Hf (Z.to_nat (x + 1)) ltac:(lia)). lia.
    + specialize (Hf 1%nat ltac:(lia)). lia.
  - rewrite !strlen_app. pose proof (print_exponent_length x Hx). change (strlen "e") with 1.
    pose proof (fixed_length d 14 1 ltac:(lia) ltac:(lia) ltac:(lia)). lia.
Qed.

Lemma print_g_length d : valid_binary 53 1024 d = true -> strlen (print_g d) <= 22.
Proof.
  assert (forall s, strlen (sign_text s) <= 1) as Hs by (by intros []).
  destruct d as [s|s| |s m e]; cbn [valid_binary print_g]; intros Hv.
  - by destruct s.
  - by destruct s.
  - done.
  - apply double_in_range in Hv. rewrite strlen_app. specialize (Hs s).
    destruct (0 <=? e); pose proof (magnitude_length _ _ Hv); lia.
Qed.

Definition FBUF_SIZE : Z := 64.

(** C32: The buffer of __config_write_value is large enough for every double,
    the infinities and NaNs included: snprintf, which may use all but three of
    its characters, does not truncate the text, and the point and zero appended
    to it stay inside with the terminating NUL. *)
Theorem float_text_fits d : valid_binary 53 1024 d = true ->
  strlen (print_g d) + 1 <= FBUF_SIZE - 3 /\ strlen (float_text d) + 1 <= FBUF_SIZE.
Proof.
  intros Hv. pose proof (print_g_length d Hv) as Hl. unfold FBUF_SIZE. split; [lia|].
  unfold float_text. destruct (strchr _ "e"); [lia|]. destruct (negb _).
  - rewrite strlen_app. change (strlen ".0") with 2. lia.
  - unfold trim_zeros. destruct (print_g d) as [|c s]; [done|]. pose proof (strip_zeros_length s).
    rewrite strlen_String in Hl. destruct (strip_zeros s); rewrite ?strlen_String in *; lia.
Qed.

(** About -1.23456789012345e-300, whose text has 22 characters. *)
Definition long_double : spec_float := S754_finite true 7446984136755423 (-1049).

Lemma float_text_fits_witness :
  strlen (print_g long_double) + 1 <= FBUF_SIZE - 3 /\ strlen (float_text long_double) + 1 <= FBUF_SIZE.
Proof. apply (float_text_fits long_double). vm_compute. reflexivity. Defined.
