(* ===== verification/Cxx.v ===== *)
(** * The C++ interface (lib/libconfigcpp.c++, lib/libconfig.h++)

    The classes Config and Setting over the C library.  A Setting object is
    created when a setting is first wrapped; its address is the setting's hook,
    and the destructor that Config installs deletes it with the setting.
    References to Setting objects are locations of a store of their own, so that
    using one after its setting is gone is visible. *)

From Stdlib Require Import SpecFloat.
From S2P Require Import Prelude Double CString Setting Config ScanCtx ConfigRead ConfigWrite.
Local Open Scope Z_scope.

(** ** Types, formats and exceptions *)

Inductive cxx_type :=
  | TypeNone | TypeInt | TypeInt64 | TypeFloat | TypeString | TypeBoolean
  | TypeGroup | TypeArray | TypeList.

#[export] Instance cxx_type_eq_dec : EqDecision cxx_type.
Proof. solve_decision. Defined.

Inductive cxx_format := FormatDefault | FormatHex.

Definition toTypeCode (type : cxx_type) : ctype :=
  match type with
  | TypeGroup => T_GROUP | TypeInt => T_INT | TypeInt64 => T_INT64 | TypeFloat => T_FLOAT
  | TypeString => T_STRING | TypeBoolean => T_BOOL | TypeArray => T_ARRAY | TypeList => T_LIST
  | TypeNone => T_NONE
  end.

Definition type_of_code (t : ctype) : cxx_type :=
  match t with
  | T_GROUP => TypeGroup | T_INT => TypeInt | T_INT64 => TypeInt64 | T_FLOAT => TypeFloat
  | T_STRING => TypeString | T_BOOL => TypeBoolean | T_ARRAY => TypeArray | T_LIST => TypeList
  | T_NONE => TypeNone
  end.

Definition format_of_code (f : Z) : cxx_format := if f =? FORMAT_HEX then FormatHex else FormatDefault.
Definition format_code (f : cxx_format) : Z :=
  match f with FormatHex => FORMAT_HEX | FormatDefault => FORMAT_DEFAULT end.

(** ConfigException and its subclasses, with what their constructors store. *)
Inductive exception :=
  | ParseException (file : option string) (line : Z) (error : option string)
  | FileIOException
  | SettingTypeException (path : string)
  | SettingNotFoundException (path : string)
  | SettingNameException (path : string).

(** what() of each. *)
Definition what (e : exception) : string :=
  match e with
  | ParseException _ _ _ => "ParseException"
  | FileIOException => "FileIOException"
  | SettingTypeException _ => "SettingTypeException"
  | SettingNotFoundException _ => "SettingNotFoundException"
  | SettingNameException _ => "SettingNameException"
  end.

(** ** Objects and state *)

Record object := { _setting : loc; _type : cxx_type; _format : cxx_format }.

Record cxx := {
  x_config : config;
  x_objects : gmap positive object;
  x_next : positive;
  x_default_format : cxx_format;
  x_files : gmap string string
}.

Definition with_config (c : config) (x : cxx) : cxx :=
  {| x_config := c; x_objects := x.(x_objects); x_next := x.(x_next);
     x_default_format := x.(x_default_format); x_files := x.(x_files) |}.
Definition with_objects (o : gmap positive object) (x : cxx) : cxx :=
  {| x_config := x.(x_config); x_objects := o; x_next := x.(x_next);
     x_default_format := x.(x_default_format); x_files := x.(x_files) |}.
Definition with_default (f : cxx_format) (x : cxx) : cxx :=
  {| x_config := x.(x_config); x_objects := x.(x_objects); x_next := x.(x_next);
     x_default_format := f; x_files := x.(x_files) |}.
Definition with_cxx_files (f : gmap string string) (x : cxx) : cxx :=
  {| x_config := x.(x_config); x_objects := x.(x_objects); x_next := x.(x_next);
     x_default_format := x.(x_default_format); x_files := f |}.

(** Computations that may throw. *)
Abbreviation XM A := (M cxx (A + exception)).

Definition ok {A} (a : A) : XM A := mret (inl a).
Definition throw {A} (e : exception) : XM A := mret (inr e).
Definition try_bind {A B} (m : XM A) (f : A -> XM B) : XM B :=
  r ← m; match r with inl a => f a | inr e => throw e end.
(** catch(const ConfigException &) *)
Definition catch {A} (m : XM A) : XM (option A) :=
  r ← m; ok (match r with inl a => Some a | inr _ => None end).

Declare Scope cxx_scope.
Delimit Scope cxx_scope with cxx.
Notation "x <~ m ; k" := (try_bind m (fun x => k))
  (at level 20, m at level 100, k at level 200, right associativity) : cxx_scope.
Notation "m ;~ k" := (try_bind m (fun _ => k)) (at level 100, k at level 200, right associativity) : cxx_scope.
Local Open Scope cxx_scope.

(** delete: the object must be there. *)
Definition ConfigDestructor (hook : Z) : M cxx unit :=
  x ← get;
  match x.(x_objects) !! Z.to_pos hook with
  | Some _ => put (with_objects (delete (Z.to_pos hook) x.(x_objects)) x)
  | None => undef UB_dangling
  end.

Fixpoint delete_all (hooks : list Z) : M cxx unit :=
  match hooks with [] => mret tt | h :: hooks' => ConfigDestructor h;; delete_all hooks' end.

(** A call of the C library.  The hooks it passes to the destructor are those
    that it appends to [destroyed]. *)
Definition call_c {A} (m : CM A) : XM A :=
  x ← get;
  let (o, c) := m x.(x_config) in
  put (with_config c x);;
  delete_all (drop (length x.(x_config).(destroyed)) c.(destroyed));;
  match o with
  | Ret a => ok a
  | Exited z => exit_ z
  | Aborted => abort_
  | Undef w => undef w
  | NoFuel => stop NoFuel
  end.

(** The object a reference is to. *)
Definition object_at (this : positive) : XM object :=
  x ← get; o ← lift_opt UB_dangling (x.(x_objects) !! this); ok o.

(** ** Wrapping *)

(** The constructor Setting::Setting, and the allocation. *)
Definition new_Setting (s : loc) : XM positive :=
  st <~ call_c (deref s);
  f <~ call_c (config_setting_get_format s);
  x ← get;
  put {| x_config := x.(x_config);
         x_objects := <[x.(x_next) := {| _setting := s; _type := type_of_code st.(s_type);
                                        _format := format_of_code f |}]> x.(x_objects);
         x_next := Pos.succ x.(x_next); x_default_format := x.(x_default_format);
         x_files := x.(x_files) |};;
  ok x.(x_next).

Definition wrapSetting (s : option loc) : XM positive :=
  s <~ call_c (nonnull s);
  st <~ call_c (deref s);
  match st.(s_hook) with
  | None =>
      p <~ new_Setting s;
      call_c (config_setting_set_hook s (Some (Zpos p))) ;~
      ok p
  | Some h => ok (Z.to_pos h)
  end.

(** ** Paths *)

Definition Setting_isRoot (this : positive) : XM bool :=
  o <~ object_at this;
  s <~ call_c (deref o.(_setting));
  ok (match s.(s_parent) with None => true | Some _ => false end).

Definition Setting_getName (this : positive) : XM (option string) :=
  o <~ object_at this; s <~ call_c (deref o.(_setting)); ok s.(s_name).

Definition Setting_getIndex (this : positive) : XM Z :=
  o <~ object_at this; call_c (config_setting_index o.(_setting)).

(** The exception for the root is built from a null path, which strdup follows. *)
Definition Setting_getParent (this : positive) : XM positive :=
  o <~ object_at this;
  s <~ call_c (deref o.(_setting));
  match s.(s_parent) with
  | None => call_c (undef UB_null)
  | Some p => wrapSetting (Some p)
  end.

(** The const overload. *)
Definition Setting_getParent_const (this : positive) : XM positive :=
  o <~ object_at this;
  s <~ call_c (deref o.(_setting));
  match s.(s_parent) with
  | None => call_c (undef UB_null)
  | Some p => wrapSetting (Some p)
  end.

(** The recursion is as deep as the setting. *)
Fixpoint constructPath (fuel : nat) (setting : positive) (path : string) : XM string :=
  match fuel with
  | O => stop NoFuel
  | S n =>
      r <~ Setting_isRoot setting;
      if r : bool then ok path
      else
        parent <~ Setting_getParent setting;
        path <~ constructPath n parent path;
        let path := match path with EmptyString => path | _ => path +:+ "." end in
        name <~ Setting_getName setting;
        match name with
        | Some name => ok (path +:+ name)
        | None => i <~ Setting_getIndex setting; ok (path +:+ "[" +:+ print_dec i +:+ "]")
        end
  end.

Definition Setting_getPath (this : positive) : XM string :=
  x ← get; constructPath (destroy_fuel x.(x_config)) this "".

(** What the exceptions are thrown with. *)
Definition throw_at {A} (e : string -> exception) (this : positive) : XM A :=
  path <~ Setting_getPath this; throw (e path).
Definition throw_at_index {A} (e : string -> exception) (this : positive) (idx : Z) : XM A :=
  path <~ Setting_getPath this; throw (e (path +:+ ".[" +:+ print_dec (s32 idx) +:+ "]")).
Definition throw_at_name {A} (e : string -> exception) (this : positive) (name : string) : XM A :=
  path <~ Setting_getPath this; throw (e (path +:+ "." +:+ name)).

(** ** Types *)

Definition isNumber (o : object) : bool :=
  match o.(_type) with TypeInt | TypeInt64 | TypeFloat => true | _ => false end.
Definition isAggregate (o : object) : bool :=
  match o.(_type) with TypeGroup | TypeArray | TypeList => true | _ => false end.
Definition isScalar (o : object) : bool :=
  match o.(_type) with TypeNone => false | _ => negb (isAggregate o) end.

Definition is_numeric (type : cxx_type) : bool :=
  match type with TypeInt | TypeInt64 | TypeFloat => true | _ => false end.

Definition assertType (this : positive) (type : cxx_type) : XM unit :=
  o <~ object_at this;
  if decide (type = o.(_type)) then ok tt
  else
    a <~ (if isNumber o then call_c setting_auto_convert else ok false);
    if (a : bool) && is_numeric type then ok tt
    else throw_at SettingTypeException this.

Definition Setting_setFormat (this : positive) (format : cxx_format) : XM unit :=
  o <~ object_at this;
  let f := match o.(_type) with TypeInt | TypeInt64 => format | _ => FormatDefault end in
  x ← get;
  put (with_objects (<[this := {| _setting := o.(_setting); _type := o.(_type); _format := f |}]>
                       x.(x_objects)) x);;
  call_c (config_setting_set_format o.(_setting) (format_code f)) ;~
  ok tt.

(** ** Conversions *)

Section Conversions.
Variable this : positive.

(** The shape they share: a type, and a getter. *)
Definition convert {A} (type : cxx_type) (get : loc -> CM A) : XM A :=
  assertType this type ;~
  o <~ object_at this;
  call_c (get o.(_setting)).

Definition operator_bool : XM bool :=
  z <~ convert TypeBoolean config_setting_get_bool; ok (i2b z).
Definition operator_int : XM Z := convert TypeInt config_setting_get_int.
Definition operator_unsigned_int : XM Z :=
  v <~ convert TypeInt config_setting_get_int; ok (if v <? 0 then 0 else v).
Definition operator_long_long : XM Z := convert TypeInt64 config_setting_get_int64.
Definition operator_unsigned_long_long : XM Z :=
  v <~ convert TypeInt64 config_setting_get_int64; ok (if v <? 0 then 0 else v).
(** long is as wide as long long. *)
Definition operator_long : XM Z := operator_long_long.
Definition operator_unsigned_long : XM Z := operator_unsigned_long_long.
Definition operator_double : XM spec_float := convert TypeFloat config_setting_get_float.

(** (float) d: rounded to 24 bits. *)
Definition float_of_double (d : spec_float) : spec_float :=
  match d with S754_finite s m e => binary_round 24 128 s m e | _ => d end.

Definition operator_float : XM spec_float :=
  d <~ convert TypeFloat config_setting_get_float; ok (float_of_double d).
Definition operator_const_char : XM (option string) := convert TypeString config_setting_get_string.
Definition operator_string : XM string :=
  s <~ convert TypeString config_setting_get_string; ok (default "" s).

(** ** Assignments; the results of the setters are not looked at. *)

Definition assign (type : cxx_type) (set : loc -> CM bool) : XM positive :=
  assertType this type ;~
  o <~ object_at this;
  call_c (set o.(_setting)) ;~
  ok this.

Definition assign_bool (v : bool) : XM positive :=
  assign TypeBoolean (fun l => config_setting_set_bool l (b2i v)).
Definition assign_int (v : Z) : XM positive := assign TypeInt (fun l => config_setting_set_int l v).
Definition assign_long_long (v : Z) : XM positive :=
  assign TypeInt64 (fun l => config_setting_set_int64 l v).
Definition assign_long (v : Z) : XM positive := assign_long_long v.
Definition assign_double (v : spec_float) : XM positive :=
  assign TypeFloat (fun l => config_setting_set_float l v).

(** (double) v: the same number in the canonical form of doubles. *)
Definition double_of_float (v : spec_float) : spec_float :=
  match v with S754_finite s m e => binary_round 53 1024 s m e | _ => v end.

Definition assign_float (v : spec_float) : XM positive :=
  assign TypeFloat (fun l => config_setting_set_float l (double_of_float v)).
Definition assign_const_char (v : option string) : XM positive :=
  assign TypeString (fun l => config_setting_set_string l v).
Definition assign_string (v : string) : XM positive := assign_const_char (Some (c_str v)).

(** ** Members and elements *)

Definition Setting_lookup (path : string) : XM positive :=
  assertType this TypeGroup ;~
  o <~ object_at this;
  s <~ call_c (config_setting_lookup o.(_setting) path);
  match s with
  | None => throw_at_name SettingNotFoundException this path
  | Some _ => wrapSetting s
  end.

(** operator[] on a name *)
Definition at_name (name : string) : XM positive :=
  assertType this TypeGroup ;~
  o <~ object_at this;
  s <~ call_c (config_setting_get_member o.(_setting) (Some name));
  match s with
  | None => throw_at_name SettingNotFoundException this name
  | Some _ => wrapSetting s
  end.

(** operator[] on an index; the C function takes an unsigned one. *)
Definition at_index (i : Z) : XM positive :=
  o <~ object_at this;
  if negb (isAggregate o) then throw_at_index SettingTypeException this i
  else
    s <~ call_c (config_setting_get_elem o.(_setting) (u32 i));
    match s with
    | None => throw_at_index SettingNotFoundException this i
    | Some _ => wrapSetting s
    end.

(** SETTING_LOOKUP_NO_EXCEPTIONS: whether a value was stored, and which. *)
Definition Setting_lookupValue {A} (name : string) (conversion : positive -> XM A) : XM (option A) :=
  catch (s <~ at_name name; conversion s).

Definition Setting_exists (name : string) : XM bool :=
  o <~ object_at this;
  if negb (bool_decide (o.(_type) = TypeGroup)) then ok false
  else
    s <~ call_c (config_setting_get_member o.(_setting) (Some name));
    ok (match s with Some _ => true | None => false end).

Definition Setting_getLength : XM Z :=
  o <~ object_at this; call_c (config_setting_length o.(_setting)).
Definition Setting_getSourceLine : XM Z :=
  o <~ object_at this; s <~ call_c (deref o.(_setting)); ok s.(s_line).
Definition Setting_getSourceFile : XM (option string) :=
  o <~ object_at this; s <~ call_c (deref o.(_setting)); ok s.(s_file).

Definition Setting_remove_name (name : string) : XM unit :=
  assertType this TypeGroup ;~
  o <~ object_at this;
  r <~ call_c (config_setting_remove (Some o.(_setting)) (Some name));
  if r : bool then ok tt else throw_at_name SettingNotFoundException this name.

Definition Setting_remove_index (idx : Z) : XM unit :=
  o <~ object_at this;
  if negb (isAggregate o) then throw_at_index SettingTypeException this idx
  else
    r <~ call_c (config_setting_remove_elem (Some o.(_setting)) idx);
    if r : bool then ok tt else throw_at_index SettingNotFoundException this idx.

(** add(const char *, Type) *)
Definition Setting_add_member (name : string) (type : cxx_type) : XM positive :=
  assertType this TypeGroup ;~
  let typecode := toTypeCode type in
  if decide (typecode = T_NONE) then throw_at_name SettingTypeException this name
  else
    o <~ object_at this;
    s <~ call_c (config_setting_add (Some o.(_setting)) (Some name) (Z_of_ctype typecode));
    match s with
    | None => throw_at_name SettingNameException this name
    | Some _ => wrapSetting s
    end.
End Conversions.

(** The value that the overload for std::string stores: it assigns the pointer,
    which must not be null. *)
Definition stored_string (s : positive) : XM string :=
  p <~ operator_const_char s; call_c (nonnull p).

(** The overloads, by the type of the variable the value goes to. *)
Definition Setting_lookupValue_bool (this : positive) (name : string) : XM (option bool) :=
  Setting_lookupValue this name operator_bool.
Definition Setting_lookupValue_int (this : positive) (name : string) : XM (option Z) :=
  Setting_lookupValue this name operator_int.
Definition Setting_lookupValue_unsigned_int (this : positive) (name : string) : XM (option Z) :=
  Setting_lookupValue this name operator_unsigned_int.
Definition Setting_lookupValue_long_long (this : positive) (name : string) : XM (option Z) :=
  Setting_lookupValue this name operator_long_long.
Definition Setting_lookupValue_unsigned_long_long (this : positive) (name : string) : XM (option Z) :=
  Setting_lookupValue this name operator_unsigned_long_long.
Definition Setting_lookupValue_double (this : positive) (name : string) : XM (option spec_float) :=
  Setting_lookupValue this name operator_double.
Definition Setting_lookupValue_float (this : positive) (name : string) : XM (option spec_float) :=
  Setting_lookupValue this name operator_float.
Definition Setting_lookupValue_const_char (this : positive) (name : string) : XM (option (option string)) :=
  Setting_lookupValue this name operator_const_char.
Definition Setting_lookupValue_string (this : positive) (name : string) : XM (option string) :=
  Setting_lookupValue this name stored_string.

(** add(Type): a new element, with a zero of its type. *)
Definition Setting_add_element (this : positive) (type : cxx_type) : XM positive :=
  o <~ object_at this;
  if negb (bool_decide (o.(_type) = TypeArray)) && negb (bool_decide (o.(_type) = TypeList))
  then throw_at SettingTypeException this
  else
    (if decide (o.(_type) = TypeArray) then
       idx <~ Setting_getLength this;
       if 0 <? idx then
         e <~ at_index this 0;
         e <~ object_at e;
         if decide (type = e.(_type)) then ok tt else throw_at_index SettingTypeException this idx
       else match type with
            | TypeInt | TypeInt64 | TypeFloat | TypeString | TypeBoolean => ok tt
            | _ => throw_at_index SettingTypeException this idx
            end
     else ok tt) ;~
    s <~ call_c (config_setting_add (Some o.(_setting)) None (Z_of_ctype (toTypeCode type)));
    ns <~ wrapSetting s;
    match type with
    | TypeInt => assign_int ns 0
    | TypeInt64 => assign_long_long ns 0
    | TypeFloat => assign_double ns d0
    | TypeString => assign_const_char ns None
    | TypeBoolean => assign_bool ns false
    | _ => ok ns
    end ;~
    ok ns.

(** ** Iterators *)

Record SettingIterator := { it_setting : positive; it_count : Z; it_idx : Z }.

Definition iterator (setting : positive) (endIterator : bool) : XM SettingIterator :=
  count <~ Setting_getLength setting;
  o <~ object_at setting;
  if isAggregate o
  then ok {| it_setting := setting; it_count := count; it_idx := if endIterator then count else 0 |}
  else throw_at SettingTypeException setting.

Definition Setting_begin (this : positive) : XM SettingIterator := iterator this false.
Definition Setting_end (this : positive) : XM SettingIterator := iterator this true.

(** The copy constructor, and operator=, which returns the new value of [this]. *)
Definition iterator_copy (other : SettingIterator) : SettingIterator :=
  {| it_setting := other.(it_setting); it_count := other.(it_count); it_idx := other.(it_idx) |}.
Definition iterator_assign (this other : SettingIterator) : SettingIterator :=
  {| it_setting := other.(it_setting); it_count := other.(it_count); it_idx := other.(it_idx) |}.

(** operator+= ; the index is an int. *)
Definition iterator_add (it : SettingIterator) (offset : Z) : XM SettingIterator :=
  i ← ckint (it.(it_idx) + offset);
  ok {| it_setting := it.(it_setting); it_count := it.(it_count); it_idx := i |}.
Definition iterator_sub (it : SettingIterator) (offset : Z) : XM SettingIterator :=
  i ← ckint (it.(it_idx) - offset);
  ok {| it_setting := it.(it_setting); it_count := it.(it_count); it_idx := i |}.
(** operator+ and operator- return a copy. *)
Definition iterator_plus (it : SettingIterator) (offset : Z) : XM SettingIterator :=
  iterator_add (iterator_copy it) offset.
Definition iterator_plus_left (offset : Z) (it : SettingIterator) : XM SettingIterator :=
  iterator_add (iterator_copy it) offset.
Definition iterator_minus (it : SettingIterator) (offset : Z) : XM SettingIterator :=
  iterator_sub (iterator_copy it) offset.
Definition iterator_next (it : SettingIterator) : XM SettingIterator := iterator_add it 1.
Definition iterator_previous (it : SettingIterator) : XM SettingIterator := iterator_sub it 1.
(** The postfix operators: a copy of the old iterator, and the new one. *)
Definition iterator_postnext (it : SettingIterator) : XM (SettingIterator * SettingIterator) :=
  new <~ iterator_next it; ok (iterator_copy it, new).
Definition iterator_postprevious (it : SettingIterator) : XM (SettingIterator * SettingIterator) :=
  new <~ iterator_previous it; ok (iterator_copy it, new).
Definition iterator_distance (it other : SettingIterator) : XM Z :=
  i ← ckint (it.(it_idx) - other.(it_idx)); ok i.
Definition iterator_eq (it other : SettingIterator) : bool :=
  bool_decide (it.(it_setting) = other.(it_setting)) && (it.(it_idx) =? other.(it_idx)).
Definition iterator_deref (it : SettingIterator) : XM positive := at_index it.(it_setting) it.(it_idx).

(** SettingConstIterator *)
Record SettingConstIterator := { cit_setting : positive; cit_count : Z; cit_idx : Z }.

Definition const_iterator (setting : positive) (endIterator : bool) : XM SettingConstIterator :=
  count <~ Setting_getLength setting;
  o <~ object_at setting;
  if isAggregate o
  then ok {| cit_setting := setting; cit_count := count; cit_idx := if endIterator then count else 0 |}
  else throw_at SettingTypeException setting.

Definition Setting_begin_const (this : positive) : XM SettingConstIterator := const_iterator this false.
Definition Setting_end_const (this : positive) : XM SettingConstIterator := const_iterator this true.

Definition const_iterator_copy (other : SettingConstIterator) : SettingConstIterator :=
  {| cit_setting := other.(cit_setting); cit_count := other.(cit_count); cit_idx := other.(cit_idx) |}.
Definition const_iterator_assign (this other : SettingConstIterator) : SettingConstIterator :=
  {| cit_setting := other.(cit_setting); cit_count := other.(cit_count); cit_idx := other.(cit_idx) |}.
Definition const_iterator_add (it : SettingConstIterator) (offset : Z) : XM SettingConstIterator :=
  i ← ckint (it.(cit_idx) + offset);
  ok {| cit_setting := it.(cit_setting); cit_count := it.(cit_count); cit_idx := i |}.
Definition const_iterator_sub (it : SettingConstIterator) (offset : Z) : XM SettingConstIterator :=
  i ← ckint (it.(cit_idx) - offset);
  ok {| cit_setting := it.(cit_setting); cit_count := it.(cit_count); cit_idx := i |}.
Definition const_iterator_plus (it : SettingConstIterator) (offset : Z) : XM SettingConstIterator :=
  const_iterator_add (const_iterator_copy it) offset.
Definition const_iterator_plus_left (offset : Z) (it : SettingConstIterator) : XM SettingConstIterator :=
  const_iterator_add (const_iterator_copy it) offset.
Definition const_iterator_minus (it : SettingConstIterator) (offset : Z) : XM SettingConstIterator :=
  const_iterator_sub (const_iterator_copy it) offset.
Definition const_iterator_next (it : SettingConstIterator) : XM SettingConstIterator := const_iterator_add it 1.
Definition const_iterator_previous (it : SettingConstIterator) : XM SettingConstIterator := const_iterator_sub it 1.
Definition const_iterator_postnext (it : SettingConstIterator) : XM (SettingConstIterator * SettingConstIterator) :=
  new <~ const_iterator_next it; ok (const_iterator_copy it, new).
Definition const_iterator_postprevious (it : SettingConstIterator) : XM (SettingConstIterator * SettingConstIterator) :=
  new <~ const_iterator_previous it; ok (const_iterator_copy it, new).
Definition const_iterator_distance (it other : SettingConstIterator) : XM Z :=
  i ← ckint (it.(cit_idx) - other.(cit_idx)); ok i.
Definition const_iterator_eq (it other : SettingConstIterator) : bool :=
  bool_decide (it.(cit_setting) = other.(cit_setting)) && (it.(cit_idx) =? other.(cit_idx)).
Definition const_iterator_deref (it : SettingConstIterator) : XM positive := at_index it.(cit_setting) it.(cit_idx).

(** ** Config *)

(** The constructor: from memory that holds nothing. *)
Definition new_Config : XM unit :=
  call_c config_init ;~ call_c (config_set_destructor true).

Definition Config_destroy : XM unit := call_c config_destroy.

Definition Config_setAutoConvert (flag : bool) : XM unit := call_c (config_set_auto_convert (b2i flag)).
Definition Config_getAutoConvert : XM bool := call_c config_get_auto_convert.
Definition Config_setOptions (options : Z) : XM unit := call_c (config_set_options options).
Definition Config_getOptions : XM Z := call_c config_get_options.

Definition config_set_default_format (f : Z) : CM unit := modify (fun c =>
  {| heap := c.(heap); next := c.(next); root := c.(root); destructor := c.(destructor);
     destroyed := c.(destroyed); options := c.(options); tab_width := c.(tab_width);
     default_format := f; include_dir := c.(include_dir);
     error_text := c.(error_text); error_file := c.(error_file);
     error_line := c.(error_line); error_type := c.(error_type);
     filenames := c.(filenames); moved := c.(moved) |}).

Definition config_set_tab_width (w : Z) : CM unit := modify (fun c =>
  {| heap := c.(heap); next := c.(next); root := c.(root); destructor := c.(destructor);
     destroyed := c.(destroyed); options := c.(options); tab_width := Z.land w 15;
     default_format := c.(default_format); include_dir := c.(include_dir);
     error_text := c.(error_text); error_file := c.(error_file);
     error_line := c.(error_line); error_type := c.(error_type);
     filenames := c.(filenames); moved := c.(moved) |}).

Definition Config_setDefaultFormat (format : cxx_format) : XM unit :=
  modify (with_default format);;
  call_c (config_set_default_format (format_code format)).
Definition Config_getDefaultFormat : XM cxx_format := f ← gets x_default_format; ok f.
Definition Config_setTabWidth (width : Z) : XM unit := call_c (config_set_tab_width width).
Definition Config_getTabWidth : XM Z := call_c (gets tab_width).
Definition Config_setIncludeDir (dir : string) : XM unit := call_c (config_set_include_dir dir).
Definition Config_getIncludeDir : XM (option string) := call_c (gets include_dir).

Definition handleError : XM unit :=
  c <~ call_c get;
  match c.(error_type) with
  | ERR_NONE => ok tt
  | ERR_PARSE => throw (ParseException c.(error_file) c.(error_line) c.(error_text))
  | ERR_FILE_IO => throw FileIOException
  end.

Section Files.
Variable fs : string -> option string.
Variable can_write : string -> bool.

Definition Config_read (fuel : nat) (text : string) : XM unit :=
  r <~ call_c (config_read fs fuel text); if r : bool then ok tt else handleError.
Definition Config_readString (fuel : nat) (str : string) : XM unit :=
  r <~ call_c (config_read_string fs fuel str); if r : bool then ok tt else handleError.
Definition Config_readFile (fuel : nat) (filename : string) : XM unit :=
  r <~ call_c (config_read_file fs fuel filename); if r : bool then ok tt else handleError.

(** The writers only change the configuration's error fields. *)
Definition call_writer {A} (m : WM A) : XM (A * string) :=
  x ← get;
  let (o, w) := m {| w_cfg := x.(x_config); w_stream := ""; w_files := x.(x_files) |} in
  put (with_cxx_files w.(w_files) (with_config w.(w_cfg) x));;
  match o with
  | Ret a => ok (a, w.(w_stream))
  | Exited z => exit_ z
  | Aborted => abort_
  | Undef u => undef u
  | NoFuel => stop NoFuel
  end.

(** What goes to the stream. *)
Definition Config_write : XM string := r <~ call_writer config_write; ok r.2.
Definition Config_writeFile (filename : string) : XM unit :=
  r <~ call_writer (config_write_file can_write filename);
  if r.1 : bool then ok tt else handleError.
End Files.

Definition Config_lookup (path : string) : XM positive :=
  s <~ call_c (config_lookup path);
  match s with
  | None => throw (SettingNotFoundException path)
  | Some _ => wrapSetting s
  end.

Definition Config_exists (path : string) : XM bool :=
  s <~ call_c (config_lookup path); ok (match s with Some _ => true | None => false end).

(** CONFIG_LOOKUP_NO_EXCEPTIONS *)
Definition Config_lookupValue {A} (path : string) (conversion : positive -> XM A) : XM (option A) :=
  catch (s <~ Config_lookup path; conversion s).

Definition Config_lookupValue_bool (path : string) : XM (option bool) := Config_lookupValue path operator_bool.
Definition Config_lookupValue_int (path : string) : XM (option Z) := Config_lookupValue path operator_int.
Definition Config_lookupValue_unsigned_int (path : string) : XM (option Z) :=
  Config_lookupValue path operator_unsigned_int.
Definition Config_lookupValue_long_long (path : string) : XM (option Z) := Config_lookupValue path operator_long_long.
Definition Config_lookupValue_unsigned_long_long (path : string) : XM (option Z) :=
  Config_lookupValue path operator_unsigned_long_long.
Definition Config_lookupValue_double (path : string) : XM (option spec_float) :=
  Config_lookupValue path operator_double.
Definition Config_lookupValue_float (path : string) : XM (option spec_float) := Config_lookupValue path operator_float.
Definition Config_lookupValue_const_char (path : string) : XM (option (option string)) :=
  Config_lookupValue path operator_const_char.
Definition Config_lookupValue_string (path : string) : XM (option string) := Config_lookupValue path stored_string.

Definition Config_getRoot : XM positive := r <~ call_c (gets root); wrapSetting r.
