(* ===== verification/CxxProps.v ===== *)
(** * Properties of the C++ interface

    Objects and settings correspond to each other; reading only adds objects;
    paths lead back to the setting they were made from. *)

From Stdlib Require Import SpecFloat.
From S2P Require Import Prelude Double CString Setting Config ConfigWf ConfigProps ConfigTree ConfigApi.
From S2P Require Import ScanCtx ConfigRead ConfigWrite Cxx.
Local Open Scope Z_scope.
Local Open Scope cxx_scope.

(** ** The invariant

    The hook of a setting is the object that wraps it: the objects are exactly
    the hooks of the settings there are, and they know their setting's type. *)
Record cxx_ok (x : cxx) : Prop := {
  co_sound : sound (x_config x);
  co_destructor : destructor (x_config x) = true;
  co_hooks : forall l s h, heap (x_config x) !! l = Some s -> s_hook s = Some h ->
    exists p o, h = Zpos p /\ x_objects x !! p = Some o /\ _setting o = l /\ _type o = type_of_code (s_type s);
  co_objects : forall p o, x_objects x !! p = Some o -> (p < x_next x)%positive /\
    exists s, heap (x_config x) !! _setting o = Some s /\ s_hook s = Some (Zpos p)
}.

(** The setting that an object wraps. *)
Lemma object_setting x p o : cxx_ok x -> x_objects x !! p = Some o -> exists s,
  heap (x_config x) !! _setting o = Some s /\ s_hook s = Some (Zpos p) /\ _type o = type_of_code (s_type s).
Proof.
  intros Hx Ho. destruct (co_objects x Hx p o Ho) as [_ (s & Hs & Hh)].
  destruct (co_hooks x Hx _ s _ Hs Hh) as (p' & o' & [= <-] & Ho' & _ & Ht). exists s. by split_and!; congruence.
Qed.

(** ** What reading does: objects for settings that had none *)
Record wraps (x x' : cxx) : Prop := {
  wr_ok : cxx_ok x';
  wr_objects : forall p o, x_objects x !! p = Some o -> x_objects x' !! p = Some o;
  wr_heap : forall l, (forall s, heap (x_config x) !! l = Some s ->
      exists h, heap (x_config x') !! l = Some (set_hook h s)) /\
    (is_Some (heap (x_config x') !! l) -> is_Some (heap (x_config x) !! l));
  wr_config : x_config x' = with_heap (heap (x_config x')) (x_config x);
  wr_files : x_files x' = x_files x
}.

Lemma set_hook_same s : set_hook (s_hook s) s = s.
Proof. by destruct s. Qed.

Lemma wraps_refl x : cxx_ok x -> wraps x x.
Proof.
  intros Hx. split; [done|done| |by destruct x as [[]]|done]. intros l. split; [|done].
  intros s Hs. exists (s_hook s). by rewrite set_hook_same.
Qed.

Lemma wraps_trans x1 x2 x3 : wraps x1 x2 -> wraps x2 x3 -> wraps x1 x3.
Proof.
  intros [K1 O1 H1 C1 F1] [K2 O2 H2 C2 F2]. split; [done|auto| | |congruence].
  - intros l. destruct (H1 l) as [A1 B1], (H2 l) as [A2 B2]. split; [|auto].
    intros s Hs. destruct (A1 s Hs) as [h1 E1]. destruct (A2 _ E1) as [h2 E2]. exists h2. by rewrite E2.
  - rewrite C2, C1 at 1. done.
Qed.

(** A setting before and after. *)
Lemma wraps_setting x x' l s : wraps x x' -> heap (x_config x) !! l = Some s ->
  exists s', heap (x_config x') !! l = Some s' /\ s_name s' = s_name s /\ s_type s' = s_type s /\
    s_value s' = s_value s /\ s_parent s' = s_parent s.
Proof. intros H Hs. destruct (proj1 (wr_heap _ _ H l) s Hs) as [h Hh]. by exists (set_hook h s). Qed.

Lemma wraps_children x x' l s s' : wraps x x' -> heap (x_config x) !! l = Some s ->
  heap (x_config x') !! l = Some s' -> children s' = children s.
Proof.
  intros H Hs Hs'. destruct (wraps_setting x x' l s H Hs) as (s2 & E & _ & _ & Hv & _).
  assert (s2 = s') as -> by congruence. unfold children. by rewrite Hv.
Qed.

(** ** Runs of methods *)

Lemma try_ret {A B} (m : XM A) (f : A -> XM B) x x' a : m x = (Ret (inl a), x') -> (m1 <~ m; f m1) x = f a x'.
Proof. intros E. unfold try_bind. by rewrite (bind_ret _ _ _ _ _ E). Qed.

Lemma object_run x p o : x_objects x !! p = Some o -> object_at p x = (Ret (inl o), x).
Proof. intros E. unfold object_at. erewrite bind_ret; [|reflexivity]. by rewrite E. Qed.

(** A call that leaves the destroyed hooks as they are. *)
Lemma call_run {A} (m : CM A) x a c : m (x_config x) = (Ret a, c) ->
  destroyed c = destroyed (x_config x) -> call_c m x = (Ret (inl a), with_config c x).
Proof.
  intros E Hd. unfold call_c. erewrite bind_ret; [|reflexivity]. rewrite E.
  erewrite bind_ret; [|reflexivity]. rewrite Hd, drop_all. by erewrite bind_ret; [|reflexivity].
Qed.

Lemma read_run {A} (m : CM A) x a : m (x_config x) = (Ret a, x_config x) -> call_c m x = (Ret (inl a), x).
Proof. intros E. rewrite (call_run m x a _ E) by done. by destruct x. Qed.

Lemma deref_run x l s : heap (x_config x) !! l = Some s -> call_c (deref l) x = (Ret (inl s), x).
Proof. intros E. apply read_run. by apply deref_live. Qed.

(** ** Wrapping *)

(** The state with a new object [o]. *)
Definition allocated (o : object) x : cxx :=
  {| x_config := x_config x; x_objects := <[x_next x := o]> (x_objects x); x_next := Pos.succ (x_next x);
     x_default_format := x_default_format x; x_files := x_files x |}.

Definition object_for (x : cxx) (l : loc) (s : setting) : object :=
  {| _setting := l; _type := type_of_code (s_type s);
     _format := format_of_code (if negb (s_format s =? 0) then s_format s else default_format (x_config x)) |}.

Lemma new_Setting_run x l s : moved (x_config x) = false -> heap (x_config x) !! l = Some s ->
  new_Setting l x = (Ret (inl (x_next x)), allocated (object_for x l s) x).
Proof.
  intros Hmv Hs. unfold new_Setting. set (f := if negb (s_format s =? 0) then s_format s else default_format (x_config x)).
  rewrite (try_ret _ _ x x s) by (by apply deref_run).
  rewrite (try_ret _ _ x x f); [reflexivity|]. apply read_run. unfold config_setting_get_format, f.
  rewrite (bind_ret _ _ _ _ _ (deref_live l s _ Hs)). destruct (negb _); [done|].
  unfold setting_config. munfold. by rewrite Hmv.
Qed.

(** The state once a setting without an object has one. *)
Section Hooked.
Context (x : cxx) (l : loc) (s : setting).
Hypothesis Hx : cxx_ok x.
Hypothesis Hs : heap (x_config x) !! l = Some s.
Hypothesis Eh : s_hook s = None.

Definition hooked : cxx :=
  with_config (with_heap (<[l := set_hook (Some (Zpos (x_next x))) s]> (heap (x_config x))) (x_config x))
    (allocated (object_for x l s) x).

Lemma hooked_fresh q oq : x_objects x !! q = Some oq -> q <> x_next x.
Proof. destruct Hx as [_ _ _ Ho]. intros Hq. destruct (Ho q oq Hq) as [Hlt _]. lia. Qed.

Lemma hooked_other q oq : x_objects x !! q = Some oq -> _setting oq <> l.
Proof.
  destruct Hx as [_ _ _ Ho]. intros Hq El. destruct (Ho q oq Hq) as [_ (s2 & Hs2 & Hh2)]. rewrite El in Hs2. congruence.
Qed.

Lemma hooked_objects q oq : x_objects x !! q = Some oq -> x_objects hooked !! q = Some oq.
Proof. intros Hq. cbn. rewrite lookup_insert_ne; [done|]. intros E. by apply (hooked_fresh q oq Hq). Qed.

Lemma hooked_ok : cxx_ok hooked.
Proof.
  pose proof Hx as [[Hwf Hmv] Hd Hh Ho]. split; cbn [x_config x_next with_config hooked allocated].
  - split; [|done]. by apply (grows_field (x_config x) l s).
  - done.
  - intros k sk h. cbn [heap with_heap]. destruct (decide (k = l)) as [-> |Hkl].
    + rewrite lookup_insert_eq. intros [= <-] [= <-]. exists (x_next x), (object_for x l s).
      cbn. by rewrite lookup_insert_eq.
    + rewrite lookup_insert_ne by done. intros Hk Ek. destruct (Hh k sk h Hk Ek) as (p & op & -> & Hp & Hlp & Htp).
      exists p, op. split; [done|]. by split; [apply hooked_objects|].
  - intros p op Hp. cbn [heap with_heap]. destruct (decide (p = x_next x)) as [-> |Hpn].
    + cbn in Hp. rewrite lookup_insert_eq in Hp. injection Hp as <-. split; [lia|].
      exists (set_hook (Some (Zpos (x_next x))) s). by rewrite lookup_insert_eq.
    + cbn in Hp. rewrite lookup_insert_ne in Hp by done. destruct (Ho p op Hp) as [Hlt (sp & Hsp & Hhp)].
      split; [lia|]. exists sp. rewrite lookup_insert_ne by (intros E; by apply (hooked_other p op Hp)). done.
Qed.

Lemma hooked_wraps : wraps x hooked.
Proof.
  split; [exact hooked_ok|exact hooked_objects| |done|done].
  intros k. cbn. split.
  - intros sk Hk. destruct (decide (k = l)) as [-> |].
    + rewrite lookup_insert_eq. eexists. replace sk with s by congruence. reflexivity.
    + rewrite lookup_insert_ne by done. exists (s_hook sk). by rewrite set_hook_same.
  - intros [<-|[_ ?]]%lookup_insert_is_Some; [by eexists|done].
Qed.
End Hooked.

(** The object for a setting: the one it has, or a new one. *)
Lemma wrap_run x l s : cxx_ok x -> heap (x_config x) !! l = Some s ->
  exists p o x', wrapSetting (Some l) x = (Ret (inl p), x') /\ wraps x x' /\
    x_objects x' !! p = Some o /\ _setting o = l /\ _type o = type_of_code (s_type s) /\
    (forall q oq, x_objects x !! q = Some oq -> _setting oq = l -> q = p).
Proof.
  intros Hx Hs. pose proof Hx as [[Hwf Hmv] Hd Hh Ho]. unfold wrapSetting.
  rewrite (try_ret _ _ x x l) by (by apply read_run). rewrite (try_ret _ _ x x s) by (by apply deref_run).
  destruct (s_hook s) as [h|] eqn:Eh.
  - destruct (Hh l s h Hs Eh) as (p & o & -> & Hp & Hl & Ht). exists p, o, x.
    split_and!; [done|by apply wraps_refl|done|done|done|].
    intros q oq Hq Hlq. destruct (Ho q oq Hq) as [_ (s' & Hs' & Hh')]. rewrite Hlq in Hs'. congruence.
  - rewrite (try_ret _ _ _ _ _ (new_Setting_run x l s Hmv Hs)).
    rewrite (try_ret _ _ _ (hooked x l s) tt).
    2:{ apply call_run; [|done]. exact (update_live l (set_hook (Some (Zpos (x_next x)))) s _ Hs). }
    exists (x_next x), (object_for x l s), (hooked x l s).
    split_and!; [done|by apply hooked_wraps|cbn; by rewrite lookup_insert_eq|done|done|].
    intros q oq Hq Hlq. by destruct (hooked_other x l s Hx Hs Eh q oq Hq).
Qed.

(** ** Routes: the steps from the root to a setting *)

Inductive route (c : config) : loc -> list path_step -> Prop :=
  | route_root l s : heap c !! l = Some s -> s_parent s = None -> route c l []
  | route_member l s p n steps : heap c !! l = Some s -> s_parent s = Some p -> s_name s = Some n ->
      route c p steps -> route c l (steps ++ [Member n])
  | route_elem l s p sp i steps : heap c !! l = Some s -> s_parent s = Some p -> s_name s = None ->
      heap c !! p = Some sp -> index_of (children sp) l 0 = i ->
      route c p steps -> route c l (steps ++ [Elem i]).

Definition path_text (steps : list path_step) : string :=
  match steps with
  | [] => ""
  | st :: steps' => step_text st +:+ rest_text (List.map (fun st => ("."%char, st)) steps')
  end.

Lemma index_of_found els l k : l ∈ els -> exists i, index_of els l k = k + Z.of_nat i /\ els !! i = Some l.
Proof.
  revert k. induction els as [|e els IH]; intros k Hl; [by apply not_elem_of_nil in Hl|]. cbn [index_of].
  destruct (Pos.eqb_spec e l) as [-> |Hne]; [exists 0%nat; split; [lia|done]|].
  apply elem_of_cons in Hl as [-> |Hl]; [done|]. destruct (IH (k + 1) Hl) as (i & Hi & Ei).
  exists (S i). split; [lia|done].
Qed.

(** Enough room for indexes: there are fewer settings than integers. *)
Definition few (c : config) : Prop := Zpos (next c) <= INT_MAX.

Lemma NoDup_bounded (els : list loc) (m : positive) : NoDup els -> (forall e, e ∈ els -> (e < m)%positive) ->
  (length els < Pos.to_nat m)%nat.
Proof.
  intros Hnd Hlt. assert (NoDup (List.map Pos.to_nat els)) as Hnd2.
  { apply (NoDup_fmap_2 Pos.to_nat). done. }
  assert (incl (List.map Pos.to_nat els) (seq 1 (Pos.to_nat m - 1))) as Hin.
  { intros k Hk. apply in_map_iff in Hk as (e & <- & He). apply list_elem_of_In, Hlt in He.
    apply in_seq. lia. }
  apply NoDup_ListNoDup in Hnd2. pose proof (NoDup_incl_length Hnd2 Hin) as Hle.
  rewrite length_map, length_seq in Hle. lia.
Qed.

Lemma vector_children t s : s_type s = t -> value_ok t (s_value s) -> children s <> [] -> is_aggregate t = true.
Proof. unfold children. intros <- Hv Hc. destruct (s_value s); try done. by destruct (s_type s). Qed.

(** A step that has a text. *)
Definition worded (st : path_step) : Prop := (0 < String.length (step_text st))%nat.

Lemma worded_ok steps : Forall step_ok steps -> Forall worded steps.
Proof. intros H. eapply Forall_impl; [exact H|]. exact step_text_length. Qed.

(** Every setting has a route, its steps are fit for a path, and descending
    along it leads to the setting. *)
Lemma route_found c l s : wf c -> heap c !! l = Some s -> exists steps,
  route c l steps /\ Forall worded steps /\ (length steps < Pos.to_nat l)%nat /\
  (few c -> Forall step_ok steps /\ forall r, root c = Some r -> descend c r steps = Some l).
Proof.
  intros Hwf. revert s. induction (Wf_nat.well_founded_ltof _ Pos.to_nat l) as [l _ IH]. intros s Hs.
  destruct (s_parent s) as [p|] eqn:Ep.
  - destruct (wf_parent c Hwf l s p Hs Ep) as (Hlt & sp & Hsp & Hin).
    destruct (IH p ltac:(unfold Wf_nat.ltof; lia) sp Hsp) as (steps & Hr & Hword & Hlen & Hfew).
    destruct (wf_child c Hwf p sp l Hsp Hin) as (s' & Hs' & _ & Hn). assert (s' = s) as -> by congruence.
    assert (forall r st, few c -> root c = Some r -> child_at c p st = Some l ->
      descend c r (steps ++ [st]) = Some l) as Happ.
    { intros r st Hc Hroot Hst. destruct (Hfew Hc) as [_ Hd]. specialize (Hd r Hroot). revert Hd. clear -Hst.
      revert r. induction steps as [|st' steps IHs]; intros r; cbn [app descend].
      - intros [= ->]. by rewrite Hst.
      - destruct (child_at c r st') as [r'|]; [|done]. cbn [mbind option_bind]. apply IHs. }
    destruct (decide (s_type sp = T_GROUP)) as [Hg|Hg].
    + rewrite Hg in Hn. destruct Hn as (n & Hn & Hv). exists (steps ++ [Member n]). split_and!.
      * by eapply route_member.
      * apply Forall_app. split; [done|]. apply Forall_singleton. by apply (step_text_length (Member n)).
      * rewrite length_app. simpl. lia.
      * intros Hc. destruct (Hfew Hc) as [Hok _]. split; [apply Forall_app; split; [done|by apply Forall_singleton]|].
        intros r Hroot. apply Happ; [done|done|]. cbn [child_at].
        apply (member_iff c p sp n l Hwf Hsp Hg). split; [done|]. exists s. split; [done|].
        by rewrite (valid_name_key n Hv).
    + destruct (index_of_found (children sp) l 0 Hin) as (i & Ei & Hi).
      assert (s_name s = None) as Hnone by (destruct (s_type sp); done).
      pose proof (NoDup_bounded (children sp) (next c) (wf_nodup c Hwf p sp Hsp)) as Hb.
      assert (Z.of_nat i < Zpos (next c)) as Hib.
      { apply lookup_lt_Some in Hi. assert (length (children sp) < Pos.to_nat (next c))%nat; [|lia].
        apply Hb. intros e He. destruct (live_children c p sp Hwf Hsp e He) as [se Hse]. by eapply wf_next. }
      exists (steps ++ [Elem (Z.of_nat i)]). split_and!.
      * eapply route_elem; try done.
      * apply Forall_app. split; [done|]. apply Forall_singleton. unfold worded. simpl. lia.
      * rewrite length_app. simpl. lia.
      * intros Hc. destruct (Hfew Hc) as [Hok _].
        split; [apply Forall_app; split; [done|]; apply Forall_singleton; cbn [step_ok]; unfold few in Hc; lia|].
        intros r Hroot. apply Happ; [done|done|]. cbn [child_at]. rewrite Hsp. cbn [mbind option_bind]. unfold elem_at.
        rewrite (vector_children _ sp eq_refl (wf_value c Hwf p sp Hsp)) by (intros E; by rewrite E in Hin; apply not_elem_of_nil in Hin).
        unfold few, INT_MAX in Hc. unfold uwrap. rewrite Z.mod_small by lia. by rewrite Nat2Z.id.
  - exists []. split_and!; [by eapply route_root|constructor|simpl; lia|]. intros _. split; [constructor|]. intros r Hr.
    rewrite (wf_orphan c Hwf l s Hs Ep) in Hr. by injection Hr as ->.
Qed.

Lemma route_wraps x x' l steps : wraps x x' -> route (x_config x) l steps -> route (x_config x') l steps.
Proof.
  intros H. induction 1 as [l s Hs Hp|l s p n steps Hs Hp Hn _ IH|l s p sp i steps Hs Hp Hn Hsp Hi _ IH].
  - destruct (wraps_setting x x' l s H Hs) as (s' & Hs' & _ & _ & _ & Ep). apply (route_root _ l s'); congruence.
  - destruct (wraps_setting x x' l s H Hs) as (s' & Hs' & En & _ & _ & Ep). apply (route_member _ l s' p); congruence.
  - destruct (wraps_setting x x' l s H Hs) as (s' & Hs' & En & _ & _ & Ep).
    destruct (wraps_setting x x' p sp H Hsp) as (sp' & Hsp' & _).
    apply (route_elem _ l s' p sp'); try congruence. by rewrite (wraps_children x x' p sp sp').
Qed.

Lemma path_text_snoc steps st : Forall worded steps ->
  path_text (steps ++ [st]) = (match path_text steps with EmptyString => "" | t => t +:+ "." end) +:+ step_text st.
Proof.
  destruct steps as [|st0 steps]; intros Hok; cbn [app path_text].
  - cbn [List.map rest_text]. by rewrite app_nil_string.
  - apply Forall_cons in Hok as [Hlen _]. unfold worded in Hlen.
    assert (rest_text (List.map (fun st => ("."%char, st)) (steps ++ [st])) =
      rest_text (List.map (fun st => ("."%char, st)) steps) +:+ String "." (step_text st)) as ->.
    { induction steps as [|st1 steps IH]; cbn [app List.map rest_text]; [by rewrite app_nil_string|].
      rewrite IH. change (String "." ?a +:+ ?b) with (String "." (a +:+ b)). by rewrite string_app_assoc. }
    destruct (step_text st0) as [|ch t]; [simpl in Hlen; lia|].
    change (String ch t +:+ ?b) with (String ch (t +:+ b)). cbv iota.
    change (String ch (?a +:+ ?b) +:+ ?c) with (String ch ((a +:+ b) +:+ c)).
    change (String ch ?a +:+ ?b) with (String ch (a +:+ b)). f_equal. by rewrite !string_app_assoc.
Qed.

(** ** Paths of settings *)

Lemma route_live c l steps : route c l steps -> is_Some (heap c !! l).
Proof. destruct 1; by eexists. Qed.

Lemma isRoot_run x p o s : x_objects x !! p = Some o -> heap (x_config x) !! _setting o = Some s ->
  Setting_isRoot p x = (Ret (inl (match s_parent s with None => true | Some _ => false end)), x).
Proof.
  intros Ho Hs. unfold Setting_isRoot. rewrite (try_ret _ _ _ _ _ (object_run x p o Ho)).
  by rewrite (try_ret _ _ _ _ _ (deref_run x _ s Hs)).
Qed.

Lemma getName_run x p o s : x_objects x !! p = Some o -> heap (x_config x) !! _setting o = Some s ->
  Setting_getName p x = (Ret (inl (s_name s)), x).
Proof.
  intros Ho Hs. unfold Setting_getName. rewrite (try_ret _ _ _ _ _ (object_run x p o Ho)).
  by rewrite (try_ret _ _ _ _ _ (deref_run x _ s Hs)).
Qed.

Lemma getParent_run x p o s q : x_objects x !! p = Some o -> heap (x_config x) !! _setting o = Some s ->
  s_parent s = Some q -> Setting_getParent p x = wrapSetting (Some q) x.
Proof.
  intros Ho Hs Hq. unfold Setting_getParent. rewrite (try_ret _ _ _ _ _ (object_run x p o Ho)).
  rewrite (try_ret _ _ _ _ _ (deref_run x _ s Hs)). by rewrite Hq.
Qed.

Lemma getIndex_run x p o s q sq : cxx_ok x -> x_objects x !! p = Some o -> heap (x_config x) !! _setting o = Some s ->
  s_parent s = Some q -> heap (x_config x) !! q = Some sq ->
  Setting_getIndex p x = (Ret (inl (index_of (children sq) (_setting o) 0)), x).
Proof.
  intros Hx Ho Hs Hq Hsq. destruct (co_sound x Hx) as [Hwf _].
  destruct (wf_parent _ Hwf _ s q Hs Hq) as (_ & sq' & Hsq' & Hin). assert (sq' = sq) as -> by congruence.
  unfold Setting_getIndex. rewrite (try_ret _ _ _ _ _ (object_run x p o Ho)). apply read_run.
  unfold config_setting_index. rewrite (bind_ret _ _ _ _ _ (deref_live _ s _ Hs)), Hq.
  rewrite (bind_ret _ _ _ _ _ (deref_live _ sq _ Hsq)).
  unfold list_of, children in *. destruct (s_value sq) as [| | | | |lst]; try by apply not_elem_of_nil in Hin.
  erewrite bind_ret; [|reflexivity]. by erewrite bind_ret; [|reflexivity].
Qed.

Lemma constructPath_run n : forall x p o steps, cxx_ok x -> x_objects x !! p = Some o ->
  route (x_config x) (_setting o) steps -> Forall worded steps -> (length steps < n)%nat ->
  exists x', constructPath n p "" x = (Ret (inl (path_text steps)), x') /\ wraps x x'.
Proof.
  induction n as [|n IH]; intros x p o steps Hx Ho Hr Hok Hn; [lia|]. cbn [constructPath].
  destruct (route_live _ _ _ Hr) as [s Hs]. rewrite (try_ret _ _ _ _ _ (isRoot_run x p o s Ho Hs)).
  destruct (s_parent s) as [q|] eqn:Hq.
  - destruct (co_sound x Hx) as [Hwf _]. destruct (wf_parent _ Hwf _ s q Hs Hq) as (_ & sq & Hsq & _).
    assert (exists steps' st, steps = steps' ++ [st] /\ route (x_config x) q steps' /\
      match st with Member nm => s_name s = Some nm
      | Elem i => s_name s = None /\ index_of (children sq) (_setting o) 0 = i end) as (steps' & st & -> & Hr' & Hst).
    { inversion Hr as [l0 s0 Hs0 Hp0|l0 s0 p0 nm st' Hs0 Hp0 Hn0 Hr0|l0 s0 p0 sp0 i st' Hs0 Hp0 Hn0 Hsp0 Hi0 Hr0];
        subst; assert (s0 = s) as -> by congruence; try congruence; assert (p0 = q) as -> by congruence.
      - by exists st', (Member nm).
      - assert (sp0 = sq) as -> by congruence. by eexists st', (Elem _). }
    destruct (wrap_run x q sq Hx Hsq) as (pq & oq & x1 & E1 & Hw1 & Hpq & Hlq & _).
    rewrite (try_ret _ _ x x1 pq) by (by rewrite (getParent_run x p o s q Ho Hs Hq)).
    pose proof (wr_ok _ _ Hw1) as Hx1. pose proof (wr_objects _ _ Hw1 p o Ho) as Ho1.
    apply Forall_app in Hok as [Hok' Hokst]. rewrite length_app in Hn. simpl in Hn.
    rewrite <- Hlq in Hr'. pose proof (route_wraps x x1 _ _ Hw1 Hr') as Hr1.
    destruct (IH x1 pq oq steps' Hx1 Hpq Hr1 Hok' ltac:(lia)) as (x2 & E2 & Hw2).
    rewrite (try_ret _ _ _ _ _ E2). pose proof (wraps_trans _ _ _ Hw1 Hw2) as Hw. cbv beta zeta.
    destruct (wraps_setting x x2 _ s Hw Hs) as (s2 & Hs2 & En & _ & _ & Ep).
    pose proof (wr_objects _ _ Hw p o Ho) as Ho2.
    rewrite (try_ret _ _ _ _ _ (getName_run x2 p o s2 Ho2 Hs2)), En.
    exists x2. split; [|done]. rewrite path_text_snoc by done. destruct st as [nm|i].
    + rewrite Hst. by destruct (path_text steps').
    + destruct Hst as [-> <-]. destruct (wraps_setting x x2 q sq Hw Hsq) as (sq2 & Hsq2 & _).
      rewrite (try_ret _ _ _ _ _ (getIndex_run x2 p o s2 q sq2 (wr_ok _ _ Hw) Ho2 Hs2 ltac:(congruence) Hsq2)).
      rewrite (wraps_children x x2 q sq sq2 Hw Hsq Hsq2). by destruct (path_text steps').
  - exists x. split; [|by apply wraps_refl].
    inversion Hr as [l0 s0 Hs0 Hp0|l0 s0 p0 nm st' Hs0 Hp0 Hn0 Hr0|l0 s0 p0 sp0 i st' Hs0 Hp0 Hn0 Hsp0 Hi0 Hr0];
      subst; [done|congruence..].
Qed.

(** The path of an object's setting. *)
Lemma getPath_run x p o : cxx_ok x -> x_objects x !! p = Some o -> exists steps x',
  Setting_getPath p x = (Ret (inl (path_text steps)), x') /\ wraps x x' /\
  route (x_config x) (_setting o) steps.
Proof.
  intros Hx Ho. destruct (object_setting x p o Hx Ho) as (s & Hs & _). destruct (co_sound x Hx) as [Hwf _].
  destruct (route_found _ _ s Hwf Hs) as (steps & Hr & Hok & Hlen & _).
  pose proof (wf_next _ Hwf _ _ Hs).
  destruct (constructPath_run (destroy_fuel (x_config x)) x p o steps Hx Ho Hr Hok) as (x' & E & Hw).
  { unfold destroy_fuel. lia. }
  exists steps, x'. split_and!; [|done..]. unfold Setting_getPath. by erewrite bind_ret; [|reflexivity].
Qed.

Lemma route_unique c l steps1 steps2 : route c l steps1 -> route c l steps2 -> steps1 = steps2.
Proof.
  intros H1. revert steps2. induction H1 as [l s Hs Hp|l s p n st1 Hs Hp Hn _ IH|l s p sp i st1 Hs Hp Hn Hsp Hi _ IH];
    intros steps2 H2; inversion H2 as [l0 s0 Hs0 Hp0|l0 s0 p0 n0 st2 Hs0 Hp0 Hn0 Hr0|l0 s0 p0 sp0 i0 st2 Hs0 Hp0 Hn0 Hsp0 Hi0 Hr0];
    subst; try congruence; assert (p0 = p) as -> by congruence; f_equal; try (by apply IH); try congruence.
Qed.

Lemma wraps_few x x' : wraps x x' -> few (x_config x) -> few (x_config x').
Proof. intros H. unfold few. by rewrite (wr_config _ _ H). Qed.
