(* ===== verification/CxxCalls.v ===== *)
(** * What the methods of the C++ interface do to objects through the C library

    Computations that are safe: they return a result or throw, and keep objects
    and settings in correspondence.  The operations of the C library that a
    method calls, by what they do to hooks: none changes, or those of a removed
    tree go to the destructor. *)

From Stdlib Require Import SpecFloat.
From S2P Require Import Prelude Double CString Setting Config ConfigWf ConfigProps ConfigTree ConfigApi.
From S2P Require Import ScanCtx ConfigRead ConfigWrite Cxx CxxProps.
Local Open Scope Z_scope.
Local Open Scope cxx_scope.

(** ** Safe computations *)

Definition safe {A} (m : XM A) (x : cxx) (P : A -> cxx -> Prop) : Prop :=
  returns m x (fun r x' => cxx_ok x' /\ match r with inl a => P a x' | inr _ => True end).

Lemma safe_ok {A} (a : A) x (P : A -> cxx -> Prop) : cxx_ok x -> P a x -> safe (ok a) x P.
Proof. intros Hx HP. by apply returns_ret. Qed.

Lemma safe_throw {A} e x (P : A -> cxx -> Prop) : cxx_ok x -> safe (throw e) x P.
Proof. intros Hx. by apply returns_ret. Qed.

Lemma safe_bind {A B} (m : XM A) (f : A -> XM B) x (P : A -> cxx -> Prop) Q : safe m x P ->
  (forall a x', cxx_ok x' -> P a x' -> safe (f a) x' Q) -> safe (a <~ m; f a) x Q.
Proof.
  intros Hm Hf. unfold safe, try_bind. apply returns_bind. eapply returns_mono; [|exact Hm].
  intros [a|e] x' [Hx' HP]; [by apply Hf|]. by apply returns_ret.
Qed.

Lemma safe_mono {A} (m : XM A) x (P Q : A -> cxx -> Prop) : (forall a x', P a x' -> Q a x') -> safe m x P -> safe m x Q.
Proof.
  intros H. apply returns_mono. intros [a|e] x' [Hx HP]; (split; [done|]); [by apply H|done].
Qed.

(** Steps whose run is known. *)
Lemma safe_step {A B} (m : XM A) (f : A -> XM B) x a x' Q : m x = (Ret (inl a), x') -> safe (f a) x' Q ->
  safe (a <~ m; f a) x Q.
Proof. intros E H. unfold safe, returns. by rewrite (try_ret _ _ _ _ _ E). Qed.

Lemma safe_read {A B} (m : CM A) (f : A -> XM B) x Q : reads m (x_config x) -> (forall a, safe (f a) x Q) ->
  safe (a <~ call_c m; f a) x Q.
Proof. intros [a E] H. eapply safe_step; [by apply read_run|]. apply H. Qed.

Lemma safe_catch {A} (m : XM A) x P : safe m x P -> safe (catch m) x (fun _ _ => True).
Proof.
  intros H. unfold safe, catch. apply returns_bind. eapply returns_mono; [|exact H].
  intros r x' [Hx _]. by apply returns_ret.
Qed.

(** ** Frames

    Whatever its outcome, the computation only changes settings' values and
    adds settings without hooks. *)
Record frames (c c' : config) : Prop := {
  fr_bounded : forall l s, heap c' !! l = Some s -> (l < next c')%positive;
  fr_destroyed : destroyed c' = destroyed c;
  fr_destructor : destructor c' = destructor c;
  fr_old : forall l s, heap c !! l = Some s -> exists s', heap c' !! l = Some s' /\
    s_hook s' = s_hook s /\ s_type s' = s_type s;
  fr_new : forall l s', heap c' !! l = Some s' -> heap c !! l = None -> s_hook s' = None
}.

Definition bounded (c : config) : Prop := forall l s, heap c !! l = Some s -> (l < next c)%positive.

Lemma frames_refl c : bounded c -> frames c c.
Proof. intros Hc. split; try done; [by eauto|congruence]. Qed.

Lemma frames_trans c1 c2 c3 : frames c1 c2 -> frames c2 c3 -> frames c1 c3.
Proof.
  intros [_ D1 T1 O1 N1] [B2 D2 T2 O2 N2]. split; [done|congruence..| |].
  - intros l s Hs. destruct (O1 l s Hs) as (s2 & Hs2 & E1 & E2). destruct (O2 l s2 Hs2) as (s3 & Hs3 & E3 & E4).
    exists s3. split_and!; congruence.
  - intros l s3 Hs3 Hs1. destruct (heap c2 !! l) as [s2|] eqn:Hs2; [|by eapply N2].
    destruct (O2 l s2 Hs2) as (s3' & Hs3' & E & _). specialize (N1 l s2 Hs2 Hs1). congruence.
Qed.

Definition steps {A} (m : CM A) : Prop := forall c, bounded c -> frames c (m c).2.

Lemma steps_ret {A} (a : A) : steps (mret a).
Proof. intros c. apply frames_refl. Qed.

Lemma steps_bind {A B} (m : CM A) (f : A -> CM B) : steps m -> (forall a, steps (f a)) -> steps (m ≫= f).
Proof.
  intros Hm Hf c Hc. specialize (Hm c Hc). unfold mbind, M_bind. destruct (m c) as [[a|z| |w|] c']; try done.
  eapply frames_trans; [exact Hm|]. apply Hf. exact (fr_bounded _ _ Hm).
Qed.

Lemma steps_lift {A} w (o : option A) : steps (lift_opt w o).
Proof. intros c. destruct o; apply frames_refl. Qed.

Lemma steps_deref l : steps (deref l).
Proof. intros c Hc. unfold deref. munfold. destruct (heap c !! l); by apply frames_refl. Qed.

Lemma steps_alloc s : s_hook s = None -> steps (alloc s).
Proof.
  intros Hh c Hc. cbn [alloc snd].
  assert (heap c !! next c = None) as Hf.
  { destruct (heap c !! next c) as [s'|] eqn:E; [|done]. apply Hc in E. lia. }
  split; cbn [heap next destroyed destructor]; try done.
  - intros l s'. destruct (decide (l = next c)) as [-> |]; [lia|]. rewrite lookup_insert_ne by done.
    intros E%Hc. lia.
  - intros l s' Hs'. exists s'. rewrite lookup_insert_ne by congruence. done.
  - intros l s'. destruct (decide (l = next c)) as [-> |]; [rewrite lookup_insert_eq; congruence|].
    rewrite lookup_insert_ne by done. congruence.
Qed.

Lemma frames_insert c l s s' : bounded c -> heap c !! l = Some s -> s_hook s' = s_hook s -> s_type s' = s_type s ->
  frames c (with_heap (<[l := s']> (heap c)) c).
Proof.
  intros Hc Hs Eh Et. split; try done; cbn [heap next with_heap]; intros k sk.
  - destruct (decide (k = l)) as [-> |]; [intros _; by eapply Hc|]. rewrite lookup_insert_ne by done. apply Hc.
  - intros Hk. destruct (decide (k = l)) as [-> |].
    + rewrite lookup_insert_eq. exists s'. replace sk with s by congruence. done.
    + rewrite lookup_insert_ne by done. eauto.
  - destruct (decide (k = l)) as [-> |]; [congruence|]. rewrite lookup_insert_ne by done. congruence.
Qed.

Lemma steps_update l f : (forall s, s_hook (f s) = s_hook s /\ s_type (f s) = s_type s) -> steps (update l f).
Proof.
  intros Hf c Hc. unfold update, deref. munfold. destruct (heap c !! l) as [s|] eqn:Hs; [|by apply frames_refl].
  destruct (Hf s). by apply frames_insert with s.
Qed.

Lemma steps_nonnull {A} (o : option A) : steps (nonnull o).
Proof. apply steps_lift. Qed.

Create HintDb framed.
#[export] Hint Resolve steps_ret steps_lift steps_deref steps_nonnull : framed.

Ltac framed :=
  repeat (match goal with
    | |- steps (_ ≫= _) => apply steps_bind; [|intros]
    | |- steps (match ?x with _ => _ end) => destruct x
    | |- steps (let (_, _) := ?x in _) => destruct x
    end); auto with framed.

Lemma steps_list_search els i name : steps (list_search els i name).
Proof. revert i. induction els as [|e els IH]; intros i; cbn [list_search]; framed. Qed.

Lemma steps_get_member l name : steps (config_setting_get_member l name).
Proof.
  unfold config_setting_get_member, config_list_search, list_of. framed. apply steps_list_search.
Qed.

Lemma steps_list_add lst l : steps (config_list_add lst l).
Proof. unfold config_list_add. destruct (_ <? _); [apply steps_ret|]. intros c. apply frames_refl. Qed.

Lemma steps_create p name t : steps (config_setting_create p name t).
Proof.
  unfold config_setting_create, list_of. framed; [by apply steps_alloc|apply steps_list_add|by apply steps_update].
Qed.

Lemma steps_add p name ty : steps (config_setting_add p name ty).
Proof. unfold config_setting_add. framed; [apply steps_get_member|apply steps_create]. Qed.

(** ** Operations that keep hooks and types *)

Definition keeps (c c' : config) : Prop := sound c' /\ frames c c'.

Lemma sound_bounded c : sound c -> bounded c.
Proof. intros [Hwf _] l s. apply (wf_next c Hwf). Qed.

Lemma keeps_refl c : sound c -> keeps c c.
Proof. intros Hc. split; [done|]. by apply frames_refl, sound_bounded. Qed.

Lemma keeps_ok x c : cxx_ok x -> keeps (x_config x) c -> cxx_ok (with_config c x).
Proof.
  intros [Hs Hd Hh Ho] [Ks [_ Kd Kt Kold Knew]]. split; cbn [x_config x_objects x_next with_config]; [done|congruence| |].
  - intros l s h Hl Ehk. destruct (heap (x_config x) !! l) as [s0|] eqn:E0.
    + destruct (Kold l s0 E0) as (s' & Hs' & Eh & Et). assert (s' = s) as -> by congruence.
      rewrite Eh in Ehk. destruct (Hh l s0 h E0 Ehk) as (p & o & -> & Hp & Hlo & Hto).
      exists p, o. by rewrite Et.
    + specialize (Knew l s Hl E0). congruence.
  - intros p o Hp. destruct (Ho p o Hp) as [Hlt (s & Hls & Ehs)]. split; [done|].
    destruct (Kold _ s Hls) as (s' & Hs' & Eh & _). exists s'. by rewrite Eh.
Qed.

(** A call of such an operation; the objects stay as they are. *)
Lemma safe_keeps_result {A B} (m : CM A) (f : A -> XM B) x (P : A -> config -> Prop) Q : cxx_ok x ->
  returns m (x_config x) (fun a c => keeps (x_config x) c /\ P a c) ->
  (forall a c, P a c -> cxx_ok (with_config c x) -> safe (f a) (with_config c x) Q) ->
  safe (a <~ call_c m; f a) x Q.
Proof.
  intros Hx (a & c & E & Hk & HP) H. eapply safe_step; [apply call_run; [exact E|apply Hk]|].
  apply H; [done|by apply keeps_ok].
Qed.

Lemma safe_keeps {A B} (m : CM A) (f : A -> XM B) x Q : cxx_ok x ->
  returns m (x_config x) (fun _ => keeps (x_config x)) ->
  (forall a c, cxx_ok (with_config c x) -> safe (f a) (with_config c x) Q) ->
  safe (a <~ call_c m; f a) x Q.
Proof.
  intros Hx Hm H. apply (safe_keeps_result m f x (fun _ _ => True) Q Hx); [|by intros a c _; apply H].
  eapply returns_mono; [|exact Hm]. by split.
Qed.

(** ** Setters *)

(** What a setter may do to the heap. *)
Definition scalar_stored (l : loc) (s : setting) (c c' : config) : Prop :=
  c' = c \/ exists s', c' = with_heap (<[l := s']> (heap c)) c /\ s_hook s' = s_hook s /\ s_type s' = s_type s.

Lemma stored_store l s s' c b : s_hook s' = s_hook s -> s_type s' = s_type s ->
  wp (store l s';; mret b : CM bool) (fun _ => scalar_stored l s c) c.
Proof. right. by eexists. Qed.

Lemma stored_auto l s c (m : CM bool) : wp m (fun _ => scalar_stored l s c) c ->
  wp (a ← setting_auto_convert; if a : bool then m else mret false) (fun _ => scalar_stored l s c) c.
Proof.
  intros Hm. unfold setting_auto_convert, setting_config, wp in *. munfold. destruct (moved c); [by left|].
  destruct (has_option c OPTION_AUTOCONVERT); [done|by left].
Qed.

Lemma stored_lift {A} l s c w (o : option A) (f : A -> CM bool) : (forall a, wp (f a) (fun _ => scalar_stored l s c) c) ->
  wp (a ← lift_opt w o; f a) (fun _ => scalar_stored l s c) c.
Proof. intros Hf. destruct o; [apply Hf|by left]. Qed.

Section Setters.
Context (l : loc) (s : setting) (c : config) (Hs : heap c !! l = Some s) (Hn : s_type s <> T_NONE).

Ltac setter_store :=
  apply wp_bind; unfold wp at 1; rewrite (deref_live _ _ _ Hs); unfold then_, adopt; destruct (s_type s) eqn:Et; try done; repeat (apply stored_auto || (apply stored_lift; intros));
  first [by apply stored_store | by left].

Lemma set_int_stored v : wp (config_setting_set_int l v) (fun _ => scalar_stored l s c) c.
Proof. unfold config_setting_set_int. setter_store. Qed.
Lemma set_int64_stored v : wp (config_setting_set_int64 l v) (fun _ => scalar_stored l s c) c.
Proof. unfold config_setting_set_int64. setter_store. Qed.
Lemma set_float_stored v : wp (config_setting_set_float l v) (fun _ => scalar_stored l s c) c.
Proof. unfold config_setting_set_float. setter_store. Qed.
Lemma set_bool_stored v : wp (config_setting_set_bool l v) (fun _ => scalar_stored l s c) c.
Proof. unfold config_setting_set_bool. setter_store. Qed.
Lemma set_string_stored v : wp (config_setting_set_string l v) (fun _ => scalar_stored l s c) c.
Proof. unfold config_setting_set_string. setter_store. Qed.
End Setters.

(** Setters and the like. *)
Lemma keeps_insert c l s s' : sound c -> sound (with_heap (<[l := s']> (heap c)) c) -> heap c !! l = Some s ->
  s_hook s' = s_hook s -> s_type s' = s_type s -> keeps c (with_heap (<[l := s']> (heap c)) c).
Proof. intros Hc Hc' Hs Eh Et. split; [done|]. apply frames_insert with s; [by apply sound_bounded|done..]. Qed.

Lemma setter_keeps c l s (m : CM bool) : sound c -> heap c !! l = Some s -> returns m c (set_post c l s) ->
  wp m (fun _ => scalar_stored l s c) c -> returns m c (fun _ => keeps c).
Proof.
  intros Hc Hs (r & c' & E & Hp) Hw. exists r, c'. split; [done|]. unfold wp in Hw. rewrite E in Hw.
  pose proof (sound_grows c c' (proj2 Hc) (set_post_grows c l s (proj1 Hc) r c' Hp)) as Hc'.
  destruct Hw as [-> |(s' & -> & Eh & Et)]; [by apply keeps_refl|by apply keeps_insert with s].
Qed.

Lemma steps_keeps {A} c (m : CM A) (P : A -> config -> Prop) : sound c -> steps m -> returns m c P ->
  (forall a c', P a c' -> sound c') -> returns m c (fun a c' => keeps c c' /\ P a c').
Proof.
  intros Hc Hm (a & c' & E & HP) Hs. exists a, c'. split; [done|]. split; [|done]. split; [by eapply Hs|].
  specialize (Hm c (sound_bounded c Hc)). by rewrite E in Hm.
Qed.

Lemma format_keeps c l s f : sound c -> heap c !! l = Some s ->
  returns (config_setting_set_format l f) c (fun _ => keeps c).
Proof.
  intros Hc Hs. destruct (returns_set_format c l s (proj1 Hc) Hs f) as (r & c' & E & Hg).
  exists r, c'. split; [done|]. apply (sound_grows c c' (proj2 Hc)) in Hg. revert E.
  unfold config_setting_set_format. rewrite (bind_ret _ _ _ _ _ (deref_live _ _ _ Hs)).
  destruct (_ || _); munfold; intros E; injection E as <- <-; [by apply keeps_refl|by apply keeps_insert with s].
Qed.

(** A new setting: there is one more, live and without a hook. *)
Lemma add_keeps c p ps name ty : sound c -> heap c !! p = Some ps -> (s_type ps = T_GROUP -> name <> None) ->
  (forall n, name = Some n -> c_string n = true) ->
  returns (config_setting_add (Some p) name ty) c (fun r c' => keeps c c' /\
    match r with
    | Some l => exists s, heap c' !! l = Some s /\ Some (s_type s) = ctype_of_Z ty
    | None => ctype_of_Z ty = None \/ is_aggregate (s_type ps) = false \/ name <> None
    end).
Proof.
  intros Hc Hp Hn Hcs. eapply returns_mono; [|eapply (steps_keeps c _ (fun r c' => sound c' /\
    match r with
    | Some l => exists s, heap c' !! l = Some s /\ Some (s_type s) = ctype_of_Z ty
    | None => ctype_of_Z ty = None \/ is_aggregate (s_type ps) = false \/ name <> None
    end) Hc)].
  - by intros r c' (? & _ & ?).
  - apply steps_add.
  - apply (returns_add c p ps name ty); try done; [by destruct Hc| |].
    + intros H. split; [done|]. destruct H as [|[|(n & -> & _)]]; [by left|by right; left|by right; right].
    + intros t c' Ht _ Hg _ _ _ Hl _. split; [by eapply sound_grows; [apply Hc|]|]. by eexists.
  - by intros r c' [? _].
Qed.

(** ** Removal: the objects of the settings destroyed are deleted *)

Lemma deletes_lookup {A} ps (m : gmap positive A) p :
  foldl (fun m k => delete k m) m ps !! p = if decide (p ∈ ps) then None else m !! p.
Proof.
  revert m. induction ps as [|q ps IH]; intros m; cbn [foldl]; [by rewrite decide_False by apply not_elem_of_nil|].
  rewrite IH. destruct (decide (p ∈ ps)) as [H|H]; [by rewrite decide_True by (by constructor)|].
  destruct (decide (p = q)) as [-> |Hpq]; [rewrite decide_True by constructor; apply lookup_delete_eq|].
  rewrite lookup_delete_ne by done. rewrite decide_False; [done|]. by intros [?|?]%elem_of_cons.
Qed.

Lemma delete_all_run ps : forall x, NoDup ps -> (forall p, p ∈ ps -> is_Some (x_objects x !! p)) ->
  delete_all (map Zpos ps) x = (Ret tt, with_objects (foldl (fun m k => delete k m) (x_objects x) ps) x).
Proof.
  induction ps as [|p ps IH]; intros x Hnd Hps; cbn [map delete_all foldl]; [by destruct x|].
  apply NoDup_cons in Hnd as [Hp Hnd]. destruct (Hps p ltac:(constructor)) as [o Ho].
  assert (ConfigDestructor (Zpos p) x = (Ret tt, with_objects (delete p (x_objects x)) x)) as E.
  { unfold ConfigDestructor. erewrite bind_ret; [|reflexivity]. cbn [Z.to_pos]. by rewrite Ho. }
  rewrite (bind_ret _ _ _ _ _ E), IH; [done|done|]. intros q Hq. cbn [x_objects with_objects].
  rewrite lookup_delete_ne by (intros ->; done). apply Hps. by constructor.
Qed.

(** The hooks of distinct settings are the addresses of distinct objects. *)
Lemma hooks_objects x order : cxx_ok x -> NoDup order -> exists ps, NoDup ps /\
  omap (hook_of (x_config x)) order = map Zpos ps /\
  forall p, p ∈ ps <-> exists o, x_objects x !! p = Some o /\ _setting o ∈ order.
Proof.
  intros Hx. induction order as [|l order IH]; intros Hnd.
  { exists []. split_and!; [constructor|done|]. intros p. split; [by intros ?%not_elem_of_nil|].
    by intros (o & _ & ?%not_elem_of_nil). }
  apply NoDup_cons in Hnd as [Hl Hnd]. destruct (IH Hnd) as (ps & Hps & E & Hin).
  destruct (hook_of (x_config x) l) as [h|] eqn:Eh; cbn [omap list_omap]; rewrite Eh.
  - unfold hook_of in Eh. destruct (heap (x_config x) !! l) as [s|] eqn:Hs; [|done].
    destruct (co_hooks x Hx l s h Hs Eh) as (p & o & -> & Ho & Hlo & _). exists (p :: ps). split_and!.
    + constructor; [|done]. intros (o' & Ho' & Hlo')%Hin. replace o' with o in Hlo' by congruence. by rewrite Hlo in Hlo'.
    + cbn [map]. by f_equal.
    + intros q. rewrite elem_of_cons, Hin. split.
      * intros [-> |(oq & Hoq & Hlq)]; [exists o|exists oq]; (split; [done|]).
        -- rewrite Hlo. constructor.
        -- by constructor.
      * intros (oq & Hoq & Hlq). apply elem_of_cons in Hlq as [Hlq|Hlq]; [left|right; eauto].
        destruct (co_objects x Hx q oq Hoq) as [_ (sq & Hsq & Ehq)]. rewrite Hlq in Hsq. simpl in Eh. congruence.
  - exists ps. split_and!; [done|done|]. intros p. rewrite Hin. split; intros (o & Ho & Hlo); exists o; (split; [done|]).
    + by constructor.
    + apply elem_of_cons in Hlo as [Hlo|]; [|done]. destruct (co_objects x Hx p o Ho) as [_ (s & Hs & Ehs)].
      unfold hook_of in Eh. rewrite <- Hlo, Hs in Eh. simpl in Eh. congruence.
Qed.

(** A call that destroys the settings [order]. *)
Lemma call_destroys {A} (m : CM A) x a c order : cxx_ok x -> m (x_config x) = (Ret a, c) -> NoDup order ->
  destroyed c = destroyed (x_config x) ++ omap (hook_of (x_config x)) order ->
  exists objects, call_c m x = (Ret (inl a), with_objects objects (with_config c x)) /\
    forall p, objects !! p = match x_objects x !! p with
                             | Some o => if decide (_setting o ∈ order) then None else Some o
                             | None => None
                             end.
Proof.
  intros Hx E Hnd Hd. destruct (hooks_objects x order Hx Hnd) as (ps & Hps & Eps & Hin).
  exists (foldl (fun m k => delete k m) (x_objects x) ps). split.
  - unfold call_c. erewrite bind_ret; [|reflexivity]. rewrite E. erewrite bind_ret; [|reflexivity].
    rewrite Hd, drop_app_length, Eps. erewrite bind_ret; [|apply delete_all_run; [done|]]; [done|].
    intros p (o & Ho & _)%Hin. by exists o.
  - intros p. rewrite deletes_lookup. destruct (decide (p ∈ ps)) as [Hp|Hp].
    + apply Hin in Hp as (o & -> & Ho). by rewrite decide_True.
    + destruct (x_objects x !! p) as [o|] eqn:Ho; [|done]. rewrite decide_False; [done|]. intros Hlo. apply Hp, Hin. eauto.
Qed.

Lemma removed_ok {A} (m : CM A) x p e a c : cxx_ok x -> is_Some (heap (x_config x) !! p) -> m (x_config x) = (Ret a, c) ->
  removed (x_config x) p e c -> exists x', call_c m x = (Ret (inl a), x') /\ cxx_ok x' /\ x_config x' = c.
Proof.
  intros Hx [sp Hsp] E Hr. destruct (rm_hooks _ _ _ _ Hr) as (order & Hnd & Hord & Hd).
  rewrite (co_destructor x Hx) in Hd. destruct (call_destroys m x a c order Hx E Hnd Hd) as (objects & Ec & Hobj).
  exists (with_objects objects (with_config c x)). split_and!; [done| |done].
  destruct (rm_parent _ _ _ _ Hr sp Hsp) as (_ & _ & sp' & _ & Hsp' & _ & Etp).
  pose proof (rm_hook _ _ _ _ Hr sp sp' Hsp Hsp') as Ehp. pose proof Hx as [[Hwf Hmv] Hdes Hh Ho].
  assert (forall l s, heap c !! l = Some s -> (l ∉ order) /\ exists s0, heap (x_config x) !! l = Some s0 /\
    s_hook s0 = s_hook s /\ s_type s0 = s_type s) as Hold.
  { intros l s Hl. split; [intros Hin%Hord; by rewrite (rm_gone _ _ _ _ Hr) in Hl|].
    destruct (decide (l = p)) as [-> |Hlp]; [exists sp; split_and!; congruence|].
    exists s. rewrite <- (rm_kept _ _ _ _ Hr l Hlp); [done|]. intros Hb. by rewrite (rm_gone _ _ _ _ Hr) in Hl. }
  assert (forall l s, heap (x_config x) !! l = Some s -> l ∉ order -> exists s', heap c !! l = Some s' /\
    s_hook s' = s_hook s) as Hnew.
  { intros l s Hl Hno. destruct (decide (l = p)) as [-> |Hlp]; [exists sp'; split; congruence|].
    exists s. rewrite (rm_kept _ _ _ _ Hr l Hlp); [done|]. by rewrite <- Hord. }
  split; cbn [x_config x_objects x_next with_objects with_config].
  - split; [apply Hr|]. by rewrite (rm_moved _ _ _ _ Hr).
  - by rewrite (rm_destructor _ _ _ _ Hr).
  - intros l s h Hl Eh. destruct (Hold l s Hl) as (Hno & s0 & Hs0 & Eh0 & Et0).
    destruct (Hh l s0 h Hs0 ltac:(congruence)) as (q & o & -> & Hq & Hlo & Hto). exists q, o.
    rewrite Hobj, Hq, Hlo, decide_False by done. by rewrite <- Et0.
  - intros q o. rewrite Hobj. destruct (x_objects x !! q) as [o'|] eqn:Hq; [|done].
    destruct (decide _) as [|Hno]; [done|]. intros [= ->]. destruct (Ho q o Hq) as [Hlt (s & Hs & Eh)].
    split; [done|]. destruct (Hnew _ s Hs Hno) as (s' & Hs' & Eh'). exists s'. by rewrite Eh'.
Qed.

(** ** Lookup of any path *)

Lemma skip_while_length f s : (String.length (skip_while f s) <= String.length s)%nat.
Proof. induction s as [|ch s IH]; cbn [skip_while]; [done|]. destruct (f ch); simpl; lia. Qed.

Lemma lookup_loop_total c n : wf c -> forall l s p, heap c !! l = Some s -> (String.length p < n)%nat ->
  exists r, lookup_loop n l p c = (Ret r, c) /\ forall k, r = Some k -> is_Some (heap c !! k).
Proof.
  intros Hwf. induction n as [|n IH]; intros l s p Hs Hn; [lia|]. cbn [lookup_loop].
  pose proof (skip_while_length is_path_token p) as Hle. destruct (skip_while is_path_token p) as [|ch p1] eqn:Ep.
  { exists (Some l). split; [done|]. intros k [= <-]. by exists s. }
  simpl in Hle. destruct (ch =? "[")%char eqn:Ech.
  - rewrite (bind_ret _ _ _ _ _ (get_elem_ok c l s (atoi p1) Hwf Hs)).
    destruct (elem_at s (atoi p1)) as [f|] eqn:Ef.
    + destruct (live_children c l s Hwf Hs f (elem_at_child s _ f Ef)) as [sf Hsf].
      apply (IH f sf); [done|]. pose proof (skip_while_length (fun c => negb (strchr PATH_TOKENS c)) p1). lia.
    + eexists. split; [done|]. intros k. destruct p1; [|done]. intros [= <-]. by exists s.
  - rewrite (bind_ret _ _ _ _ _ (get_member_ok c l s (String ch p1) Hwf Hs)).
    destruct (member c l (String ch p1)) as [f|] eqn:Ef; [|by eexists].
    destruct (member_Some c l _ f Ef) as (s' & sf & nm & Hs' & Hg & Hin & Hsf & Hnm & Ek).
    apply (IH f sf); [done|]. destruct (wf_child c Hwf l s' f Hs' Hin) as (sf' & Hsf' & _ & Hno).
    rewrite Hg in Hno. destruct Hno as (nm' & Hnm' & Hv). assert (nm' = nm) as -> by congruence.
    assert (negb (strchr PATH_TOKENS ch) = true) as Hd.
    { rewrite (valid_name_key nm Hv) in Ek. unfold name_key in Ek. cbn [take_while] in Ek.
      destruct (negb (is_delim ch)) eqn:E.
      - unfold is_delim in E. apply negb_true_iff, orb_false_iff in E as [_ ->]. done.
      - subst nm. by destruct Hv. }
    cbn [skip_while]. rewrite Hd.
    pose proof (skip_while_length (fun c => negb (strchr PATH_TOKENS c)) p1). lia.
Qed.

Lemma lookup_total c l s path : wf c -> heap c !! l = Some s ->
  exists r, config_setting_lookup l path c = (Ret r, c) /\ forall k, r = Some k -> is_Some (heap c !! k).
Proof. intros Hwf Hs. apply (lookup_loop_total c _ Hwf l s path Hs). lia. Qed.
