(* ===== verification/CxxSafe.v ===== *)
(** * The methods of the C++ interface are safe

    Each method, on an object there is, ends with a result or with one of the
    interface's exceptions and keeps objects and settings in correspondence;
    the references it returns are to objects there are. *)

From Stdlib Require Import SpecFloat.
From S2P Require Import Prelude Double CString Setting Config ConfigWf ConfigProps ConfigTree ConfigApi.
From S2P Require Import ScanCtx ConfigRead ConfigWrite Cxx CxxProps CxxCalls.
Local Open Scope Z_scope.
Local Open Scope cxx_scope.

(** ** Steps of methods *)

(** An object and its setting. *)
Record wrapping (x : cxx) (p : positive) (o : object) (s : setting) : Prop := {
  wg_object : x_objects x !! p = Some o;
  wg_setting : heap (x_config x) !! _setting o = Some s;
  wg_hook : s_hook s = Some (Zpos p);
  wg_type : _type o = type_of_code (s_type s)
}.

Definition live (x : cxx) (p : positive) : Prop := is_Some (x_objects x !! p).

Lemma wrapping_live x p o s : wrapping x p o s -> live x p.
Proof. intros H. exists o. apply H. Qed.

Lemma live_wrapping x p : cxx_ok x -> live x p -> exists o s, wrapping x p o s.
Proof.
  intros Hx [o Ho]. destruct (object_setting x p o Hx Ho) as (s & Hs & Eh & Et). by exists o, s.
Qed.

Lemma safe_object {A} x p o (f : object -> XM A) Q : x_objects x !! p = Some o -> safe (f o) x Q ->
  safe (o <~ object_at p; f o) x Q.
Proof. intros Ho. apply safe_step. by apply object_run. Qed.

Lemma safe_deref {A} x l s (f : setting -> XM A) Q : heap (x_config x) !! l = Some s -> safe (f s) x Q ->
  safe (s <~ call_c (deref l); f s) x Q.
Proof. intros Hs. apply safe_step. by apply deref_run. Qed.

Lemma safe_bind_throw {A B} (m : XM A) (f : A -> XM B) x Q : safe m x (fun _ _ => False) -> safe (a <~ m; f a) x Q.
Proof. intros H. eapply safe_bind; [exact H|]. by intros. Qed.

(** Wrapping a setting there is. *)
Lemma safe_wrap x l s (Q : positive -> cxx -> Prop) : cxx_ok x -> heap (x_config x) !! l = Some s ->
  (forall p o x', wraps x x' -> x_objects x' !! p = Some o -> _setting o = l ->
     _type o = type_of_code (s_type s) -> Q p x') ->
  safe (wrapSetting (Some l)) x Q.
Proof.
  intros Hx Hs H. destruct (wrap_run x l s Hx Hs) as (p & o & x' & E & Hw & Hp & Hl & Ht & _).
  exists (inl p), x'. split; [done|]. split; [apply Hw|]. by eapply H.
Qed.

Lemma wraps_live x x' p : wraps x x' -> live x p -> live x' p.
Proof. intros Hw [o Ho]. exists o. by apply (wr_objects _ _ Hw). Qed.

Section Throwing.
Context {A : Type} (x : cxx) (this : positive) (Hx : cxx_ok x) (Hl : live x this).

Lemma safe_path {B} (f : string -> XM B) Q : (forall path x', wraps x x' -> safe (f path) x' Q) ->
  safe (path <~ Setting_getPath this; f path) x Q.
Proof.
  intros Hf. destruct Hl as [o Ho]. destruct (getPath_run x this o Hx Ho) as (steps & x' & E & Hw & _).
  eapply safe_step; [exact E|]. by apply Hf.
Qed.

Lemma safe_throw_at e (Q : A -> cxx -> Prop) : safe (throw_at e this) x Q.
Proof. apply safe_path. intros path x' Hw. apply safe_throw, Hw. Qed.

Lemma safe_throw_at_index e i (Q : A -> cxx -> Prop) : safe (throw_at_index e this i) x Q.
Proof. apply safe_path. intros path x' Hw. apply safe_throw, Hw. Qed.

Lemma safe_throw_at_name e n (Q : A -> cxx -> Prop) : safe (throw_at_name e this n) x Q.
Proof. apply safe_path. intros path x' Hw. apply safe_throw, Hw. Qed.
End Throwing.

(** ** Types *)

(** When a setting can be taken for one of a type. *)
Definition type_fits (c : config) (o : object) (type : cxx_type) : bool :=
  bool_decide (type = _type o) || (has_option c OPTION_AUTOCONVERT && isNumber o && is_numeric type).

Lemma assert_run x this o s type : cxx_ok x -> wrapping x this o s ->
  assertType this type x =
    if type_fits (x_config x) o type then (Ret (inl tt), x) else throw_at SettingTypeException this x.
Proof.
  intros Hx [Ho Hs _ Ht]. unfold assertType, type_fits. rewrite (try_ret _ _ _ _ _ (object_run x this o Ho)).
  destruct (decide _) as [->|Hne]; [by rewrite bool_decide_true|]. rewrite bool_decide_false by done. cbn [orb].
  destruct (isNumber o).
  - rewrite (try_ret _ _ x x (has_option (x_config x) OPTION_AUTOCONVERT)).
    + rewrite andb_true_r. by destruct (_ && _).
    + apply read_run. unfold setting_auto_convert, setting_config. munfold. by rewrite (proj2 (co_sound x Hx)).
  - rewrite (try_ret _ _ x x false) by done. by rewrite andb_false_r.
Qed.

Lemma safe_assert {A} x this o s type (m : XM A) Q : cxx_ok x -> wrapping x this o s ->
  (type_fits (x_config x) o type = true -> safe m x Q) -> safe (assertType this type ;~ m) x Q.
Proof.
  intros Hx Hw Hm. pose proof (assert_run x this o s type Hx Hw) as E. destruct (type_fits _ _ _).
  - eapply safe_step; [exact E|]. by apply Hm.
  - apply safe_bind_throw. unfold safe, returns. rewrite E.
    apply (safe_throw_at x this Hx (wrapping_live _ _ _ _ Hw) _ (fun _ _ => False)).
Qed.

Lemma fits_group c o s : _type o = type_of_code (s_type s) -> type_fits c o TypeGroup = true -> s_type s = T_GROUP.
Proof.
  intros Ht. unfold type_fits. rewrite andb_false_r, orb_false_r. intros E%bool_decide_eq_true.
  rewrite Ht in E. by destruct (s_type s).
Qed.

Lemma fits_some c o s type : _type o = type_of_code (s_type s) -> type <> TypeNone ->
  type_fits c o type = true -> s_type s <> T_NONE.
Proof.
  intros Ht Hn. unfold type_fits, isNumber. rewrite Ht. intros H E. rewrite E in H. simpl in H.
  apply orb_true_iff in H as [H%bool_decide_eq_true|H]; [done|]. by rewrite andb_false_r in H.
Qed.

(** ** The methods *)

Inductive method :=
  | M_isRoot (p : positive) | M_getName (p : positive) | M_getIndex (p : positive) | M_getPath (p : positive)
  | M_getParent (p : positive) | M_getLength (p : positive)
  | M_getSourceLine (p : positive) | M_getSourceFile (p : positive)
  | M_setFormat (p : positive) (f : cxx_format)
  | M_bool (p : positive) | M_int (p : positive) | M_unsigned_int (p : positive)
  | M_long_long (p : positive) | M_unsigned_long_long (p : positive)
  | M_double (p : positive) | M_float (p : positive) | M_const_char (p : positive) | M_string (p : positive)
  | A_bool (p : positive) (v : bool) | A_int (p : positive) (v : Z) | A_long_long (p : positive) (v : Z)
  | A_double (p : positive) (v : spec_float) | A_float (p : positive) (v : spec_float)
  | A_const_char (p : positive) (v : option string) | A_string (p : positive) (v : string)
  | M_lookup (p : positive) (path : string) | M_at_name (p : positive) (name : string)
  | M_at_index (p : positive) (i : Z) | M_exists (p : positive) (name : string)
  | M_remove_name (p : positive) (name : string) | M_remove_index (p : positive) (i : Z)
  | M_add_member (p : positive) (name : string) (type : cxx_type) | M_add_element (p : positive) (type : cxx_type)
  | M_begin (p : positive) | M_end (p : positive)
  | C_lookup (path : string) | C_exists (path : string) | C_getRoot
  | C_setAutoConvert (flag : bool) | C_setOptions (o : Z) | C_setDefaultFormat (f : cxx_format)
  | C_setTabWidth (w : Z) | C_setIncludeDir (dir : string).

(** The object it is called on, if it is a method of Setting. *)
Definition method_this (m : method) : option positive :=
  match m with
  | M_isRoot p | M_getName p | M_getIndex p | M_getPath p | M_getParent p | M_getLength p
  | M_getSourceLine p | M_getSourceFile p | M_setFormat p _ | M_bool p | M_int p | M_unsigned_int p
  | M_long_long p | M_unsigned_long_long p | M_double p | M_float p | M_const_char p | M_string p
  | A_bool p _ | A_int p _ | A_long_long p _ | A_double p _ | A_float p _ | A_const_char p _ | A_string p _
  | M_lookup p _ | M_at_name p _ | M_at_index p _ | M_exists p _ | M_remove_name p _ | M_remove_index p _
  | M_add_member p _ _ | M_add_element p _ | M_begin p | M_end p => Some p
  | C_lookup _ | C_exists _ | C_getRoot | C_setAutoConvert _ | C_setOptions _ | C_setDefaultFormat _
  | C_setTabWidth _ | C_setIncludeDir _ => None
  end.

(** The call, with the reference it returns. *)
Definition done_ {A} (m : XM A) : XM (option positive) := m ;~ ok None.
Definition refers (m : XM positive) : XM (option positive) := p <~ m; ok (Some p).

Definition run_method (m : method) : XM (option positive) :=
  match m with
  | M_isRoot p => done_ (Setting_isRoot p) | M_getName p => done_ (Setting_getName p)
  | M_getIndex p => done_ (Setting_getIndex p) | M_getPath p => done_ (Setting_getPath p)
  | M_getParent p => refers (Setting_getParent p) | M_getLength p => done_ (Setting_getLength p)
  | M_getSourceLine p => done_ (Setting_getSourceLine p) | M_getSourceFile p => done_ (Setting_getSourceFile p)
  | M_setFormat p f => done_ (Setting_setFormat p f)
  | M_bool p => done_ (operator_bool p) | M_int p => done_ (operator_int p)
  | M_unsigned_int p => done_ (operator_unsigned_int p) | M_long_long p => done_ (operator_long_long p)
  | M_unsigned_long_long p => done_ (operator_unsigned_long_long p)
  | M_double p => done_ (operator_double p) | M_float p => done_ (operator_float p)
  | M_const_char p => done_ (operator_const_char p) | M_string p => done_ (operator_string p)
  | A_bool p v => refers (assign_bool p v) | A_int p v => refers (assign_int p v)
  | A_long_long p v => refers (assign_long_long p v) | A_double p v => refers (assign_double p v)
  | A_float p v => refers (assign_float p v) | A_const_char p v => refers (assign_const_char p v)
  | A_string p v => refers (assign_string p v)
  | M_lookup p path => refers (Setting_lookup p path) | M_at_name p name => refers (at_name p name)
  | M_at_index p i => refers (at_index p i) | M_exists p name => done_ (Setting_exists p name)
  | M_remove_name p name => done_ (Setting_remove_name p name)
  | M_remove_index p i => done_ (Setting_remove_index p i)
  | M_add_member p name type => refers (Setting_add_member p name type)
  | M_add_element p type => refers (Setting_add_element p type)
  | M_begin p => done_ (Setting_begin p) | M_end p => done_ (Setting_end p)
  | C_lookup path => refers (Config_lookup path) | C_exists path => done_ (Config_exists path)
  | C_getRoot => refers Config_getRoot | C_setAutoConvert flag => done_ (Config_setAutoConvert flag)
  | C_setOptions o => done_ (Config_setOptions o) | C_setDefaultFormat f => done_ (Config_setDefaultFormat f)
  | C_setTabWidth w => done_ (Config_setTabWidth w) | C_setIncludeDir dir => done_ (Config_setIncludeDir dir)
  end.

(** What the interface asks beyond an object there is: a setting that has a
    parent, doubles that fit the integers they are converted to, names that are
    C strings. *)
Definition method_ok (x : cxx) (m : method) : Prop :=
  match method_this m with
  | None => True
  | Some p => exists o, x_objects x !! p = Some o /\
      match m with
      | M_getParent _ => exists s, heap (x_config x) !! _setting o = Some s /\ s_parent s <> None
      | M_int _ | M_unsigned_int _ => call_ok (x_config x) (Get_int (_setting o))
      | M_long_long _ | M_unsigned_long_long _ => call_ok (x_config x) (Get_int64 (_setting o))
      | A_double _ v => call_ok (x_config x) (Set_float (_setting o) v)
      | A_float _ v => call_ok (x_config x) (Set_float (_setting o) (double_of_float v))
      | M_add_member _ name _ => c_string name = true
      | _ => True
      end
  end.

(** ** Every method is safe *)

Lemma safe_done {A} (m : XM A) x P : safe m x P -> safe (done_ m) x (fun r x' => forall p, r = Some p -> live x' p).
Proof. intros H. eapply safe_bind; [exact H|]. intros a x' Hx' _. by apply safe_ok. Qed.

Lemma safe_refers (m : XM positive) x : safe m x (fun p x' => live x' p) ->
  safe (refers m) x (fun r x' => forall p, r = Some p -> live x' p).
Proof. intros H. eapply safe_bind; [exact H|]. intros a x' Hx' Ha. apply safe_ok; [done|]. by intros p [= <-]. Qed.

Lemma safe_any {A} (m : XM A) x P : safe m x P -> safe m x (fun _ _ => True).
Proof. by apply safe_mono. Qed.

(** A method that ends with a reading. *)
Lemma safe_reading {A} (m : CM A) x : cxx_ok x -> reads m (x_config x) -> safe (call_c m) x (fun _ _ => True).
Proof. intros Hx [a E]. exists (inl a), x. split; [by apply read_run|]. by split. Qed.

Section Methods.
Context (x : cxx) (this : positive) (o : object) (s : setting).
Context (Hx : cxx_ok x) (Hw : wrapping x this o s).

Let Hl : live x this := wrapping_live _ _ _ _ Hw.
Let Hwf : wf (x_config x) := proj1 (co_sound x Hx).
Let Hmv : moved (x_config x) = false := proj2 (co_sound x Hx).
Let Ho := wg_object _ _ _ _ Hw.
Let Hs := wg_setting _ _ _ _ Hw.
Let Ht := wg_type _ _ _ _ Hw.

Lemma safe_convert {A} type (get : loc -> CM A) : reads (get (_setting o)) (x_config x) ->
  safe (convert this type get) x (fun _ _ => True).
Proof. intros Hg. apply (safe_assert x this o s); [done..|]. intros _. by apply (safe_object x this o), safe_reading. Qed.

(** A conversion, and something done to its result. *)
Lemma safe_converted {A B} type (get : loc -> CM A) (f : A -> B) : reads (get (_setting o)) (x_config x) ->
  safe (v <~ convert this type get; ok (f v)) x (fun _ _ => True).
Proof. intros Hg. eapply safe_bind; [by apply safe_convert|]. intros a x' Hx' _. by apply safe_ok. Qed.

Lemma safe_assign type set : type <> TypeNone ->
  (s_type s <> T_NONE -> returns (set (_setting o)) (x_config x) (set_post (x_config x) (_setting o) s)) ->
  (s_type s <> T_NONE -> wp (set (_setting o)) (fun _ => scalar_stored (_setting o) s (x_config x)) (x_config x)) ->
  safe (assign this type set) x (fun p x' => p = this /\ x_objects x' = x_objects x).
Proof.
  intros Hn Hr Hst. apply (safe_assert x this o s); [done..|]. intros Hf.
  pose proof (fits_some _ _ _ _ Ht Hn Hf) as Hns. apply (safe_object x this o); [done|].
  apply safe_keeps; [done|by apply (setter_keeps _ (_setting o) s); [apply Hx|done|apply Hr|apply Hst]|].
  intros a c Hc. by apply safe_ok.
Qed.

Lemma safe_at_index i : safe (at_index this i) x (fun p x' => wraps x x' /\ live x' p).
Proof.
  apply (safe_object x this o); [done|]. destruct (negb _); [by apply safe_throw_at_index|].
  eapply safe_step; [apply read_run; by apply (get_elem_ok _ _ s)|].
  destruct (elem_at s (u32 i)) as [e|] eqn:Ee; [|by apply safe_throw_at_index].
  destruct (live_children _ _ s Hwf Hs e (elem_at_child s _ e Ee)) as [se Hse].
  apply (safe_wrap x e se); [done..|]. intros p op x' Hww Hp _ _. split; [done|by exists op].
Qed.

Lemma safe_at_name name : safe (at_name this name) x (fun p x' => wraps x x' /\ live x' p).
Proof.
  apply (safe_assert x this o s); [done..|]. intros _. apply (safe_object x this o); [done|].
  eapply safe_step; [apply read_run; by apply (get_member_ok _ _ s)|].
  destruct (member _ _ _) as [e|] eqn:Ee; [|by apply safe_throw_at_name].
  destruct (member_Some _ _ _ _ Ee) as (_ & se & _ & _ & _ & _ & Hse & _).
  apply (safe_wrap x e se); [done..|]. intros p op x' Hww Hp _ _. split; [done|by exists op].
Qed.

Lemma safe_lookup path : safe (Setting_lookup this path) x (fun p x' => wraps x x' /\ live x' p).
Proof.
  apply (safe_assert x this o s); [done..|]. intros _. apply (safe_object x this o); [done|].
  destruct (lookup_total _ _ s path Hwf Hs) as (r & Er & Hr). eapply safe_step; [by apply read_run|].
  destruct r as [e|]; [|by apply safe_throw_at_name]. destruct (Hr e eq_refl) as [se Hse].
  apply (safe_wrap x e se); [done..|]. intros p op x' Hww Hp _ _. split; [done|by exists op].
Qed.

Lemma safe_getParent : s_parent s <> None -> safe (Setting_getParent this) x (fun p x' => wraps x x' /\ live x' p).
Proof.
  intros Hp. apply (safe_object x this o); [done|]. apply (safe_deref x _ s); [done|].
  destruct (s_parent s) as [q|] eqn:Eq; [|done]. destruct (wf_parent _ Hwf _ s q Hs Eq) as (_ & sq & Hsq & _).
  apply (safe_wrap x q sq); [done..|]. intros p op x' Hww Hpp _ _. split; [done|by exists op].
Qed.

(** A removal: of a tree, with its objects, or of nothing. *)
Lemma safe_removal m (f : XM unit) : safe f x (fun _ _ => True) ->
  returns m (x_config x) (fun (r : bool) c => if r then exists e, removed (x_config x) (_setting o) e c
                                              else c = x_config x) ->
  safe (r <~ call_c m; if r : bool then ok tt else f) x (fun _ _ => True).
Proof.
  intros Hf (r & c & E & Hr). destruct r.
  - destruct Hr as [e Hr]. destruct (removed_ok m x _ e true c Hx (mk_is_Some _ _ Hs) E Hr) as (x' & E' & Hx' & _).
    eapply safe_step; [exact E'|]. by apply safe_ok.
  - subst c. eapply safe_step; [by apply read_run|done].
Qed.

Lemma safe_remove_name name : safe (Setting_remove_name this name) x (fun _ _ => True).
Proof.
  apply (safe_assert x this o s); [done..|]. intros _. apply (safe_object x this o); [done|].
  apply safe_removal; [by apply safe_throw_at_name|].
  apply (returns_remove _ _ s); [done|by left|done|done|by eauto].
Qed.

Lemma safe_remove_index i : safe (Setting_remove_index this i) x (fun _ _ => True).
Proof.
  apply (safe_object x this o); [done|]. destruct (negb _); [by apply safe_throw_at_index|].
  apply safe_removal; [by apply safe_throw_at_index|].
  apply (returns_remove_elem _ _ s); [done|by left|done|done|by eauto].
Qed.

Lemma safe_setFormat f : safe (Setting_setFormat this f) x (fun _ _ => True).
Proof.
  apply (safe_object x this o); [done|]. cbv zeta.
  set (o' := {| _setting := _setting o; _type := _type o; _format := _ |}).
  set (x1 := with_objects (<[this := o']> (x_objects x)) x).
  assert (cxx_ok x1) as Hx1.
  { pose proof Hx as [Hc Hd Hh Hob]. split; cbn [x1 x_config x_objects x_next with_objects]; try done.
    - intros l sl h Hsl Eh. destruct (Hh l sl h Hsl Eh) as (p & op & -> & Hp & Hlp & Htp).
      destruct (decide (p = this)) as [-> |].
      + exists this, o'. rewrite lookup_insert_eq. assert (op = o) as -> by congruence. done.
      + exists p, op. by rewrite lookup_insert_ne.
    - intros p op. destruct (decide (p = this)) as [-> |].
      + rewrite lookup_insert_eq. intros [= <-]. exact (Hob this o Ho).
      + rewrite lookup_insert_ne by done. apply Hob. }
  change (safe (call_c (config_setting_set_format (_setting o) (format_code (_format o'))) ;~ ok tt) x1 (fun _ _ => True)).
  apply safe_keeps; [done|exact (format_keeps _ _ s _ (co_sound x Hx) Hs)|]. intros a c Hc. by apply safe_ok.
Qed.

(** The number of elements. *)
Lemma safe_getLength : safe (Setting_getLength this) x (fun _ x' => x' = x).
Proof.
  apply (safe_object x this o); [done|]. destruct (reads_length (x_config x) (_setting o) s) as [n E]; [done..|].
  exists (inl n), x. split; [by apply read_run|]. by split.
Qed.

Lemma safe_iterator e : safe (iterator this e) x (fun _ _ => True).
Proof.
  eapply safe_bind; [apply safe_getLength|]. intros n x' Hx' ->. apply (safe_object x this o); [done|].
  destruct (isAggregate o); [by apply safe_ok|by apply safe_throw_at].
Qed.

Lemma safe_add_member name type : c_string name = true ->
  safe (Setting_add_member this name type) x (fun p x' => live x' p).
Proof.
  intros Hn. apply (safe_assert x this o s); [done..|]. intros Hg%(fits_group _ _ _ Ht). cbv zeta.
  destruct (decide _) as [|Hne]; [by apply safe_throw_at_name|]. apply (safe_object x this o); [done|].
  eapply safe_keeps_result; [done|by apply (add_keeps _ _ s); [apply Hx|done|done|intros ? [= <-]]|].
  intros r c Hr Hc. destruct r as [l|]; [|by apply safe_throw_at_name]. destruct Hr as (sl & Hsl & _).
  apply (safe_wrap _ l sl); [done..|]. intros p op x' _ Hp _ _. by exists op.
Qed.
End Methods.

(** The zero that a new element is given. *)
Definition zero_element (ns : positive) (type : cxx_type) : XM positive :=
  match type with
  | TypeInt => assign_int ns 0
  | TypeInt64 => assign_long_long ns 0
  | TypeFloat => assign_double ns d0
  | TypeString => assign_const_char ns None
  | TypeBoolean => assign_bool ns false
  | _ => ok ns
  end.

Lemma safe_assign_double x p o s v : cxx_ok x -> wrapping x p o s -> float_fits (x_config x) s v ->
  safe (assign_double p v) x (fun q x' => q = p /\ x_objects x' = x_objects x).
Proof.
  intros Hx Hw Hv. pose proof (co_sound x Hx) as [Hwf Hmv].
  apply (safe_assign x p o s Hx Hw); [done|intros _; apply returns_set_float; first [assumption|apply Hw]|].
  intros Hn. apply set_float_stored; [apply Hw|done].
Qed.

Ltac assigning Hw post stored :=
  intros; eapply safe_assign; [done|exact Hw|done| |]; intros ?;
  [apply post; first [assumption|apply Hw] | apply stored; [apply Hw|assumption]].

Section Assign.
Context (x : cxx) (p : positive) (o : object) (s : setting) (Hx : cxx_ok x) (Hw : wrapping x p o s).
Let Hwf : wf (x_config x) := proj1 (co_sound x Hx).
Let Hmv : moved (x_config x) = false := proj2 (co_sound x Hx).

Definition assigned (q : positive) (x' : cxx) : Prop := q = p /\ x_objects x' = x_objects x.

Lemma safe_assign_int v : safe (assign_int p v) x assigned.
Proof. assigning Hw returns_set_int set_int_stored. Qed.
Lemma safe_assign_long_long v : safe (assign_long_long p v) x assigned.
Proof. assigning Hw returns_set_int64 set_int64_stored. Qed.
Lemma safe_assign_bool v : safe (assign_bool p v) x assigned.
Proof. assigning Hw returns_set_bool set_bool_stored. Qed.
Lemma safe_assign_const_char v : safe (assign_const_char p v) x assigned.
Proof. assigning Hw returns_set_string set_string_stored. Qed.

Lemma safe_zero_element type : _type o = type -> safe (zero_element p type) x assigned.
Proof.
  intros Et. destruct type; try (by apply safe_ok); [apply safe_assign_int|apply safe_assign_long_long| |
    apply safe_assign_const_char|apply safe_assign_bool].
  apply (safe_assign_double x p o s); [done..|]. intros _. rewrite (wg_type _ _ _ _ Hw) in Et. by destruct (s_type s).
Qed.
End Assign.

Lemma wraps_wrapping x x' p o s : wraps x x' -> wrapping x p o s -> exists s', wrapping x' p o s'.
Proof.
  intros Hw [Ho Hs Eh Et]. pose proof (wr_objects _ _ Hw p o Ho) as Ho'.
  destruct (object_setting x' p o (wr_ok _ _ Hw) Ho') as (s' & Hs' & Eh' & Et'). by exists s'.
Qed.

(** Whether an element of the type may be added. *)
Definition element_check (this : positive) (o : object) (type : cxx_type) : XM unit :=
  if decide (o.(_type) = TypeArray) then
    idx <~ Setting_getLength this;
    if 0 <? idx then
      e <~ at_index this 0;
      e <~ object_at e;
      if decide (type = e.(_type)) then ok tt else throw_at_index SettingTypeException this idx
    else match type with
         | TypeInt | TypeInt64 | TypeFloat | TypeString | TypeBoolean => ok tt
         | _ => throw_at_index SettingTypeException this idx
         end
  else ok tt.

Lemma safe_element_check x this o s type : cxx_ok x -> wrapping x this o s ->
  safe (element_check this o type) x (fun _ x' => wraps x x').
Proof.
  intros Hx Hw. pose proof (wrapping_live _ _ _ _ Hw) as Hl. pose proof (wraps_refl x Hx) as Hr. unfold element_check.
  destruct (decide _); [|by apply safe_ok].
  eapply safe_bind; [by apply (safe_getLength x this o s)|]. intros idx x' _ ->. destruct (0 <? idx).
  - eapply safe_bind; [by apply (safe_at_index x this o s)|]. intros el x1 Hx1 [Hw1 [oe Hoe]].
    apply (safe_object x1 el oe); [done|]. destruct (decide _); [by apply safe_ok|].
    apply safe_throw_at_index; [done|by eapply wraps_live].
  - destruct type; first [by apply safe_ok | by apply safe_throw_at_index].
Qed.

Lemma safe_add_element x this o s type : cxx_ok x -> wrapping x this o s ->
  safe (Setting_add_element this type) x (fun p x' => live x' p).
Proof.
  intros Hx Hw. pose proof (wrapping_live _ _ _ _ Hw) as Hl. apply (safe_object x this o); [apply Hw|].
  destruct (negb _ && negb _) eqn:Ht; [by apply safe_throw_at|].
  change (safe (element_check this o type ;~
    s <~ call_c (config_setting_add (Some o.(_setting)) None (Z_of_ctype (toTypeCode type)));
    ns <~ wrapSetting s; zero_element ns type ;~ ok ns) x (fun p x' => live x' p)).
  eapply safe_bind; [by apply (safe_element_check x this o s)|]. intros [] x1 Hx1 Hw1.
  destruct (wraps_wrapping x x1 this o s Hw1 Hw) as (s1 & Hs1).
  assert (is_aggregate (s_type s1) = true /\ s_type s1 <> T_GROUP) as [Ha Hg].
  { pose proof (wg_type _ _ _ _ Hs1) as E. rewrite E in Ht. by destruct (s_type s1). }
  eapply safe_keeps_result; [done|by apply (add_keeps _ _ s1); [apply Hx1|apply Hs1|done|done]|].
  assert (ctype_of_Z (Z_of_ctype (toTypeCode type)) = Some (toTypeCode type)) as -> by (by destruct type).
  intros [l|] c Hr Hc; [|by destruct Hr as [|[|]]; try congruence]. destruct Hr as (sl & Hsl & [= Etl]).
  eapply safe_bind with (P := fun p x' => wraps (with_config c x1) x' /\ exists o', x_objects x' !! p = Some o' /\ _type o' = type).
  { apply (safe_wrap _ l sl); [done..|]. intros p op x' Hww Hp _ Htp. split; [done|]. exists op. split; [done|].
    rewrite Htp, Etl. by destruct type. }
  intros ns x2 Hx2 [Hww (ons & Hons & Htns)].
  destruct (live_wrapping x2 ns Hx2 (mk_is_Some _ _ Hons)) as (o2 & s2 & Hns).
  assert (o2 = ons) as -> by (pose proof (wg_object _ _ _ _ Hns); congruence).
  eapply safe_bind; [by apply (safe_zero_element x2 ns ons s2)|]. intros q x3 Hx3 [_ Eo]. apply safe_ok; [done|].
  unfold live. by rewrite Eo.
Qed.

(** ** Config *)

Lemma safe_call_field m f x : cxx_ok x -> (forall c, m c = (Ret tt, f c)) ->
  (forall c, sound c -> keeps c (f c)) -> safe (call_c m : XM unit) x (fun _ _ => True).
Proof.
  intros Hx E Hf. specialize (E (x_config x)). pose proof (Hf _ (co_sound x Hx)) as Hk.
  exists (inl tt), (with_config (f (x_config x)) x). split; [|by split; [apply keeps_ok|]].
  apply call_run; [done|apply Hk].
Qed.

(** A field other than those of the tree. *)
Lemma keeps_fields c c' : sound c -> heap c' = heap c -> next c' = next c -> root c' = root c ->
  destructor c' = destructor c -> destroyed c' = destroyed c -> moved c' = moved c -> keeps c c'.
Proof.
  intros [Hwf Hm] Eh En Er Ed Es Em. split.
  - split; [|congruence]. destruct Hwf. split; rewrite ?Eh, ?En, ?Er; done.
  - split; rewrite ?Eh, ?En; [apply (sound_bounded c)|..]; try done; [by eauto|congruence].
Qed.

Lemma safe_Config_lookup x path : cxx_ok x -> safe (Config_lookup path) x (fun p x' => live x' p).
Proof.
  intros Hx. pose proof (co_sound x Hx) as [Hwf _]. destruct (wf_root _ Hwf) as (r & sr & Hr & Hsr & _).
  destruct (lookup_total _ r sr path Hwf Hsr) as (f & Ef & Hf).
  eapply safe_step.
  - apply read_run. unfold config_lookup. erewrite bind_ret; [|reflexivity]. rewrite Hr.
    erewrite bind_ret; [|reflexivity]. exact Ef.
  - destruct f as [l|]; [|by apply safe_throw]. destruct (Hf l eq_refl) as [s Hs].
    apply (safe_wrap x l s); [done..|]. intros p o x' _ Hp _ _. by exists o.
Qed.

Lemma safe_Config_exists x path : cxx_ok x -> safe (Config_exists path) x (fun _ _ => True).
Proof.
  intros Hx. pose proof (co_sound x Hx) as [Hwf _]. destruct (wf_root _ Hwf) as (r & sr & Hr & Hsr & _).
  destruct (lookup_total _ r sr path Hwf Hsr) as (f & Ef & Hf).
  eapply safe_step; [|by apply safe_ok].
  apply read_run. unfold config_lookup. erewrite bind_ret; [|reflexivity]. rewrite Hr.
  erewrite bind_ret; [|reflexivity]. exact Ef.
Qed.

Lemma safe_Config_getRoot x : cxx_ok x -> safe Config_getRoot x (fun p x' => live x' p).
Proof.
  intros Hx. pose proof (co_sound x Hx) as [Hwf _]. destruct (wf_root _ Hwf) as (r & sr & Hr & Hsr & _).
  eapply safe_step; [by apply read_run|]. rewrite Hr.
  apply (safe_wrap x r sr); [done..|]. intros p o x' _ Hp _ _. by exists o.
Qed.

Lemma safe_setDefaultFormat x f : cxx_ok x -> safe (Config_setDefaultFormat f) x (fun _ _ => True).
Proof.
  intros Hx. assert (cxx_ok (with_default f x)) as Hx1 by (by destruct Hx).
  change (safe (call_c (config_set_default_format (format_code f))) (with_default f x) (fun _ _ => True)).
  eapply safe_call_field; [done|done|]. intros c Hc. by apply keeps_fields.
Qed.

(** ** All methods *)

(** A field of the setting. *)
Lemma safe_field {A} x this o s (f : setting -> A) : cxx_ok x -> wrapping x this o s ->
  safe (o <~ object_at this; s <~ call_c (deref o.(_setting)); ok (f s)) x (fun _ _ => True).
Proof.
  intros Hx Hw. apply (safe_object x this o); [apply Hw|]. apply (safe_deref x _ s); [apply Hw|]. by apply safe_ok.
Qed.

Lemma safe_assigned x p m : live x p -> safe m x (assigned x p) -> safe m x (fun q x' => live x' q).
Proof. intros Hl. apply safe_mono. intros q x' [-> Eo]. unfold live in *. by rewrite Eo. Qed.

Lemma reads_default {A} (m : CM (option A)) a c : reads m c -> reads (v ← m; mret (default a v)) c.
Proof. intros H. apply reads_bind; [done|]. intros. apply reads_ret. Qed.

Lemma safe_getIndex x this o s : cxx_ok x -> wrapping x this o s -> safe (Setting_getIndex this) x (fun _ _ => True).
Proof.
  intros Hx Hw. apply (safe_object x this o); [apply Hw|]. apply safe_reading; [done|].
  destruct (co_sound x Hx). by apply (reads_index _ _ s); [..|apply Hw].
Qed.

Lemma safe_exists x this o s name : cxx_ok x -> wrapping x this o s ->
  safe (Setting_exists this name) x (fun _ _ => True).
Proof.
  intros Hx Hw. apply (safe_object x this o); [apply Hw|]. destruct (negb _); [by apply safe_ok|].
  eapply safe_step; [|by apply safe_ok].
  apply read_run, (get_member_ok _ _ s); [apply Hx|apply Hw].
Qed.

(** The conversions. *)
Lemma conversion_safe x this o s m : cxx_ok x -> wrapping x this o s ->
  match m with
  | M_int _ | M_unsigned_int _ => call_ok (x_config x) (Get_int (_setting o))
  | M_long_long _ | M_unsigned_long_long _ => call_ok (x_config x) (Get_int64 (_setting o))
  | M_bool _ | M_double _ | M_float _ | M_const_char _ | M_string _ => True
  | _ => False
  end -> method_this m = Some this -> safe (run_method m) x (fun r x' => forall p, r = Some p -> live x' p).
Proof.
  intros Hx Hw Hpre Em. pose proof (co_sound x Hx) as [Hwf Hmv]. pose proof (wg_setting _ _ _ _ Hw) as Hs.
  destruct m; try done; injection Em as ->; apply safe_done with (P := fun _ _ => True);
    first [apply (safe_converted x this o s) | apply (safe_convert x this o s)]; try done;
    try apply reads_default;
    [by apply (reads_get_bool _ _ s)|by apply (reads_get_int _ _ s)|by apply (reads_get_int _ _ s)|
     by apply (reads_get_int64 _ _ s)|by apply (reads_get_int64 _ _ s)|by apply (reads_get_float _ _ s)|
     by apply (reads_get_float _ _ s)|by apply (reads_get_string _ _ s)|by apply (reads_get_string _ _ s)].
Qed.

Lemma Set_float_fits c l s v : heap c !! l = Some s -> call_ok c (Set_float l v) -> float_fits c s v.
Proof. intros Hs (s' & Hs' & Hv). cbn [target] in Hs'. by replace s with s' by congruence. Qed.

(** Methods of Setting. *)
Lemma setting_method_safe x m this o s : cxx_ok x -> method_ok x m -> method_this m = Some this ->
  wrapping x this o s -> safe (run_method m) x (fun r x' => forall p, r = Some p -> live x' p).
Proof.
  intros Hx Hok Em Hw. unfold method_ok in Hok. rewrite Em in Hok. destruct Hok as (o' & Ho' & Hpre).
  pose proof (wg_setting _ _ _ _ Hw) as Hs.
  assert (o' = o) as -> by (pose proof (wg_object _ _ _ _ Hw); congruence).
  pose proof (wrapping_live _ _ _ _ Hw) as Hl.
  destruct m; try discriminate Em; try (by eapply conversion_safe); injection Em as ->; cbn [run_method];
    first [apply safe_done with (P := fun _ _ => True) | apply safe_refers];
    try (by eapply safe_field);
    first
    [ by apply (safe_getIndex x this o s)
    | by apply (safe_setFormat x this o s)
    | eapply safe_assigned; [done|]; first
        [ by apply (safe_assign_bool x this o s) | by apply (safe_assign_int x this o s)
        | by apply (safe_assign_long_long x this o s) | by apply (safe_assign_const_char x this o s)
        | apply (safe_assign_double x this o s); [done..|]; by eapply Set_float_fits ]
    | by apply (safe_remove_name x this o s) | by apply (safe_remove_index x this o s)
    | by apply (safe_add_member x this o s) | by apply (safe_add_element x this o s)
    | by apply (safe_exists x this o s) | by apply (safe_iterator x this o s)
    | idtac ].
  - destruct (getPath_run x this o Hx Ho') as (steps & x' & E & Hww & _). eexists _, x'. split; [exact E|]. by split; [apply Hww|].
  - destruct Hpre as (s' & Hs' & Hp). assert (s' = s) as -> by congruence.
    eapply safe_mono; [|by apply (safe_getParent x this o s)]. by intros ? ? [].
  - eapply safe_any. by apply (safe_getLength x this o s).
  - eapply safe_mono; [|by apply (safe_lookup x this o s)]. by intros ? ? [].
  - eapply safe_mono; [|by apply (safe_at_name x this o s)]. by intros ? ? [].
  - eapply safe_mono; [|by apply (safe_at_index x this o s)]. by intros ? ? [].
Qed.

Lemma method_safe x m : cxx_ok x -> method_ok x m ->
  safe (run_method m) x (fun r x' => forall p, r = Some p -> live x' p).
Proof.
  intros Hx Hok. destruct (method_this m) as [this|] eqn:Em.
  - pose proof Hok as Hok'. unfold method_ok in Hok'. rewrite Em in Hok'. destruct Hok' as (o & Ho & _).
    destruct (live_wrapping x this Hx (mk_is_Some _ _ Ho)) as (o' & s & Hw). by eapply setting_method_safe.
  - destruct m; try discriminate Em; cbn [run_method];
      first [apply safe_done with (P := fun _ _ => True) | apply safe_refers];
      [by apply safe_Config_lookup|by apply safe_Config_exists|by apply safe_Config_getRoot|..|idtac|idtac].
    + eapply safe_call_field; [done|done|]. intros c Hc. destruct (i2b _); by apply keeps_fields.
    + eapply safe_call_field; [done|done|]. intros c Hc. by apply keeps_fields.
    + by apply safe_setDefaultFormat.
    + eapply safe_call_field; [done|done|]. intros c Hc. by apply keeps_fields.
    + eapply safe_call_field; [done|done|]. intros c Hc. by apply keeps_fields.
Qed.

(** A program: calls each of which may be made when it is, exceptions caught. *)
Fixpoint run_methods (ms : list method) : XM unit :=
  match ms with [] => ok tt | m :: ms' => catch (run_method m) ;~ run_methods ms' end.

Fixpoint methods_ok (x : cxx) (ms : list method) : Prop :=
  match ms with
  | [] => True
  | m :: ms' => method_ok x m /\ forall r x', run_method m x = (Ret r, x') -> methods_ok x' ms'
  end.

(** The same, decided. *)
Definition method_okb (x : cxx) (m : method) : bool :=
  match method_this m with
  | None => true
  | Some p =>
      match x_objects x !! p with
      | None => false
      | Some o =>
          match m with
          | M_getParent _ => match heap (x_config x) !! _setting o with
                             | Some s => is_some (s_parent s) | None => false end
          | M_int _ | M_unsigned_int _ => call_okb (x_config x) (Get_int (_setting o))
          | M_long_long _ | M_unsigned_long_long _ => call_okb (x_config x) (Get_int64 (_setting o))
          | A_double _ v => call_okb (x_config x) (Set_float (_setting o) v)
          | A_float _ v => call_okb (x_config x) (Set_float (_setting o) (double_of_float v))
          | M_add_member _ name _ => c_string name
          | _ => true
          end
      end
  end.

Fixpoint methods_okb (x : cxx) (ms : list method) : bool :=
  match ms with
  | [] => true
  | m :: ms' => method_okb x m && match run_method m x with (Ret _, x') => methods_okb x' ms' | _ => true end
  end.

Lemma method_okb_ok x m : method_okb x m = true -> method_ok x m.
Proof.
  unfold method_okb, method_ok. destruct (method_this m) as [p|]; [|done].
  destruct (x_objects x !! p) as [o|]; [|done]. intros H. exists o. split; [done|].
  destruct m; try done; try (by apply call_okb_ok). destruct (heap (x_config x) !! _) as [s|] eqn:E; [|done].
  exists s. split; [done|]. by destruct (s_parent s).
Qed.

Lemma methods_okb_ok ms : forall x, methods_okb x ms = true -> methods_ok x ms.
Proof.
  induction ms as [|m ms IH]; intros x; cbn [methods_okb methods_ok]; [done|].
  intros [Hm Hms]%andb_true_iff. split; [by apply method_okb_ok|]. intros r x' E. rewrite E in Hms. by apply IH.
Qed.

Lemma methods_run ms : forall x, cxx_ok x -> methods_ok x ms ->
  exists x', run_methods ms x = (Ret (inl tt), x') /\ cxx_ok x'.
Proof.
  induction ms as [|m ms IH]; intros x Hx Hok; cbn [run_methods]; [by exists x|].
  destruct Hok as [Hm Hms]. destruct (method_safe x m Hx Hm) as (r & x' & E & Hx' & _).
  destruct (IH x' Hx' (Hms r x' E)) as (x2 & E2 & H2). exists x2. split; [|done].
  unfold catch, try_bind. erewrite bind_ret; [|by rewrite (bind_ret _ _ _ _ _ E)]. exact E2.
Qed.

(** ** The destructor of Config *)

Lemma destroy_objects x : cxx_ok x -> exists x' order, Config_destroy x = (Ret (inl tt), x') /\
  x_objects x' = ∅ /\ heap (x_config x') = ∅ /\
  destroyed (x_config x') = destroyed (x_config x) ++ map Zpos order /\ NoDup order /\
  forall p, p ∈ order <-> live x p.
Proof.
  intros Hx. pose proof (co_sound x Hx) as [Hwf Hmv].
  destruct (destroy_config_ok (x_config x) Hwf (or_introl Hmv)) as (order & c & E & Eh & _ & Ed & Hnd & Hall & _).
  rewrite (co_destructor x Hx) in Ed. destruct (hooks_objects x order Hx Hnd) as (ps & Hps & Eps & Hin).
  destruct (call_destroys config_destroy x tt c order Hx E Hnd Ed) as (objects & Ec & Hobj).
  assert (forall p o, x_objects x !! p = Some o -> _setting o ∈ order) as Hset.
  { intros p o Ho. apply Hall. destruct (object_setting x p o Hx Ho) as (s & Hs & _). by exists s. }
  exists (with_objects objects (with_config c x)), ps. split_and!; [exact Ec| |exact Eh|by rewrite <- Eps|done|].
  - apply map_eq. intros p. cbn [x_objects with_objects]. rewrite Hobj, lookup_empty.
    destruct (x_objects x !! p) as [o|] eqn:Ho; [|done]. by rewrite decide_True by (by eapply Hset).
  - intros p. rewrite Hin. split; [by intros (o & Ho & _); exists o|]. intros [o Ho]. exists o. split; [done|by eapply Hset].
Qed.

(** ** The claims *)

(** A new Config: memory that holds nothing yet. *)
Definition blank_cxx : cxx :=
  {| x_config := blank; x_objects := ∅; x_next := 1%positive; x_default_format := FormatDefault; x_files := ∅ |}.

Definition constructed : cxx := (new_Config blank_cxx).2.

Lemma constructed_ok : cxx_ok constructed.
Proof.
  assert (forall l s, heap (x_config constructed) !! l = Some s -> s = new_setting T_GROUP) as Hone.
  { intros l s. change (({[1%positive := new_setting T_GROUP]} : gmap positive setting) !! l = Some s -> s = new_setting T_GROUP).
    by intros [_ <-]%lookup_singleton_Some. }
  split; [|done|by intros l s h ->%Hone|by intros p o ?%(lookup_empty_Some (A := object))].
  destruct initialised_sound as [[] Hm]. split; [|done]. split; done.
Qed.

(** The root and a list of two members under it. *)
Definition sample_methods : list method :=
  [C_getRoot; M_add_member 1 "ports" TypeList; M_add_member 1 "name" TypeString; M_add_element 2 TypeInt;
   M_add_element 2 TypeGroup; M_add_member 5 "x" TypeFloat; A_int 4 80; A_int 3 5; A_const_char 3 (Some "ntp");
   M_at_index 2 7; M_int 4; M_remove_name 1 "name"; M_lookup 1 "ports.[1].x"; M_setFormat 4 FormatHex].

Definition sample_objects : cxx := (run_methods sample_methods constructed).2.

Lemma sample_objects_ok : cxx_ok sample_objects.
Proof.
  destruct (methods_run sample_methods constructed constructed_ok) as (x' & E & Hx').
  - by apply methods_okb_ok; vm_compute.
  - unfold sample_objects. by rewrite E.
Qed.

(** ** What the interface leaves undefined *)

(** The parent of the root: the exception is made from a null path. *)
Lemma root_parent_undefined x p o s : wrapping x p o s -> s_parent s = None ->
  Setting_getParent p x = (Undef UB_null, x).
Proof.
  intros [Ho Hs _ _] Hp. unfold Setting_getParent. rewrite (try_ret _ _ _ _ _ (object_run x p o Ho)).
  rewrite (try_ret _ _ _ _ _ (deref_run x _ s Hs)), Hp. unfold call_c. munfold. rewrite drop_all. by destruct x as [[]].
Qed.

(** A string that was never set, stored into a std::string. *)
Lemma unset_string_undefined x p o s : cxx_ok x -> wrapping x p o s -> s_type s = T_STRING ->
  s_value s = VString None -> stored_string p x = (Undef UB_null, x).
Proof.
  intros Hx Hw Et Ev. pose proof Hw as [Ho Hs _ Hto]. rewrite Et in Hto.
  assert (operator_const_char p x = (Ret (inl None), x)) as E.
  { unfold operator_const_char, convert.
    assert (assertType p TypeString x = (Ret (inl tt), x)) as Ea.
    { rewrite (assert_run x p o s TypeString Hx Hw). unfold type_fits. by rewrite Hto. }
    rewrite (try_ret _ _ _ _ _ Ea), (try_ret _ _ _ _ _ (object_run x p o Ho)). apply read_run.
    unfold config_setting_get_string. rewrite (bind_ret _ _ _ _ _ (deref_live _ s _ Hs)), Et, Ev. done. }
  unfold stored_string. rewrite (try_ret _ _ _ _ _ E). unfold call_c. munfold. rewrite drop_all. by destruct x as [[]].
Qed.

(** ** The claims *)



(** C37: Paths lead back: Setting::getPath of any setting, however its members
    were named and whatever lists it is in, gives a path with which
    Config::lookup returns the same object, the root's empty path included; both
    leave the settings as they are and the correspondence of objects and
    settings intact. *)
Theorem path_leads_back x p o : cxx_ok x -> few (x_config x) -> x_objects x !! p = Some o ->
  exists path x1 x2, Setting_getPath p x = (Ret (inl path), x1) /\ Config_lookup path x1 = (Ret (inl p), x2) /\
    wraps x x1 /\ wraps x1 x2.
Proof.
  intros Hx Hfew Ho. destruct (getPath_run x p o Hx Ho) as (steps & x1 & E1 & Hw & Hr).
  pose proof (wr_ok _ _ Hw) as Hx1. destruct (co_sound x1 Hx1) as [Hwf1 _].
  pose proof (wr_objects _ _ Hw p o Ho) as Ho1.
  destruct (object_setting x1 p o Hx1 Ho1) as (s1 & Hs1 & _).
  destruct (route_found _ _ s1 Hwf1 Hs1) as (steps1 & Hr1 & _ & _ & Hfound).
  destruct (Hfound (wraps_few _ _ Hw Hfew)) as [Hok Hd].
  assert (steps1 = steps) as -> by (eapply route_unique; [exact Hr1|by eapply route_wraps]).
  destruct (wf_root _ Hwf1) as (r & sr & Hroot & Hsr & _). specialize (Hd r Hroot).
  destruct (wrap_run x1 (_setting o) s1 Hx1 Hs1) as (q & oq & x2 & E2 & Hw2 & Hq & Hlq & _ & Huniq).
  assert (p = q) as -> by (by eapply Huniq).
  exists (path_text steps), x1, x2. split_and!; [done| |done|done].
  unfold Config_lookup.
  assert (config_lookup (path_text steps) (x_config x1) = (Ret (Some (_setting o)), x_config x1)) as E.
  { unfold config_lookup. erewrite bind_ret; [|reflexivity]. rewrite Hroot. erewrite bind_ret; [|reflexivity].
    destruct steps as [|st steps]; cbn [path_text].
    - cbn [descend] in Hd. by injection Hd as ->.
    - apply Forall_cons in Hok as [Hst Hok]. rewrite (path_lookup_ok _ r sr st _ Hwf1 Hsr Hst).
      + f_equal. f_equal. rewrite <- Hd. f_equal. f_equal. rewrite map_map. cbn [snd]. apply map_id.
      + apply Forall_fmap. eapply Forall_impl; [exact Hok|]. intros st' Hst'. by split. }
  rewrite (try_ret _ _ x1 x1 (Some (_setting o))) by (by apply read_run). exact E2.
Qed.

Lemma path_leads_back_witness :
  is_Some (x_objects sample_objects !! 6%positive) /\
  exists path x1 x2, Setting_getPath 6 sample_objects = (Ret (inl path), x1) /\
    Config_lookup path x1 = (Ret (inl 6%positive), x2) /\ wraps sample_objects x1 /\ wraps x1 x2.
Proof.
  split; [by vm_compute; eexists|].
  refine (path_leads_back sample_objects 6 _ sample_objects_ok _ _); [vm_compute; congruence|].
  vm_compute. reflexivity.
Defined.



(** C39: Destroying a Config deletes each object there is exactly once: the
    destructor is called with the addresses of the objects, all of them and none
    twice, and no object and no setting is left. *)
Theorem destructor_deletes_objects x : cxx_ok x -> exists x' order,
  Config_destroy x = (Ret (inl tt), x') /\
  destroyed (x_config x') = destroyed (x_config x) ++ map Zpos order /\ NoDup order /\
  (forall p, p ∈ order <-> live x p) /\ x_objects x' = ∅ /\ heap (x_config x') = ∅.
Proof.
  intros Hx. destruct (destroy_objects x Hx) as (x' & order & E & Eo & Eh & Ed & Hnd & Hall).
  by exists x', order.
Qed.

Lemma destructor_deletes_objects_witness : size (x_objects sample_objects) = 5%nat /\
  exists x' order, Config_destroy sample_objects = (Ret (inl tt), x') /\
  destroyed (x_config x') = destroyed (x_config sample_objects) ++ map Zpos order /\ NoDup order /\
  (forall p, p ∈ order <-> live sample_objects p) /\ x_objects x' = ∅ /\ heap (x_config x') = ∅.
Proof.
  split; [by vm_compute|]. exact (destructor_deletes_objects sample_objects sample_objects_ok).
Defined.
