(* ===== verification/CxxIter.v ===== *)
(** * Iterating over the settings of an aggregate *)

From Stdlib Require Import SpecFloat.
From S2P Require Import Prelude Double CString Setting Config ConfigWf ConfigProps ConfigTree ConfigApi.
From S2P Require Import ScanCtx ConfigRead ConfigWrite Cxx CxxProps CxxCalls CxxSafe.
Local Open Scope Z_scope.
Local Open Scope cxx_scope.

(** for(it = begin; it != end; ++it) *it; the references met, in order. *)
Fixpoint for_each (fuel : nat) (it last : SettingIterator) : XM (list positive) :=
  match fuel with
  | O => stop NoFuel
  | S n =>
      if iterator_eq it last then ok []
      else
        p <~ iterator_deref it;
        it <~ iterator_next it;
        ps <~ for_each n it last;
        ok (p :: ps)
  end.

(** The same loop with constant iterators. *)
Fixpoint for_each_const (fuel : nat) (it last : SettingConstIterator) : XM (list positive) :=
  match fuel with
  | O => stop NoFuel
  | S n =>
      if const_iterator_eq it last then ok []
      else
        p <~ const_iterator_deref it;
        it <~ const_iterator_next it;
        ps <~ for_each_const n it last;
        ok (p :: ps)
  end.

(** A constant iterator at the same place. *)
Definition as_const (it : SettingIterator) : SettingConstIterator :=
  {| cit_setting := it_setting it; cit_count := it_count it; cit_idx := it_idx it |}.

Lemma const_iterator_same setting e x it : iterator setting e x = (Ret (inl it), x) ->
  const_iterator setting e x = (Ret (inl (as_const it)), x).
Proof.
  unfold iterator, const_iterator, try_bind, mbind, M_bind. destruct (Setting_getLength setting x) as [[[]| | | |] x1]; try done.
  destruct (object_at setting x1) as [[[]| | | |] x2]; try done. destruct (isAggregate o).
  - by intros [= <- ->].
  - unfold throw_at, try_bind, mbind, M_bind. by destruct (Setting_getPath setting x2) as [[[]| | | |] x3].
Qed.

Lemma for_each_const_same fuel : forall it last x, for_each_const fuel (as_const it) (as_const last) x = for_each fuel it last x.
Proof.
  induction fuel as [|n IH]; intros it last x; [done|]. cbn [for_each for_each_const].
  change (const_iterator_eq (as_const it) (as_const last)) with (iterator_eq it last). destruct (iterator_eq it last); [done|].
  change (const_iterator_deref (as_const it)) with (iterator_deref it). unfold try_bind, mbind, M_bind.
  destruct (iterator_deref it x) as [[[p|e]| | | |] x1]; try done.
  unfold const_iterator_next, const_iterator_add, iterator_next, iterator_add, mbind, M_bind. change (cit_idx (as_const it)) with (it_idx it).
  destruct (ckint (it_idx it + 1) x1) as [[i| | | |] x2]; try done. cbn.
  by rewrite <- (IH {| it_setting := it_setting it; it_count := it_count it; it_idx := i |} last x2).
Qed.

(** The reference [q] is to the setting [l]. *)
Definition refers_to (x : cxx) (q : positive) (l : loc) : Prop :=
  exists o, x_objects x !! q = Some o /\ _setting o = l.

Lemma refers_to_wraps x x' q l : wraps x x' -> refers_to x q l -> refers_to x' q l.
Proof. intros Hw (o & Ho & Hl). exists o. split; [by apply (wr_objects _ _ Hw)|done]. Qed.

Lemma isAggregate_type o s : _type o = type_of_code (s_type s) -> isAggregate o = is_aggregate (s_type s).
Proof. unfold isAggregate. intros ->. by destruct (s_type s). Qed.

(** Few settings: indexes are integers. *)
Lemma few_children c l s : wf c -> few c -> heap c !! l = Some s -> Z.of_nat (length (children s)) < INT_MAX.
Proof.
  intros Hwf Hf Hs. unfold few in Hf.
  pose proof (NoDup_bounded (children s) (next c) (wf_nodup c Hwf l s Hs)) as Hb.
  assert (length (children s) < Pos.to_nat (next c))%nat; [|lia].
  apply Hb. intros e He. destruct (live_children c l s Hwf Hs e He) as [se Hse]. by eapply wf_next.
Qed.

(** The element at an index that is in range. *)
Lemma at_index_run x this o s i e : cxx_ok x -> few (x_config x) -> wrapping x this o s ->
  is_aggregate (s_type s) = true -> children s !! i = Some e ->
  exists q x', at_index this (Z.of_nat i) x = (Ret (inl q), x') /\ wraps x x' /\ refers_to x' q e.
Proof.
  intros Hx Hf Hw Ha He. pose proof (co_sound x Hx) as [Hwf _]. pose proof Hw as [Ho Hs _ Ht].
  pose proof (few_children _ _ s Hwf Hf Hs) as Hlen. pose proof (lookup_lt_Some _ _ _ He) as Hi.
  unfold INT_MAX in Hlen. assert (u32 (u32 (Z.of_nat i)) = Z.of_nat i) as Eu.
  { unfold uwrap. rewrite Zmod_mod. apply Z.mod_small. lia. }
  destruct (live_children _ _ s Hwf Hs e) as [se Hse]; [by eapply list_elem_of_lookup_2|].
  destruct (wrap_run x e se Hx Hse) as (q & oq & x' & E & Hww & Hq & Hlq & _).
  exists q, x'. split_and!; [|done|by exists oq]. unfold at_index.
  rewrite (try_ret _ _ _ _ _ (object_run x this o Ho)), (isAggregate_type o s Ht), Ha. cbn [negb].
  rewrite (try_ret _ _ x x (Some e)); [done|]. apply read_run.
  rewrite (get_elem_ok _ _ s _ Hwf Hs). unfold elem_at. rewrite Ha, Eu, Nat2Z.id. by rewrite He.
Qed.

Section Loop.
Context (this : positive).

Definition at_ (n i : nat) : SettingIterator :=
  {| it_setting := this; it_count := Z.of_nat n; it_idx := Z.of_nat i |}.

Lemma for_each_run fuel : forall x o s i, cxx_ok x -> few (x_config x) -> wrapping x this o s ->
  is_aggregate (s_type s) = true -> (i <= length (children s))%nat -> (length (children s) < fuel + i)%nat ->
  exists ps x', for_each fuel (at_ (length (children s)) i) (at_ (length (children s)) (length (children s))) x =
      (Ret (inl ps), x') /\ wraps x x' /\ Forall2 (refers_to x') ps (drop i (children s)).
Proof.
  induction fuel as [|fuel IH]; intros x o s i Hx Hf Hw Ha Hi Hn; [lia|]. cbn [for_each].
  set (n := length (children s)) in *. unfold iterator_eq at 1. rewrite bool_decide_true by done. cbn [it_idx at_ andb].
  destruct (Z.eqb_spec (Z.of_nat i) (Z.of_nat n)) as [Hin|Hin].
  - exists [], x. split_and!; [done|by apply wraps_refl|]. rewrite drop_ge by lia. constructor.
  - destruct (lookup_lt_is_Some_2 (children s) i) as [e He]; [lia|].
    destruct (at_index_run x this o s i e Hx Hf Hw Ha He) as (q & x1 & E1 & Hw1 & Hq).
    rewrite (try_ret _ _ x x1 q E1).
    pose proof (few_children _ _ s (proj1 (co_sound x Hx)) Hf (wg_setting _ _ _ _ Hw)) as Hlen.
    fold n in Hlen. unfold INT_MAX in Hlen.
    assert (iterator_next (at_ n i) x1 = (Ret (inl (at_ n (S i))), x1)) as E2.
    { unfold iterator_next, iterator_add, ckint. cbn [it_idx at_]. 
      rewrite (proj2 (is_int_spec (Z.of_nat i + 1))) by (unfold INT_MIN, INT_MAX; lia).
      erewrite bind_ret; [|reflexivity]. unfold at_, ok. by replace (Z.of_nat (S i)) with (Z.of_nat i + 1) by lia. }
    rewrite (try_ret _ _ _ _ _ E2).
    destruct (wraps_wrapping x x1 this o s Hw1 Hw) as (s1 & Hs1).
    assert (children s1 = children s) as Ech
      by (eapply wraps_children; [exact Hw1|apply Hw|apply Hs1]).
    assert (s_type s1 = s_type s) as Ety.
    { destruct (wraps_setting x x1 _ s Hw1 (wg_setting _ _ _ _ Hw)) as (s1' & Hs1' & _ & Ety & _).
      pose proof (wg_setting _ _ _ _ Hs1) as Hs1s. congruence. }
    destruct (IH x1 o s1 (S i)) as (ps & x' & E & Hww & Hall); rewrite ?Ech, ?Ety in *; fold n; try done;
      [apply Hw1|by eapply wraps_few|lia|lia|].
    rewrite (try_ret _ _ _ _ _ E). exists (q :: ps), x'. split_and!; [done|by eapply wraps_trans|].
    rewrite (drop_S _ _ _ He). constructor; [by eapply refers_to_wraps|done].
Qed.
End Loop.

(** C40: Iteration: the loop from Setting::begin to Setting::end over a group,
    an array or a list ends after as many rounds as it has children and meets a
    reference to each child once, in the order of the tree; nothing is changed
    but for objects made for children that had none. *)
Theorem iteration_visits_children x this o s : cxx_ok x -> few (x_config x) -> wrapping x this o s ->
  is_aggregate (s_type s) = true ->
  exists b e ps x', Setting_begin this x = (Ret (inl b), x) /\ Setting_end this x = (Ret (inl e), x) /\
    for_each (S (length (children s))) b e x = (Ret (inl ps), x') /\ wraps x x' /\
    Forall2 (refers_to x') ps (children s) /\
    exists cb ce, Setting_begin_const this x = (Ret (inl cb), x) /\ Setting_end_const this x = (Ret (inl ce), x) /\
      for_each_const (S (length (children s))) cb ce x = (Ret (inl ps), x').
Proof.
  intros Hx Hf Hw Ha. pose proof (co_sound x Hx) as [Hwf Hmv]. pose proof Hw as [Ho Hs _ Ht].
  assert (Setting_getLength this x = (Ret (inl (Z.of_nat (length (children s)))), x)) as El.
  { unfold Setting_getLength. rewrite (try_ret _ _ _ _ _ (object_run x this o Ho)). apply read_run.
    unfold config_setting_length. rewrite (bind_ret _ _ _ _ _ (deref_live _ s _ Hs)), Ha. cbn [negb].
    destruct (list_of_ok s (x_config x) Ha (wf_value _ Hwf _ s Hs)) as (lst & E & Hlst).
    rewrite (bind_ret _ _ _ _ _ E). destruct lst as [lst|].
    - by rewrite (children_list s lst Hlst).
    - by rewrite (children_zero s Hlst). }
  assert (forall e, iterator this e x =
    (Ret (inl (at_ this (length (children s)) (if e then length (children s) else 0%nat))), x)) as Eit.
  { intros e. unfold iterator. rewrite (try_ret _ _ _ _ _ El), (try_ret _ _ _ _ _ (object_run x this o Ho)).
    rewrite (isAggregate_type o s Ht), Ha. by destruct e. }
  destruct (for_each_run this (S (length (children s))) x o s 0 Hx Hf Hw Ha) as (ps & x' & E & Hww & Hall); [lia|lia|].
  eexists _, _, ps, x'. split_and!; [apply Eit|apply Eit|exact E|done|done|].
  eexists _, _. split_and!; [apply const_iterator_same, Eit|apply const_iterator_same, Eit|]. by rewrite for_each_const_same.
Qed.

Lemma iteration_visits_children_witness : exists o s, wrapping sample_objects 2 o s /\ length (children s) = 2%nat /\
  exists b e ps x', Setting_begin 2 sample_objects = (Ret (inl b), sample_objects) /\
    Setting_end 2 sample_objects = (Ret (inl e), sample_objects) /\
    for_each (S (length (children s))) b e sample_objects = (Ret (inl ps), x') /\ wraps sample_objects x' /\
    Forall2 (refers_to x') ps (children s) /\
    exists cb ce, Setting_begin_const 2 sample_objects = (Ret (inl cb), sample_objects) /\
      Setting_end_const 2 sample_objects = (Ret (inl ce), sample_objects) /\
      for_each_const (S (length (children s))) cb ce sample_objects = (Ret (inl ps), x').
Proof.
  destruct (live_wrapping sample_objects 2 sample_objects_ok) as (o & s & Hw); [by vm_compute; eexists|].
  exists o, s. split; [exact Hw|].
  assert (length (children s) = 2%nat /\ is_aggregate (s_type s) = true) as [Hlen Ha].
  { pose proof (wg_object _ _ _ _ Hw) as Ho. vm_compute in Ho. injection Ho as <-.
    pose proof (wg_setting _ _ _ _ Hw) as Hs. vm_compute in Hs. injection Hs as <-. by split. }
  split; [exact Hlen|].
  refine (iteration_visits_children sample_objects 2 o s sample_objects_ok _ Hw Ha). vm_compute. congruence.
Defined.
