(* ===== verification/CxxException.v ===== *)
(** * The exception objects (lib/libconfigcpp.c++, lib/libconfig.h++)

    Cxx has exceptions as values.  Here they are objects that own a copy of their
    text, made with strdup and given back with free, and are constructed, copied,
    assigned and destroyed. *)

From Stdlib Require Import SpecFloat.
From S2P Require Import Prelude CString Setting ScanCtx Cxx.
Local Open Scope Z_scope.

(** ** Objects and memory *)

(** The subclasses of SettingException. *)
Inductive setting_exception := E_type | E_not_found | E_name.

(** The pointers to text are addresses; _error points to a literal. *)
Inductive exception_object :=
  | SettingObject (k : setting_exception) (_path : positive)
  | ParseObject (_file : option positive) (_line : Z) (_error : option string)
  | FileIOObject.

Record memory := Memory {
  strings : gmap positive string;
  exceptions : gmap positive exception_object
}.

Definition with_strings (ss : gmap positive string) (m : memory) : memory := Memory ss (exceptions m).
Definition with_exceptions (es : gmap positive exception_object) (m : memory) : memory := Memory (strings m) es.

Abbreviation EM := (M memory).

Definition strdup (t : option string) : EM positive :=
  match t with
  | None => undef UB_null
  | Some t =>
      m ← get;
      let p := fresh (dom (strings m)) in
      put (with_strings (<[p := t]> (strings m)) m);; mret p
  end.

Definition free (p : option positive) : EM unit :=
  match p with
  | None => mret tt
  | Some p =>
      m ← get;
      match strings m !! p with
      | Some _ => put (with_strings (delete p (strings m)) m)
      | None => undef UB_dangling
      end
  end.

Definition text_at (p : positive) : EM string := m ← get; lift_opt UB_dangling (strings m !! p).
Definition exception_at (id : positive) : EM exception_object := m ← get; lift_opt UB_dangling (exceptions m !! id).
Definition set_exception (id : positive) (o : exception_object) : EM unit :=
  modify (fun m => with_exceptions (<[id := o]> (exceptions m)) m).
Definition new_exception (o : exception_object) : EM positive :=
  m ← get;
  let id := fresh (dom (exceptions m)) in
  set_exception id o;; mret id.

(** ** Constructors, assignment, destructors *)

Definition SettingException_path (k : setting_exception) (path : option string) : EM positive :=
  p ← strdup path; new_exception (SettingObject k p).

(** From a setting: [sstr] holds the path that __constructPath wrote. *)
Definition SettingException_setting (k : setting_exception) (sstr : string) : EM positive :=
  SettingException_path k (Some (c_str sstr)).

Definition ParseException_new (file : option string) (line : Z) (error : option string) : EM positive :=
  f ← match file with Some t => p ← strdup (Some t); mret (Some p) | None => mret None end;
  new_exception (ParseObject f line error).

Definition SettingException_copy (k : setting_exception) (path : positive) : EM positive :=
  t ← text_at path; p ← strdup (Some t); new_exception (SettingObject k p).

Definition ParseException_copy (file : option positive) (line : Z) (error : option string) : EM positive :=
  t ← match file with Some p => t ← text_at p; mret (Some t) | None => mret None end;
  ParseException_new t line error.

Definition copy_exception (other : positive) : EM positive :=
  o ← exception_at other;
  match o with
  | SettingObject k p => SettingException_copy k p
  | ParseObject f l e => ParseException_copy f l e
  | FileIOObject => new_exception FileIOObject
  end.

(** SettingException has an operator=; ParseException has the one that the compiler
    makes, member by member.  The compiler refuses objects of unrelated classes. *)
Definition assign_exception (this other : positive) : EM unit :=
  a ← exception_at this;
  b ← exception_at other;
  match a, b with
  | SettingObject k p, SettingObject _ q =>
      free (Some p);;
      t ← text_at q;
      r ← strdup (Some t);
      set_exception this (SettingObject k r)
  | ParseObject _ _ _, ParseObject f l e => set_exception this (ParseObject f l e)
  | FileIOObject, FileIOObject => mret tt
  | _, _ => undef UB_union
  end.

(** What an object owns. *)
Definition owned (o : exception_object) : option positive :=
  match o with SettingObject _ p => Some p | ParseObject f _ _ => f | FileIOObject => None end.

Definition destroy_exception (this : positive) : EM unit :=
  o ← exception_at this;
  free (owned o);;
  modify (fun m => with_exceptions (delete this (exceptions m)) m).

Definition exception_what (this : positive) : EM string :=
  o ← exception_at this;
  mret match o with
       | SettingObject E_type _ => "SettingTypeException"
       | SettingObject E_not_found _ => "SettingNotFoundException"
       | SettingObject E_name _ => "SettingNameException"
       | ParseObject _ _ _ => "ParseException"
       | FileIOObject => "FileIOException"
       end.

(** getPath and getFile: the text that the pointer leads to. *)
Definition exception_getPath (this : positive) : EM (option string) :=
  o ← exception_at this;
  match o with SettingObject _ p => t ← text_at p; mret (Some t) | _ => undef UB_union end.

Definition exception_getFile (this : positive) : EM (option string) :=
  o ← exception_at this;
  match o with
  | ParseObject (Some p) _ _ => t ← text_at p; mret (Some t)
  | ParseObject None _ _ => mret None
  | _ => undef UB_union
  end.

Definition exception_getLine (this : positive) : EM Z :=
  o ← exception_at this; match o with ParseObject _ l _ => mret l | _ => undef UB_union end.
Definition exception_getError (this : positive) : EM (option string) :=
  o ← exception_at this; match o with ParseObject _ _ e => mret e | _ => undef UB_union end.

(** ** Programs *)

Inductive call :=
  | New_setting (k : setting_exception) (sstr : string)
  | New_path (k : setting_exception) (path : string)
  | New_parse (file : option string) (line : Z) (error : option string)
  | New_file_io
  | Copy (other : positive)
  | Assign (this other : positive)
  | Destroy (this : positive)
  | What (this : positive)
  | GetPath (this : positive) | GetFile (this : positive)
  | GetLine (this : positive) | GetError (this : positive).

Inductive answer :=
  | An_object (id : positive) | A_text (t : option string) | A_number (z : Z) | Nothing.

Definition run (c : call) : EM answer :=
  match c with
  | New_setting k s => i ← SettingException_setting k s; mret (An_object i)
  | New_path k s => i ← SettingException_path k (Some s); mret (An_object i)
  | New_parse f l e => i ← ParseException_new f l e; mret (An_object i)
  | New_file_io => i ← new_exception FileIOObject; mret (An_object i)
  | Copy i => i ← copy_exception i; mret (An_object i)
  | Assign i j => assign_exception i j;; mret Nothing
  | Destroy i => destroy_exception i;; mret Nothing
  | What i => t ← exception_what i; mret (A_text (Some t))
  | GetPath i => t ← exception_getPath i; mret (A_text t)
  | GetFile i => t ← exception_getFile i; mret (A_text t)
  | GetLine i => z ← exception_getLine i; mret (A_number z)
  | GetError i => t ← exception_getError i; mret (A_text t)
  end.

Fixpoint runs (cs : list call) : EM (list answer) :=
  match cs with
  | [] => mret []
  | c :: cs' => a ← run c; l ← runs cs'; mret (a :: l)
  end.

(** ** Exceptions as values *)

Definition exception_of (k : setting_exception) (path : string) : exception :=
  match k with
  | E_type => SettingTypeException path
  | E_not_found => SettingNotFoundException path
  | E_name => SettingNameException path
  end.

Definition setting_of (e : exception) : option (setting_exception * string) :=
  match e with
  | SettingTypeException p => Some (E_type, p)
  | SettingNotFoundException p => Some (E_not_found, p)
  | SettingNameException p => Some (E_name, p)
  | _ => None
  end.

Definition parse_of (e : exception) : option (option string * Z * option string) :=
  match e with ParseException f l t => Some (f, l, t) | _ => None end.

(** What a program of calls does with values for objects: nothing is shared.
    [None] when an object is gone or of another class, and for the assignments of
    ParseExceptions and of an object to itself. *)
Definition value_call (c : call) (vs : gmap positive exception) : option (answer * gmap positive exception) :=
  let new v := let id := fresh (dom vs) in Some (An_object id, <[id := v]> vs) in
  match c with
  | New_setting k s => new (exception_of k (c_str s))
  | New_path k s => new (exception_of k s)
  | New_parse f l e => new (ParseException f l e)
  | New_file_io => new FileIOException
  | Copy i => v ← vs !! i; new v
  | Assign i j =>
      a ← vs !! i; b ← vs !! j;
      match setting_of a, setting_of b with
      | Some (k, _), Some (_, t) => if decide (i = j) then None else Some (Nothing, <[i := exception_of k t]> vs)
      | _, _ => match a, b with FileIOException, FileIOException => Some (Nothing, vs) | _, _ => None end
      end
  | Destroy i => _ ← vs !! i; Some (Nothing, delete i vs)
  | What i => v ← vs !! i; Some (A_text (Some (what v)), vs)
  | GetPath i => v ← vs !! i; p ← setting_of v; Some (A_text (Some p.2), vs)
  | GetFile i => v ← vs !! i; p ← parse_of v; Some (A_text p.1.1, vs)
  | GetLine i => v ← vs !! i; p ← parse_of v; Some (A_number p.1.2, vs)
  | GetError i => v ← vs !! i; p ← parse_of v; Some (A_text p.2, vs)
  end.

Fixpoint value_calls (cs : list call) (vs : gmap positive exception) : option (list answer * gmap positive exception) :=
  match cs with
  | [] => Some ([], vs)
  | c :: cs' => r ← value_call c vs; rs ← value_calls cs' r.2; Some (r.1 :: rs.1, rs.2)
  end.

(** ** Objects stand for values *)

Definition value_of (ss : gmap positive string) (o : exception_object) : option exception :=
  match o with
  | SettingObject k p => exception_of k <$> ss !! p
  | ParseObject None l e => Some (ParseException None l e)
  | ParseObject (Some p) l e => t ← ss !! p; Some (ParseException (Some t) l e)
  | FileIOObject => Some FileIOException
  end.

(** Every text belongs to one object. *)
Record stands (m : memory) (vs : gmap positive exception) : Prop := {
  sn_live : forall i o, exceptions m !! i = Some o -> exists v, vs !! i = Some v /\ value_of (strings m) o = Some v;
  sn_dom : forall i, exceptions m !! i = None -> vs !! i = None;
  sn_once : forall i j o o' p, exceptions m !! i = Some o -> exceptions m !! j = Some o' ->
    owned o = Some p -> owned o' = Some p -> i = j;
  sn_owned : forall p t, strings m !! p = Some t -> exists i o, exceptions m !! i = Some o /\ owned o = Some p
}.

Lemma stands_dom m vs : stands m vs -> dom vs = dom (exceptions m).
Proof.
  intros [Hl Hd _ _]. apply set_eq. intros i. rewrite !elem_of_dom. destruct (exceptions m !! i) as [o|] eqn:E.
  - destruct (Hl i o E) as (v & -> & _). by split.
  - rewrite (Hd i E). split; by intros [].
Qed.

Lemma value_same ss ss' o : (forall p, owned o = Some p -> ss' !! p = ss !! p) -> value_of ss' o = value_of ss o.
Proof. destruct o as [k p|[p|] l e|]; cbn; intros H; try done; by rewrite H. Qed.

(** An object that owns a new text, or none, comes to be. *)
Lemma stands_insert m vs i o v ss : stands m vs -> exceptions m !! i = None -> value_of ss o = Some v ->
  (forall p, owned o = Some p -> strings m !! p = None) ->
  (forall p, owned o <> Some p -> ss !! p = strings m !! p) ->
  stands (Memory ss (<[i := o]> (exceptions m))) (<[i := v]> vs).
Proof.
  intros [Hl Hd Ho Hs] Hi Hv Hnew Hold.
  assert (forall j oj p, exceptions m !! j = Some oj -> owned oj = Some p -> is_Some (strings m !! p)) as Hhas.
  { intros j oj p Hj Hp. destruct (Hl j oj Hj) as (vj & _ & Hvj). destruct oj as [k q|[q|] l e|]; cbn in *; try done;
      injection Hp as ->; by destruct (strings m !! p). }
  assert (forall j oj p, exceptions m !! j = Some oj -> owned oj = Some p -> owned o <> Some p) as Hdis.
  { intros j oj p Hj Hp E. destruct (Hhas j oj p Hj Hp) as [t Ht]. by rewrite (Hnew p E) in Ht. }
  split; cbn.
  - intros j oj. rewrite lookup_insert_Some. intros [[<- <-]|[Hij Hj]]; [exists v; by rewrite lookup_insert_eq|].
    destruct (Hl j oj Hj) as (vj & Hvs & Hvj). exists vj. rewrite lookup_insert_ne by done. split; [done|].
    rewrite <- Hvj. apply value_same. intros p Hp. apply Hold. by eapply Hdis.
  - intros j. rewrite lookup_insert_None. intros [Hj Hij]. rewrite lookup_insert_ne by done. by apply Hd.
  - intros a b oa ob p. rewrite !lookup_insert_Some. intros [[<- <-]|[Ha Hoa]] [[<- <-]|[Hb Hob]] Hpa Hpb; [done| | |by eapply Ho].
    + by destruct (Hdis b ob p Hob Hpb).
    + by destruct (Hdis a oa p Hoa Hpa).
  - intros p t Hp. destruct (decide (owned o = Some p)) as [E|E]; [exists i, o; by rewrite lookup_insert_eq|].
    rewrite (Hold p E) in Hp. destruct (Hs p t Hp) as (j & oj & Hj & Hpj). exists j, oj.
    rewrite lookup_insert_ne; [done|]. intros ->. congruence.
Qed.

(** An object is gone, and its text with it. *)
Definition without (o : exception_object) (ss : gmap positive string) : gmap positive string :=
  match owned o with Some p => delete p ss | None => ss end.

Lemma stands_delete m vs i o : stands m vs -> exceptions m !! i = Some o ->
  stands (Memory (without o (strings m)) (delete i (exceptions m))) (delete i vs).
Proof.
  intros [Hl Hd Ho Hs] Hi.
  assert (forall p, owned o <> Some p -> without o (strings m) !! p = strings m !! p) as Hkeep.
  { intros p Hp. unfold without. destruct (owned o); [|done]. apply lookup_delete_ne. by intros ->. }
  split; cbn.
  - intros j oj. rewrite lookup_delete_Some. intros [Hij Hj]. destruct (Hl j oj Hj) as (v & Hv & Hvj).
    exists v. rewrite lookup_delete_ne by done. split; [done|]. rewrite <- Hvj. apply value_same.
    intros p Hp. apply Hkeep. intros E. destruct Hij. by eapply Ho.
  - intros j Hj. apply lookup_delete_None. apply lookup_delete_None in Hj as [->|Hj]; [by left|]. right. by apply Hd.
  - intros a b oa ob p. rewrite !lookup_delete_Some. intros [_ Ha] [_ Hb]. by eapply Ho.
  - intros p t Hp. assert (owned o <> Some p) as Hne.
    { intros E. unfold without in Hp. by rewrite E, lookup_delete_eq in Hp. }
    rewrite Hkeep in Hp by done. destruct (Hs p t Hp) as (j & oj & Hj & Hpj). exists j, oj.
    rewrite lookup_delete_ne; [done|]. intros ->. congruence.
Qed.

(** ** Calls on objects are calls on values *)

Lemma returns_exception_at i m o (P : exception_object -> memory -> Prop) : exceptions m !! i = Some o -> P o m ->
  returns (exception_at i) m P.
Proof. intros Hi HP. unfold exception_at. rnext. apply returns_get. rewrite Hi. by apply returns_ret. Qed.

Lemma returns_text_at p m t (P : string -> memory -> Prop) : strings m !! p = Some t -> P t m -> returns (text_at p) m P.
Proof. intros Hp HP. unfold text_at. rnext. apply returns_get. rewrite Hp. by apply returns_ret. Qed.

Lemma returns_strdup t m (P : positive -> memory -> Prop) :
  (forall p, strings m !! p = None -> P p (with_strings (<[p := t]> (strings m)) m)) -> returns (strdup (Some t)) m P.
Proof.
  intros HP. unfold strdup. rnext. apply returns_get. rnext. apply returns_put. apply returns_ret. apply HP.
  apply not_elem_of_dom, is_fresh.
Qed.

(** An object is made from the text that it owns. *)
Lemma returns_new m vs o v ss (P : positive -> memory -> Prop) : stands m vs -> value_of ss o = Some v ->
  (forall p, owned o = Some p -> strings m !! p = None) -> (forall p, owned o <> Some p -> ss !! p = strings m !! p) ->
  (forall m', stands m' (<[fresh (dom vs) := v]> vs) -> P (fresh (dom vs)) m') ->
  returns (new_exception o) (with_strings ss m) P.
Proof.
  intros H Hv Hnew Hold HP. unfold new_exception. rnext. apply returns_get. rnext. apply returns_modify. apply returns_ret.
  cbn. rewrite <- (stands_dom m vs H). apply HP. apply (stands_insert m vs); try done.
  apply not_elem_of_dom. rewrite <- (stands_dom m vs H). apply is_fresh.
Qed.

Lemma new_setting_ok m vs k t (P : positive -> memory -> Prop) : stands m vs ->
  (forall m', stands m' (<[fresh (dom vs) := exception_of k t]> vs) -> P (fresh (dom vs)) m') ->
  returns (SettingException_path k (Some t)) m P.
Proof.
  intros H HP. unfold SettingException_path. rnext. apply returns_strdup. intros p Hp.
  apply (returns_new m vs _ (exception_of k t)); [done| | | |done]; cbn.
  - by rewrite lookup_insert_eq.
  - by intros q [= ->].
  - intros q Hq. apply lookup_insert_ne. congruence.
Qed.

Lemma new_parse_ok m vs f l e (P : positive -> memory -> Prop) : stands m vs ->
  (forall m', stands m' (<[fresh (dom vs) := ParseException f l e]> vs) -> P (fresh (dom vs)) m') ->
  returns (ParseException_new f l e) m P.
Proof.
  intros H HP. unfold ParseException_new. rnext. destruct f as [t|].
  - rnext. apply returns_strdup. intros p Hp. apply returns_ret.
    apply (returns_new m vs _ (ParseException (Some t) l e)); [done| | | |done]; cbn.
    + by rewrite lookup_insert_eq.
    + by intros q [= ->].
    + intros q Hq. apply lookup_insert_ne. congruence.
  - apply returns_ret. replace m with (with_strings (strings m) m) by (by destruct m).
    by apply (returns_new m vs _ (ParseException None l e)).
Qed.

Lemma stands_object m vs i v : stands m vs -> vs !! i = Some v ->
  exists o, exceptions m !! i = Some o /\ value_of (strings m) o = Some v.
Proof.
  intros [Hl Hd _ _] Hi. destruct (exceptions m !! i) as [o|] eqn:E; [|by rewrite (Hd i E) in Hi].
  exists o. destruct (Hl i o E) as (v' & Hv' & Hv). split; [done|congruence].
Qed.

Lemma value_setting ss k p v : value_of ss (SettingObject k p) = Some v -> exists t, ss !! p = Some t /\ v = exception_of k t.
Proof. cbn. intros (t & -> & Ht)%fmap_Some. by exists t. Qed.

Lemma setting_of_exception k t : setting_of (exception_of k t) = Some (k, t).
Proof. by destruct k. Qed.

Lemma value_parse ss f l e v : value_of ss (ParseObject f l e) = Some v -> exists t, v = ParseException t l e /\
  match f with Some p => t = ss !! p /\ is_Some (ss !! p) | None => t = None end.
Proof.
  cbn. destruct f as [p|]; [|intros [= <-]; by exists None]. intros (t & Ht & [= <-])%bind_Some. exists (Some t). by rewrite Ht.
Qed.

(** Objects from their values. *)
Lemma setting_object m vs i v k t : stands m vs -> vs !! i = Some v -> setting_of v = Some (k, t) ->
  exists p, exceptions m !! i = Some (SettingObject k p) /\ strings m !! p = Some t.
Proof.
  intros H Hi Hs. destruct (stands_object m vs i v H Hi) as (o & Ho & Hv). destruct o as [k' p|f l e|].
  - destruct (value_setting _ _ _ _ Hv) as (t' & Ht & ->). rewrite setting_of_exception in Hs. injection Hs as <- <-. by exists p.
  - by destruct (value_parse _ _ _ _ _ Hv) as (t' & -> & _).
  - by injection Hv as <-.
Qed.

Lemma parse_object m vs i v t l e : stands m vs -> vs !! i = Some v -> parse_of v = Some (t, l, e) ->
  exists f, exceptions m !! i = Some (ParseObject f l e) /\
    match f with Some p => t = strings m !! p /\ is_Some (strings m !! p) | None => t = None end.
Proof.
  intros H Hi Hs. destruct (stands_object m vs i v H Hi) as (o & Ho & Hv). destruct o as [k' p|f l' e'|].
  - destruct (value_setting _ _ _ _ Hv) as (t' & Ht & ->). by destruct k'.
  - destruct (value_parse _ _ _ _ _ Hv) as (t' & -> & Ht). injection Hs as <- <- <-. by exists f.
  - by injection Hv as <-.
Qed.

Lemma value_file_io ss o : value_of ss o = Some FileIOException -> o = FileIOObject.
Proof.
  destruct o as [k p|f l e|]; [|intros Hv; by destruct (value_parse _ _ _ _ _ Hv) as (? & [=] & _)|done].
  intros Hv. destruct (value_setting _ _ _ _ Hv) as (t & _ & E). by destruct k.
Qed.

Lemma value_what ss o v : value_of ss o = Some v -> what v = match o with
  | SettingObject E_type _ => "SettingTypeException"
  | SettingObject E_not_found _ => "SettingNotFoundException"
  | SettingObject E_name _ => "SettingNameException"
  | ParseObject _ _ _ => "ParseException"
  | FileIOObject => "FileIOException"
  end.
Proof.
  destruct o as [k p|f l e|]; intros Hv.
  - destruct (value_setting _ _ _ _ Hv) as (t & _ & ->). by destruct k.
  - by destruct (value_parse _ _ _ _ _ Hv) as (t & -> & _).
  - by injection Hv as <-.
Qed.

Section Calls.
Context (m : memory) (vs : gmap positive exception) (H : stands m vs).

Lemma copy_ok i v (P : positive -> memory -> Prop) : vs !! i = Some v ->
  (forall m', stands m' (<[fresh (dom vs) := v]> vs) -> P (fresh (dom vs)) m') -> returns (copy_exception i) m P.
Proof using H.
  intros Hi HP. destruct (stands_object m vs i v H Hi) as (o & Ho & Hv).
  unfold copy_exception. rnext. eapply returns_exception_at; [done|]. destruct o as [k p|f l e|].
  - destruct (value_setting _ _ _ _ Hv) as (t & Ht & ->). unfold SettingException_copy. rnext. eapply returns_text_at; [done|].
    by apply (new_setting_ok m vs).
  - destruct (value_parse _ _ _ _ _ Hv) as (t & -> & Ht). unfold ParseException_copy. rnext. destruct f as [p|].
    + destruct Ht as [-> [w Ht]]. rewrite Ht in HP. rnext. eapply returns_text_at; [done|]. apply returns_ret. by apply (new_parse_ok m vs).
    + subst t. apply returns_ret. by apply (new_parse_ok m vs).
  - injection Hv as <-. replace m with (with_strings (strings m) m) by (by destruct m).
    by apply (returns_new m vs _ FileIOException).
Qed.

(** Giving back what an object owns. *)
Lemma returns_free o i (P : unit -> memory -> Prop) : exceptions m !! i = Some o ->
  P tt (with_strings (without o (strings m)) m) -> returns (free (owned o)) m P.
Proof using H.
  intros Hi HP. destruct (sn_live _ _ H i o Hi) as (v & _ & Hv). unfold free, without in *.
  destruct (owned o) as [p|] eqn:E; [|apply returns_ret; by destruct m]. rnext. apply returns_get.
  destruct (strings m !! p) eqn:Ep; [by apply returns_put|].
  exfalso. destruct o as [k q|[q|] l e|]; cbn in *; try done; injection E as ->; by rewrite Ep in Hv.
Qed.

Lemma destroy_exception_ok i v (P : unit -> memory -> Prop) : vs !! i = Some v ->
  (forall m', stands m' (delete i vs) -> P tt m') -> returns (destroy_exception i) m P.
Proof using H.
  intros Hi HP. destruct (stands_object m vs i v H Hi) as (o & Ho & Hv).
  unfold destroy_exception. rnext. eapply returns_exception_at; [done|]. rnext. eapply returns_free; [done|].
  apply returns_modify. apply HP. exact (stands_delete m vs i o H Ho).
Qed.

(** The old text is given back, and a copy of the other object's text taken. *)
Lemma assign_setting_ok i j k k' t t' a b (P : unit -> memory -> Prop) : vs !! i = Some a -> vs !! j = Some b ->
  setting_of a = Some (k, t) -> setting_of b = Some (k', t') -> i <> j ->
  (forall m', stands m' (<[i := exception_of k t']> vs) -> P tt m') -> returns (assign_exception i j) m P.
Proof using H.
  intros Hi Hj Ha Hb Hij HP.
  destruct (setting_object m vs i a k t H Hi Ha) as (p & Ho & Hp). destruct (setting_object m vs j b k' t' H Hj Hb) as (q & Ho' & Hq).
  assert (q <> p) as Hqp by (intros ->; apply Hij; by apply (sn_once _ _ H i j _ _ p Ho Ho')).
  unfold assign_exception. rnext. eapply returns_exception_at; [done|]. rnext. eapply returns_exception_at; [done|].
  cbv beta iota. rnext. apply (returns_free (SettingObject k p) i); [done|]. cbn. rnext.
  apply (returns_text_at _ _ t'); [cbn; by rewrite lookup_delete_ne|]. rnext. apply returns_strdup. cbn. intros r Hr.
  apply returns_modify, HP. pose proof (stands_delete m vs i _ H Ho) as Hd. unfold without in Hd. cbn in Hd.
  rewrite <- (insert_delete_eq vs), <- (insert_delete_eq (exceptions m)).
  apply (stands_insert _ _ i (SettingObject k r) (exception_of k t') _ Hd); cbn.
  - apply lookup_delete_eq.
  - by rewrite lookup_insert_eq.
  - by intros q' [= <-].
  - intros q' Hq'. apply lookup_insert_ne. congruence.
Qed.
End Calls.

(** One call. *)
Lemma run_ok c m vs a vs' : stands m vs -> value_call c vs = Some (a, vs') ->
  returns (run c) m (fun a' m' => a' = a /\ stands m' vs').
Proof.
  intros H. destruct c as [k w|k w|f l e| |i|i j|i|i|i|i|i|i]; cbn [value_call run].
  - intros [= <- <-]. rnext. apply (new_setting_ok m vs); [done|]. intros m' H'. by apply returns_ret.
  - intros [= <- <-]. rnext. apply (new_setting_ok m vs); [done|]. intros m' H'. by apply returns_ret.
  - intros [= <- <-]. rnext. apply (new_parse_ok m vs); [done|]. intros m' H'. by apply returns_ret.
  - intros [= <- <-]. rnext. replace m with (with_strings (strings m) m) by (by destruct m).
    apply (returns_new m vs _ FileIOException); [done..|]. intros m' H'. by apply returns_ret.
  - intros (v & Hv & [= <- <-])%bind_Some. rnext. eapply copy_ok; [done..|]. intros m' H'. by apply returns_ret.
  - intros (v & Hv & (w & Hw & E)%bind_Some)%bind_Some. rnext.
    destruct (setting_of v) as [[k t]|] eqn:Ev; [destruct (setting_of w) as [[k' t']|] eqn:Ew|].
    + destruct (decide (i = j)) as [|Hij]; [done|]. injection E as <- <-.
      eapply assign_setting_ok; [done..|]. intros m' H'. by apply returns_ret.
    + by destruct v, w.
    + destruct v, w; try done. injection E as <- <-.
      destruct (stands_object m vs i _ H Hv) as (o & Ho & Eo). destruct (stands_object m vs j _ H Hw) as (o' & Ho' & Eo').
      apply value_file_io in Eo as ->, Eo' as ->. unfold assign_exception. rnext. eapply returns_exception_at; [done|].
      rnext. eapply returns_exception_at; [done|]. apply returns_ret. by apply returns_ret.
  - intros (v & Hv & [= <- <-])%bind_Some. rnext. eapply destroy_exception_ok; [done..|]. intros m' H'. by apply returns_ret.
  - intros (v & Hv & [= <- <-])%bind_Some. destruct (stands_object m vs i v H Hv) as (o & Ho & Eo).
    rnext. unfold exception_what. rnext. eapply returns_exception_at; [done|]. apply returns_ret. apply returns_ret. split; [|done].
    by rewrite (value_what _ _ _ Eo).
  - intros (v & Hv & ([k t] & Es & [= <- <-])%bind_Some)%bind_Some. destruct (setting_object m vs i v k t H Hv Es) as (p & Ho & Hp).
    rnext. unfold exception_getPath. rnext. eapply returns_exception_at; [done|]. cbv beta iota. rnext. eapply returns_text_at; [done|].
    apply returns_ret. by apply returns_ret.
  - intros (v & Hv & ([[t l] e] & Es & [= <- <-])%bind_Some)%bind_Some. destruct (parse_object m vs i v t l e H Hv Es) as (f & Ho & Hf).
    rnext. unfold exception_getFile. rnext. eapply returns_exception_at; [done|]. destruct f as [p|].
    + destruct Hf as [-> [w Hp]]. rewrite Hp. cbv beta iota. rnext. eapply returns_text_at; [done|]. apply returns_ret. by apply returns_ret.
    + subst t. apply returns_ret. by apply returns_ret.
  - intros (v & Hv & ([[t l] e] & Es & [= <- <-])%bind_Some)%bind_Some. destruct (parse_object m vs i v t l e H Hv Es) as (f & Ho & Hf).
    rnext. unfold exception_getLine. rnext. eapply returns_exception_at; [done|]. apply returns_ret. by apply returns_ret.
  - intros (v & Hv & ([[t l] e] & Es & [= <- <-])%bind_Some)%bind_Some. destruct (parse_object m vs i v t l e H Hv Es) as (f & Ho & Hf).
    rnext. unfold exception_getError. rnext. eapply returns_exception_at; [done|]. apply returns_ret. by apply returns_ret.
Qed.

Lemma runs_ok cs m vs l vs' : stands m vs -> value_calls cs vs = Some (l, vs') ->
  returns (runs cs) m (fun l' m' => l' = l /\ stands m' vs').
Proof.
  revert m vs l. induction cs as [|c cs IH]; intros m vs l H; cbn [value_calls runs]; [intros [= <- <-]; by apply returns_ret|].
  intros ([a vs1] & E1 & ([l1 vs2] & E2 & [= <- <-])%bind_Some)%bind_Some. cbn in *. rnext.
  eapply returns_mono; [|by eapply run_ok]. intros a' m1 [-> H1]. rnext.
  eapply returns_mono; [|by eapply IH]. intros l' m2 [-> H2]. by apply returns_ret.
Qed.

(** ** What the assignments do that values would not *)

(** operator= gives the text back before it copies it. *)
Lemma self_assignment m vs i v k t : stands m vs -> vs !! i = Some v -> setting_of v = Some (k, t) ->
  fst (run (Assign i i) m) = Undef UB_dangling.
Proof.
  intros H Hi Hs. destruct (setting_object m vs i v k t H Hi Hs) as (p & Ho & Hp).
  unfold run, assign_exception, exception_at, free, text_at, mbind, M_bind, get, put, lift_opt. cbn. rewrite Ho. cbn. rewrite Ho. cbn.
  rewrite Hp. cbn. by rewrite lookup_delete_eq.
Qed.

(** The operator= of ParseException, made by the compiler, copies the pointer: two
    destructors give the same text back. *)
Lemma shared_file m vs i j a b la lb ea eb t f : stands m vs -> i <> j -> vs !! i = Some a -> vs !! j = Some b ->
  parse_of a = Some (t, la, ea) -> parse_of b = Some (Some f, lb, eb) ->
  fst (runs [Assign i j; Destroy i; Destroy j] m) = Undef UB_dangling.
Proof.
  intros H Hij Hi Hj Ha Hb. destruct (parse_object m vs i a t la ea H Hi Ha) as (pa & Hoa & _).
  destruct (parse_object m vs j b (Some f) lb eb H Hj Hb) as ([p|] & Hob & Hp); [destruct Hp as [Hp _]|done].
  assert (run (Assign i j) m = (Ret Nothing, with_exceptions (<[i := ParseObject (Some p) lb eb]> (exceptions m)) m)) as E1.
  { unfold run, assign_exception, exception_at, mbind, M_bind, get, lift_opt. cbn. rewrite Hoa. cbn. by rewrite Hob. }
  set (m1 := with_exceptions _ m) in E1. set (m2 := Memory (delete p (strings m)) (delete i (exceptions m1))).
  assert (run (Destroy i) m1 = (Ret Nothing, m2)) as E2.
  { unfold run, destroy_exception, exception_at, free, mbind, M_bind, get, put, modify, lift_opt. cbn. rewrite lookup_insert_eq. cbn.
    by rewrite <- Hp. }
  assert (run (Destroy j) m2 = (Undef UB_dangling, m2)) as E3.
  { unfold run, destroy_exception, exception_at, free, mbind, M_bind, get, lift_opt. cbn.
    rewrite lookup_delete_ne, lookup_insert_ne, Hob by done. cbn. by rewrite lookup_delete_eq. }
  cbn [runs]. rewrite (bind_ret _ _ _ _ _ E1). erewrite bind_undef; [done|].
  rewrite (bind_ret _ _ _ _ _ E2). erewrite bind_undef; [done|]. by erewrite bind_undef.
Qed.

Lemma nothing_stands : stands (Memory ∅ ∅) ∅.
Proof. split; done. Qed.

Lemma stands_empty m : stands m ∅ -> strings m = ∅ /\ exceptions m = ∅.
Proof.
  intros [Hl _ _ Hs]. assert (forall i, exceptions m !! i = None) as He.
  { intros i. destruct (exceptions m !! i) as [o|] eqn:E; [|done]. by destruct (Hl i o E) as (v & Hv & _). }
  split; apply map_eq; intros i; rewrite lookup_empty; [|done].
  destruct (strings m !! i) eqn:E; [|done]. destruct (Hs _ _ E) as (j & o & Hj & _). by rewrite He in Hj.
Qed.

(** C23: Exceptions are values: any program that makes, copies, throws away and
    reads exceptions, and assigns them except as below, does with the objects,
    whose texts are copied by strdup and given back by free, what it would do with
    values; every text has one owner, and when no object is left no text is.  An
    exception of a setting that is assigned to itself, though, reads its text after
    giving it back, and after an assignment of ParseExceptions, which have no
    operator= of their own, two destructors give back the same file name. *)
Theorem exceptions_are_values cs l vs : value_calls cs ∅ = Some (l, vs) ->
  exists m, runs cs (Memory ∅ ∅) = (Ret l, m) /\ stands m vs /\ (vs = ∅ -> strings m = ∅ /\ exceptions m = ∅) /\
    (forall i v k t, vs !! i = Some v -> setting_of v = Some (k, t) -> fst (run (Assign i i) m) = Undef UB_dangling) /\
    (forall i j a b ra f lb eb, i <> j -> vs !! i = Some a -> vs !! j = Some b -> parse_of a = Some ra ->
       parse_of b = Some (Some f, lb, eb) -> fst (runs [Assign i j; Destroy i; Destroy j] m) = Undef UB_dangling).
Proof.
  intros E. destruct (runs_ok cs _ _ _ _ nothing_stands E) as (l' & m & Er & -> & H). exists m. split_and!; [done|done| | |].
  - intros ->. by apply stands_empty.
  - intros i v k t. by apply self_assignment.
  - intros i j a b [[t la] ea] f lb eb ? ? ? ? ?. by eapply shared_file.
Qed.

(** A throw copies the exception that was made; the handler looks at the copy. *)
Definition throw_and_catch (k : setting_exception) (path : string) : list call :=
  [New_path k path; Copy 1; Destroy 1; What 2; GetPath 2; Destroy 2].

Lemma exceptions_are_values_witness : exists m,
  runs (throw_and_catch E_not_found "a.b") (Memory ∅ ∅) =
    (Ret [An_object 1; An_object 2; Nothing; A_text (Some "SettingNotFoundException"); A_text (Some "a.b"); Nothing], m) /\
  strings m = ∅ /\ exceptions m = ∅.
Proof.
  destruct (exceptions_are_values (throw_and_catch E_not_found "a.b")
    [An_object 1; An_object 2; Nothing; A_text (Some "SettingNotFoundException"); A_text (Some "a.b"); Nothing] ∅)
    as (m & E & _ & He & _); [vm_compute; reflexivity|].
  exists m. split; [exact E|]. by apply He.
Defined.
