(* ===== verification/Locale.v ===== *)
(** * The thread's locale around reading and writing (lib/libconfig.c:
      __config_locale_override, __config_locale_restore)

    Numbers are read and printed in the locale of the calling thread, so
    __config_read and config_write switch to "C" for the time of the call.  The
    model keeps the locale objects of <locale.h>: newlocale allocates one,
    uselocale makes one the thread's own and returns the one before, freelocale
    destroys one. *)

From S2P Require Import Prelude ConfigWrite.
Local Open Scope Z_scope.

(** The name of the locale of each category. *)
Definition categories : Type := Z -> string.

Inductive locale_t : Set := LC_GLOBAL_LOCALE | Object (p : positive).

(** The thread's locale, the objects that live, and the locale of the process. *)
Record locales := { thread_locale : locale_t; live_locales : gmap positive categories; global : categories }.

Definition with_thread (l : locale_t) (s : locales) : locales :=
  {| thread_locale := l; live_locales := live_locales s; global := global s |}.
Definition with_live (m : gmap positive categories) (s : locales) : locales :=
  {| thread_locale := thread_locale s; live_locales := m; global := global s |}.

(** What the functions of <stdio.h> and <stdlib.h> see. *)
Definition in_effect (s : locales) : option categories :=
  match thread_locale s with LC_GLOBAL_LOCALE => Some (global s) | Object p => live_locales s !! p end.

Definition LM : Type -> Type := M locales.

Section Locale.
(** The number of a category, and the categories that a mask selects. *)
Variable LC_NUMERIC : Z.
Variable selects : Z -> Z -> bool.
(** Whether there is memory for one more locale. *)
Variable creates : bool.

(** newlocale with a null base: what the mask does not select is "C". *)
Definition newlocale (mask : Z) (name : string) : LM (option locale_t) :=
  if creates then
    s ← get;
    let p := fresh (dom (live_locales s)) in
    put (with_live (<[p := fun c => if selects mask c then name else "C"]> (live_locales s)) s);;
    mret (Some (Object p))
  else mret None.

Definition uselocale (l : option locale_t) : LM locale_t :=
  s ← get;
  match l with
  | None => mret tt
  | Some LC_GLOBAL_LOCALE => put (with_thread LC_GLOBAL_LOCALE s)
  | Some (Object p) => if decide (is_Some (live_locales s !! p)) then put (with_thread (Object p) s) else undef UB_dangling
  end;;
  mret (thread_locale s).

Definition freelocale (l : locale_t) : LM unit :=
  match l with
  | LC_GLOBAL_LOCALE => undef UB_io
  | Object p =>
      s ← get;
      if decide (is_Some (live_locales s !! p)) then put (with_live (delete p (live_locales s)) s) else undef UB_dangling
  end.

(** The category is passed for the mask. *)
Definition __config_locale_override : LM unit :=
  loc ← newlocale LC_NUMERIC "C";
  uselocale loc;;
  mret tt.

Definition __config_locale_restore : LM unit :=
  loc ← uselocale (Some LC_GLOBAL_LOCALE);
  freelocale loc.

(** ** The bracket

    [body] is what is done in between, given the locale it is done in. *)

Definition on_locales {S A} (m : LM A) : M (locales * S) A := fun s =>
  let '(o, l) := m s.1 in (o, (l, s.2)).

Definition on_rest {S A} (m : M S A) : M (locales * S) A := fun s =>
  let '(o, x) := m s.2 in (o, (s.1, x)).

Definition overridden {S A} (body : categories -> M S A) : M (locales * S) A :=
  on_locales __config_locale_override;;
  s ← get;
  cs ← lift_opt UB_dangling (in_effect s.1);
  r ← on_rest (body cs);
  on_locales __config_locale_restore;;
  mret r.

(** config_write, for the writing of the root setting in a given locale. *)
Definition config_write_in (write : categories -> WM unit) : M (locales * wstate) unit := overridden write.

(** ** The locale in the meantime, and afterwards *)

(** Whatever the mask selects, every category is "C". *)
Lemma override_run s : creates = true ->
  exists s', __config_locale_override s = (Ret tt, s') /\ thread_locale s' = Object (fresh (dom (live_locales s))) /\
    in_effect s' = Some (fun c => if selects LC_NUMERIC c then "C"%string else "C"%string) /\
    delete (fresh (dom (live_locales s))) (live_locales s') = live_locales s /\ global s' = global s.
Proof.
  intros E. unfold __config_locale_override, newlocale, uselocale. rewrite E. munfold.
  rewrite decide_True by (rewrite lookup_insert_eq; by eexists). simpl. eexists. split; [done|].
  split; [done|]. split; [unfold in_effect; simpl; by rewrite lookup_insert_eq|]. split; [|done].
  apply delete_insert_id, not_elem_of_dom, is_fresh.
Qed.

Lemma restore_run s p : thread_locale s = Object p -> is_Some (live_locales s !! p) ->
  __config_locale_restore s = (Ret tt, with_thread LC_GLOBAL_LOCALE (with_live (delete p (live_locales s)) s)).
Proof.
  intros E Hp. unfold __config_locale_restore, uselocale, freelocale. munfold. rewrite E. simpl.
  by rewrite decide_True.
Qed.

(** The call does in the "C" locale what it does, keeps no object of its own, and
    leaves the thread with the locale of the process, whichever it had. *)
Lemma overridden_run {S A} (body : categories -> M S A) s x a x' : creates = true ->
  (forall cs, (forall c, cs c = "C"%string) -> body cs x = (Ret a, x')) ->
  overridden body (s, x) = (Ret a, (with_thread LC_GLOBAL_LOCALE s, x')).
Proof.
  intros E Hbody. destruct (override_run s E) as (s' & Eo & Ec & Ee & Ed & Eg).
  unfold overridden, on_locales, on_rest. munfold. rewrite Eo. simpl. rewrite Ee. simpl.
  rewrite Hbody by (intros c; by destruct (selects LC_NUMERIC c)). simpl.
  assert (is_Some (live_locales s' !! fresh (dom (live_locales s)))) as Hp.
  { unfold in_effect in Ee. rewrite Ec in Ee. by eexists. }
  rewrite (restore_run _ _ Ec Hp). unfold with_thread, with_live. simpl. by rewrite Ed, Eg.
Qed.

Corollary overridden_transparent {S A} (body : categories -> M S A) s x a x' : creates = true ->
  (forall cs, (forall c, cs c = "C"%string) -> body cs x = (Ret a, x')) ->
  overridden body (s, x) = (Ret a, (s, x')) <-> thread_locale s = LC_GLOBAL_LOCALE.
Proof.
  intros E Hbody. rewrite (overridden_run body s x a x' E Hbody). destruct s as [cur obs gl]. simpl. split.
  - intros [=]. done.
  - by intros ->.
Qed.

(** Without memory for the locale, the body runs in the caller's locale, which is
    destroyed afterwards, or, when it is the one of the process, freed against
    the contract of freelocale. *)
Lemma overridden_without_memory {S A} (body : categories -> M S A) s x cs a x' : creates = false ->
  in_effect s = Some cs -> body cs x = (Ret a, x') ->
  overridden body (s, x) =
    match thread_locale s with
    | LC_GLOBAL_LOCALE => (Undef UB_io, (s, x'))
    | Object p => (Ret a, (with_thread LC_GLOBAL_LOCALE (with_live (delete p (live_locales s)) s), x'))
    end.
Proof.
  intros E Hs Hbody. unfold overridden, on_locales, on_rest, __config_locale_override, newlocale. rewrite E. munfold.
  rewrite Hs. simpl. rewrite Hbody. simpl. destruct (thread_locale s) as [|p] eqn:Ec.
  - unfold __config_locale_restore, uselocale, freelocale. munfold. rewrite Ec. destruct s. simpl in *. by subst.
  - rewrite (restore_run s p Ec); [done|]. unfold in_effect in Hs. rewrite Ec in Hs. by eexists.
Qed.
End Locale.

(** A thread in a locale of its own writes a configuration: it is left in the
    locale of the process. *)
Example write_drops_locale :
  let mine : categories := fun _ => "de_DE"%string in
  let s := {| thread_locale := Object 1; live_locales := {[ 1%positive := mine ]}; global := fun _ => "C"%string |} in
  thread_locale (config_write_in 1 Z.testbit true (fun _ => mret tt) (s, {| w_cfg := Config.blank; w_stream := ""; w_files := ∅ |})).2.1
    = LC_GLOBAL_LOCALE.
Proof. vm_compute. reflexivity. Qed.
