(* ===== verification/SetupConfig.v ===== *)
(** * The configuration of a program (src/reusedlib.c: setup_config_file)

    Reading a configuration file when the program starts, and the texts of the
    two files that come with the programs. *)

From Stdlib Require Import SpecFloat.
From S2P Require Import Prelude Double CString Setting Config ScanCtx Scanner Grammar ConfigRead.
From S2P Require Import NtpTime Packet Net SntpTools.
Local Open Scope Z_scope.

Definition with_moved (c : config) : config :=
  {| heap := c.(heap); next := c.(next); root := c.(root); destructor := c.(destructor);
     destroyed := c.(destroyed); options := c.(options); tab_width := c.(tab_width);
     default_format := c.(default_format); include_dir := c.(include_dir);
     error_text := c.(error_text); error_file := c.(error_file);
     error_line := c.(error_line); error_type := c.(error_type);
     filenames := c.(filenames); moved := true |}.

(** A pointer to a string of a configuration. *)
Definition cstr_of (s : option string) : cstr :=
  match s with Some s => Lit s | None => Null end.

Section Setup.
Context {K : Type} `{Kernel K}.

(** Runs an operation on a configuration held in a local variable. *)
Definition with_config {A} (m : CM A) (c : config) : M (proc K) (A * config) :=
  match m c with
  | (Ret a, c') => mret (a, c')
  | (Exited z, _) => exit_ z
  | (Aborted, _) => abort_
  | (Undef w, _) => undef w
  | (NoFuel, _) => stop NoFuel
  end.

(** The files as they are while the configuration is read. *)
Definition open_files (k : K) : string -> option string := fun f => (k_read_file f k).1.

(** The structure is returned by value. *)
Definition setup_config_file (fuel : nat) (config_file : string) : M (proc K) config :=
  p ← get;
  r ← with_config (config_init;; config_read_file (open_files p.(kern)) fuel config_file) blank;
  let '(ok, cfg) := r in
  if negb (ok : bool) then
    printf_to Stderr "error reading config file(%s:%d - %s)\n"
      [PPtr (cstr_of cfg.(error_file)); PInt cfg.(error_line);
       PPtr (cstr_of cfg.(error_text))];;
    with_config config_destroy cfg;;
    exit_ 1
  else mret (with_moved cfg).

(** A lookup that overwrites a variable when the setting is there. *)
Definition update_with {A B} (m : CM (option A)) (f : A -> B -> B) (c : config) (b : B)
    : M (proc K) B :=
  r ← with_config m c;
  mret (match r.1 with Some a => f a b | None => b end).
End Setup.

(** ** The files that come with the programs *)

(** Writes a double quote for each apostrophe. *)
Fixpoint quoted (s : string) : string :=
  match s with
  | EmptyString => EmptyString
  | String c s' => String (if uchar c =? 39 then chr 34 else c) (quoted s')
  end.

(** src/server_config.cfg *)
Definition server_config_cfg : string := quoted "//server_port = 123;
server_port = 6001;

manycast_enabled = false;

// the manycast group to query
manycast_address = '224.0.1.1';

// produce more detailed output
debug = true;
".

(** src/client_config.cfg *)
Definition client_config_cfg : string := quoted "// the port where the server can be reached
server_port = 6001;

// the manycast group to query
manycast_address = '224.0.1.1';

// how long in seconds to collect server responses for
manycast_wait_time = 3;

// amount of time to wait for a reply from a unicast server
recv_uni_timeout = 2;

// max number of retries for trying to get a reply from a unicast server
max_unicast_retries = 2;

// min number of seconds between polling the same server, it is strongly
// discouraged to poll sooner than 15 seconds at a time
poll_wait = 15;

// when enabled the time is fetched multiple times from the same server and
// an average of the offset and error bound is shown
timed_repeat_updates_enabled = false;

// the maximum number of times to fetch the server time. note the higher the
// value here, the greater accuracy of average clock offset and error bound
timed_repeat_updates_limit = 4; //set to 20

// produce more detailed output
debug = false;
".
