(* ===== verification/ServerMain.v ===== *)
(** * The server's settings and main (src/sntpserver.c) *)

From Stdlib Require Import SpecFloat Strings.Byte.
From S2P Require Import Prelude Double CString Setting Config ScanCtx Scanner Grammar ConfigRead.
From S2P Require Import NtpTime Packet Net Script SntpTools Server SetupConfig.
Local Open Scope Z_scope.

Definition CONFIG_FILE : string := "server_config.cfg".
Definition DEFAULT_debug : Z := 0.
Definition DEFAULT_MANYCAST_ENABLED : Z := 0.
Definition DEFAULT_MANYCAST_ADDRESS : string := "224.0.1.1".
Definition DEFAULT_SERVER_PORT : Z := 6001.

Definition default_settings : server_settings :=
  {| server_port := DEFAULT_SERVER_PORT; debug := DEFAULT_debug;
     manycast_enabled := DEFAULT_MANYCAST_ENABLED;
     manycast_address := Lit DEFAULT_MANYCAST_ADDRESS |}.

Definition set_enabled (v : Z) (s : server_settings) : server_settings :=
  {| server_port := s.(server_port); debug := s.(debug); manycast_enabled := v;
     manycast_address := s.(manycast_address) |}.
Definition set_address (v : option string) (s : server_settings) : server_settings :=
  {| server_port := s.(server_port); debug := s.(debug);
     manycast_enabled := s.(manycast_enabled); manycast_address := cstr_of v |}.
Definition set_port (v : Z) (s : server_settings) : server_settings :=
  {| server_port := v; debug := s.(debug); manycast_enabled := s.(manycast_enabled);
     manycast_address := s.(manycast_address) |}.
Definition set_debug (v : Z) (s : server_settings) : server_settings :=
  {| server_port := s.(server_port); debug := v; manycast_enabled := s.(manycast_enabled);
     manycast_address := s.(manycast_address) |}.

Section Main.
Context {K : Type} `{Kernel K}.

Definition parse_config_file (fuel : nat) (s_set : server_settings)
    : M (proc K) server_settings :=
  cfg ← setup_config_file fuel CONFIG_FILE;
  s ← update_with (config_lookup_bool "manycast_enabled") set_enabled cfg s_set;
  s ← (if i2b s.(manycast_enabled)
       then update_with (config_lookup_string "manycast_address") set_address cfg s
       else mret s);
  s ← update_with (config_lookup_int "server_port") set_port cfg s;
  update_with (config_lookup_bool "debug") set_debug cfg s.

Definition get_server_settings (fuel : nat) : M (proc K) server_settings :=
  a ← access CONFIG_FILE;
  if a =? 0 then parse_config_file fuel default_settings
  else
    print_debug default_settings.(debug) "no config file found for '%s'"
      [PPtr (Lit CONFIG_FILE)];;
    mret default_settings.

(** [vars] is what the uninitialised variables of main hold; [rounds] bounds
    the requests served. *)
Definition main (fuel rounds : nat) (vars : server_vars) : M (proc K) Empty_set :=
  s_set ← get_server_settings fuel;
  i ← initialise_server s_set.(server_port)
         {| name := Indeterminate; addr := zero_addr |} s_set.(debug);
  let '(code, sockfd, my_server) := i in
  if negb (code =? 0) then
    fprintf Stderr "error initialising server\n" [];; exit_ 1
  else
    m ← (if i2b s_set.(manycast_enabled)
         then setup_manycast sockfd s_set.(manycast_address) s_set.(debug)
         else mret 0);
    if negb (m =? 0) then
      fprintf Stderr "error setting up socket for manycast\n" [];; exit_ 1
    else serve s_set sockfd rounds vars.

End Main.
