(* ===== verification/SettingsSpec.v ===== *)
(** * What the programs make of their configuration files

    The settings a program runs with, stated from the tree that was read: each
    one is the value of the setting of its name when that has the right type,
    and the default otherwise. *)

From Stdlib Require Import SpecFloat.
From S2P Require Import Prelude Double CString Setting Config ConfigWf ConfigProps ConfigTree ConfigApi.
From S2P Require Import ScanCtx Scanner LexerProps Grammar ConfigRead ParserSafe.
From S2P Require Import NtpTime Packet Net Script SntpTools Server SetupConfig ServerMain.
Local Open Scope Z_scope.

(** ** Typed values of a tree *)

Definition int_of (s : setting) : option Z :=
  match s.(s_type), s.(s_value) with
  | T_INT, VInt z => Some z
  | T_INT64, VInt64 z => Some (if (INT_MAX <? z) || (z <? INT_MIN) then 0 else z)
  | (T_INT | T_INT64), VZero => Some 0
  | _, _ => None
  end.

Definition bool_of (s : setting) : option Z :=
  match s.(s_type), s.(s_value) with
  | T_BOOL, VInt z => Some z
  | T_BOOL, VZero => Some 0
  | _, _ => None
  end.

Definition string_of (s : setting) : option (option string) :=
  match s.(s_type), s.(s_value) with
  | T_STRING, VString v => Some v
  | T_STRING, VZero => Some None
  | _, _ => None
  end.

(** The top-level setting of a name. *)
Definition setting_at (c : config) (n : string) : option setting :=
  r ← root c; l ← member c r n; heap c !! l.

(** Read as an integer through the dangling pointer of a moved configuration. *)
Definition float_at (c : config) (n : string) : bool :=
  match setting_at c n with Some s => bool_decide (s_type s = T_FLOAT) | None => false end.

Section Lookups.
Context (c : config) (n : string).
Context (Hwf : wf c) (Hn : valid_name n) (Hmoved : moved c = true).

Lemma append_empty s : s +:+ "" = s.
Proof. induction s as [|x s IH]; [done|]. change (String x (s +:+ "") = String x s). by f_equal. Qed.

Lemma lookup_name : exists r, root c = Some r /\ config_lookup n c = (Ret (member c r n), c) /\
  forall l, member c r n = Some l -> is_Some (heap c !! l).
Proof using Hwf Hn.
  destruct (wf_root c Hwf) as (r & sr & Hr & Hsr & _). exists r. split; [done|]. split.
  - unfold config_lookup. rewrite (bind_ret get _ c c c) by done. rewrite Hr.
    rewrite (bind_ret (nonnull (Some r)) _ r c c) by done.
    pose proof (path_lookup_ok c r sr (Member n) [] Hwf Hsr Hn ltac:(constructor)) as E.
    simpl in E. rewrite append_empty in E. rewrite E. by destruct (member c r n).
  - intros l (? & ? & ? & _ & _ & _ & ? & _)%member_Some. eauto.
Qed.

Lemma setting_at_member r : root c = Some r ->
  setting_at c n = match member c r n with Some l => heap c !! l | None => None end.
Proof using Type. unfold setting_at. intros ->. simpl. by destruct (member c r n). Qed.

Ltac typed s Hs :=
  rewrite (bind_ret _ _ _ _ _ (deref_live _ s c Hs));
  pose proof (wf_value c Hwf _ s Hs) as Hv; destruct (s_type s), (s_value s); try done.

Lemma lookup_int_ok : config_lookup_int n c =
  if float_at c n then (Undef UB_dangling, c) else (Ret (setting_at c n ≫= int_of), c).
Proof using Hwf Hn Hmoved.
  destruct lookup_name as (r & Hr & E & Hl). unfold config_lookup_int, float_at.
  rewrite (bind_ret _ _ _ _ _ E), (setting_at_member r Hr).
  destruct (member c r n) as [l|]; [|done]. destruct (Hl l eq_refl) as [s Hs]. rewrite Hs.
  unfold get_int, int_of. simpl. typed s Hs;
    unfold setting_auto_convert, setting_config; munfold; by rewrite Hmoved.
Qed.

Lemma lookup_bool_ok : config_lookup_bool n c = (Ret (setting_at c n ≫= bool_of), c).
Proof using Hwf Hn.
  destruct lookup_name as (r & Hr & E & Hl). unfold config_lookup_bool.
  rewrite (bind_ret _ _ _ _ _ E), (setting_at_member r Hr).
  destruct (member c r n) as [l|]; [|done]. destruct (Hl l eq_refl) as [s Hs]. rewrite Hs.
  unfold typed_bool, bool_of, config_setting_get_bool. simpl.
  rewrite (bind_ret _ _ _ _ _ (deref_live _ s c Hs)).
  destruct (decide (s_type s = T_BOOL)) as [Et|]; [|by destruct (s_type s), (s_value s)].
  pose proof (wf_value c Hwf _ s Hs) as Hv. rewrite Et in *.
  unfold mbind, M_bind. rewrite (deref_live _ s c Hs), Et. by destruct (s_value s).
Qed.

Lemma lookup_string_ok : config_lookup_string n c = (Ret (setting_at c n ≫= string_of), c).
Proof using Hwf Hn.
  destruct lookup_name as (r & Hr & E & Hl). unfold config_lookup_string.
  rewrite (bind_ret _ _ _ _ _ E), (setting_at_member r Hr).
  destruct (member c r n) as [l|]; [|done]. destruct (Hl l eq_refl) as [s Hs]. rewrite Hs.
  unfold typed_string, string_of, config_setting_get_string. simpl.
  rewrite (bind_ret _ _ _ _ _ (deref_live _ s c Hs)).
  destruct (decide (s_type s = T_STRING)) as [Et|]; [|by destruct (s_type s), (s_value s)].
  pose proof (wf_value c Hwf _ s Hs) as Hv. rewrite Et in *.
  unfold mbind, M_bind. rewrite (deref_live _ s c Hs), Et. by destruct (s_value s).
Qed.
End Lookups.

(** ** setup_config_file *)

Definition parse_message : string := "error reading config file(%s:%d - %s)\n".

(** The process after it printed. *)
Definition printed {K} (p : proc K) (e : event) : proc K :=
  Proc (kern p) (ntoa_buf p) (trace p ++ [e]).

(** Enough fuel to parse [text]. *)
Definition fuel_for (size nq : Z) (text : string) (fuel : nat) : Prop :=
  input_weight size nq text + 1 < 2 ^ 63 /\ (parse_fuel (input_weight size nq text) <= fuel)%nat.

(** A configuration read into a fresh structure. *)
Lemma read_new_ok fs size nq fuel file text : files_within fs size nq -> fs file = Some text ->
  fuel_for size nq text fuel ->
  exists b c, read_new fs fuel file = (Ret b, c) /\ sound c /\
    (b = false -> is_Some (error_text c) /\ is_Some (error_file c)).
Proof.
  intros Hfs Hf [Hb Hfuel].
  destruct (init_sound blank eq_refl) as (c1 & r & E1 & Hs & _).
  destruct (read_total fs size nq fuel text (Some file) c1 Hfs Hs Hb Hfuel) as (b & c & E & Hc & Herr).
  exists b, c. split.
  - unfold read_new. rewrite (bind_ret _ _ _ _ _ E1). unfold config_read_file. by rewrite Hf.
  - split; [done|]. intros Hbf. destruct (Herr Hbf) as (? & _ & ?). auto.
Qed.

Lemma wf_moved c : wf c -> wf (with_moved c).
Proof. intros [H1 H2 H3 H4 H5 H6 H7 H8]. split; assumption. Qed.

Section Setup.
Context {K : Type} `{Kernel K}.

Lemma with_config_ret {A} (m : CM A) c a c' (p : proc K) : m c = (Ret a, c') ->
  with_config m c p = (Ret (a, c'), p).
Proof. intros E. unfold with_config. by rewrite E. Qed.

Lemma setup_ok fuel file (p : proc K) size nq : files_within (open_files (kern p)) size nq ->
  match open_files (kern p) file with
  | None => setup_config_file fuel file p = (Undef UB_null, p)
  | Some text => fuel_for size nq text fuel ->
      exists b c, read_new (open_files (kern p)) fuel file = (Ret b, c) /\ sound c /\
        if b : bool then setup_config_file fuel file p = (Ret (with_moved c), p)
        else exists f t, error_file c = Some f /\ error_text c = Some t /\
          setup_config_file fuel file p =
            (Exited 1, printed p (EPrint Stderr parse_message [AStr f; AInt (error_line c); AStr t]))
  end.
Proof.
  intros Hfs. set (fs := open_files (kern p)) in *. destruct (fs file) as [text|] eqn:Ef.
  - intros Hfuel. destruct (read_new_ok fs size nq fuel file text Hfs Ef Hfuel) as (b & c & E & Hs & Herr).
    exists b, c. split; [done|]. split; [done|].
    unfold setup_config_file. rewrite (bind_ret get _ p p p) by done. fold fs.
    rewrite (bind_ret _ _ (b, c) p p) by (by apply with_config_ret).
    destruct b; simpl; [done|].
    destruct (Herr eq_refl) as [[t Ht] [f Hf]]. exists f, t. split_and!; [done|done|].
    rewrite Ht, Hf. destruct Hs as [Hwf Hm].
    destruct (destroy_config_ok c Hwf ltac:(by left)) as (o & c' & Ed & _).
    rewrite (bind_ret _ _ tt p (printed p (EPrint Stderr parse_message [AStr f; AInt (error_line c); AStr t])))
      by done.
    rewrite (bind_ret _ _ (tt, c') _ (printed p (EPrint Stderr parse_message [AStr f; AInt (error_line c); AStr t])))
      by (by apply with_config_ret). done.
  - unfold setup_config_file. rewrite (bind_ret get _ p p p) by done. fold fs.
    destruct (init_sound blank eq_refl) as (c1 & r & E1 & _).
    assert (exists c2, (config_init;; config_read_file fs fuel file) blank = (Ret false, c2) /\ error_file c2 = None)
      as (c2 & E2 & Hnone).
    { eexists. rewrite (bind_ret _ _ _ _ _ E1). unfold config_read_file. rewrite Ef. split; [reflexivity|].
      by injection E1 as <-. }
    rewrite (bind_ret _ _ (false, c2) p p) by (by apply with_config_ret). simpl.
    rewrite Hnone. done.
Qed.

(** A lookup that cannot fail. *)
Lemma update_with_ret {A B} (m : CM (option A)) (f : A -> B -> B) c b o (p : proc K) :
  m c = (Ret o, c) ->
  update_with m f c b p = (Ret (match o with Some a => f a b | None => b end), p).
Proof.
  intros E. unfold update_with. by rewrite (bind_ret _ _ (o, c) p p) by (by apply with_config_ret).
Qed.

Lemma update_with_undef {A B} (m : CM (option A)) (f : A -> B -> B) c b w c' (p : proc K) :
  m c = (Undef w, c') -> update_with m f c b p = (Undef w, p).
Proof.
  intros E. unfold update_with. rewrite (bind_undef _ _ w p p); [done|]. unfold with_config. by rewrite E.
Qed.
End Setup.

(** ** The server's settings *)

(** Field by field, from the tree. *)
Definition server_settings_of (c : config) : server_settings :=
  let enabled := default DEFAULT_MANYCAST_ENABLED (setting_at c "manycast_enabled" ≫= bool_of) in
  {| server_port := default DEFAULT_SERVER_PORT (setting_at c "server_port" ≫= int_of);
     debug := default DEFAULT_debug (setting_at c "debug" ≫= bool_of);
     manycast_enabled := enabled;
     manycast_address :=
       match setting_at c "manycast_address" ≫= string_of with
       | Some a => if i2b enabled then cstr_of a else Lit DEFAULT_MANYCAST_ADDRESS
       | None => Lit DEFAULT_MANYCAST_ADDRESS
       end |}.

Section ServerSettings.
Context {K : Type} `{Kernel K}.

Lemma server_parse_ok fuel (p : proc K) c : sound c ->
  setup_config_file fuel CONFIG_FILE p = (Ret (with_moved c), p) ->
  parse_config_file fuel default_settings p =
    if float_at c "server_port" then (Undef UB_dangling, p) else (Ret (server_settings_of c), p).
Proof.
  intros [Hwf _] E. pose proof (wf_moved c Hwf) as Hwf'.
  assert (valid_name "manycast_enabled" /\ valid_name "manycast_address" /\ valid_name "server_port" /\
    valid_name "debug") as (V1 & V2 & V3 & V4) by done.
  unfold parse_config_file. rewrite (bind_ret _ _ _ _ _ E).
  rewrite (bind_ret _ _ _ _ _ (update_with_ret _ _ _ _ _ p (lookup_bool_ok _ _ Hwf' V1))).
  change (setting_at (with_moved c)) with (setting_at c).
  set (s1 := match setting_at c "manycast_enabled" ≫= bool_of with Some a => _ | None => _ end).
  set (s2 := if i2b (manycast_enabled s1)
             then match setting_at c "manycast_address" ≫= string_of with
                  | Some a => set_address a s1 | None => s1 end else s1).
  rewrite (bind_ret _ _ s2 p p).
  2:{ unfold s2. destruct (i2b _); [|done].
      by rewrite (update_with_ret _ _ _ _ _ p (lookup_string_ok _ _ Hwf' V2)). }
  pose proof (lookup_int_ok _ _ Hwf' V3 eq_refl) as Ei.
  change (float_at (with_moved c)) with (float_at c) in Ei.
  change (setting_at (with_moved c)) with (setting_at c) in Ei.
  destruct (float_at c "server_port").
  - by rewrite (bind_undef _ _ _ _ _ (update_with_undef _ _ _ _ _ _ p Ei)).
  - rewrite (bind_ret _ _ _ _ _ (update_with_ret _ _ _ _ _ p Ei)).
    rewrite (update_with_ret _ _ _ _ _ p (lookup_bool_ok _ _ Hwf' V4)).
    change (setting_at (with_moved c)) with (setting_at c). f_equal. f_equal.
    unfold server_settings_of, s2, s1.
    destruct (setting_at c "manycast_enabled" ≫= bool_of) as [e|];
      [destruct (i2b e) eqn:He; simpl; rewrite ?He|simpl];
      destruct (setting_at c "manycast_address" ≫= string_of), (setting_at c "server_port" ≫= int_of),
        (setting_at c "debug" ≫= bool_of); reflexivity.
Qed.

End ServerSettings.

(** A machine with the configuration file that comes with the server. *)
Definition server_machine : script := Script 1400000000 [] true [] [("server_config.cfg", server_config_cfg)].

Lemma server_machine_files : files_within (open_files server_machine) 200 4.
Proof.
  split_and!; [done|done|]. intros f t. unfold open_files, server_machine, k_read_file, script_kernel, find_file.
  cbn -[String.eqb server_config_cfg]. destruct (String.eqb "server_config.cfg" f);
    cbn -[server_config_cfg]; [|done]. intros [= <-]. vm_compute. split; congruence.
Qed.

Lemma server_machine_fuel : exists fuel, fuel_for 200 4 server_config_cfg fuel.
Proof. eexists. split; [vm_compute; reflexivity|apply Nat.le_refl]. Qed.


(** The tree of a file that includes no others. *)
Definition tree_of (file text : string) : config :=
  snd ((config_init;; __config_read (fun _ => None) 2000 text (Some file)) blank).

Lemma shipped_tree fs : fs CONFIG_FILE = Some server_config_cfg ->
  (config_init;; config_read_file fs 2000 CONFIG_FILE) blank =
    (Ret true, tree_of CONFIG_FILE server_config_cfg).
Proof.
  intros Hf.
  assert ((config_init;; config_read_file fs 2000 CONFIG_FILE) blank =
    (config_init;; __config_read fs 2000 server_config_cfg (Some CONFIG_FILE)) blank) as ->.
  { unfold mbind, M_bind. destruct (config_init blank) as [[] c]; try done.
    unfold config_read_file. by rewrite Hf. }
  clear Hf. vm_compute. reflexivity.
Qed.

(** The server with the configuration file that comes with it: on any
    machine where that file is found, the settings are port 6001, the default
    multicast group, manycast disabled and debugging output on, and nothing is
    printed; the parse takes less than 2000 rounds. *)
Theorem shipped_server_settings {K : Type} `{Kernel K} (p : proc K) :
  let a := k_access CONFIG_FILE (kern p) in
  a.1 = 0 -> open_files a.2 CONFIG_FILE = Some server_config_cfg ->
  get_server_settings 2000 p =
    (Ret {| server_port := 6001; debug := 1; manycast_enabled := 0;
            manycast_address := Lit "224.0.1.1" |}, Proc a.2 (ntoa_buf p) (trace p)).
Proof.
  intros a Ha Hf. set (p1 := Proc a.2 (ntoa_buf p) (trace p)).
  assert (access CONFIG_FILE p = (Ret a.1, p1)) as Ea.
  { unfold access, call, a, p1. by destruct (k_access CONFIG_FILE (kern p)). }
  unfold get_server_settings. rewrite (bind_ret _ _ _ _ _ Ea), Ha. simpl (0 =? 0). cbv iota.
  assert (setup_config_file 2000 CONFIG_FILE p1 =
    (Ret (with_moved (tree_of CONFIG_FILE server_config_cfg)), p1)) as E.
  { unfold setup_config_file. rewrite (bind_ret get _ p1 p1 p1) by done.
    rewrite (bind_ret _ _ (true, tree_of CONFIG_FILE server_config_cfg) p1 p1); [done|].
    by apply with_config_ret, shipped_tree. }
  unfold parse_config_file. rewrite (bind_ret _ _ _ _ _ E). clear. clearbody p1.
  vm_compute. reflexivity.
Qed.

Lemma shipped_server_settings_witness :
  get_server_settings 2000 (boot server_machine) =
    (Ret {| server_port := 6001; debug := 1; manycast_enabled := 0;
            manycast_address := Lit "224.0.1.1" |}, boot server_machine).
Proof.
  rewrite (shipped_server_settings (K := script) (boot server_machine)); [|vm_compute; reflexivity..].
  vm_compute. reflexivity.
Defined.
