(* ===== verification/ServerMainSpec.v ===== *)
(** * What the server program does, from its start

    The settings, the socket and the serving loop put together: the program
    either stops with an error before any datagram, or serves on a socket that
    was set up as the settings say. *)

From Stdlib Require Import SpecFloat Strings.Byte.
From S2P Require Import Prelude Double CString Setting Config ScanCtx Scanner Grammar ConfigRead.
From S2P Require Import NtpTime Packet Net Script SntpTools Server SetupConfig ServerMain SettingsSpec.
Local Open Scope Z_scope.

Section ServerMain.
Context {K : Type} `{Kernel K}.
Implicit Types (p : proc K).

Definition group_joined (s : server_settings) (sockfd : Z) : Prop :=
  exists (k : K) a, manycast_address s = Lit a /\
    0 <= (k_setsockopt sockfd (IP_ADD_MEMBERSHIP (k_inet_addr a) (htonl INADDR_ANY)) k).1.

(** The socket is one that the kernel made, bound to the port of the settings
    on every interface, and joined to the group when manycast is enabled. *)
Record socket_ready (s : server_settings) (sockfd : Z) : Prop := {
  sr_socket : sockfd <> -1 /\ exists k : K, (k_socket k).1 = sockfd;
  sr_reuse : exists k : K, 0 <= (k_setsockopt sockfd (SO_REUSEADDR 1) k).1;
  sr_bound : exists k : K, (k_bind sockfd {| sin_family := AF_INET; sin_port := htons (server_port s);
                                             sin_addr := INADDR_ANY |} k).1 <> -1;
  sr_joined : i2b (manycast_enabled s) = true -> group_joined s sockfd
}.

Lemma wp_initialise_server s cn Q p :
  (forall p' fd cn', io (trace p') = io (trace p) -> Q (Ret (1, fd, cn')) p') ->
  (forall p' fd cn', io (trace p') = io (trace p) ->
     ((i2b (manycast_enabled s) = true -> group_joined s fd) -> socket_ready s fd) ->
     Q (Ret (0, fd, cn')) p') ->
  wp (initialise_server (server_port s) cn (debug s)) Q p.
Proof.
  intros Herr Hok. unfold initialise_server. wnext. apply wp_call. wnext.
  destruct (Z.eqb_spec (k_socket (kern p)).1 (-1)) as [E|Hfd].
  { wnext. apply wp_print_debug; [done|]. intros p1 (_ & _ & H1). wnext. apply wp_ret. by apply Herr. }
  set (sockfd := (k_socket (kern p)).1) in *. wnext. apply wp_call. wnext. cbn [kern].
  destruct (Z.ltb_spec (k_setsockopt sockfd (SO_REUSEADDR 1) (k_socket (kern p)).2).1 0) as [Hr|Hr].
  { wnext. apply wp_print_debug; [done|]. intros p1 (_ & _ & H1). wnext. apply wp_ret. by apply Herr. }
  cbv zeta. wnext. apply wp_call. wnext. cbn [kern].
  match goal with |- context [k_bind sockfd ?a ?k] => destruct (Z.eqb_spec (k_bind sockfd a k).1 (-1)) as [Hb|Hb] end.
  { wnext. apply wp_print_debug; [done|]. intros p1 (_ & _ & H1). wnext. apply wp_ret. by apply Herr. }
  apply wp_ret, Hok; [done|]. intros Hj. split; [by eauto|by eauto|by eauto|done].
Qed.

(** What the whole program may show. *)
Definition server_post (s : server_settings) rounds p (o : outcome Empty_set) p' : Prop :=
  (o = Exited 1 /\ io (trace p') = io (trace p)) \/
  (o = Undef UB_null /\ manycast_address s = Null /\ io (trace p') = io (trace p)) \/
  (exists sockfd rs rest, socket_ready s sockfd /\ Forall (round_spec sockfd) rs /\
     io (trace p') = io (trace p) ++ concat rs ++ rest /\
     match o with
     | NoFuel => length rs = rounds /\ rest = []
     | Undef w => (length rs < rounds)%nat /\ stop_reason (K := K) sockfd w rest
     | _ => False
     end).

Lemma serve_post s rounds vars sockfd p p1 : io (trace p1) = io (trace p) -> socket_ready s sockfd ->
  wp (serve s sockfd rounds vars) (server_post s rounds p) p1.
Proof.
  intros Hio Hs. eapply wp_mono; [|apply serve_rounds]. intros o p' (rs & rest & Hrs & Hio' & Ho).
  right. right. exists sockfd, rs, rest. split_and!; [done|done|by rewrite Hio', Hio|done].
Qed.

(** Addresses of settings are strings of the program or of its file. *)
Definition own_string (c : cstr) : Prop := c = Null \/ exists a, c = Lit a.

Lemma wp_setup_manycast s sockfd Q p : own_string (manycast_address s) ->
  (forall p', io (trace p') = io (trace p) -> Q (Ret 1) p') ->
  (manycast_address s = Null -> Q (Undef UB_null) p) ->
  (forall p', io (trace p') = io (trace p) -> group_joined s sockfd -> Q (Ret 0) p') ->
  wp (setup_manycast sockfd (manycast_address s) (debug s)) Q p.
Proof.
  intros [Ha|[a Ha]] Herr Hnull Hok; unfold setup_manycast; rewrite Ha; [by apply Hnull|].
  wnext. apply wp_ret. wnext. apply wp_call. wnext.
  match goal with |- context [?r <? 0] => destruct (Z.ltb_spec r 0) as [Hr|Hr] end.
  - wnext. apply wp_print_debug; [done|]. intros p1 (_ & _ & H1). wnext. by apply wp_ret, Herr.
  - apply wp_ret, Hok; [done|]. by exists (kern p), a.
Qed.

Lemma bind_inv {S A B} (m : M S A) (f : A -> M S B) s b s' : (m ≫= f) s = (Ret b, s') ->
  exists a s1, m s = (Ret a, s1) /\ f a s1 = (Ret b, s').
Proof. unfold mbind, M_bind. destruct (m s) as [[] s1]; try done. eauto. Qed.

Lemma update_with_own {B} m (f : B -> server_settings -> server_settings) c s s' p p' :
  (forall b s, own_string (manycast_address s) -> own_string (manycast_address (f b s))) ->
  own_string (manycast_address s) -> update_with m f c s p = (Ret s', p') -> own_string (manycast_address s').
Proof.
  intros Hf Hs E. unfold update_with in E. apply bind_inv in E as ([r c'] & p1 & _ & E).
  injection E as <- _. cbn [fst]. destruct r; [by apply Hf|done].
Qed.

Lemma settings_own fuel s p p' : get_server_settings fuel p = (Ret s, p') -> own_string (manycast_address s).
Proof.
  assert (own_string (manycast_address default_settings)) as Hd by (right; by eexists).
  unfold get_server_settings. intros E. apply bind_inv in E as (a & p1 & _ & E). destruct (a =? 0).
  - unfold parse_config_file in E. apply bind_inv in E as (cfg & p2 & _ & E).
    apply bind_inv in E as (s1 & p3 & E1 & E).
    apply update_with_own in E1; [|done|done].
    apply bind_inv in E as (s2 & p4 & E2 & E).
    assert (own_string (manycast_address s2)) as H2.
    { destruct (i2b _); [|by injection E2 as <- _]. eapply update_with_own; [|exact E1|exact E2].
      intros [a'|] s0 _; [right; by eexists|by left]. }
    apply bind_inv in E as (s3 & p5 & E3 & E). apply update_with_own in E3; [|done|done].
    by eapply update_with_own; [|exact E3|exact E].
  - apply bind_inv in E as (u & p2 & _ & E). by injection E as <- _.
Qed.

Lemma server_main_ok fuel rounds vars s p p1 : get_server_settings fuel p = (Ret s, p1) ->
  wp (main fuel rounds vars) (server_post s rounds p1) p.
Proof.
  intros Eset. pose proof (settings_own _ _ _ _ Eset) as Haddr. unfold main, wp. rewrite (bind_ret _ _ _ _ _ Eset).
  match goal with |- let (o, s') := ?m p1 in @?Q o s' => change (wp m Q p1) end.
  apply wp_bind, wp_initialise_server.
  - intros p2 fd cn H2. wnext. apply wp_bind, wp_fprintf. intros p3 (_ & _ & H3). wnext.
    left. split; [done|congruence].
  - intros p2 fd cn H2 Hready. wnext. cbn [Z.eqb negb]. wnext.
    destruct (i2b (manycast_enabled s)).
    + apply wp_setup_manycast; [done| | |].
      * intros p3 H3. wnext. cbn [Z.eqb negb]. apply wp_bind, wp_fprintf. intros p4 (_ & _ & H4). wnext.
        left. split; [done|congruence].
      * intros Hn. right. left. by split_and!.
      * intros p3 H3 Hj. wnext. cbn [Z.eqb negb]. apply serve_post; [congruence|by apply Hready].
    + apply wp_ret. wnext. cbn [Z.eqb negb]. apply serve_post; [done|by apply Hready].
Qed.

(** C6: The server as a whole: whatever settings it starts with, it stops with
    status 1 before any datagram is received or sent (a socket that cannot be
    made, bound or joined to the group), or it serves: on one socket that the
    kernel made, that is bound to the port of the settings on every interface
    and, when manycast is enabled, has joined the group of the settings, and
    there every round is one of the server's specification.  A group that the
    file leaves without a text is followed through a null pointer; settings that
    cannot be read end the program the same way. *)
Theorem server_main_refines fuel rounds vars p :
  let (o, p') := main fuel rounds vars p in
  match get_server_settings fuel p with
  | (Ret s, p1) => server_post s rounds p1 o p'
  | (Exited z, p1) => o = Exited z /\ p' = p1
  | (Undef w, p1) => o = Undef w /\ p' = p1
  | (Aborted, p1) => o = Aborted /\ p' = p1
  | (NoFuel, p1) => o = NoFuel /\ p' = p1
  end.
Proof.
  destruct (get_server_settings fuel p) as [os p1] eqn:E. destruct os as [s|z| |w|].
  - exact (server_main_ok fuel rounds vars s p p1 E).
  - unfold main, mbind, M_bind. rewrite E. done.
  - unfold main, mbind, M_bind. rewrite E. done.
  - unfold main, mbind, M_bind. rewrite E. done.
  - unfold main, mbind, M_bind. rewrite E. done.
Qed.
End ServerMain.
