(* ===== verification/Client.v ===== *)
(** * The client (src/sntpclient.c): requests, replies and retries

    Building a request, checking and evaluating a reply, the unicast exchange
    with its retries and waiting time, and the manycast discovery of servers.
    The settings and [main] are in ClientMain; what the exchange guarantees is
    proved in ClientSpec. *)

From Stdlib Require Import SpecFloat Strings.Byte.
From S2P Require Import Prelude Double NtpTime Packet Net SntpTools CString.
Local Open Scope Z_scope.

(** struct core_ts *)
Record core_ts := {
  ts_originate : timeval;
  ts_receive : timeval;
  ts_transmit : timeval;
  ts_destination : timeval
}.

(** struct client_settings *)
Record client_settings := {
  server_host : cstr;
  server_port : Z;
  debug : Z;
  recv_uni_timeout : Z;
  max_unicast_retries : Z;
  poll_wait : Z;
  timed_repeat_updates_enabled : Z;
  timed_repeat_updates_limit : Z;
  manycast_enabled : Z;
  manycast_wait_time : Z;
  manycast_address : cstr
}.

Definition MANYCAST_RECV_TIMEOUT : Z := 1.
Definition MANYCAST_MAX_SERVERS : nat := 10.

(** ** Offset and error bound, in binary64 *)

(** ts.tv_sec + (1.0e-6 * ts.tv_usec) *)
Definition seconds_of (t : timeval) : double :=
  dadd (double_of_Z t.(tv_sec)) (dmul d1em6 (double_of_Z t.(tv_usec))).

Definition calculate_clock_offset (ts : core_ts) : double :=
  let t1 := seconds_of ts.(ts_originate) in
  let t2 := seconds_of ts.(ts_receive) in
  let t3 := seconds_of ts.(ts_transmit) in
  let t4 := seconds_of ts.(ts_destination) in
  ddiv (dadd (dsub t2 t1) (dsub t3 t4)) (double_of_Z 2).

Definition calculate_error_bound (ts : core_ts) : double :=
  let t1 := seconds_of ts.(ts_originate) in
  let t2 := seconds_of ts.(ts_receive) in
  let t3 := seconds_of ts.(ts_transmit) in
  let t4 := seconds_of ts.(ts_destination) in
  dsub (dsub t4 t1) (dsub t3 t2).

(** An NTP timestamp of a packet, in epoch time. *)
Definition epoch_of_field (t : ntp_time_t) : option timeval :=
  convert_ntp_time_into_unix_time
    {| second := ntohl t.(second); fraction := ntohl t.(fraction) |}.

Definition get_timestamps_from_packet_in_epoch_time (p : ntp_packet) (dest : timeval)
    : option core_ts :=
  o ← epoch_of_field p.(originate_timestamp);
  r ← epoch_of_field p.(receive_timestamp);
  x ← epoch_of_field p.(transmit_timestamp);
  Some {| ts_originate := o; ts_receive := r; ts_transmit := x; ts_destination := dest |}.

(** %06li of a number below 10^6 *)
Definition print_usec (z : Z) : string :=
  let s := print_dec z in repeat_string (6 - String.length s) "0" +:+ s.

Section Client.
Context {K : Type} `{Kernel K}.

Definition convert_epoch_time_to_human_readable (t : timeval) : M (proc K) cstr :=
  mret (Lit (k_localtime t.(tv_sec) +:+ "." +:+ print_usec t.(tv_usec))).

Definition start_timer : M (proc K) timeval := gettimeofday.

(** [long] difference, returned as [int]. *)
Definition get_elapsed_time (start_time : timeval) : M (proc K) Z :=
  end_time ← gettimeofday;
  mret (s32 (end_time.(tv_sec) - start_time.(tv_sec))).

Definition create_packet : M (proc K) ntp_packet :=
  transmit_ts_ntp ← get_ntp_time_of_day;
  mret {|
    li_vn_mode := Z.lor (Z.shiftl 4 3) 3;
    stratum := 0; poll := 0; precision := 0; root_delay := 0; root_dispersion := 0;
    reference_identifier := 0; reference_timestamp := zero_ntp;
    originate_timestamp := zero_ntp; receive_timestamp := zero_ntp;
    transmit_timestamp :=
      {| second := htonl transmit_ts_ntp.(second);
         fraction := htonl transmit_ts_ntp.(fraction) |}
  |}.

Definition initialise_socket (recv_uni_timeout debug : Z) : M (proc K) (Z * Z) :=
  sockfd ← socket;
  if sockfd =? -1 then
    print_debug debug "error creating socket\n" [];; mret (3, sockfd)
  else
    r ← set_socket_recvfrom_timeout sockfd recv_uni_timeout debug;
    if negb (r =? 0) then
      print_debug debug "error setting socket timeout" [];; mret (8, sockfd)
    else mret (0, sockfd).

(** [None] leaves [*cn] unset. *)
Definition initialise_server_interface (host : cstr) (port debug : Z)
    : M (proc K) (Z * option host_info) :=
  h ← load host;
  match inet_pton h with
  | Some ipaddr =>
      he ← gethostbyaddr ipaddr;
      match he with
      | None => print_debug debug "unicast server not found" [];; mret (2, None)
      | Some (h_name, h_addr) =>
          mret (0, Some {| name := Lit h_name;
                           addr := {| sin_family := AF_INET; sin_port := htons port;
                                      sin_addr := h_addr |} |})
      end
  | None =>
      he ← gethostbyname h;
      match he with
      | None => print_debug debug "unicast server not found" [];; mret (2, None)
      | Some (_, h_addr) =>
          mret (0, Some {| name := host;
                           addr := {| sin_family := AF_INET; sin_port := htons port;
                                      sin_addr := h_addr |} |})
      end
  end.

(** Both calls of inet_ntoa return the same buffer, which strcmp then compares
    with itself. *)
Definition is_same_ipaddr (sent_addr reply_addr : sockaddr_in) : M (proc K) Z :=
  p ← inet_ntoa reply_addr.(sin_addr);
  q ← inet_ntoa sent_addr.(sin_addr);
  a ← load p;
  b ← load q;
  mret (if streq a b then 0 else 1).

Definition run_sanity_checks (req_pkt rep_pkt : ntp_packet) (c_set : client_settings)
    : M (proc K) Z :=
  let error_msg := Lit "sanity checks failed on -" in
  let rep_mode := Z.land rep_pkt.(li_vn_mode) 7 in
  let req_version := Z.land (Z.shiftr req_pkt.(li_vn_mode) 3) 7 in
  let rep_version := Z.land (Z.shiftr rep_pkt.(li_vn_mode) 3) 7 in
  if negb (req_pkt.(transmit_timestamp).(second) =? rep_pkt.(originate_timestamp).(second))
     || negb (req_pkt.(transmit_timestamp).(fraction) =?
              rep_pkt.(originate_timestamp).(fraction)) then
    print_debug c_set.(debug) "%s originate time in the server reply does not match the transmit time in the request."
      [PPtr error_msg];; mret 1
  else if (rep_pkt.(stratum) <? 0) || (15 <? rep_pkt.(stratum)) then
    print_debug c_set.(debug) "%s stratum is not in range 0 to 15(stratum=%i)"
      [PPtr error_msg; PInt rep_pkt.(stratum)];; mret 1
  else if (rep_pkt.(transmit_timestamp).(second) =? 0)
          && (rep_pkt.(transmit_timestamp).(fraction) =? 0) then
    print_debug c_set.(debug) "%s transmit time of reply packet is zero"
      [PPtr error_msg];; mret 1
  else if negb (rep_mode =? 4) then
    print_debug c_set.(debug) "%s mode of reply packet is not server(mode=%i)"
      [PPtr error_msg; PInt rep_mode];; mret 1
  else if negb (req_version =? rep_version) then
    print_debug c_set.(debug) "%s server should be of the same version as the client"
      [PPtr error_msg];; mret 1
  else mret 0.

Definition print_server_results (transmit_time : timeval) (offset error_bound : double)
    (cn : host_info) (stratum : Z) : M (proc K) unit :=
  time_str ← convert_epoch_time_to_human_readable transmit_time;
  printf_to Stdout "%s (+0000) %f +/- %f " [PPtr time_str; PDbl offset; PDbl error_bound];;
  match cn.(name) with
  | Null => mret tt
  | n => printf_to Stdout "%s " [PPtr n]
  end;;
  p ← inet_ntoa cn.(addr).(sin_addr);
  printf_to Stdout "%s s%i no-leap\n" [PPtr p; PInt stratum].

Definition print_error_message (error_code : Z) : M (proc K) unit :=
  let msg_start := PPtr (Lit "error -") in
  if error_code =? 2 then printf_to Stderr "%s server not found\n" [msg_start]
  else if error_code =? 3 then printf_to Stderr "%s failed to create socket\n" [msg_start]
  else if error_code =? 4 then printf_to Stderr "%s max number of retries hit\n" [msg_start]
  else if error_code =? 5 then
    printf_to Stderr "%s sending manycast request packet\n" [msg_start]
  else if error_code =? 6 then
    printf_to Stderr "%s no servers found from manycast query\n" [msg_start]
  else if error_code =? 7 then
    printf_to Stderr "%s cant set ttl for manycast request\n" [msg_start]
  else if error_code =? 8 then
    printf_to Stderr "%s cant set recv timeout for socket\n" [msg_start]
  else printf_to Stderr "%s unknown(code=%i)\n" [msg_start; PInt error_code].

(** ** unicast_mode *)

(** The seconds before the next poll, reported after an error. *)
Definition report_wait (c_set : client_settings) (poll_timer : timeval) (fmt : string)
    : M (proc K) unit :=
  e ← get_elapsed_time poll_timer;
  rem_time ← ckint (c_set.(poll_wait) - e);
  print_debug c_set.(debug) fmt [PInt (if rem_time <? 0 then 0 else rem_time)].

(** do ... while: receive until an error, or a packet from the address the
    request was sent to.  [None] when [no_recv_error] was set. *)
Definition listen_loop (c_set : client_settings) (sockfd : Z) (userver : host_info)
    (poll_timer : timeval) (fuel : nat)
    : M (proc K) (option (ntp_packet * option timeval)) :=
  iter fuel (fun _ : unit =>
    r ← recieve_SNTP_packet sockfd zero_addr
          (Some {| tv_sec := 0; tv_usec := 0 |}) c_set.(debug);
    let '(code, reply_pkt, reply_addr, dest) := r in
    if negb (code =? 0) then
      report_wait c_set poll_timer
        "error receiving reply packet, can poll again in %i second(s).";;
      mret (inr None)
    else
      s ← is_same_ipaddr userver.(addr) reply_addr;
      mret (if i2b s then inl tt else inr (Some (reply_pkt, dest)))) tt.

(** The variables of the retry loop: [retry_count] and [*poll_timer]. *)
Record retry_vars := { retry_count : Z; poll_timer : timeval }.

(** The round's body once the waiting time is over: the loop goes on ([inl]), or
    ends with a valid reply and its arrival time. *)
Definition request_round (c_set : client_settings) (sockfd : Z) (userver : host_info)
    (fuel : nat) (retry_count : Z)
    : M (proc K) (retry_vars + (timeval * option (ntp_packet * timeval))) :=
  request_pkt ← create_packet;
  timer ← start_timer;
  s ← send_SNTP_packet request_pkt sockfd userver.(addr) c_set.(debug);
  if negb (s =? 0) then
    report_wait c_set timer
      "error sending request packet, can poll again in %i second(s).";;
    n ← ckint (retry_count + 1);
    mret (inl {| retry_count := n; poll_timer := timer |})
  else
    r ← listen_loop c_set sockfd userver timer fuel;
    match r with
    | None =>
        n ← ckint (retry_count + 1);
        mret (inl {| retry_count := n; poll_timer := timer |})
    | Some (reply_pkt, dest) =>
        c ← run_sanity_checks request_pkt reply_pkt c_set;
        if negb (c =? 0) then
          report_wait c_set timer
            "error running sanity checks, can poll again in %i second(s).";;
          n ← ckint (retry_count + 1);
          mret (inl {| retry_count := n; poll_timer := timer |})
        else
          mret (inr (timer, Some (reply_pkt,
            default {| tv_sec := 0; tv_usec := 0 |} dest)))
    end.

(** One round of [while (!valid_reply)]; it may end the loop with code 4. *)
Definition retry_round (c_set : client_settings) (sockfd : Z) (userver : host_info)
    (fuel : nat) (v : retry_vars)
    : M (proc K) (retry_vars + (timeval * option (ntp_packet * timeval))) :=
  if c_set.(max_unicast_retries) <? v.(retry_count) then
    mret (inr (v.(poll_timer), None))
  else
    wait ← (if v.(poll_timer).(tv_sec) =? -1 then mret false
            else e ← get_elapsed_time v.(poll_timer); mret (e <=? c_set.(poll_wait)));
    if wait : bool then mret (inl v)
    else request_round c_set sockfd userver fuel v.(retry_count).

(** The exit code with [*poll_timer] and, on success, the offset and the error
    bound.  [timer0] is what [*poll_timer] holds at the call. *)
Definition unicast_mode (fuel : nat) (c_set : client_settings) (timer0 : timeval)
    : M (proc K) (Z * timeval * option (double * double)) :=
  s ← initialise_socket c_set.(recv_uni_timeout) c_set.(debug);
  let '(exit_code, sockfd) := s in
  if negb (exit_code =? 0) then mret (exit_code, timer0, None)
  else
    i ← initialise_server_interface c_set.(server_host) c_set.(server_port) c_set.(debug);
    match i with
    | (exit_code, None) => mret (exit_code, timer0, None)
    | (_, Some userver) =>
        r ← iter fuel (retry_round c_set sockfd userver fuel)
              {| retry_count := 1;
                 poll_timer := {| tv_sec := -1; tv_usec := timer0.(tv_usec) |} |};
        match r with
        | (timer, None) => mret (4, timer, None)
        | (timer, Some (reply_pkt, dest)) =>
            serv_ts ← lift_opt UB_float_cast
                        (get_timestamps_from_packet_in_epoch_time reply_pkt dest);
            let offset := calculate_clock_offset serv_ts in
            let error_bound := calculate_error_bound serv_ts in
            print_server_results serv_ts.(ts_transmit) offset error_bound userver
              reply_pkt.(stratum);;
            close sockfd;;
            mret (0, timer, Some (offset, error_bound))
        end
    end.

(** ** Manycast discovery *)

(** One round of the gathering loop; the servers found so far. *)
Definition gather_round (c_set : client_settings) (sockfd : Z) (request_pkt : ntp_packet)
    (timer : timeval) (servers : list cstr) : M (proc K) (list cstr + list cstr) :=
  e ← get_elapsed_time timer;
  if negb (e <=? c_set.(manycast_wait_time)) then mret (inr servers)
  else
    r ← recieve_SNTP_packet sockfd zero_addr None c_set.(debug);
    let '(code, reply_pkt, server, _) := r in
    if negb (code =? 0) then
      print_debug c_set.(debug) "no replys from any server" [];; mret (inl servers)
    else
      p ← inet_ntoa server.(sin_addr);
      print_debug c_set.(debug) "server discovered: %s" [PPtr p];;
      c ← run_sanity_checks request_pkt reply_pkt c_set;
      if negb (c =? 0) then
        p ← inet_ntoa server.(sin_addr);
        print_debug c_set.(debug) "server '%s' failed sanity checks, discarding server"
          [PPtr p];;
        mret (inl servers)
      else
        p ← inet_ntoa server.(sin_addr);
        if (MANYCAST_MAX_SERVERS <=? length servers)%nat then undef UB_bounds
        else
          let servers := servers ++ [p] in
          q ← inet_ntoa server.(sin_addr);
          print_debug c_set.(debug) "server '%s' is approved" [PPtr q];;
          mret (inl servers).

(** The exit code and [ntp_servers]; the socket is closed on success only. *)
Definition discover_unicast_servers_with_manycast (fuel : nat) (c_set : client_settings)
    : M (proc K) (Z * list cstr) :=
  print_debug c_set.(debug) "initialising manycast request" [];;
  s ← initialise_socket MANYCAST_RECV_TIMEOUT c_set.(debug);
  let '(exit_code, sockfd) := s in
  if negb (exit_code =? 0) then mret (exit_code, [])
  else
    i ← initialise_server_interface c_set.(manycast_address) c_set.(server_port)
          c_set.(debug);
    match i with
    | (exit_code, None) => mret (exit_code, [])
    | (_, Some many_grp) =>
        t ← setsockopt sockfd (IP_MULTICAST_TTL 55);
        if t <? 0 then
          print_debug c_set.(debug) "error setting ttl" [];; mret (7, [])
        else
          request_pkt ← create_packet;
          n ← send_SNTP_packet request_pkt sockfd many_grp.(addr) c_set.(debug);
          if negb (n =? 0) then
            print_debug c_set.(debug) "error sending manycast request packet" [];;
            mret (5, [])
          else
            timer ← start_timer;
            servers ← iter fuel (gather_round c_set sockfd request_pkt timer) [];
            match servers with
            | [] =>
                print_debug c_set.(debug) "no servers found from manycast query" [];;
                mret (6, [])
            | _ => close sockfd;; mret (0, servers)
            end
    end.
End Client.
