(* ===== verification/ClientSpec.v ===== *)
(** * What the client guarantees

    The sanity checks as a predicate on packets, the unicast exchange as a
    sequence of attempts on the wire, its waiting time and its termination, and
    the agreement of client and server. *)

From Stdlib Require Import SpecFloat Strings.Byte.
From stdpp Require Import sorting.
From S2P Require Import Prelude Double NtpTime Packet Net Script SntpTools Server CString.
From S2P Require Import Client.
Local Open Scope Z_scope.

(** ** Requests and replies on the wire *)

(** The request sent at NTP time [xt]. *)
Definition request_wire (xt : ntp_time_t) : list byte :=
  x23 :: replicate 39 x00 ++ be_encode 4 xt.(second) ++ be_encode 4 xt.(fraction).

(** A reply that answers a request and can be used. *)
Definition sane (req rep : ntp_packet) : Prop :=
  originate_timestamp rep = transmit_timestamp req /\
  0 <= stratum rep <= 15 /\
  transmit_timestamp rep <> zero_ntp /\
  li_vn_mode rep mod 8 = 4 /\
  (li_vn_mode rep / 8) mod 8 = (li_vn_mode req / 8) mod 8.

#[export] Instance ntp_time_eq_dec : EqDecision ntp_time_t.
Proof. solve_decision. Defined.

#[export] Instance sane_dec req rep : Decision (sane req rep).
Proof. unfold sane. apply _. Defined.

(** The same, on the datagrams. *)
Definition sane_bytes (req rep : list byte) : Prop :=
  sane (packet_of_bytes (overlay req)) (packet_of_bytes (overlay rep)).

#[export] Instance sane_bytes_dec req rep : Decision (sane_bytes req rep).
Proof. unfold sane_bytes. apply _. Defined.

Lemma ntp_eqb_spec a b :
  negb (second a =? second b) || negb (fraction a =? fraction b) =
  negb (bool_decide (b = a)).
Proof.
  case_bool_decide as E; [subst; by rewrite !Z.eqb_refl|]. simpl.
  destruct (Z.eqb_spec (second a) (second b)) as [E1|], (Z.eqb_spec (fraction a) (fraction b)) as [E2|];
    simpl; try done. exfalso. apply E. destruct a, b. simpl in *. by subst.
Qed.

Lemma ntp_zero_spec a :
  (second a =? 0) && (fraction a =? 0) = bool_decide (a = zero_ntp).
Proof.
  case_bool_decide as E; [by subst|].
  destruct (Z.eqb_spec (second a) 0) as [E1|], (Z.eqb_spec (fraction a) 0) as [E2|];
    simpl; try done. exfalso. apply E. destruct a. simpl in *. by subst.
Qed.

Section ClientRules.
Context {K : Type} `{Kernel K}.
Implicit Types (p : proc K).

Lemma wp_run_sanity_checks req rep c Q p :
  (forall p', quiet p p' -> Q (Ret (if bool_decide (sane req rep) then 0 else 1)) p') ->
  wp (run_sanity_checks req rep c) Q p.
Proof.
  intros HQ. unfold run_sanity_checks.
  rewrite !vn_arith, !mode_arith, ntp_eqb_spec, ntp_zero_spec.
  assert (forall fmt args, ~ sane req rep -> forallb loadable args ->
    wp (print_debug (debug c) fmt args;; mret 1) Q p) as Hfail.
  { intros fmt args Hs Hl. wnext. apply wp_print_debug; [done|]. intros p' Hq. simpl.
    apply wp_ret. rewrite bool_decide_eq_false_2 in HQ by done. by apply HQ. }
  assert (sane req rep -> wp (mret 0 : M (proc K) Z) Q p) as Hok.
  { intros Hs. apply wp_ret. rewrite bool_decide_eq_true_2 in HQ by done. by apply HQ. }
  clear HQ. unfold sane in *.
  case_bool_decide; simpl; [|apply Hfail; [tauto|done]].
  destruct (Z.ltb_spec (stratum rep) 0), (Z.ltb_spec 15 (stratum rep)); simpl;
    try (apply Hfail; [lia|done]).
  case_bool_decide; [apply Hfail; [tauto|done]|].
  destruct (Z.eqb_spec (li_vn_mode rep mod 8) 4); simpl; [|apply Hfail; [tauto|done]].
  destruct (Z.eqb_spec ((li_vn_mode req / 8) mod 8) ((li_vn_mode rep / 8) mod 8));
    simpl; [|apply Hfail; [|done]; intuition congruence].
  apply Hok. split_and!; congruence || lia.
Qed.

(** Building a request: the clock is read once. *)
Lemma wp_create_packet Q p :
  let t := (k_gettimeofday (kern p)).1 in
  let p' := Proc (k_gettimeofday (kern p)).2 (ntoa_buf p) (trace p) in
  match convert_unix_time_into_ntp_time t with
  | Some xt => forall r, bytes_of_packet r = request_wire xt ->
      packet_of_bytes (overlay (request_wire xt)) = r -> Q (Ret r) p'
  | None => Q (Undef UB_float_cast) p'
  end -> wp create_packet Q p.
Proof.
  intros t p' HQ. unfold create_packet. wnext. apply wp_get_ntp_time_of_day.
  fold t. fold p'. destruct (convert_unix_time_into_ntp_time t) as [xt|]; [|done].
  wnext. apply wp_ret.
  set (r := {| li_vn_mode := _ |}).
  assert (bytes_of_packet r = request_wire xt) as E.
  { unfold bytes_of_packet, ntp_time_bytes, r.
    cbn [li_vn_mode stratum poll precision root_delay root_dispersion
      reference_identifier reference_timestamp originate_timestamp receive_timestamp
      transmit_timestamp second fraction].
    rewrite !htonl_bytes. reflexivity. }
  apply HQ; [done|]. rewrite <- E.
  replace (overlay (bytes_of_packet r)) with (bytes_of_packet r)
    by (unfold overlay; by rewrite length_bytes_of_packet, app_nil_r).
  apply packet_of_bytes_of_packet.
  assert (is_u32 0) by (unfold is_u32; lia).
  unfold packet_ok, r, ntp_ok, is_u8. simpl.
  split_and!; try done; try lia; apply htonl_range.
Qed.

Lemma wp_get_elapsed_time t Q p :
  Q (Ret (s32 (tv_sec (k_gettimeofday (kern p)).1 - tv_sec t)))
    (Proc (k_gettimeofday (kern p)).2 (ntoa_buf p) (trace p)) ->
  wp (get_elapsed_time t) Q p.
Proof. intros HQ. unfold get_elapsed_time. wnext. apply wp_gettimeofday. wnext. by apply wp_ret. Qed.

Lemma wp_ckint z Q p : is_int z = true -> Q (Ret z) p -> wp (ckint z) Q p.
Proof. intros Hz HQ. unfold ckint. by rewrite Hz. Qed.

Lemma wp_report_wait c t fmt Q p :
  is_int (poll_wait c - s32 (tv_sec (k_gettimeofday (kern p)).1 - tv_sec t)) = true ->
  (forall p', kern p' = (k_gettimeofday (kern p)).2 -> io (trace p') = io (trace p) ->
     Q (Ret tt) p') ->
  wp (report_wait c t fmt) Q p.
Proof.
  intros Hz HQ. unfold report_wait. wnext. apply wp_get_elapsed_time. wnext.
  apply wp_ckint; [done|]. wnext. apply wp_print_debug; [done|].
  intros p' (Hk & _ & Ht). by apply HQ.
Qed.

(** The address check always reports the same address: it compares the buffer
    of inet_ntoa with itself. *)
Lemma wp_is_same_ipaddr a b Q p :
  (forall p', kern p' = kern p -> trace p' = trace p -> Q (Ret 0) p') ->
  wp (is_same_ipaddr a b) Q p.
Proof.
  intros HQ. unfold wp, is_same_ipaddr. munfold. unfold streq.
  rewrite String.eqb_refl. by apply HQ.
Qed.

(** Listening receives exactly one datagram. *)
Lemma wp_listen_loop c s u t n Q p r k1 :
  k_recvfrom s (MAXBUFLEN - 1) (kern p) = (r, k1) ->
  (r = None -> is_int (poll_wait c - s32 (tv_sec (k_gettimeofday k1).1 - tv_sec t)) = true) ->
  (forall p', io (trace p') = io (trace p) ++ [ERecv s r] ->
     match r with
     | None => kern p' = (k_gettimeofday k1).2 -> Q (Ret None) p'
     | Some (bs, from) =>
         if (PACKET_SIZE <? length bs)%nat then Q (Undef UB_bounds) p'
         else kern p' = (k_gettimeofday k1).2 ->
              Q (Ret (Some (packet_of_bytes (overlay bs), Some (k_gettimeofday k1).1))) p'
     end) ->
  wp (listen_loop c s u t (S n)) Q p.
Proof.
  intros Er Hint HQ. unfold listen_loop. cbn [iter]. wnext. wnext.
  apply (wp_recieve_SNTP_packet _ _ _ _ _ _ _ _ Er). intros p1 Hk1 Ht1.
  destruct r as [[bs from]|].
  - destruct (PACKET_SIZE <? length bs)%nat eqn:Elen; [by apply HQ|].
    intros _. wnext. simpl. apply wp_bind, wp_is_same_ipaddr. intros p2 Hk2 Ht2. wnext.
    apply wp_ret. wnext. apply wp_ret. apply HQ; congruence.
  - intros _. wnext. simpl. apply wp_bind, wp_report_wait; [rewrite Hk1; by apply Hint|].
    intros p2 Hk2 Ht2. wnext. apply wp_ret. wnext. apply wp_ret.
    apply HQ; congruence.
Qed.
End ClientRules.

(** ** The unicast exchange

    An attempt is a request and what came of it.  The time [t] is the clock
    reading the request carries. *)

Inductive failed_attempt (sockfd : Z) (to : sockaddr_in) (t : timeval) : list event -> Prop :=
  | attempt_unsent xt : convert_unix_time_into_ntp_time t = Some xt ->
      failed_attempt sockfd to t [ESend sockfd (request_wire xt) to (-1)]
  | attempt_unanswered xt n : convert_unix_time_into_ntp_time t = Some xt -> n <> -1 ->
      failed_attempt sockfd to t
        [ESend sockfd (request_wire xt) to n; ERecv sockfd None]
  | attempt_unusable xt n bs from : convert_unix_time_into_ntp_time t = Some xt -> n <> -1 ->
      (length bs <= PACKET_SIZE)%nat -> ~ sane_bytes (request_wire xt) bs ->
      failed_attempt sockfd to t
        [ESend sockfd (request_wire xt) to n; ERecv sockfd (Some (bs, from))].

(** The attempt that ends the exchange: the datagram it received. *)
Inductive last_attempt (sockfd : Z) (to : sockaddr_in) (t : timeval) (bs : list byte)
    : list event -> Prop :=
  | attempt_answered xt n from : convert_unix_time_into_ntp_time t = Some xt -> n <> -1 ->
      last_attempt sockfd to t bs
        [ESend sockfd (request_wire xt) to n; ERecv sockfd (Some (bs, from))].

(** Requests are more than [w] seconds apart. *)
Definition apart (w : Z) (t t' : timeval) : Prop := tv_sec t + w < tv_sec t'.

Lemma elapsed_int w x : 0 <= w < 2 ^ 30 -> 0 <= x < 2 ^ 31 -> is_int (w - s32 x) = true.
Proof.
  intros Hw Hx. apply is_int_spec. unfold INT_MIN, INT_MAX.
  rewrite swrap_small; change (2 ^ (32 - 1)) with (2 ^ 31); lia.
Qed.

Lemma div_million z : let q := z / 1000000 in q * 1000000 <= z < q * 1000000 + 1000000.
Proof.
  intros q. pose proof (Z.div_mod z 1000000). pose proof (Z.mod_pos_bound z 1000000). lia.
Qed.

Section Exchange.
Context {K : Type} `{Clock K}.
Implicit Types (p : proc K).

Variable c_set : client_settings.
Variable sockfd : Z.
Variable userver : host_info.

Hypothesis Hwait : 0 <= poll_wait c_set < 2 ^ 30.
Hypothesis Hretries : max_unicast_retries c_set < INT_MAX.

Abbreviation us := 1000000 (only parsing).

(** The poll timer is set and at most six calls plus the waiting time old. *)
Definition timer_recent (timer : timeval) p : Prop :=
  0 <= tv_sec timer /\
  tv_sec timer * us <= clock (kern p) < tv_sec timer * us + 7 * CALL_TIME.

Definition request_post (retry : Z) p
    (o : outcome (retry_vars + (timeval * option (ntp_packet * timeval)))) p' : Prop :=
  let t := (k_gettimeofday (kern p)).1 in
  exists es, io (trace p') = io (trace p) ++ es /\
  match o with
  | Ret (inl v) => failed_attempt sockfd (addr userver) t es /\
      retry_count v = retry + 1 /\ timer_recent (poll_timer v) p' /\
      clock (kern p) / us <= tv_sec (poll_timer v)
  | Ret (inr (_, Some (rep, dest))) => exists bs xt,
      (length bs <= PACKET_SIZE)%nat /\ last_attempt sockfd (addr userver) t bs es /\
      convert_unix_time_into_ntp_time t = Some xt /\ sane_bytes (request_wire xt) bs /\
      rep = packet_of_bytes (overlay bs)
  | Undef UB_bounds => exists bs,
      (PACKET_SIZE < length bs)%nat /\ last_attempt sockfd (addr userver) t bs es
  | Undef UB_float_cast => es = [] /\ convert_unix_time_into_ntp_time t = None
  | _ => False
  end.

Lemma retry_increment z p (Q : outcome Z -> proc K -> Prop) :
  z <= max_unicast_retries c_set -> 1 <= z -> Q (Ret (z + 1)) p -> wp (ckint (z + 1)) Q p.
Proof.
  intros ? ? ?. apply wp_ckint; [|done]. apply is_int_spec. unfold INT_MIN, INT_MAX in *. lia.
Qed.

(** The timer of a request sent from [p], within four calls of its start. *)
Lemma timer_within p timer p' : let k1 := (k_gettimeofday (kern p)).2 in
  timer = (k_gettimeofday k1).1 -> clock k1 <= clock (kern p') < clock k1 + 6 * CALL_TIME ->
  timer_recent timer p' /\ clock (kern p) / us <= tv_sec timer.
Proof.
  intros k1 -> Hk. rewrite clock_reads. cbn [tv_sec]. pose proof (clock_ticks (kern p)) as T1. fold k1 in T1.
  pose proof (div_million (clock k1)) as D1. pose proof (clock_nonneg k1). cbv zeta in D1.
  split; [|apply Z.div_le_mono; lia]. unfold timer_recent, CALL_TIME in *. cbn [tv_sec]. split; [apply Z.div_pos; lia|lia].
Qed.

(** A failed attempt is counted, and its timer kept. *)
Lemma attempt_failed_ok retry p timer es p' : let k1 := (k_gettimeofday (kern p)).2 in
  1 <= retry <= max_unicast_retries c_set ->
  failed_attempt sockfd (addr userver) (k_gettimeofday (kern p)).1 es -> io (trace p') = io (trace p) ++ es ->
  timer = (k_gettimeofday k1).1 -> clock k1 <= clock (kern p') < clock k1 + 6 * CALL_TIME ->
  wp (n ← ckint (retry + 1); mret (inl {| retry_count := n; poll_timer := timer |})) (request_post retry p) p'.
Proof.
  intros k1 Hr Hes Ht Etimer Hk. destruct (timer_within p timer p' Etimer Hk) as [Hrec Hle].
  wnext. apply retry_increment; [lia..|]. wnext. apply wp_ret. exists es. by split_and!.
Qed.

Lemma wait_is_int p k : let k1 := (k_gettimeofday (kern p)).2 in
  clock k1 <= clock k <= clock k1 + 4 * CALL_TIME ->
  is_int (poll_wait c_set - s32 (tv_sec (k_gettimeofday k).1 - tv_sec (k_gettimeofday k1).1)) = true.
Proof.
  intros k1 Hk. apply elapsed_int; [done|]. rewrite !clock_reads. cbn [tv_sec].
  pose proof (div_million (clock k)) as D. pose proof (div_million (clock k1)) as D1. cbv zeta in D, D1.
  unfold CALL_TIME in *. change (2 ^ 31) with 2147483648. lia.
Qed.

Lemma request_round_ok n retry p :
  1 <= retry <= max_unicast_retries c_set ->
  wp (request_round c_set sockfd userver (S n) retry) (request_post retry p) p.
Proof.
  intros Hr. unfold request_round. wnext. apply wp_create_packet.
  set (t := (k_gettimeofday (kern p)).1). set (k1 := (k_gettimeofday (kern p)).2).
  destruct (convert_unix_time_into_ntp_time t) as [xt|] eqn:Et; cycle 1.
  { exists []. simpl. by rewrite app_nil_r. }
  intros req Hreq Hreq'. wnext. apply wp_gettimeofday. wnext. simpl kern.
  set (timer := (k_gettimeofday k1).1). set (k2 := (k_gettimeofday k1).2).
  destruct (k_sendto sockfd (bytes_of_packet req) (addr userver) k2) as [ns k3] eqn:Es.
  (* where the clock stands *)
  pose proof (clock_ticks k1) as T2. fold k2 in T2.
  pose proof (clock_sendto sockfd (bytes_of_packet req) (addr userver) k2) as T3. rewrite Es in T3. simpl in T3.
  pose proof (wait_is_int p) as Hint. fold k1 in Hint. fold timer in Hint. cbv zeta in Hint.
  apply (wp_send_SNTP_packet _ _ _ _ ns k3); [exact Es|]. intros p3 Hk3 Ht3 _. simpl in Ht3.
  rewrite Hreq in Ht3.
  wnext. destruct (Z.eqb_spec ns (-1)) as [->|Hns].
  { simpl. apply wp_bind, wp_report_wait; [apply Hint; simpl; subst; unfold CALL_TIME in *; lia|].
    intros p4 Hk4 Ht4. cbn [then_]. pose proof (clock_ticks k3). rewrite Hk3 in Hk4.
    eapply attempt_failed_ok; [done|by constructor|by rewrite Ht4, Ht3|done|]. fold k1. rewrite Hk4.
    unfold CALL_TIME in *. lia. }
  simpl. apply wp_bind.
  destruct (k_recvfrom sockfd (MAXBUFLEN - 1) k3) as [r k4] eqn:Er.
  pose proof (clock_recvfrom sockfd (MAXBUFLEN - 1) k3) as T4. rewrite Er in T4. simpl in T4.
  pose proof (clock_ticks k4) as T5.
  apply (wp_listen_loop _ _ _ _ _ _ _ r k4); [by rewrite Hk3| |].
  { intros _. apply Hint. unfold CALL_TIME in *. lia. }
  intros p4 Ht4. rewrite Ht3, <- app_assoc in Ht4. simpl in Ht4.
  destruct r as [[bs from]|]; [destruct (Nat.ltb_spec PACKET_SIZE (length bs))|].
  - eexists. split; [done|]. exists bs. split; [done|]. by econstructor.
  - intros Hk4. wnext. apply wp_run_sanity_checks. intros p5 (Hk5 & _ & Ht5).
    wnext. case_bool_decide as Hs; simpl.
    + apply wp_ret. eexists. split; [by rewrite Ht5, Ht4|]. exists bs, xt. split_and!; try done.
      unfold sane_bytes. by rewrite Hreq'.
    + apply wp_bind, wp_report_wait.
      { rewrite Hk5, Hk4. apply Hint. unfold CALL_TIME in *. lia. }
      intros p6 Hk6 Ht6. cbn [then_]. pose proof (clock_ticks (k_gettimeofday k4).2). rewrite Hk5, Hk4 in Hk6.
      eapply attempt_failed_ok; [done| |by rewrite Ht6, Ht5, Ht4|done|].
      * econstructor; try done. unfold sane_bytes. by rewrite Hreq'.
      * fold k1. rewrite Hk6. unfold CALL_TIME in *. lia.
  - intros Hk4. cbn [then_]. eapply attempt_failed_ok; [done|by econstructor|done|done|].
    fold k1. rewrite Hk4. unfold CALL_TIME in *. lia.
Qed.

(** ** The retry loop *)

Definition times (ats : list (timeval * list event)) : list timeval := fst <$> ats.
Definition events (ats : list (timeval * list event)) : list event := concat (snd <$> ats).

(** Attempts that all failed, in order and far enough apart. *)
Definition failed_attempts (ats : list (timeval * list event)) : Prop :=
  Forall (fun a => failed_attempt sockfd (addr userver) a.1 a.2) ats /\
  StronglySorted (apart (poll_wait c_set)) (times ats).

Definition loop_inv p0 (v : retry_vars) p : Prop :=
  exists ats, failed_attempts ats /\ io (trace p) = io (trace p0) ++ events ats /\
    retry_count v = 1 + Z.of_nat (length ats) /\
    (Z.of_nat (length ats) <= Z.max 0 (max_unicast_retries c_set)) /\
    (ats = [] /\ tv_sec (poll_timer v) = -1 \/
     timer_recent (poll_timer v) p /\
     Forall (fun t => tv_sec t <= tv_sec (poll_timer v)) (times ats)).

Definition retry_post p0 (o : outcome (timeval * option (ntp_packet * timeval))) p' : Prop :=
  exists ats es, failed_attempts ats /\ io (trace p') = io (trace p0) ++ events ats ++ es /\
  match o with
  | Ret (_, None) =>
      es = [] /\ Z.of_nat (length ats) = Z.max 0 (max_unicast_retries c_set)
  | Ret (_, Some (rep, _)) => exists t bs xt,
      Z.of_nat (length ats) < max_unicast_retries c_set /\
      StronglySorted (apart (poll_wait c_set)) (times ats ++ [t]) /\
      (length bs <= PACKET_SIZE)%nat /\ last_attempt sockfd (addr userver) t bs es /\
      convert_unix_time_into_ntp_time t = Some xt /\ sane_bytes (request_wire xt) bs /\
      rep = packet_of_bytes (overlay bs)
  | Undef UB_bounds => exists t bs,
      StronglySorted (apart (poll_wait c_set)) (times ats ++ [t]) /\
      (PACKET_SIZE < length bs)%nat /\ last_attempt sockfd (addr userver) t bs es
  | Undef UB_float_cast => es = [] /\ exists k : K,
      convert_unix_time_into_ntp_time (k_gettimeofday k).1 = None
  | _ => False
  end.

(** Rounds left: each attempt may be preceded by a wait, in which every reading
    of the clock takes a microsecond. *)
Definition patience : Z := (poll_wait c_set + 2) * us.

Definition rounds_left (v : retry_vars) p : nat :=
  Z.to_nat ((max_unicast_retries c_set + 1 - retry_count v) * patience +
    (if tv_sec (poll_timer v) =? -1 then 0
     else Z.max 0 ((tv_sec (poll_timer v) + poll_wait c_set + 1) * us - clock (kern p)))).

Lemma events_snoc ats t es : events (ats ++ [(t, es)]) = events ats ++ es.
Proof. unfold events. rewrite fmap_app, concat_app. simpl. by rewrite app_nil_r. Qed.

Lemma times_snoc ats t es : times (ats ++ [(t, es)]) = times ats ++ [t].
Proof. unfold times. by rewrite fmap_app. Qed.

Lemma sorted_snoc ats t : failed_attempts ats ->
  Forall (fun t0 => apart (poll_wait c_set) t0 t) (times ats) ->
  StronglySorted (apart (poll_wait c_set)) (times ats ++ [t]).
Proof.
  intros [_ Hs] Ht. apply StronglySorted_app. split_and!; [|done|by repeat constructor].
  intros x1 x2 H1 H2. apply list_elem_of_singleton in H2 as ->. by eapply Forall_forall in Ht.
Qed.

(** A request made when the waiting time is over. *)
Lemma request_in_time n p0 p1 v ats : failed_attempts ats ->
  io (trace p1) = io (trace p0) ++ events ats ->
  retry_count v = 1 + Z.of_nat (length ats) ->
  retry_count v <= max_unicast_retries c_set ->
  Forall (fun t => apart (poll_wait c_set) t (k_gettimeofday (kern p1)).1) (times ats) ->
  wp (request_round c_set sockfd userver (S n) (retry_count v)) (fun o p' =>
    match o with
    | Ret (inl v') => loop_inv p0 v' p' /\
        Z.of_nat (rounds_left v' p') < (max_unicast_retries c_set + 1 - retry_count v) * patience
    | Ret (inr a) => retry_post p0 (Ret a) p'
    | Exited c => retry_post p0 (Exited c) p'
    | Aborted => retry_post p0 Aborted p'
    | Undef w => retry_post p0 (Undef w) p'
    | NoFuel => retry_post p0 NoFuel p'
    end) p1.
Proof.
  intros Hats Hio Hn Hmax Hap. eapply wp_mono, request_round_ok; [|lia].
  intros o p2 (es & Hes & Ho). rewrite Hio, <- app_assoc in Hes.
  pose proof (sorted_snoc ats _ Hats Hap) as Hsort.
  destruct o as [[v'|[timer [[rep dest]|]]]|c| |[]|]; try done.
  - destruct Ho as (Hf & Hc & Hrec & Hle). split.
    + exists (ats ++ [((k_gettimeofday (kern p1)).1, es)]).
      rewrite events_snoc, length_app. split_and!; try (simpl; lia).
      * split; [|by rewrite times_snoc]. apply Forall_app. split; [apply Hats|].
        by repeat constructor.
      * done.
      * right. split; [done|]. rewrite times_snoc. apply Forall_app. split.
        -- apply Forall_forall. intros t0 Ht0. eapply Forall_forall in Hap; [|exact Ht0].
           unfold apart in Hap. rewrite clock_reads in Hap. simpl in Hap. lia.
        -- constructor; [|done]. rewrite clock_reads. simpl. lia.
    + unfold rounds_left. destruct Hrec as [Hpos Hrec].
      rewrite (proj2 (Z.eqb_neq (tv_sec (poll_timer v')) (-1))) by lia.
      rewrite Hc. set (m := max_unicast_retries c_set) in *.
      replace (m + 1 - retry_count v) with (m - retry_count v + 1) by lia.
      replace (m + 1 - (retry_count v + 1)) with (m - retry_count v) by lia.
      assert (0 <= (m - retry_count v) * patience) by (unfold patience; nia).
      assert ((m - retry_count v + 1) * patience = (m - retry_count v) * patience + patience)
        by ring.
      assert (patience = (poll_wait c_set + 2) * us) by done. lia.
  - destruct Ho as (bs & xt & ? & ? & ? & ? & ?). exists ats, es. split_and!; try done.
    eexists _, bs, xt. split_and!; try done. lia.
  - destruct Ho as (bs & ? & ?). exists ats, es. split_and!; try done. by eexists _, bs.
  - destruct Ho as [-> Hc]. exists ats, []. split_and!; try done. eauto.
Qed.

Lemma retry_round_ok n p0 v p : loop_inv p0 v p ->
  wp (retry_round c_set sockfd userver (S n) v) (fun o p' =>
    match o with
    | Ret (inl v') => loop_inv p0 v' p' /\ (rounds_left v' p' < rounds_left v p)%nat
    | Ret (inr a) => retry_post p0 (Ret a) p'
    | Exited c => retry_post p0 (Exited c) p'
    | Aborted => retry_post p0 Aborted p'
    | Undef w => retry_post p0 (Undef w) p'
    | NoFuel => retry_post p0 NoFuel p'
    end) p.
Proof.
  intros (ats & Hats & Hio & Hn & Hmax & Htimer). unfold retry_round.
  destruct (Z.ltb_spec (max_unicast_retries c_set) (retry_count v)).
  { apply wp_ret. exists ats, []. rewrite app_nil_r. split_and!; try done. lia. }
  wnext.
  assert (forall p1, io (trace p1) = io (trace p) ->
    Forall (fun t => apart (poll_wait c_set) t (k_gettimeofday (kern p1)).1) (times ats) ->
    wp (request_round c_set sockfd userver (S n) (retry_count v)) (fun o p' =>
      match o with
      | Ret (inl v') => loop_inv p0 v' p' /\ (rounds_left v' p' < rounds_left v p)%nat
      | Ret (inr a) => retry_post p0 (Ret a) p'
      | Exited c => retry_post p0 (Exited c) p'
      | Aborted => retry_post p0 Aborted p'
      | Undef w => retry_post p0 (Undef w) p'
      | NoFuel => retry_post p0 NoFuel p'
      end) p1) as Hreq.
  { intros p1 Hp1 Hap. eapply wp_mono, (request_in_time n p0 p1 v ats); [|done|by rewrite Hp1|lia..|done].
    intros o p2. destruct o as [[v'|]|c| |w|]; try done. intros [Hinv Hlt]. split; [done|].
    unfold rounds_left at 2. destruct (_ =? -1); lia. }
  destruct Htimer as [[-> ->]|[[Hpos Hrec] Htimes]].
  { simpl. apply wp_ret. wnext. by apply Hreq. }
  rewrite (proj2 (Z.eqb_neq _ _)) by lia. wnext. apply wp_get_elapsed_time. wnext.
  apply wp_ret. wnext. pose proof (clock_ticks (kern p)) as Tick.
  pose proof (div_million (clock (kern p))) as D. simpl in D.
  rewrite clock_reads. simpl tv_sec.
  rewrite swrap_small by (unfold CALL_TIME in *; simpl; lia).
  destruct (Z.leb_spec (clock (kern p) / us - tv_sec (poll_timer v)) (poll_wait c_set)).
  - apply wp_ret. split.
    + exists ats. split_and!; try done. right. split; [|done]. split; [done|]. simpl.
      unfold CALL_TIME in *. lia.
    + unfold rounds_left. rewrite (proj2 (Z.eqb_neq _ _)) by lia. simpl.
      assert (0 <= patience) by (unfold patience; lia). nia.
  - apply Hreq; [done|]. eapply Forall_impl; [exact Htimes|]. simpl.
    intros t Ht. unfold apart. rewrite clock_reads. simpl.
    pose proof (Z.div_le_mono (clock (kern p)) (clock (k_gettimeofday (kern p)).2) us). lia.
Qed.

Lemma retry_loop_ok fuel usec p :
  (Z.to_nat (Z.max 0 (max_unicast_retries c_set) * patience) < fuel)%nat ->
  wp (iter fuel (retry_round c_set sockfd userver fuel)
        {| retry_count := 1; poll_timer := {| tv_sec := -1; tv_usec := usec |} |})
     (retry_post p) p.
Proof.
  intros Hf. destruct fuel as [|n]; [lia|].
  eapply (wp_iter _ (loop_inv p) rounds_left).
  - intros v p1 Hinv. by apply retry_round_ok.
  - exists []. split_and!; [by split; constructor|by rewrite app_nil_r|done|simpl; lia|by left].
  - unfold rounds_left. simpl. assert (0 <= patience) by (unfold patience; lia).
    enough ((max_unicast_retries c_set + 1 - 1) * patience + 0 <=
      Z.max 0 (max_unicast_retries c_set) * patience) by lia. nia.
Qed.
End Exchange.

(** ** Setting up and reporting *)

Lemma get_timestamps_defined p dest : exists ts,
  get_timestamps_from_packet_in_epoch_time p dest = Some ts.
Proof.
  unfold get_timestamps_from_packet_in_epoch_time, epoch_of_field.
  rewrite !convert_ntp_exact by (split; apply htonl_range). simpl. eauto.
Qed.

Section Setup.
Context {K : Type} `{Kernel K}.
Implicit Types (p : proc K).

Lemma wp_initialise_socket secs d Q p :
  (forall p' r, io (trace p') = io (trace p) -> r.1 = 0 \/ r.1 = 3 \/ r.1 = 8 -> Q (Ret r) p') ->
  wp (initialise_socket secs d) Q p.
Proof.
  intros HQ. unfold initialise_socket. wnext. apply wp_call. wnext.
  destruct (_ =? -1).
  { wnext. apply wp_print_debug; [done|]. intros p' (_ & _ & Ht). wnext. apply wp_ret.
    apply HQ; [done|]. simpl. auto. }
  wnext. unfold set_socket_recvfrom_timeout. apply wp_bind, wp_call. wnext.
  destruct (negb _); apply wp_ret; simpl.
  - wnext. apply wp_print_debug; [done|]. intros p' (_ & _ & Ht). wnext. apply wp_ret.
    apply HQ; [done|]. simpl. auto.
  - apply HQ; [done|]. auto.
Qed.

Lemma wp_initialise_server_interface h port d Q p : loadable (PPtr h) ->
  (forall p', io (trace p') = io (trace p) -> Q (Ret (2, None)) p') ->
  (forall p' cn, io (trace p') = io (trace p) -> loadable (PPtr (name cn)) ->
     Q (Ret (0, Some cn)) p') ->
  wp (initialise_server_interface h port d) Q p.
Proof.
  intros Hh HQ2 HQ0. unfold initialise_server_interface. wnext.
  apply wp_load; [done|]. intros s. wnext.
  destruct (inet_pton s) as [a|]; wnext; apply wp_call; wnext; destruct (_.1) as [[n b]|].
  1, 3: apply wp_ret; by apply HQ0.
  all: wnext; apply wp_print_debug; [done|]; intros p' (_ & _ & Ht); wnext; apply wp_ret;
    by apply HQ2.
Qed.

Lemma wp_print_server_results t o e cn s Q p : loadable (PPtr (name cn)) ->
  (forall p', io (trace p') = io (trace p) -> Q (Ret tt) p') ->
  wp (print_server_results t o e cn s) Q p.
Proof.
  intros Hn HQ. unfold print_server_results. wnext.
  unfold convert_epoch_time_to_human_readable. apply wp_ret. wnext.
  apply wp_printf_to; [done|]. intros p1 (_ & _ & H1). wnext.
  assert (forall p2, io (trace p2) = io (trace p) ->
    wp (p0 ← inet_ntoa (sin_addr (addr cn));
        printf_to Stdout "%s s%i no-leap\n" [PPtr p0; PInt s]) Q p2) as Hend.
  { intros p2 H2. wnext. apply wp_inet_ntoa. wnext. apply wp_printf_to; [done|].
    intros p3 (_ & _ & H3). apply HQ. simpl in *. congruence. }
  destruct (name cn) eqn:En; try done.
  all: apply wp_printf_to; [by rewrite ?En|]; intros p2 (_ & _ & H2); wnext; apply Hend; congruence.
Qed.
End Setup.

(** ** unicast_mode as a whole *)

Section Unicast.
Context {K : Type} `{Clock K}.
Implicit Types (p : proc K).

(** What an exchange may show, from a state of the process to another. *)
Definition unicast_post (c_set : client_settings) p
    (o : outcome (Z * timeval * option (double * double))) p' : Prop :=
  exists sockfd userver ats es,
    failed_attempts c_set sockfd userver ats /\
    io (trace p') = io (trace p) ++ events ats ++ es /\
    match o with
    | Ret (code, _, None) => es = [] /\
        ((code = 2 \/ code = 3 \/ code = 8) /\ ats = [] \/
         code = 4 /\ Z.of_nat (length ats) = Z.max 0 (max_unicast_retries c_set))
    | Ret (code, _, Some (offset, bound)) => code = 0 /\
        exists t bs xt last dest ts,
          Z.of_nat (length ats) < max_unicast_retries c_set /\
          StronglySorted (apart (poll_wait c_set)) (times ats ++ [t]) /\
          convert_unix_time_into_ntp_time t = Some xt /\
          last_attempt sockfd (addr userver) t bs last /\
          es = last ++ [EClose sockfd] /\
          (length bs <= PACKET_SIZE)%nat /\ sane_bytes (request_wire xt) bs /\
          get_timestamps_from_packet_in_epoch_time (packet_of_bytes (overlay bs)) dest = Some ts /\
          offset = calculate_clock_offset ts /\ bound = calculate_error_bound ts
    | Undef UB_bounds => exists t bs,
        StronglySorted (apart (poll_wait c_set)) (times ats ++ [t]) /\
        (PACKET_SIZE < length bs)%nat /\ last_attempt sockfd (addr userver) t bs es
    | Undef UB_float_cast => es = [] /\ exists k : K,
        convert_unix_time_into_ntp_time (k_gettimeofday k).1 = None
    | _ => False
    end.

Lemma no_attempts c_set sockfd userver : failed_attempts c_set sockfd userver [].
Proof. split; constructor. Qed.

Lemma unicast_mode_ok fuel c_set timer0 p :
  0 <= poll_wait c_set < 2 ^ 30 -> max_unicast_retries c_set < INT_MAX ->
  loadable (PPtr (server_host c_set)) ->
  (Z.to_nat (Z.max 0 (max_unicast_retries c_set) * patience c_set) < fuel)%nat ->
  wp (unicast_mode fuel c_set timer0) (unicast_post c_set p) p.
Proof.
  intros Hw Hm Hh Hf. unfold unicast_mode. wnext.
  assert (forall p1 code tm, io (trace p1) = io (trace p) -> code = 2 \/ code = 3 \/ code = 8 ->
    unicast_post c_set p (Ret (code, tm, None)) p1) as Hearly.
  { intros p1 code tm E Hc. exists 0, {| name := Null; addr := zero_addr |}, [], [].
    rewrite app_nil_r. split_and!; [apply no_attempts|done|done|by left]. }
  apply wp_initialise_socket. intros p1 [code sockfd] H1 Hc. wnext. simpl in Hc.
  destruct (Z.eqb_spec code 0) as [->|Hne]; cbn [negb]; [|apply wp_ret, Hearly; [done|lia]].
  apply wp_bind, wp_initialise_server_interface; [done| |].
  { intros p2 H2. wnext. apply wp_ret, Hearly; [congruence|auto]. }
  intros p2 userver H2 Hname. wnext. wnext.
  eapply wp_mono, (retry_loop_ok c_set sockfd userver Hw Hm fuel (tv_usec timer0) p2 Hf).
  intros o p3 (ats & es & Hats & Hio & Ho). rewrite H2, H1 in Hio.
  destruct o as [[timer [[rep dest]|]]|c| |[]|]; try (exfalso; exact Ho).
  - destruct Ho as (t & bs & xt & Hn & Hs & Hl & Hlast & Hc' & Hsane & ->).
    destruct (get_timestamps_defined (packet_of_bytes (overlay bs)) dest) as [ts Hts].
    wnext. wnext. rewrite Hts. apply wp_ret. wnext. wnext.
    apply wp_print_server_results; [done|]. intros p4 H4. wnext. wnext.
    unfold close. apply wp_bind, wp_call. wnext. unfold wp, emit, modify. simpl.
    exists sockfd, userver, ats, (es ++ [EClose sockfd]). split_and!; [done| |done|].
    + simpl. rewrite io_app, H4, Hio, <- !app_assoc. done.
    + exists t, bs, xt, es, dest, ts. by split_and!.
  - destruct Ho as [-> Hlen]. wnext. apply wp_ret. exists sockfd, userver, ats, [].
    split_and!; [done|done|done|by right].
  - exists sockfd, userver, ats, es. by split_and!.
  - destruct Ho as [-> Hk]. exists sockfd, userver, ats, []. by split_and!.
Qed.

End Unicast.

Definition sample_settings : client_settings :=
  {| server_host := Lit "127.0.0.1"; server_port := 6001; debug := 0; recv_uni_timeout := 10;
     max_unicast_retries := 2; poll_wait := 15; timed_repeat_updates_enabled := 0;
     timed_repeat_updates_limit := 4; manycast_enabled := 0; manycast_wait_time := 2;
     manycast_address := Lit "224.0.1.1" |}.

Definition sample_kernel (inbox : list (option (list byte * sockaddr_in))) : script :=
  Script 1480000000 inbox true [("localhost", 16777343)] [].


(** ** The checks on the wire *)

Lemma ntp_time_bytes_inj a b : ntp_ok a -> ntp_ok b ->
  ntp_time_bytes a = ntp_time_bytes b -> a = b.
Proof.
  intros Ha Hb E. rewrite <- (ntp_time_roundtrip a Ha), <- (ntp_time_roundtrip b Hb).
  unfold ntp_time_bytes in E. apply app_inj_1 in E as [-> ->]; [done|].
  by rewrite !length_le_encode.
Qed.

Lemma ntp_time_at_bytes bs off : (off + 8 <= length bs)%nat ->
  ntp_time_bytes (ntp_time_at bs off) = take 8 (drop off bs).
Proof.
  intros Hl. unfold ntp_time_bytes, ntp_time_at, word_at. simpl.
  assert (forall o, (o + 4 <= length bs)%nat ->
    le_encode 4 (le_decode (take 4 (drop o bs))) = take 4 (drop o bs)) as E.
  { intros o Ho. replace 4%nat with (length (take 4 (drop o bs))) at 1; [apply le_encode_decode|].
    rewrite length_take, length_drop. lia. }
  change (le_encode 4 (le_decode (take 4 (drop off bs))) ++
    le_encode 4 (le_decode (take 4 (drop (off + 4) bs))) = take 8 (drop off bs)).
  rewrite !E by lia. rewrite <- drop_drop. apply (take_take_drop (drop off bs) 4 4).
Qed.

Lemma ntp_time_at_ok bs off : ntp_ok (ntp_time_at bs off).
Proof.
  assert (forall o, is_u32 (word_at bs o 4)) as Hw; [|split; apply Hw].
  intros o. unfold is_u32, word_at. pose proof (le_decode_range (take 4 (drop o bs))) as [? ?].
  split; [done|]. eapply Z.lt_le_trans; [done|]. change (2 ^ 32) with (256 ^ Z.of_nat 4).
  apply Z.pow_le_mono_r; [lia|]. rewrite length_take. lia.
Qed.

Lemma ntp_time_at_eq bs off t : (off + 8 <= length bs)%nat -> ntp_ok t ->
  ntp_time_at bs off = t <-> take 8 (drop off bs) = ntp_time_bytes t.
Proof.
  intros Hl Ht. rewrite <- (ntp_time_at_bytes bs off Hl). split; [by intros ->|].
  intros E. eapply ntp_time_bytes_inj; [apply ntp_time_at_ok|done|done].
Qed.

(** The bytes of a usable reply to the request made at [xt]. *)
Definition usable_reply (xt : ntp_time_t) (bs : list byte) : Prop :=
  let b := overlay bs in
  take 8 (drop 24 b) = be_encode 4 xt.(second) ++ be_encode 4 xt.(fraction) /\
  b2z (nth 1 b x00) <= 15 /\
  take 8 (drop 40 b) <> replicate 8 x00 /\
  head_byte bs mod 8 = 4 /\ (head_byte bs / 8) mod 8 = 4.

#[export] Instance usable_reply_dec xt bs : Decision (usable_reply xt bs).
Proof. unfold usable_reply. apply _. Defined.

Lemma request_transmit xt :
  transmit_timestamp (packet_of_bytes (overlay (request_wire xt))) =
  {| second := htonl (second xt); fraction := htonl (fraction xt) |}.
Proof.
  change (ntp_time_at (overlay (request_wire xt)) 40 =
    {| second := htonl (second xt); fraction := htonl (fraction xt) |}).
  apply ntp_time_at_eq; [done|split; apply htonl_range|].
  unfold ntp_time_bytes. cbn [second fraction]. by rewrite !htonl_bytes.
Qed.

Lemma sane_bytes_usable xt bs : (length bs <= PACKET_SIZE)%nat ->
  sane_bytes (request_wire xt) bs <-> usable_reply xt bs.
Proof.
  intros Hl. pose proof (length_overlay bs Hl) as Ho. unfold sane_bytes, sane, usable_reply.
  rewrite request_transmit, !packet_of_bytes_head by done.
  assert (originate_timestamp (packet_of_bytes (overlay bs)) =
      {| second := htonl (second xt); fraction := htonl (fraction xt) |} <->
    take 8 (drop 24 (overlay bs)) = be_encode 4 (second xt) ++ be_encode 4 (fraction xt)) as ->.
  { change (originate_timestamp (packet_of_bytes (overlay bs))) with (ntp_time_at (overlay bs) 24).
    rewrite ntp_time_at_eq; [|unfold PACKET_SIZE in *; lia|split; apply htonl_range].
    unfold ntp_time_bytes. cbn [second fraction]. by rewrite !htonl_bytes. }
  assert (transmit_timestamp (packet_of_bytes (overlay bs)) = zero_ntp <->
    take 8 (drop 40 (overlay bs)) = replicate 8 x00) as Hz.
  { change (transmit_timestamp (packet_of_bytes (overlay bs))) with (ntp_time_at (overlay bs) 40).
    apply ntp_time_at_eq; [unfold PACKET_SIZE in *; lia|]. unfold ntp_ok, is_u32. simpl. lia. }
  rewrite Hz.
  assert (stratum (packet_of_bytes (overlay bs)) = b2z (nth 1 (overlay bs) x00)) as ->.
  { unfold packet_of_bytes, word_at. cbn [stratum].
    destruct (overlay bs) as [|? [|b1 ?]]; try done. simpl. lia. }
  pose proof (b2z_range (nth 1 (overlay bs) x00)).
  change (head_byte (request_wire xt)) with 35. change ((35 / 8) mod 8) with 4. intuition lia.
Qed.

Section Checks.
Context {K : Type} `{Kernel K}.

(** C10: The sanity checks on the wire: against the request made at NTP time
    [xt], a received datagram passes exactly when it echoes the eight bytes of
    that time as its originate timestamp, has stratum at most 15, a transmit
    timestamp that is not zero, server mode and version 4; nothing else is
    looked at, and nothing but debug output happens. *)
Theorem run_sanity_checks_wire xt bs c_set (p : proc K) : (length bs <= PACKET_SIZE)%nat ->
  let (o, p') := run_sanity_checks (packet_of_bytes (overlay (request_wire xt)))
                   (packet_of_bytes (overlay bs)) c_set p in
  o = Ret (if decide (usable_reply xt bs) then 0 else 1) /\ quiet p p'.
Proof.
  intros Hl.
  assert (wp (run_sanity_checks (packet_of_bytes (overlay (request_wire xt)))
    (packet_of_bytes (overlay bs)) c_set) (fun o p' =>
      o = Ret (if decide (usable_reply xt bs) then 0 else 1) /\ quiet p p') p) as Hw.
  { apply wp_run_sanity_checks. intros p' Hq. split; [|done].
    pose proof (sane_bytes_usable xt bs Hl) as Hs. unfold sane_bytes in Hs.
    do 2 f_equal. case_bool_decide; case_decide; tauto. }
  exact Hw.
Qed.
End Checks.

Lemma run_sanity_checks_wire_witness :
  (run_sanity_checks (packet_of_bytes (overlay (request_wire zero_ntp)))
     (packet_of_bytes (overlay [x24])) sample_settings (boot (sample_kernel []))).1 = Ret 1.
Proof.
  pose proof (run_sanity_checks_wire zero_ntp [x24] sample_settings (boot (sample_kernel []))
    ltac:(vm_compute; lia)) as Hw.
  destruct (run_sanity_checks _ _ _ _) as [o p']. destruct Hw as [-> _]. reflexivity.
Defined.


