(* ===== verification/ClockSpec.v ===== *)
(** * How good the computed clock offset is

    The offset and the error bound that the client computes in binary64, compared
    with exact arithmetic on the four timestamps, and with the true difference of
    the two clocks. *)

From Stdlib Require Import SpecFloat Strings.Byte QArith Qabs Lqa.
From S2P Require Import Prelude Double DoubleError NtpTime Packet Net Script SntpTools Server CString Client ClientSpec.
Local Open Scope Z_scope.

(** The number that a finite double is. *)
Definition exact (x : double) : option Q :=
  match x with
  | S754_zero _ => Some 0%Q
  | S754_finite s m e =>
      Some (if 0 <=? e then inject_Z (cond_Zopp s (Zpos m) * 2 ^ e)
            else cond_Zopp s (Zpos m) # Z.to_pos (2 ^ (- e)))%Q
  | _ => None
  end.

Lemma dval_exact t x v : 0 <= t -> dval t x v ->
  exists q, exact x = Some q /\ (inject_Z (2 ^ t) * q == inject_Z v)%Q.
Proof.
  intros Ht Hx. destruct x as [s|s| |s m e]; try done; cbn [exact].
  - exists 0%Q. simpl in Hx. subst. split; [done|]. unfold Qeq. simpl. lia.
  - destruct Hx as (Hm & He & E). eexists. split; [done|].
    set (z := cond_Zopp s (Zpos m)) in *. clearbody z.
    destruct (Z.leb_spec 0 e) as [Hp|Hn]; unfold Qeq; cbn [Qnum Qden Qmult inject_Z]; rewrite ?Z.mul_1_r.
    + rewrite !Z.pow_add_r in E by lia. simpl Pos.mul. change (2 ^ 52) with 4503599627370496 in *. lia.
    + rewrite Pos.mul_1_l, Z2Pos.id by (apply Z.pow_pos_nonneg; lia).
      assert (0 < 2 ^ (- e)) by (apply Z.pow_pos_nonneg; lia).
      apply (Z.mul_cancel_r _ _ (2 ^ 52)); [done|].
      assert (2 ^ (e + t + 52) * 2 ^ (- e) = 2 ^ t * 2 ^ 52) as Ep
        by (rewrite <- !Z.pow_add_r by lia; f_equal; lia).
      set (u := 2 ^ (e + t + 52)) in *. set (w := 2 ^ (- e)) in *. set (k := 2 ^ t) in *. clearbody u w k.
      change (2 ^ 52) with 4503599627370496 in *. nia.
Qed.

(** ** The arithmetic of the client *)

(** A time in microseconds, and times that both programs can represent. *)
Definition usecs (t : timeval) : Z := tv_sec t * 1000000 + tv_usec t.
Definition epoch_time (t : timeval) : Prop := timeval_ok t /\ is_u32 (tv_sec t).

Abbreviation scale := 80 (only parsing).

(** [c], at the scale, is [z] microseconds with an error of at most [n] times
    half a microsecond. *)
Definition close (n c z : Z) : Prop := Z.abs (1000000 * c - z * 2 ^ scale) <= n * 2 ^ 79.

Lemma usec_product u : 0 <= u < 1000000 -> exists c, dval scale (dmul d1em6 (double_of_Z u)) c /\
  rounded (4722366482869645 * u * 2 ^ 8) c.
Proof.
  intros Hu. destruct (Z.eq_dec u 0) as [->|Hnz].
  { exists 0. split; [done|apply rounded_refl]. }
  destruct (drep_of_Z u) as (j & p & -> & Ep & Hp); [lia|].
  assert (j <= 52)%nat.
  { apply Nat.nlt_ge. intros ?. assert (2 ^ 53 <= 2 ^ Z.of_nat j) by (apply Z.pow_le_mono_r; lia). nia. }
  rewrite d1em6_val. unfold dmul, SFmul. simpl xorb.
  apply round_aux_dval; [lia| |lia|lia|].
  - rewrite Pos2Z.inj_mul. nia.
  - rewrite Pos2Z.inj_mul, Ep, <- !Z.mul_assoc, <- !Z.pow_add_r by lia. do 3 f_equal. lia.
Qed.

Lemma seconds_of_close t : epoch_time t -> exists c, dval scale (seconds_of t) c /\ close 1 c (usecs t).
Proof.
  intros [Hu Hs]. unfold timeval_ok, is_u32 in *. unfold seconds_of.
  destruct (usec_product (tv_usec t) Hu) as (m & Hm & Rm).
  pose proof (double_of_Z_dval scale ltac:(lia) (tv_sec t) ltac:(lia)) as Hsec.
  unfold rounded in Rm.
  destruct (dadd_dval scale ltac:(lia) _ _ _ _ Hsec Hm) as (c & Hc & Rc); [lia|].
  exists c. split; [done|]. unfold rounded, close, usecs in *. lia.
Qed.

(** A rounding of less than [b * 2^32] seconds. *)
Lemma close_round n b v r z : rounded v r -> close n v z -> Z.abs z <= b * 2 ^ 32 * 1000000 ->
  0 <= n <= 16 -> 1 <= b <= 2 -> close (n + b) r z.
Proof. unfold close, rounded. lia. Qed.

Lemma close_sub b n k x y c d z w : dval scale x c -> dval scale y d -> close n c z -> close k d w ->
  Z.abs (z - w) <= b * 2 ^ 32 * 1000000 -> 0 <= n -> 0 <= k -> n + k <= 16 -> 1 <= b <= 2 ->
  exists r, dval scale (dsub x y) r /\ close (n + k + b) r (z - w).
Proof.
  intros Hx Hy Hc Hd Hz Hn Hk Hnk Hb.
  destruct (dsub_dval scale ltac:(lia) x y c d Hx Hy) as (r & Hr & Rr); [unfold close in *; lia|].
  exists r. split; [done|]. eapply close_round; [done|unfold close in *; lia|lia..].
Qed.

Lemma close_add b n k x y c d z w : dval scale x c -> dval scale y d -> close n c z -> close k d w ->
  Z.abs (z + w) <= b * 2 ^ 32 * 1000000 -> 0 <= n -> 0 <= k -> n + k <= 16 -> 1 <= b <= 2 ->
  exists r, dval scale (dadd x y) r /\ close (n + k + b) r (z + w).
Proof.
  intros Hx Hy Hc Hd Hz Hn Hk Hnk Hb.
  destruct (dadd_dval scale ltac:(lia) x y c d Hx Hy) as (r & Hr & Rr); [unfold close in *; lia|].
  exists r. split; [done|]. eapply close_round; [done|unfold close in *; lia|lia..].
Qed.

Definition epoch_times (ts : core_ts) : Prop :=
  epoch_time ts.(ts_originate) /\ epoch_time ts.(ts_receive) /\
  epoch_time ts.(ts_transmit) /\ epoch_time ts.(ts_destination).

(** The exact results, the offset doubled. *)
Definition offset2_usecs (ts : core_ts) : Z :=
  (usecs ts.(ts_receive) - usecs ts.(ts_originate)) + (usecs ts.(ts_transmit) - usecs ts.(ts_destination)).
Definition delay_usecs (ts : core_ts) : Z :=
  (usecs ts.(ts_destination) - usecs ts.(ts_originate)) - (usecs ts.(ts_transmit) - usecs ts.(ts_receive)).

Lemma usecs_range t : epoch_time t -> 0 <= usecs t < 2 ^ 32 * 1000000.
Proof. unfold epoch_time, timeval_ok, is_u32, usecs. lia. Qed.

Lemma offset_close ts : epoch_times ts -> exists c,
  dval 81 (calculate_clock_offset ts) c /\ close 8 c (offset2_usecs ts).
Proof.
  intros (H1 & H2 & H3 & H4). unfold calculate_clock_offset. cbv zeta.
  pose proof (usecs_range _ H1). pose proof (usecs_range _ H2).
  pose proof (usecs_range _ H3). pose proof (usecs_range _ H4).
  destruct (seconds_of_close _ H1) as (c1 & D1 & C1), (seconds_of_close _ H2) as (c2 & D2 & C2),
    (seconds_of_close _ H3) as (c3 & D3 & C3), (seconds_of_close _ H4) as (c4 & D4 & C4).
  destruct (close_sub 1 _ _ _ _ _ _ _ _ D2 D1 C2 C1) as (a & Da & Ca); [lia..|].
  destruct (close_sub 1 _ _ _ _ _ _ _ _ D3 D4 C3 C4) as (b & Db & Cb); [lia..|].
  destruct (close_add 2 _ _ _ _ _ _ _ _ Da Db Ca Cb) as (c & Dc & Cc); [lia..|].
  exists c. split; [|done]. apply (half_dval scale); [lia|done|]. unfold close in Cc. lia.
Qed.

Lemma bound_close ts : epoch_times ts -> exists c,
  dval scale (calculate_error_bound ts) c /\ close 8 c (delay_usecs ts).
Proof.
  intros (H1 & H2 & H3 & H4). unfold calculate_error_bound. cbv zeta.
  pose proof (usecs_range _ H1). pose proof (usecs_range _ H2).
  pose proof (usecs_range _ H3). pose proof (usecs_range _ H4).
  destruct (seconds_of_close _ H1) as (c1 & D1 & C1), (seconds_of_close _ H2) as (c2 & D2 & C2),
    (seconds_of_close _ H3) as (c3 & D3 & C3), (seconds_of_close _ H4) as (c4 & D4 & C4).
  destruct (close_sub 1 _ _ _ _ _ _ _ _ D4 D1 C4 C1) as (a & Da & Ca); [lia..|].
  destruct (close_sub 1 _ _ _ _ _ _ _ _ D3 D2 C3 C2) as (b & Db & Cb); [lia..|].
  exact (close_sub 2 _ _ _ _ _ _ _ _ Da Db Ca Cb ltac:(lia) ltac:(lia) ltac:(lia) ltac:(lia) ltac:(lia)).
Qed.

(** In seconds, as rational numbers. *)
Definition microseconds (q : Q) : Q := (inject_Z 1000000 * q)%Q.

Lemma close_bounds n c z : close n c z ->
  (inject_Z z * inject_Z (2 ^ 80) - inject_Z n * inject_Z (2 ^ 79) <= microseconds (inject_Z c) /\
   microseconds (inject_Z c) <= inject_Z z * inject_Z (2 ^ 80) + inject_Z n * inject_Z (2 ^ 79))%Q.
Proof.
  unfold close, microseconds. intros Hc. rewrite <- !inject_Z_mult.
  unfold Qminus. rewrite <- inject_Z_opp, <- !inject_Z_plus, <- !Zle_Qle. lia.
Qed.

(** Linear arithmetic, once powers and quotients are numerals. *)
Ltac rational_bounds E Hl Hu :=
  apply Qabs_Qle_condition; unfold microseconds, Qdiv in *; rewrite <- E in Hl, Hu;
  change (inject_Z (2 ^ 81)) with (2417851639229258349412352 # 1)%Q in *;
  change (inject_Z (2 ^ 80)) with (1208925819614629174706176 # 1)%Q in *;
  change (inject_Z (2 ^ 79)) with (604462909807314587353088 # 1)%Q in *;
  change (inject_Z 1000000) with (1000000 # 1)%Q in *;
  change (/ 2)%Q with (1 # 2)%Q in *; change (/ 4)%Q with (1 # 4)%Q in *; split; lra.

(** The value of a double that is close to [z], at the scale or halved. *)
Lemma close_value x n c z : dval 80 x c -> close n c z ->
  exists q, exact x = Some q /\ (Qabs (microseconds q - inject_Z z) <= inject_Z n / 2)%Q.
Proof.
  intros Hx [Hl Hu]%close_bounds. destruct (dval_exact 80 x c ltac:(lia) Hx) as (q & Hq & E).
  exists q. split; [done|]. rational_bounds E Hl Hu.
Qed.

Lemma close_value_half x n c z : dval 81 x c -> close n c z ->
  exists q, exact x = Some q /\ (Qabs (microseconds q - inject_Z z / 2) <= inject_Z n / 4)%Q.
Proof.
  intros Hx [Hl Hu]%close_bounds. destruct (dval_exact 81 x c ltac:(lia) Hx) as (q & Hq & E).
  exists q. split; [done|]. rational_bounds E Hl Hu.
Qed.

Lemma offset_value ts : epoch_times ts -> exists q, exact (calculate_clock_offset ts) = Some q /\
  (Qabs (microseconds q - inject_Z (offset2_usecs ts) / 2) <= 2)%Q.
Proof.
  intros Hts. destruct (offset_close ts Hts) as (c & Dc & Cc).
  destruct (close_value_half _ 8 _ _ Dc Cc) as (q & Hq & Hle). exists q. split; [done|].
  by eapply Qle_trans.
Qed.

Lemma bound_value ts : epoch_times ts -> exists q, exact (calculate_error_bound ts) = Some q /\
  (Qabs (microseconds q - inject_Z (delay_usecs ts)) <= 4)%Q.
Proof.
  intros Hts. destruct (bound_close ts Hts) as (c & Dc & Cc).
  destruct (close_value _ 8 _ _ Dc Cc) as (q & Hq & Hle). exists q. split; [done|].
  by eapply Qle_trans.
Qed.

(** ** Timestamps on the way to the server and back *)

(** A time that comes back from the NTP form is late by at most a microsecond. *)
Lemma stamp_late t x : timeval_ok t -> is_u32 (tv_sec t) -> convert_unix_time_into_ntp_time t = Some x ->
  ntp_ok x /\ exists u, convert_ntp_time_into_unix_time x = Some u /\ epoch_time u /\
    usecs t <= usecs u <= usecs t + 1.
Proof.
  intros Ht Hs E. pose proof (convert_unix_ok t x Ht E) as Hx. split; [done|].
  rewrite convert_ntp_exact by done. eexists. split; [done|].
  rewrite convert_unix_exact in E by done. unfold timeval_ok in Ht.
  destruct (Z.eqb_spec (tv_usec t) 999999) as [|Hne]; [done|]. injection E as <-. cbn [second fraction].
  rewrite sec_roundtrip by done. rewrite usec_roundtrip by lia. unfold epoch_time, timeval_ok, usecs.
  cbn [tv_sec tv_usec]. destruct (Z.eqb_spec ((tv_usec t + 1) mod 15625) 0); split; lia || (split; [lia|done]).
Qed.

Lemma stamp_at bs off x u : (off + 8 <= length bs)%nat -> ntp_ok x ->
  take 8 (drop off bs) = be_encode 4 (second x) ++ be_encode 4 (fraction x) ->
  convert_ntp_time_into_unix_time x = Some u -> epoch_of_field (ntp_time_at bs off) = Some u.
Proof.
  intros Hl [Hs Hf] E Hu.
  assert (ntp_time_at bs off = {| second := htonl (second x); fraction := htonl (fraction x) |}) as ->.
  { apply ntp_time_at_eq; [done|split; apply htonl_range|]. unfold ntp_time_bytes. cbn [second fraction].
    by rewrite !htonl_bytes. }
  unfold epoch_of_field. cbn [second fraction]. rewrite !ntohl_htonl by done. by destruct x.
Qed.

(** What the client reads in the server's reply to its request. *)
Lemma reply_timestamps xt rt st o r x d : ntp_ok xt -> ntp_ok rt -> ntp_ok st ->
  convert_ntp_time_into_unix_time xt = Some o -> convert_ntp_time_into_unix_time rt = Some r ->
  convert_ntp_time_into_unix_time st = Some x ->
  get_timestamps_from_packet_in_epoch_time
    (packet_of_bytes (overlay (reply_wire (request_wire xt) rt st))) d =
  Some {| ts_originate := o; ts_receive := r; ts_transmit := x; ts_destination := d |}.
Proof.
  intros Hxt Hrt Hst Eo Er Ex.
  assert (length (reply_wire (request_wire xt) rt st) = PACKET_SIZE) as Hl by (by apply length_reply).
  assert (overlay (reply_wire (request_wire xt) rt st) = reply_wire (request_wire xt) rt st) as ->
    by (unfold overlay; rewrite Hl; apply app_nil_r).
  unfold get_timestamps_from_packet_in_epoch_time.
  set (bs := reply_wire (request_wire xt) rt st) in *.
  change (originate_timestamp (packet_of_bytes bs)) with (ntp_time_at bs 24).
  change (receive_timestamp (packet_of_bytes bs)) with (ntp_time_at bs 32).
  change (transmit_timestamp (packet_of_bytes bs)) with (ntp_time_at bs 40). unfold PACKET_SIZE in Hl.
  rewrite (stamp_at bs 24 xt o), (stamp_at bs 32 rt r), (stamp_at bs 40 st x); try done; lia.
Qed.

(** ** The claims *)

(** C5: The arithmetic of the client is accurate: for any four timestamps whose
    seconds fit 32 bits, the clock offset and the error bound that it computes in
    binary64 are finite, and they differ from
    ((T2 - T1) + (T3 - T4)) / 2 and (T4 - T1) - (T3 - T2), computed exactly, by at
    most two and four microseconds. *)
Theorem clock_arithmetic ts : epoch_times ts -> exists q r,
  exact (calculate_clock_offset ts) = Some q /\ exact (calculate_error_bound ts) = Some r /\
  (Qabs (microseconds q - inject_Z (offset2_usecs ts) / 2) <= 2)%Q /\
  (Qabs (microseconds r - inject_Z (delay_usecs ts)) <= 4)%Q.
Proof.
  intros Hts. destruct (offset_value ts Hts) as (q & Eq & Hq), (bound_value ts Hts) as (r & Er & Hr).
  by exists q, r.
Qed.

Definition sample_times : core_ts :=
  {| ts_originate := {| tv_sec := 1480000000; tv_usec := 100 |};
     ts_receive := {| tv_sec := 1480000007; tv_usec := 900000 |};
     ts_transmit := {| tv_sec := 1480000007; tv_usec := 900050 |};
     ts_destination := {| tv_sec := 1480000000; tv_usec := 30200 |} |}.

Lemma clock_arithmetic_witness : offset2_usecs sample_times = 15769750 /\ delay_usecs sample_times = 30050 /\
  exists q r, exact (calculate_clock_offset sample_times) = Some q /\
    exact (calculate_error_bound sample_times) = Some r /\
    (Qabs (microseconds q - inject_Z (offset2_usecs sample_times) / 2) <= 2)%Q /\
    (Qabs (microseconds r - inject_Z (delay_usecs sample_times)) <= 4)%Q.
Proof.
  split; [reflexivity|]. split; [reflexivity|]. apply clock_arithmetic.
  unfold epoch_times, epoch_time, timeval_ok, is_u32. cbn. lia.
Defined.

(** An exchange between two clocks that run at the same rate, the server's ahead
    of the client's by [theta] microseconds: the request leaves at [t1] (client)
    and arrives at [t2] (server) after [d1] microseconds, the reply leaves at
    [t3] (server) and arrives at [t4] (client) after [d2]. *)
Record exchange (theta d1 d2 : Z) (t1 t2 t3 t4 : timeval) : Prop := {
  ex_times : epoch_time t1 /\ epoch_time t2 /\ epoch_time t3 /\ epoch_time t4;
  ex_delays : 0 <= d1 /\ 0 <= d2;
  ex_there : usecs t2 = usecs t1 + theta + d1;
  ex_back : usecs t4 = usecs t3 - theta + d2
}.

(** C4: What the client computes is the difference of the clocks, within half of
    the network delay: in any exchange with the server, over any delays, with the
    timestamps converted to NTP and back as client and server do it and carried
    by the bytes of the server's reply, the offset differs from the true
    difference of the clocks by at most half of the round-trip delay and three
    microseconds; the error bound is the round-trip delay, within six
    microseconds; so the true difference lies within half of the error bound,
    and six microseconds, of the offset. *)
Theorem offset_within_bound theta d1 d2 t1 t2 t3 t4 xt rt st : exchange theta d1 d2 t1 t2 t3 t4 ->
  convert_unix_time_into_ntp_time t1 = Some xt -> convert_unix_time_into_ntp_time t2 = Some rt ->
  convert_unix_time_into_ntp_time t3 = Some st ->
  exists ts q r,
    get_timestamps_from_packet_in_epoch_time
      (packet_of_bytes (overlay (reply_wire (request_wire xt) rt st))) t4 = Some ts /\
    exact (calculate_clock_offset ts) = Some q /\ exact (calculate_error_bound ts) = Some r /\
    (Qabs (microseconds q - inject_Z theta) <= inject_Z (d1 + d2) / 2 + 3)%Q /\
    (Qabs (microseconds r - inject_Z (d1 + d2)) <= 6)%Q /\
    (Qabs (microseconds q - inject_Z theta) <= microseconds r / 2 + 6)%Q.
Proof.
  intros [(H1 & H2 & H3 & H4) [Hd1 Hd2] Et2 Et4] E1 E2 E3.
  destruct (stamp_late t1 xt) as (Hx & o & Eo & Ho & Bo); [apply H1|apply H1|done|].
  destruct (stamp_late t2 rt) as (Hr & b & Eb & Hb & Bb); [apply H2|apply H2|done|].
  destruct (stamp_late t3 st) as (Hs & c & Ec & Hc & Bc); [apply H3|apply H3|done|].
  set (ts := {| ts_originate := o; ts_receive := b; ts_transmit := c; ts_destination := t4 |}).
  assert (epoch_times ts) as Hts by done.
  destruct (offset_value ts Hts) as (q & Eq & Hq), (bound_value ts Hts) as (r & Er & Hbound).
  exists ts, q, r. split; [by apply reply_timestamps|]. split; [done|]. split; [done|].
  assert (2 * theta + d1 - d2 - 1 <= offset2_usecs ts <= 2 * theta + d1 - d2 + 2) as Ho2
    by (unfold offset2_usecs, ts; cbn; lia).
  assert (d1 + d2 - 2 <= delay_usecs ts <= d1 + d2 + 1) as Hd by (unfold delay_usecs, ts; cbn; lia).
  revert Hq Hbound Ho2 Hd Hd1 Hd2. generalize (offset2_usecs ts) (delay_usecs ts). intros z w.
  rewrite !Qabs_Qle_condition, !Zle_Qle. unfold Z.sub. rewrite !inject_Z_plus, !inject_Z_mult, !inject_Z_opp.
  unfold Qdiv. change (/ 2)%Q with (1 # 2)%Q. change (inject_Z 2) with 2%Q. change (inject_Z 1) with 1%Q.
  change (inject_Z 0) with 0%Q. generalize (microseconds q) (microseconds r). intros. split_and!; lra.
Qed.

Lemma offset_within_bound_witness : exists xt rt st,
  convert_unix_time_into_ntp_time {| tv_sec := 1480000000; tv_usec := 100 |} = Some xt /\
  exists ts q r,
    get_timestamps_from_packet_in_epoch_time
      (packet_of_bytes (overlay (reply_wire (request_wire xt) rt st)))
      {| tv_sec := 1480000000; tv_usec := 30200 |} = Some ts /\
    exact (calculate_clock_offset ts) = Some q /\ exact (calculate_error_bound ts) = Some r /\
    (Qabs (microseconds q - inject_Z 7890000) <= inject_Z (9900 + 20150) / 2 + 3)%Q /\
    (Qabs (microseconds r - inject_Z (9900 + 20150)) <= 6)%Q /\
    (Qabs (microseconds q - inject_Z 7890000) <= microseconds r / 2 + 6)%Q.
Proof.
  destruct (convert_unix_time_into_ntp_time {| tv_sec := 1480000000; tv_usec := 100 |}) as [xt|] eqn:E1;
    [|vm_compute in E1; discriminate].
  destruct (convert_unix_time_into_ntp_time {| tv_sec := 1480000007; tv_usec := 900000 |}) as [rt|] eqn:E2;
    [|vm_compute in E2; discriminate].
  destruct (convert_unix_time_into_ntp_time {| tv_sec := 1480000007; tv_usec := 900050 |}) as [st|] eqn:E3;
    [|vm_compute in E3; discriminate].
  exists xt, rt, st. split; [reflexivity|].
  refine (offset_within_bound 7890000 9900 20150 _ _ _ _ xt rt st _ E1 E2 E3).
  split; unfold epoch_time, timeval_ok, is_u32, usecs; cbn; lia.
Defined.
