(* ===== verification/ManycastSpec.v ===== *)
(** * What manycast discovery guarantees

    The gathering loop ends, and every outcome of the discovery is described by
    the datagrams heard: which servers are approved, and which address the
    result points to. *)

From Stdlib Require Import SpecFloat Strings.Byte.
From S2P Require Import Prelude Double NtpTime Packet Net Script SntpTools Server CString.
From S2P Require Import Client ClientSpec.
Local Open Scope Z_scope.

(** What one call of recvfrom returned. *)
Abbreviation heard := (option (list byte * sockaddr_in)).

Definition short (r : heard) : Prop :=
  match r with Some (bs, _) => (length bs <= PACKET_SIZE)%nat | None => True end.

Definition approves (xt : ntp_time_t) (r : heard) : bool :=
  match r with Some (bs, _) => bool_decide (usable_reply xt bs) | None => false end.

(** The number of approved servers. *)
Fixpoint count_approved (xt : ntp_time_t) (rs : list heard) : nat :=
  match rs with
  | [] => 0
  | r :: rs' => (if approves xt r then 1 else 0) + count_approved xt rs'
  end.

(** The address of the last datagram, approved or not. *)
Fixpoint last_heard (a : Z) (rs : list heard) : Z :=
  match rs with
  | [] => a
  | Some (_, from) :: rs' => last_heard (sin_addr from) rs'
  | None :: rs' => last_heard a rs'
  end.

Lemma count_snoc xt rs r :
  count_approved xt (rs ++ [r]) = (count_approved xt rs + if approves xt r then 1 else 0)%nat.
Proof. induction rs as [|r' rs IH]; simpl; [lia|]. rewrite IH. lia. Qed.

Lemma last_snoc a rs r : last_heard a (rs ++ [r]) =
  match r with Some (_, from) => sin_addr from | None => last_heard a rs end.
Proof.
  revert a. induction rs as [|[[? ?]|] rs IH]; intros a; simpl; [by destruct r as [[? ?]|]|apply IH..].
Qed.

Section Gather.
Context {K : Type} `{Clock K}.
Implicit Types (p : proc K).

Variable c_set : client_settings.
Variable sockfd : Z.
Variable xt : ntp_time_t.
Variable timer : timeval.
Variable first : Z.

Hypothesis Hwait : 0 <= manycast_wait_time c_set < 2 ^ 30.

Abbreviation us := 1000000 (only parsing).

Definition gathered p0 (rs : list heard) (servers : list cstr) p : Prop :=
  io (trace p) = io (trace p0) ++ (ERecv sockfd <$> rs) /\ Forall short rs /\
  servers = replicate (count_approved xt rs) Ntoa /\
  (count_approved xt rs <= MANYCAST_MAX_SERVERS)%nat /\
  ntoa_buf p = ntoa_string (last_heard first rs).

Definition gather_inv p0 (servers : list cstr) p : Prop :=
  (exists rs, gathered p0 rs servers p) /\
  tv_sec timer * us <= clock (kern p) < tv_sec timer * us + 7 * CALL_TIME.

Definition gather_post p0 (o : outcome (list cstr)) p : Prop :=
  match o with
  | Ret servers => exists rs, gathered p0 rs servers p
  | Undef UB_bounds => exists rs r,
      io (trace p) = io (trace p0) ++ (ERecv sockfd <$> rs ++ [r]) /\ Forall short rs /\
      (~ short r \/ short r /\ approves xt r = true /\ count_approved xt rs = MANYCAST_MAX_SERVERS)
  | _ => False
  end.

(** Rounds left: every round reads the clock. *)
Definition gather_left (servers : list cstr) p : nat :=
  Z.to_nat ((tv_sec timer + manycast_wait_time c_set + 1) * us - clock (kern p)).

Lemma gathered_snoc p0 rs servers servers' r p p' : gathered p0 rs servers p ->
  io (trace p') = io (trace p) ++ [ERecv sockfd r] -> short r ->
  servers' = replicate (count_approved xt (rs ++ [r])) Ntoa ->
  (count_approved xt (rs ++ [r]) <= MANYCAST_MAX_SERVERS)%nat ->
  ntoa_buf p' = ntoa_string (last_heard first (rs ++ [r])) ->
  gathered p0 (rs ++ [r]) servers' p'.
Proof.
  intros (Hio & Hall & _ & _ & _) Hp Hr Hs Hc Hb. split_and!; try done.
  - by rewrite Hp, Hio, fmap_app, app_assoc.
  - apply Forall_app. by repeat constructor.
Qed.

(** Every way the loop goes on. *)
Lemma gather_goes_on p0 rs s servers p p' :
  gathered p0 rs s p' -> clock (kern p) / us - tv_sec timer <= manycast_wait_time c_set ->
  tv_sec timer * us <= clock (kern p) -> clock (kern p) < clock (kern p') <= clock (kern p) + 3 * CALL_TIME ->
  gather_inv p0 s p' /\ (gather_left s p' < gather_left servers p)%nat.
Proof.
  intros Hg Hle Hclk Hk. pose proof (div_million (clock (kern p))) as D. cbv zeta in D. split.
  - split; [eauto|]. unfold CALL_TIME in *. lia.
  - unfold gather_left. lia.
Qed.

(** A datagram is judged. *)
Lemma judge_ok p0 rs bs from p p1 (Q : outcome (list cstr + list cstr) -> proc K -> Prop) : gathered p0 rs (replicate (count_approved xt rs) Ntoa) p ->
  io (trace p1) = io (trace p) ++ [ERecv sockfd (Some (bs, from))] -> (length bs <= PACKET_SIZE)%nat ->
  (forall s p', gathered p0 (rs ++ [Some (bs, from)]) s p' -> kern p' = kern p1 -> Q (Ret (inl s)) p') ->
  (forall p', gather_post p0 (Undef UB_bounds) p' -> Q (Undef UB_bounds) p') ->
  wp (q ← inet_ntoa (sin_addr from);
      print_debug (debug c_set) "server discovered: %s" [PPtr q];;
      c ← run_sanity_checks (packet_of_bytes (overlay (request_wire xt))) (packet_of_bytes (overlay bs)) c_set;
      if negb (c =? 0) then
        q ← inet_ntoa (sin_addr from);
        print_debug (debug c_set) "server '%s' failed sanity checks, discarding server" [PPtr q];;
        mret (inl (replicate (count_approved xt rs) Ntoa))
      else
        q ← inet_ntoa (sin_addr from);
        if (MANYCAST_MAX_SERVERS <=? length (replicate (count_approved xt rs) Ntoa))%nat then undef UB_bounds
        else
          q' ← inet_ntoa (sin_addr from);
          print_debug (debug c_set) "server '%s' is approved" [PPtr q'];;
          mret (inl (replicate (count_approved xt rs) Ntoa ++ [q]))) Q p1.
Proof.
  intros Hrs Ht1 Hlen HQ Hfull. pose proof Hrs as (Hio & Hall & _ & Hcount & Hbuf).
  wnext. apply wp_inet_ntoa. wnext. wnext. apply wp_print_debug; [done|]. intros p2 (Hk2 & _ & Ht2). wnext. wnext.
  apply wp_run_sanity_checks. intros p3 (Hk3 & _ & Ht3). wnext. cbn [kern trace] in *.
  pose proof (sane_bytes_usable xt bs ltac:(done)) as Hu. unfold sane_bytes in Hu.
  case_bool_decide as Hs; cbn [negb Z.eqb]; wnext; apply wp_inet_ntoa; wnext.
  - rewrite length_replicate.
    assert (approves xt (Some (bs, from)) = true) as Ha by (apply bool_decide_eq_true; tauto).
    destruct (Nat.leb_spec MANYCAST_MAX_SERVERS (count_approved xt rs)).
    { apply Hfull. exists rs, (Some (bs, from)). cbn [trace]. rewrite Ht3, Ht2, Ht1, Hio, fmap_app, app_assoc.
      simpl. split_and!; [done|done|]. right. split_and!; [done|done|lia]. }
    wnext. apply wp_inet_ntoa. wnext. wnext. apply wp_print_debug; [done|].
    intros p4 (Hk4 & Hb4 & Ht4). wnext. apply wp_ret. cbn [kern trace ntoa_buf] in *.
    apply HQ; [|congruence]. eapply gathered_snoc; [exact Hrs|congruence|done|..].
    + rewrite count_snoc, Ha, replicate_add. done.
    + rewrite count_snoc, Ha. lia.
    + by rewrite last_snoc, Hb4.
  - wnext. apply wp_print_debug; [done|].
    intros p4 (Hk4 & Hb4 & Ht4). wnext. apply wp_ret. cbn [kern trace ntoa_buf] in *.
    assert (approves xt (Some (bs, from)) = false) as Ha by (apply bool_decide_eq_false; tauto).
    apply HQ; [|congruence]. eapply gathered_snoc; [exact Hrs|congruence|done|..].
    + by rewrite count_snoc, Ha, Nat.add_0_r.
    + rewrite count_snoc, Ha. lia.
    + by rewrite last_snoc, Hb4.
Qed.

Lemma gather_round_ok p0 servers p : gather_inv p0 servers p ->
  wp (gather_round c_set sockfd (packet_of_bytes (overlay (request_wire xt))) timer servers)
    (fun o p' =>
       match o with
       | Ret (inl s) => gather_inv p0 s p' /\ (gather_left s p' < gather_left servers p)%nat
       | Ret (inr s) => gather_post p0 (Ret s) p'
       | Exited c => gather_post p0 (Exited c) p'
       | Aborted => gather_post p0 Aborted p'
       | Undef w => gather_post p0 (Undef w) p'
       | NoFuel => gather_post p0 NoFuel p'
       end) p.
Proof.
  intros [[rs Hrs] Hclk]. unfold gather_round. wnext. apply wp_get_elapsed_time. wnext.
  pose proof (clock_ticks (kern p)) as T1. set (k1 := (k_gettimeofday (kern p)).2) in *.
  pose proof (div_million (clock (kern p))) as D. cbv zeta in D.
  rewrite clock_reads. cbn [tv_sec].
  rewrite swrap_small by (unfold CALL_TIME in *; change (2 ^ (32 - 1)) with 2147483648; lia).
  destruct (Z.leb_spec (clock (kern p) / us - tv_sec timer) (manycast_wait_time c_set)) as [Hle|];
    cbn [negb]; [|apply wp_ret; by exists rs].
  wnext. destruct (k_recvfrom sockfd (MAXBUFLEN - 1) k1) as [r k2] eqn:Er.
  pose proof (clock_recvfrom sockfd (MAXBUFLEN - 1) k1) as T2. rewrite Er in T2. cbn [snd] in T2.
  pose proof (clock_ticks k2) as T3.
  apply (wp_recieve_SNTP_packet _ _ _ _ r k2); [exact Er|]. intros p1 Hk1 Ht1. cbn [trace] in Ht1.
  pose proof Hrs as (Hio & Hall & -> & Hcount & Hbuf).
  destruct r as [[bs from]|].
  - destruct (Nat.ltb_spec PACKET_SIZE (length bs)).
    { exists rs, (Some (bs, from)). rewrite Ht1, Hio, fmap_app, app_assoc. simpl.
      split_and!; [done|done|]. left. lia. }
    intros _. wnext. cbn [negb Z.eqb]. apply (judge_ok p0 rs bs from p); [done|done|lia| |done].
    intros s p' Hg Hk'. eapply gather_goes_on; [exact Hg|done|lia|]. rewrite Hk', Hk1. unfold CALL_TIME in *. lia.
  - intros Hb1. wnext. cbn [negb Z.eqb]. apply wp_bind, wp_print_debug; [done|].
    intros p2 (Hk2 & Hb2 & Ht2). wnext. apply wp_ret.
    apply (gather_goes_on p0 (rs ++ [None])); [|done|lia|rewrite Hk2, Hk1; unfold CALL_TIME in *; lia].
    eapply gathered_snoc; [exact Hrs|congruence|done|..].
    + by rewrite count_snoc, Nat.add_0_r.
    + rewrite count_snoc. simpl. lia.
    + rewrite last_snoc, Hb2, Hb1. done.
Qed.
End Gather.

Section Discover.
Context {K : Type} `{Clock K}.
Implicit Types (p : proc K).

Definition discover_post (c_set : client_settings) p (o : outcome (Z * list cstr)) p' : Prop :=
  exists sockfd to xt n rs es,
    io (trace p') = io (trace p) ++ es /\
    let request := ESend sockfd (request_wire xt) to n in
    match o with
    | Ret (code, servers) =>
        (code = 2 \/ code = 3 \/ code = 7 \/ code = 8) /\ es = [] /\ servers = [] \/
        code = 5 /\ n = -1 /\ es = [request] /\ servers = [] \/
        code = 6 /\ n <> -1 /\ es = request :: (ERecv sockfd <$> rs) /\
          Forall short rs /\ count_approved xt rs = 0%nat /\ servers = [] \/
        code = 0 /\ n <> -1 /\ es = request :: (ERecv sockfd <$> rs) ++ [EClose sockfd] /\
          Forall short rs /\ (1 <= count_approved xt rs <= MANYCAST_MAX_SERVERS)%nat /\
          servers = replicate (count_approved xt rs) Ntoa /\
          ntoa_buf p' = ntoa_string (last_heard (sin_addr to) rs)
    | Undef UB_bounds => exists r,
        es = request :: (ERecv sockfd <$> rs ++ [r]) /\ Forall short rs /\
        (~ short r \/
         short r /\ approves xt r = true /\ count_approved xt rs = MANYCAST_MAX_SERVERS)
    | Undef UB_float_cast => es = [] /\ exists k : K,
        convert_unix_time_into_ntp_time (k_gettimeofday k).1 = None
    | _ => False
    end.

Lemma gather_loop_ok fuel c_set sockfd xt timer first p :
  0 <= manycast_wait_time c_set < 2 ^ 30 ->
  (Z.to_nat ((manycast_wait_time c_set + 1) * 1000000) < fuel)%nat ->
  tv_sec timer * 1000000 <= clock (kern p) < tv_sec timer * 1000000 + 7 * CALL_TIME ->
  ntoa_buf p = ntoa_string first ->
  wp (iter fuel (gather_round c_set sockfd (packet_of_bytes (overlay (request_wire xt))) timer) [])
     (gather_post sockfd xt first p) p.
Proof.
  intros Hw Hf Hc Hb.
  eapply (wp_iter _ (gather_inv sockfd xt timer first p) (gather_left c_set timer)).
  - intros s p1 Hinv. by apply gather_round_ok.
  - split; [|done]. exists []. split_and!; [by rewrite app_nil_r|done|done|simpl; lia|done].
  - unfold gather_left. lia.
Qed.

Lemma discover_ok fuel c_set p :
  0 <= manycast_wait_time c_set < 2 ^ 30 -> loadable (PPtr (manycast_address c_set)) ->
  (Z.to_nat ((manycast_wait_time c_set + 1) * 1000000) < fuel)%nat ->
  wp (discover_unicast_servers_with_manycast fuel c_set) (discover_post c_set p) p.
Proof.
  intros Hw Ha Hf. unfold discover_unicast_servers_with_manycast. wnext.
  apply wp_print_debug; [done|]. intros p0 (_ & _ & Hp0). wnext. wnext.
  assert (forall p1 code, io (trace p1) = io (trace p) ->
    code = 2 \/ code = 3 \/ code = 7 \/ code = 8 -> discover_post c_set p (Ret (code, [])) p1) as Hearly.
  { intros p1 code E Hc. exists 0, zero_addr, zero_ntp, 0, [], []. rewrite app_nil_r.
    split; [done|]. by left. }
  apply wp_initialise_socket. intros p1 [code sockfd] H1 Hc. wnext. cbn [fst] in Hc.
  destruct (Z.eqb_spec code 0) as [->|Hne]; cbn [negb];
    [|apply wp_ret, Hearly; [congruence|lia]].
  wnext. apply wp_initialise_server_interface; [done| |].
  { intros p2 H2. wnext. apply wp_ret, Hearly; [congruence|lia]. }
  intros p2 grp H2 _. wnext. wnext. apply wp_call. wnext. destruct (_ <? 0).
  { wnext. apply wp_print_debug; [done|]. intros p3 (_ & _ & H3). wnext. apply wp_ret.
    apply Hearly; [cbn [trace] in H3; congruence|lia]. }
  wnext. apply wp_create_packet. cbn [kern ntoa_buf trace].
  set (k0 := (k_setsockopt sockfd (IP_MULTICAST_TTL 55) (kern p2)).2).
  destruct (convert_unix_time_into_ntp_time _) as [xt|] eqn:Et.
  2:{ exists 0, zero_addr, zero_ntp, 0, [], []. rewrite app_nil_r. cbn [trace].
      split; [congruence|]. eauto. }
  intros req Hreq Hreq'. wnext. wnext.
  destruct (k_sendto sockfd (bytes_of_packet req) (addr grp) (k_gettimeofday k0).2)
    as [n k1] eqn:Es.
  apply (wp_send_SNTP_packet _ _ _ _ n k1); [exact Es|]. intros p3 Hk3 H3 Hbuf. wnext.
  cbn [trace] in H3. rewrite Hreq in H3.
  destruct (Z.eqb_spec n (-1)) as [->|Hn]; cbn [negb Z.eqb].
  { wnext. apply wp_print_debug; [done|]. intros p4 (_ & _ & H4). wnext. apply wp_ret.
    exists sockfd, (addr grp), xt, (-1), [], [ESend sockfd (request_wire xt) (addr grp) (-1)].
    split; [congruence|]. right. left. by split_and!. }
  wnext. apply wp_gettimeofday. wnext. wnext.
  eapply wp_mono; [|rewrite <- Hreq'; apply (gather_loop_ok fuel c_set sockfd xt _
    (sin_addr (addr grp))); [done|done| |by apply Hbuf]].
  2:{ rewrite clock_reads. cbn [tv_sec kern]. pose proof (clock_ticks (kern p3)).
      pose proof (div_million (clock (kern p3))) as D. cbv zeta in D. unfold CALL_TIME in *. lia. }
  assert (io (trace p3) = io (trace p) ++ [ESend sockfd (request_wire xt) (addr grp) n]) as Hp3
    by congruence.
  intros o p4 Ho. destruct o as [servers|c| |[]|]; try done.
  - destruct Ho as (rs & Hio & Hall & -> & Hmax & Hb). cbn [trace] in Hio.
    rewrite Hp3, <- app_assoc in Hio. wnext.
    destruct (count_approved xt rs) as [|m] eqn:Em; cbn [replicate].
    + wnext. apply wp_print_debug; [done|]. intros p5 (_ & _ & H5). wnext. apply wp_ret.
      exists sockfd, (addr grp), xt, n, rs, (ESend sockfd (request_wire xt) (addr grp) n ::
        (ERecv sockfd <$> rs)). split; [by rewrite H5, Hio|]. right. right. left. by split_and!.
    + wnext. unfold close. apply wp_bind, wp_call. wnext. unfold wp, emit, modify. simpl then_.
      exists sockfd, (addr grp), xt, n, rs, (ESend sockfd (request_wire xt) (addr grp) n ::
        (ERecv sockfd <$> rs) ++ [EClose sockfd]). split.
      * simpl. rewrite io_app, Hio, <- app_assoc. done.
      * right. right. right. rewrite Em. split_and!; try done. lia.
  - destruct Ho as (rs & r & Hio & Hall & Hr). cbn [trace] in Hio.
    rewrite Hp3, <- app_assoc in Hio. wnext.
    eexists sockfd, (addr grp), xt, n, rs, _. split; [exact Hio|]. exists r. by split_and!.
Qed.

(** C3: Manycast discovery terminates, and each result is explained by what was
    heard: codes 2, 3, 7 and 8 send nothing, 5 is a failed send, 6 means that
    no datagram heard was usable, and 0 lists exactly one entry per usable
    reply, between one and ten (the eleventh is written out of the array's
    bounds).  All entries are the same pointer: the static buffer of inet_ntoa,
    which holds the address of the last datagram heard, usable or not, instead
    of the first server approved. *)
Theorem discover_refines fuel c_set p :
  0 <= manycast_wait_time c_set < 2 ^ 30 -> loadable (PPtr (manycast_address c_set)) ->
  (Z.to_nat ((manycast_wait_time c_set + 1) * 1000000) < fuel)%nat ->
  let (o, p') := discover_unicast_servers_with_manycast fuel c_set p in
  discover_post c_set p o p'.
Proof.
  intros Hw Ha Hf. pose proof (discover_ok fuel c_set p Hw Ha Hf) as Hp. exact Hp.
Qed.
End Discover.

Lemma discover_refines_witness :
  let (o, p') := discover_unicast_servers_with_manycast (S (Z.to_nat ((2 + 1) * 1000000)))
                   sample_settings (boot (sample_kernel [])) in
  discover_post sample_settings (boot (sample_kernel [])) o p'.
Proof.
  apply discover_refines; [simpl; lia|exact I|]. apply Nat.lt_succ_diag_r.
Defined.
