(* ===== verification/ClientMain.v ===== *)
(** * The client's settings and main (src/sntpclient.c)

    The defaults, the configuration file, the command line (with getopt as
    POSIX describes it, its diagnostics left out), and [main]. *)

From Stdlib Require Import SpecFloat Strings.Byte.
From S2P Require Import Prelude Double CString Setting Config ScanCtx Scanner Grammar ConfigRead.
From S2P Require Import NtpTime Packet Net Script SntpTools SetupConfig Client.
Local Open Scope Z_scope.

Definition CONFIG_FILE : string := "client_config.cfg".
Definition DEFAULT_MANYCAST_ADDRESS : string := "224.0.1.1".
Definition DEFAULT_MANYCAST_WAIT_TIME : Z := 2.
Definition DEFAULT_MAX_UNICAST_RETRY_LIMIT : Z := 2.
Definition DEFAULT_MIN_POLL_WAIT : Z := 15.
Definition DEFAULT_SERVER_PORT : Z := 123.
Definition DEFAULT_DEBUG : Z := 0.
Definition DEFAULT_RECV_TIMEOUT : Z := 10.
Definition DEFAULT_REPEAT_UPDATES_ENABLED : Z := 0.
Definition DEFAULT_REPEAT_UPDATE_LIMIT : Z := 4.

(** The defaults; [server_host] and [manycast_enabled] are not initialised, and
    [junk] is what the latter happens to hold. *)
Definition default_settings (junk : Z) : client_settings :=
  {| server_host := Indeterminate;
     server_port := DEFAULT_SERVER_PORT;
     debug := DEFAULT_DEBUG;
     recv_uni_timeout := DEFAULT_RECV_TIMEOUT;
     max_unicast_retries := DEFAULT_MAX_UNICAST_RETRY_LIMIT;
     poll_wait := DEFAULT_MIN_POLL_WAIT;
     timed_repeat_updates_enabled := DEFAULT_REPEAT_UPDATES_ENABLED;
     timed_repeat_updates_limit := DEFAULT_REPEAT_UPDATE_LIMIT;
     manycast_enabled := junk;
     manycast_wait_time := DEFAULT_MANYCAST_WAIT_TIME;
     manycast_address := Lit DEFAULT_MANYCAST_ADDRESS |}.

(** ** Field updates *)

Definition set_host (v : cstr) (s : client_settings) : client_settings :=
  {| server_host := v; server_port := s.(server_port); debug := s.(debug);
     recv_uni_timeout := s.(recv_uni_timeout); max_unicast_retries := s.(max_unicast_retries);
     poll_wait := s.(poll_wait); timed_repeat_updates_enabled := s.(timed_repeat_updates_enabled);
     timed_repeat_updates_limit := s.(timed_repeat_updates_limit);
     manycast_enabled := s.(manycast_enabled); manycast_wait_time := s.(manycast_wait_time);
     manycast_address := s.(manycast_address) |}.

Definition set_port (v : Z) (s : client_settings) : client_settings :=
  {| server_host := s.(server_host); server_port := v; debug := s.(debug);
     recv_uni_timeout := s.(recv_uni_timeout); max_unicast_retries := s.(max_unicast_retries);
     poll_wait := s.(poll_wait); timed_repeat_updates_enabled := s.(timed_repeat_updates_enabled);
     timed_repeat_updates_limit := s.(timed_repeat_updates_limit);
     manycast_enabled := s.(manycast_enabled); manycast_wait_time := s.(manycast_wait_time);
     manycast_address := s.(manycast_address) |}.

Definition set_debug (v : Z) (s : client_settings) : client_settings :=
  {| server_host := s.(server_host); server_port := s.(server_port); debug := v;
     recv_uni_timeout := s.(recv_uni_timeout); max_unicast_retries := s.(max_unicast_retries);
     poll_wait := s.(poll_wait); timed_repeat_updates_enabled := s.(timed_repeat_updates_enabled);
     timed_repeat_updates_limit := s.(timed_repeat_updates_limit);
     manycast_enabled := s.(manycast_enabled); manycast_wait_time := s.(manycast_wait_time);
     manycast_address := s.(manycast_address) |}.

(** recv_uni_timeout, max_unicast_retries, poll_wait *)
Definition set_unicast (t r w : Z) (s : client_settings) : client_settings :=
  {| server_host := s.(server_host); server_port := s.(server_port); debug := s.(debug);
     recv_uni_timeout := t; max_unicast_retries := r; poll_wait := w;
     timed_repeat_updates_enabled := s.(timed_repeat_updates_enabled);
     timed_repeat_updates_limit := s.(timed_repeat_updates_limit);
     manycast_enabled := s.(manycast_enabled); manycast_wait_time := s.(manycast_wait_time);
     manycast_address := s.(manycast_address) |}.
Definition set_timeout v s := set_unicast v s.(max_unicast_retries) s.(poll_wait) s.
Definition set_retries v s := set_unicast s.(recv_uni_timeout) v s.(poll_wait) s.
Definition set_poll_wait v s := set_unicast s.(recv_uni_timeout) s.(max_unicast_retries) v s.

Definition set_repeat (limit : Z) (s : client_settings) : client_settings :=
  {| server_host := s.(server_host); server_port := s.(server_port); debug := s.(debug);
     recv_uni_timeout := s.(recv_uni_timeout); max_unicast_retries := s.(max_unicast_retries);
     poll_wait := s.(poll_wait); timed_repeat_updates_enabled := 1;
     timed_repeat_updates_limit := limit;
     manycast_enabled := s.(manycast_enabled); manycast_wait_time := s.(manycast_wait_time);
     manycast_address := s.(manycast_address) |}.

(** manycast_enabled, manycast_wait_time, manycast_address *)
Definition set_manycast (e w : Z) (a : cstr) (s : client_settings) : client_settings :=
  {| server_host := s.(server_host); server_port := s.(server_port); debug := s.(debug);
     recv_uni_timeout := s.(recv_uni_timeout); max_unicast_retries := s.(max_unicast_retries);
     poll_wait := s.(poll_wait); timed_repeat_updates_enabled := s.(timed_repeat_updates_enabled);
     timed_repeat_updates_limit := s.(timed_repeat_updates_limit);
     manycast_enabled := e; manycast_wait_time := w; manycast_address := a |}.
Definition set_enabled v s := set_manycast v s.(manycast_wait_time) s.(manycast_address) s.
Definition set_wait v s := set_manycast s.(manycast_enabled) v s.(manycast_address) s.
Definition set_address v s :=
  set_manycast s.(manycast_enabled) s.(manycast_wait_time) (cstr_of v) s.

(** ** getopt *)

(** optind, the rest of the argument being scanned, optarg and optopt. *)
Record getopt_state := { optind : Z; cluster : string; optarg : cstr; optopt : ascii }.

Definition getopt_start : getopt_state :=
  {| optind := 1; cluster := ""; optarg := Null; optopt := NUL |}.

(** [Some true] for an option with an argument, [Some false] for one without. *)
Fixpoint find_option (optstring : string) (c : ascii) : option bool :=
  match optstring with
  | EmptyString => None
  | String d s' =>
      if (c =? d)%char && negb (c =? ":")%char
      then Some (match s' with String ":" _ => true | _ => false end)
      else find_option s' c
  end.

(** The option found, "?" for an error, [None] for -1. *)
Definition getopt (argv : list string) (optstring : string) (g : getopt_state)
    : option ascii * getopt_state :=
  let next := argv !! Z.to_nat g.(optind) in
  let g' :=
    match g.(cluster), next with
    | EmptyString, Some (String "-" (String c s)) =>
        if String.eqb (String c s) "-" then
          {| optind := g.(optind) + 1; cluster := ""; optarg := g.(optarg);
             optopt := g.(optopt) |}
        else {| optind := g.(optind); cluster := String c s; optarg := g.(optarg);
                optopt := g.(optopt) |}
    | _, _ => g
    end in
  match g'.(cluster) with
  | EmptyString => (None, g')
  | String c s =>
      let at_end := match s with EmptyString => true | _ => false end in
      let after := if at_end then g'.(optind) + 1 else g'.(optind) in
      match find_option optstring c with
      | None => (Some "?"%char,
                 {| optind := after; cluster := s; optarg := g'.(optarg); optopt := c |})
      | Some false =>
          (Some c, {| optind := after; cluster := s; optarg := g'.(optarg);
                      optopt := g'.(optopt) |})
      | Some true =>
          if negb at_end then
            (Some c, {| optind := g'.(optind) + 1; cluster := ""; optarg := Lit s;
                        optopt := g'.(optopt) |})
          else
            match argv !! Z.to_nat (g'.(optind) + 1) with
            | Some a => (Some c, {| optind := g'.(optind) + 2; cluster := "";
                                    optarg := Lit a; optopt := g'.(optopt) |})
            | None => (Some "?"%char,
                       {| optind := g'.(optind) + 1; cluster := ""; optarg := g'.(optarg);
                          optopt := c |})
            end
      end
  end.

(** ** Settings *)

Section Settings.
Context {K : Type} `{Kernel K}.

(** The loop variables of parse_command_line. *)
Record cmdline := {
  opts : getopt_state; cl_set : client_settings; uni_set : bool; many_set : bool
}.

Definition optstring : string := "u:mp:dr:".

(** The effect of one option. *)
Definition apply_option (c : ascii) (g : getopt_state) (v : cmdline) : M (proc K) cmdline :=
  let s := v.(cl_set) in
  if (c =? "u")%char then
    mret {| opts := g; cl_set := set_host g.(optarg) s; uni_set := true;
            many_set := v.(many_set) |}
  else if (c =? "m")%char then
    mret {| opts := g; cl_set := set_enabled 1 s; uni_set := v.(uni_set); many_set := true |}
  else if (c =? "p")%char then
    a ← load g.(optarg);
    mret {| opts := g; cl_set := set_port (atoi a) s; uni_set := v.(uni_set);
            many_set := v.(many_set) |}
  else if (c =? "d")%char then
    mret {| opts := g; cl_set := set_debug 1 s; uni_set := v.(uni_set);
            many_set := v.(many_set) |}
  else if (c =? "r")%char then
    a ← load g.(optarg);
    mret {| opts := g; cl_set := set_repeat (atoi a) s; uni_set := v.(uni_set);
            many_set := v.(many_set) |}
  else if (c =? "?")%char && (g.(optopt) =? "r")%char then
    fprintf Stderr "number of repeats not given for option '-r'\n" [];; exit_ 1
  else abort_.

(** One round of [while (optind < argc)]. *)
Definition option_round (argv : list string) (v : cmdline)
    : M (proc K) (cmdline + cmdline) :=
  if negb (v.(opts).(optind) <? Z.of_nat (length argv)) then mret (inr v)
  else
    match getopt argv optstring v.(opts) with
    | (None, g) => mret (inl {| opts := g; cl_set := v.(cl_set); uni_set := v.(uni_set);
                                many_set := v.(many_set) |})
    | (Some c, g) => v' ← apply_option c g v; mret (inl v')
    end.

Definition parse_command_line (fuel : nat) (argv : list string) (c_set : client_settings)
    : M (proc K) client_settings :=
  v ← iter fuel (option_round argv)
        {| opts := getopt_start; cl_set := c_set; uni_set := false; many_set := false |};
  if v.(uni_set) && v.(many_set) then
    fprintf Stderr "%s: unicast address given as well as enabling manycast, only one or the other can be chosen\n"
      [AStr (default "" (argv !! 0%nat))];;
    exit_ 1
  else mret v.(cl_set).

Definition parse_config_file (fuel : nat) (c_set : client_settings)
    : M (proc K) client_settings :=
  cfg ← setup_config_file fuel CONFIG_FILE;
  s ← update_with (config_lookup_string "manycast_address") set_address cfg c_set;
  s ← update_with (config_lookup_int "manycast_wait_time") set_wait cfg s;
  s ← update_with (config_lookup_int "server_port") set_port cfg s;
  s ← update_with (config_lookup_int "recv_uni_timeout") set_timeout cfg s;
  s ← update_with (config_lookup_int "max_unicast_retries") set_retries cfg s;
  update_with (config_lookup_int "poll_wait") set_poll_wait cfg s.

Definition get_client_settings (fuel : nat) (argv : list string) (junk : Z)
    : M (proc K) client_settings :=
  let c_set := default_settings junk in
  a ← access CONFIG_FILE;
  c_set ← (if a =? 0 then parse_config_file fuel c_set
           else
             print_debug c_set.(debug) "no config file found for '%s'"
               [PPtr (Lit CONFIG_FILE)];;
             mret c_set);
  parse_command_line fuel argv c_set.

(** ** main *)

(** while (counter != 0 && elapsed <= poll_wait); *)
Definition wait_to_poll (fuel : nat) (c_set : client_settings) (counter : Z)
    (poll_timer : timeval) : M (proc K) unit :=
  iter fuel (fun _ : unit =>
    if counter =? 0 then mret (inr tt)
    else
      e ← get_elapsed_time poll_timer;
      mret (if e <=? c_set.(poll_wait) then inl tt else inr tt)) tt.

(** The variables of the repeat loop. *)
Record repeat_vars := {
  counter : Z; s_counter : Z; offset_total : spec_float; error_bound_total : spec_float;
  rp_timer : timeval
}.

Definition repeat_round (fuel : nat) (c_set : client_settings) (v : repeat_vars)
    : M (proc K) (repeat_vars + repeat_vars) :=
  if negb (v.(counter) <? c_set.(timed_repeat_updates_limit)) then mret (inr v)
  else
    wait_to_poll fuel c_set v.(counter) v.(rp_timer);;
    u ← unicast_mode fuel c_set v.(rp_timer);
    let '(exit_code, timer, r) := u in
    if negb (exit_code =? 0) then
      print_error_message exit_code;;
      mret (inl {| counter := v.(counter) + 1; s_counter := v.(s_counter);
                   offset_total := v.(offset_total);
                   error_bound_total := v.(error_bound_total); rp_timer := timer |})
    else
      let '(offset, error_bound) := default (d0, d0) r in
      mret (inl {| counter := v.(counter) + 1; s_counter := v.(s_counter) + 1;
                   offset_total := dadd v.(offset_total) offset;
                   error_bound_total := dadd v.(error_bound_total) error_bound;
                   rp_timer := timer |}).

(** What the uninitialised variables happen to hold: manycast_enabled,
    offset_total, error_bound_total and poll_timer. *)
Record uninitialised := {
  u_enabled : Z; u_offset : spec_float; u_error : spec_float; u_timer : timeval
}.

Definition repeat_updates (fuel : nat) (c_set : client_settings) (u : uninitialised)
    : M (proc K) unit :=
  v ← iter fuel (repeat_round fuel c_set)
        {| counter := 0; s_counter := 0; offset_total := u.(u_offset);
           error_bound_total := u.(u_error); rp_timer := u.(u_timer) |};
  if 0 <? v.(s_counter) then
    let n := double_of_Z v.(s_counter) in
    printf_to Stdout "\nStatistics -> offset average: %f, error bound average: +/- %f\n"
      [PDbl (ddiv v.(offset_total) n); PDbl (ddiv v.(error_bound_total) n)]
  else fprintf Stderr "unable to collect any time samples\n" [].

Definition main (fuel : nat) (argv : list string) (u : uninitialised) : M (proc K) Z :=
  c_set ← get_client_settings fuel argv u.(u_enabled);
  c_set ← (if i2b c_set.(manycast_enabled) then
             r ← discover_unicast_servers_with_manycast fuel c_set;
             let '(exit_code, ntp_servers) := r in
             if exit_code =? 0 then
               first ← lift_opt UB_indeterminate (head ntp_servers);
               print_debug c_set.(debug) "using server '%s' for further unicast operations"
                 [PPtr first];;
               mret (set_host first c_set)
             else print_error_message exit_code;; exit_ 1
           else mret c_set);
  if negb (c_set.(timed_repeat_updates_enabled) =? 1) then
    r ← unicast_mode fuel c_set u.(u_timer);
    let '(exit_code, _, _) := r in
    (if negb (exit_code =? 0) then print_error_message exit_code else mret tt);;
    mret 0
  else repeat_updates fuel c_set u;; mret 0.
End Settings.
