(* ===== verification/ClientSettings.v ===== *)
(** * What the client makes of its command line and configuration file

    The options are described as data; parsing their rendering as an argument
    vector applies them in order.  The settings of the client are the defaults,
    overridden by the configuration file, overridden by the command line. *)

From Stdlib Require Import SpecFloat.
From S2P Require Import Prelude Double CString Setting Config ConfigWf ConfigProps ConfigTree ConfigApi.
From S2P Require Import ScanCtx Scanner LexerProps Grammar ConfigRead ParserSafe.
From S2P Require Import NtpTime Packet Net Script SntpTools SetupConfig SettingsSpec Client ClientMain.
Local Open Scope Z_scope.

(** ** Options *)

Inductive option_given :=
  | Unicast (host : string) | Manycast | Port (text : string) | Debug | Repeat (text : string).

(** How an option is written: its argument can follow the letter directly. *)
Definition render_option (o : option_given) (attached : bool) : list string :=
  let with_arg c a :=
    if attached && negb (String.eqb a "") then [String "-" (String c a)]
    else [String "-" (String c ""); a] in
  match o with
  | Unicast h => with_arg "u"%char h
  | Manycast => ["-m"]
  | Port t => with_arg "p"%char t
  | Debug => ["-d"]
  | Repeat t => with_arg "r"%char t
  end.

Definition render (os : list (option_given * bool)) : list string :=
  concat (map (fun x => render_option x.1 x.2) os).

Definition apply_given (s : client_settings) (o : option_given) : client_settings :=
  match o with
  | Unicast h => set_host (Lit h) s
  | Manycast => set_enabled 1 s
  | Port t => set_port (atoi t) s
  | Debug => set_debug 1 s
  | Repeat t => set_repeat (atoi t) s
  end.

Definition is_unicast (o : option_given) : bool := match o with Unicast _ => true | _ => false end.
Definition is_manycast (o : option_given) : bool := match o with Manycast => true | _ => false end.

(** ** getopt on a rendered option *)

#[local] Arguments find_option : simpl never.

Definition at_index (i : Z) (g : getopt_state) : Prop := optind g = i /\ cluster g = "".

Lemma getopt_flag argv i g c : at_index i g -> argv !! Z.to_nat i = Some (String "-" (String c "")) ->
  c <> "-"%char -> find_option optstring c = Some false ->
  exists g', getopt argv optstring g = (Some c, g') /\ at_index (i + 1) g'.
Proof.
  intros [Hi Hc] Ha Hd Hf. unfold getopt. rewrite Hi, Ha, Hc.
  assert (String.eqb (String c "") "-" = false) as ->.
  { apply String.eqb_neq. congruence. }
  simpl. rewrite Hf. eexists. by split.
Qed.

Lemma getopt_separate argv i g c a : at_index i g -> argv !! Z.to_nat i = Some (String "-" (String c "")) ->
  argv !! Z.to_nat (i + 1) = Some a -> c <> "-"%char -> find_option optstring c = Some true ->
  exists g', getopt argv optstring g = (Some c, g') /\ at_index (i + 2) g' /\ optarg g' = Lit a.
Proof.
  intros [Hi Hc] Ha Ha1 Hd Hf. unfold getopt. rewrite Hi, Ha, Hc.
  assert (String.eqb (String c "") "-" = false) as -> by (apply String.eqb_neq; congruence).
  simpl. rewrite Hf, Ha1. eexists. by split.
Qed.

Lemma getopt_attached argv i g c a : at_index i g -> argv !! Z.to_nat i = Some (String "-" (String c a)) ->
  a <> "" -> c <> "-"%char -> find_option optstring c = Some true ->
  exists g', getopt argv optstring g = (Some c, g') /\ at_index (i + 1) g' /\ optarg g' = Lit a.
Proof.
  intros [Hi Hc] Ha Hne Hd Hf. unfold getopt. rewrite Hi, Ha, Hc.
  assert (String.eqb (String c a) "-" = false) as -> by (apply String.eqb_neq; congruence).
  simpl. rewrite Hf. destruct a; [done|]. simpl. eexists. by split.
Qed.

Section CommandLine.
Context {K : Type} `{Kernel K}.
Implicit Types (p : proc K).

(** The state of the loop after the options [os]. *)
Record so_far (s0 : client_settings) (os : list option_given) (i : Z) (v : cmdline) : Prop := {
  sf_index : at_index i (opts v);
  sf_set : cl_set v = fold_left apply_given os s0;
  sf_uni : uni_set v = existsb is_unicast os;
  sf_many : many_set v = existsb is_manycast os
}.

Lemma option_round_ok s0 os i v o att argv pre post p : so_far s0 os i v ->
  argv = pre ++ render_option o att ++ post -> i = Z.of_nat (length pre) ->
  exists v', option_round argv v p = (Ret (inl v'), p) /\
    so_far s0 (os ++ [o]) (i + Z.of_nat (length (render_option o att))) v'.
Proof.
  intros [Hidx Hset Huni Hmany] Hargv Hi.
  assert (forall k, argv !! Z.to_nat (i + Z.of_nat k) = (render_option o att ++ post) !! k) as Hlook.
  { intros k. rewrite Hargv, lookup_app_r by lia. f_equal. lia. }
  pose proof (Hlook 0%nat) as H0. pose proof (Hlook 1%nat) as H1.
  replace (i + Z.of_nat 0) with i in H0 by lia. replace (i + Z.of_nat 1) with (i + 1) in H1 by lia.
  assert ((0 < length (render_option o att))%nat) as Hpos
    by (unfold render_option; destruct o; simpl; try lia; destruct (_ && _); simpl; lia).
  assert ((optind (opts v) <? Z.of_nat (length argv)) = true) as Hlt.
  { destruct Hidx as [-> _]. rewrite Hargv, !length_app. apply Z.ltb_lt. lia. }
  unfold option_round. rewrite Hlt. simpl negb. cbv iota.
  assert (forall c a, c <> "-"%char -> find_option optstring c = Some true ->
    render_option o att = (if att && negb (String.eqb a "") then [String "-" (String c a)]
                           else [String "-" (String c ""); a]) ->
    exists g', getopt argv optstring (opts v) = (Some c, g') /\
      at_index (i + Z.of_nat (length (render_option o att))) g' /\ optarg g' = Lit a) as Harg.
  { intros c a Hc Hf Er. rewrite Er in H0, H1 |- *.
    destruct (att && negb (String.eqb a "")) eqn:Eatt; simpl in H0, H1 |- *.
    - apply andb_true_iff in Eatt as [_ Hne%negb_true_iff%String.eqb_neq].
      by apply getopt_attached.
    - by apply (getopt_separate argv i). }
  assert (forall c, c <> "-"%char -> find_option optstring c = Some false ->
    render_option o att = [String "-" (String c "")] ->
    exists g', getopt argv optstring (opts v) = (Some c, g') /\
      at_index (i + Z.of_nat (length (render_option o att))) g') as Hflag.
  { intros c Hc Hf Er. rewrite Er in H0 |- *. by apply (getopt_flag argv i). }
  destruct o as [h| |t| |t]; [destruct (Harg "u"%char h) as (g' & -> & Hg' & Ea)
    |destruct (Hflag "m"%char) as (g' & -> & Hg')|destruct (Harg "p"%char t) as (g' & -> & Hg' & Ea)
    |destruct (Hflag "d"%char) as (g' & -> & Hg')|destruct (Harg "r"%char t) as (g' & -> & Hg' & Ea)];
    try done;
    (eexists; split; [unfold apply_option; simpl; rewrite ?Ea; reflexivity|];
     split; simpl; [done|..]; rewrite ?fold_left_app, ?existsb_app, ?Hset, ?Huni, ?Hmany; simpl;
       rewrite ?Ea, ?orb_false_r, ?orb_true_r; done).
Qed.

Lemma options_ok s0 argv p : forall todo done_ fuel v pre, argv = pre ++ render todo ->
  so_far s0 (map fst done_) (Z.of_nat (length pre)) v -> (length todo < fuel)%nat ->
  exists v', iter fuel (option_round argv) v p = (Ret v', p) /\
    cl_set v' = fold_left apply_given (map fst (done_ ++ todo)) s0 /\
    uni_set v' = existsb is_unicast (map fst (done_ ++ todo)) /\
    many_set v' = existsb is_manycast (map fst (done_ ++ todo)).
Proof.
  induction todo as [|[o att] todo IH]; intros done_ fuel v pre Hargv Hv Hf;
    (destruct fuel as [|fuel]; [simpl in Hf; lia|]); simpl iter.
  - destruct Hv as [[Hi _] Hs Hu Hm]. exists v. rewrite app_nil_r.
    assert (option_round argv v p = (Ret (inr v), p)) as E.
    { unfold option_round. rewrite Hi, Hargv. simpl render. rewrite app_nil_r.
      by rewrite (proj2 (Z.ltb_ge _ _)) by lia. }
    rewrite (bind_ret _ _ _ _ _ E). by split_and!.
  - destruct (option_round_ok s0 (map fst done_) _ v o att argv pre (render todo) p Hv Hargv eq_refl)
      as (v' & E & Hv'). rewrite (bind_ret _ _ _ _ _ E).
    destruct (IH (done_ ++ [(o, att)]) fuel v' (pre ++ render_option o att)) as (v2 & E2 & H2).
    + by rewrite <- app_assoc.
    + rewrite map_app, length_app. simpl. by rewrite Nat2Z.inj_add.
    + simpl in Hf. lia.
    + exists v2. rewrite E2. by rewrite <- app_assoc in H2.
Qed.

Definition conflict_message : string :=
  "%s: unicast address given as well as enabling manycast, only one or the other can be chosen\n".

(** Parsing the rendering of options applies them in order. *)
Lemma parse_command_line_ok fuel prog os s0 p : (length os < fuel)%nat ->
  parse_command_line fuel (prog :: render os) s0 p =
    if existsb is_unicast (map fst os) && existsb is_manycast (map fst os)
    then (Exited 1, printed p (EPrint Stderr conflict_message [AStr prog]))
    else (Ret (fold_left apply_given (map fst os) s0), p).
Proof.
  intros Hf. unfold parse_command_line.
  destruct (options_ok s0 (prog :: render os) p os [] fuel
    {| opts := getopt_start; cl_set := s0; uni_set := false; many_set := false |} [prog])
    as (v & E & Hs & Hu & Hm); [done|by split|done|].
  rewrite (bind_ret _ _ _ _ _ E), Hu, Hm, Hs. simpl app.
  by destruct (_ && _).
Qed.

(** ** Arguments that are not options *)

Definition is_stray (a : string) : bool :=
  match a with String "-" (String _ _) => false | _ => true end.

Lemma getopt_stray argv i g a : at_index i g -> argv !! Z.to_nat i = Some a -> is_stray a = true ->
  getopt argv optstring g = (None, g).
Proof.
  intros [Hi Hc] Ha Hs. unfold getopt. rewrite Hi, Ha, Hc. unfold is_stray in Hs.
  destruct a as [|x s]; [by rewrite Hc|].
  destruct x as [[] [] [] [] [] [] [] []]; try (by rewrite Hc). destruct s; [by rewrite Hc|done].
Qed.

Lemma stray_stuck argv i a p : argv !! Z.to_nat i = Some a -> 0 <= i -> is_stray a = true ->
  forall fuel v, at_index i (opts v) -> iter fuel (option_round argv) v p = (NoFuel, p).
Proof.
  intros Ha Hi Hs fuel. induction fuel as [|fuel IH]; intros v Hv; [done|]. simpl.
  assert (exists v', option_round argv v p = (Ret (inl v'), p) /\ at_index i (opts v')) as (v' & E & Hv').
  { unfold option_round. destruct Hv as [Ei Hc]. rewrite Ei.
    apply lookup_lt_Some in Ha as Hlt. rewrite (proj2 (Z.ltb_lt _ _)) by lia.
    rewrite (getopt_stray argv i (opts v) a); [|by split|done|done].
    eexists. split; [reflexivity|]. by split. }
  rewrite (bind_ret _ _ _ _ _ E). by apply IH.
Qed.

Lemma stray_hangs_ok s0 argv a more p : is_stray a = true -> forall todo done_ fuel v pre,
  argv = pre ++ render todo ++ a :: more -> so_far s0 done_ (Z.of_nat (length pre)) v ->
  iter fuel (option_round argv) v p = (NoFuel, p).
Proof.
  intros Hs. induction todo as [|[o att] todo IH]; intros done_ fuel v pre Hargv Hv.
  - apply (stray_stuck argv (Z.of_nat (length pre)) a); [|lia|done|apply Hv].
    rewrite Hargv, lookup_app_r, Nat2Z.id, Nat.sub_diag by lia. done.
  - destruct fuel as [|fuel]; [done|]. simpl.
    simpl in Hargv. assert (argv = pre ++ render_option o att ++ (render todo ++ a :: more)) as Hargv'
      by (rewrite Hargv; unfold render; simpl; by rewrite <- app_assoc).
    destruct (option_round_ok s0 done_ _ v o att argv pre _ p Hv Hargv' eq_refl) as (v' & E & Hv').
    rewrite (bind_ret _ _ _ _ _ E). apply (IH (done_ ++ [o]) fuel v' (pre ++ render_option o att)).
    + by rewrite <- app_assoc.
    + rewrite length_app. by rewrite Nat2Z.inj_add.
Qed.

(** ** The configuration file *)

Definition client_ints : list string :=
  ["manycast_wait_time"; "server_port"; "recv_uni_timeout"; "max_unicast_retries"; "poll_wait"].

(** Field by field, from the tree. *)
Definition client_settings_of (c : config) (junk : Z) : client_settings :=
  let int n d := default d (setting_at c n ≫= int_of) in
  {| server_host := Indeterminate;
     server_port := int "server_port" DEFAULT_SERVER_PORT;
     debug := DEFAULT_DEBUG;
     recv_uni_timeout := int "recv_uni_timeout" DEFAULT_RECV_TIMEOUT;
     max_unicast_retries := int "max_unicast_retries" DEFAULT_MAX_UNICAST_RETRY_LIMIT;
     poll_wait := int "poll_wait" DEFAULT_MIN_POLL_WAIT;
     timed_repeat_updates_enabled := DEFAULT_REPEAT_UPDATES_ENABLED;
     timed_repeat_updates_limit := DEFAULT_REPEAT_UPDATE_LIMIT;
     manycast_enabled := junk;
     manycast_wait_time := int "manycast_wait_time" DEFAULT_MANYCAST_WAIT_TIME;
     manycast_address :=
       match setting_at c "manycast_address" ≫= string_of with
       | Some a => cstr_of a
       | None => Lit DEFAULT_MANYCAST_ADDRESS
       end |}.

(** The step of one integer. *)
Lemma update_int_ok c n f s p : wf c -> valid_name n -> moved c = true ->
  update_with (config_lookup_int n) f c s p =
    if float_at c n then (Undef UB_dangling, p)
    else (Ret (match setting_at c n ≫= int_of with Some a => f a s | None => s end), p) :> outcome client_settings * _.
Proof.
  intros Hwf Hn Hm. pose proof (lookup_int_ok c n Hwf Hn Hm) as E. destruct (float_at c n).
  - by apply (update_with_undef _ _ _ _ _ c).
  - by apply update_with_ret.
Qed.

Lemma client_parse_ok fuel p c junk : sound c ->
  setup_config_file fuel CONFIG_FILE p = (Ret (with_moved c), p) ->
  parse_config_file fuel (default_settings junk) p =
    if existsb (float_at c) client_ints then (Undef UB_dangling, p)
    else (Ret (client_settings_of c junk), p).
Proof.
  intros [Hwf _] E. pose proof (wf_moved c Hwf) as Hwf'.
  unfold parse_config_file. rewrite (bind_ret _ _ _ _ _ E).
  rewrite (bind_ret _ _ _ _ _ (update_with_ret _ _ _ _ _ p
    (lookup_string_ok _ "manycast_address" Hwf' ltac:(done)))).
  unfold client_ints, existsb.
  assert (forall n f s, valid_name n -> update_with (config_lookup_int n) f (with_moved c) s p =
    if float_at c n then (Undef UB_dangling, p)
    else (Ret (match setting_at c n ≫= int_of with Some a => f a s | None => s end), p) :> outcome client_settings * _)
    as Hstep by (intros; by apply (update_int_ok (with_moved c))).
  change (setting_at (with_moved c)) with (setting_at c).
  assert (valid_name "manycast_wait_time" /\ valid_name "server_port" /\ valid_name "recv_uni_timeout" /\
    valid_name "max_unicast_retries" /\ valid_name "poll_wait") as (V1 & V2 & V3 & V4 & V5) by done.
  assert (forall A (m : M (proc K) client_settings) (k : client_settings -> M (proc K) A) (b : bool) r,
    m p = (if b then (Undef UB_dangling, p) else (Ret r, p)) ->
    (m ≫= k) p = if b then (Undef UB_dangling, p) else k r p) as Hbind.
  { intros A m k b r Em. destruct b; [by apply bind_undef|by apply bind_ret]. }
  rewrite (Hbind _ _ _ _ _ (Hstep _ _ _ V1)).
  destruct (float_at c "manycast_wait_time"); [done|].
  rewrite (Hbind _ _ _ _ _ (Hstep _ _ _ V2)). destruct (float_at c "server_port"); [done|].
  rewrite (Hbind _ _ _ _ _ (Hstep _ _ _ V3)). destruct (float_at c "recv_uni_timeout"); [done|].
  rewrite (Hbind _ _ _ _ _ (Hstep _ _ _ V4)). destruct (float_at c "max_unicast_retries"); [done|].
  rewrite (Hstep _ _ _ V5). destruct (float_at c "poll_wait"); [done|]. f_equal. f_equal.
  unfold client_settings_of.
  destruct (setting_at c "manycast_address" ≫= string_of), (setting_at c "manycast_wait_time" ≫= int_of),
    (setting_at c "server_port" ≫= int_of), (setting_at c "recv_uni_timeout" ≫= int_of),
    (setting_at c "max_unicast_retries" ≫= int_of), (setting_at c "poll_wait" ≫= int_of); reflexivity.
Qed.
End CommandLine.

(** ** The properties *)


(** A machine without a configuration file. *)
Definition bare_machine : script := Script 1400000000 [] true [] [].



