(* ===== verification/ClientMainSpec.v ===== *)
(** * What the client program does, from its settings on

    Waiting for the next poll, the repeated updates with their averages, and
    [main]: discovery, one exchange or several, and the exit status. *)

From Stdlib Require Import SpecFloat Strings.Byte.
From stdpp Require Import sorting.
From S2P Require Import Prelude Double NtpTime Packet Net Script SntpTools Server CString.
From S2P Require Import Setting Config ScanCtx Scanner Grammar ConfigRead SetupConfig.
From S2P Require Import Client ClientSpec ManycastSpec ClientMain ClientSettings.
Local Open Scope Z_scope.

(** ** Waiting *)

Abbreviation us := 1000000 (only parsing).

Lemma s32_add x d : s32 (x + d) = s32 (s32 x + d).
Proof.
  unfold swrap. f_equal. replace ((x + 2 ^ (32 - 1)) mod 2 ^ 32 - 2 ^ (32 - 1) + d + 2 ^ (32 - 1))
    with ((x + 2 ^ (32 - 1)) mod 2 ^ 32 + d) by ring.
  rewrite Zplus_mod_idemp_l. f_equal. ring.
Qed.

(** Rounds of the loop that waits: one per microsecond at most, and the elapsed
    time, an int, passes the waiting time before it wraps. *)
Definition WAIT_ROUNDS : Z := 2 ^ 32 * us.

Section Wait.
Context {K : Type} `{Clock K}.
Implicit Types (p : proc K).
Context (c_set : client_settings) (Hw : 0 <= poll_wait c_set < 2 ^ 30).

(** One round: the elapsed time is read. *)
Lemma wp_wait_round counter timer Q p : counter <> 0 ->
  Q (Ret (if s32 (clock (kern p) / us - tv_sec timer) <=? poll_wait c_set then inl tt else inr tt))
    (Proc (k_gettimeofday (kern p)).2 (ntoa_buf p) (trace p)) ->
  wp (if counter =? 0 then mret (inr tt) else
      e ← get_elapsed_time timer; mret (if e <=? poll_wait c_set then inl tt else inr tt)
      : M (proc K) (unit + unit)) Q p.
Proof.
  intros Hc HQ. destruct (Z.eqb_spec counter 0) as [|_]; [done|]. wnext. apply wp_get_elapsed_time. wnext.
  apply wp_ret. by rewrite clock_reads.
Qed.

Lemma wait_to_poll_ok fuel counter timer Q p : (Z.to_nat WAIT_ROUNDS < fuel)%nat ->
  (forall p', io (trace p') = io (trace p) -> Q (Ret tt) p') ->
  wp (wait_to_poll fuel c_set counter timer) Q p.
Proof.
  intros Hf HQ. unfold wait_to_poll.
  destruct (decide (counter = 0)) as [-> |Hne].
  { destruct fuel; [lia|]. cbn [iter Z.eqb]. apply wp_bind, wp_ret. wnext. by apply wp_ret, HQ. }
  set (s0 := clock (kern p) / us).
  set (e0 := s32 (s0 - tv_sec timer)). pose proof (swrap_range 32 (s0 - tv_sec timer) ltac:(lia)) as He0. fold e0 in He0.
  change (2 ^ (32 - 1)) with 2147483648 in He0. change (2 ^ 30) with 1073741824 in Hw.
  pose proof (div_million (clock (kern p))) as D0. cbv zeta in D0. fold s0 in D0.
  destruct (Z_le_gt_dec e0 (poll_wait c_set)) as [Hin|Hout].
  2:{ destruct fuel; [lia|]. cbn [iter]. apply wp_bind, wp_wait_round; [done|]. fold s0. fold e0.
      rewrite (proj2 (Z.leb_gt _ _)) by lia. wnext. by apply wp_ret, HQ. }
  set (D := s0 + (poll_wait c_set + 1 - e0)).
  apply (wp_iter _ (fun _ p' => io (trace p') = io (trace p) /\
      clock (kern p) <= clock (kern p') <= D * us + CALL_TIME)
    (fun _ p' => Z.to_nat (D * us - clock (kern p')))).
  - intros [] p1 [Hio Hc]. apply wp_wait_round; [done|].
    pose proof (div_million (clock (kern p1))) as D1. cbv zeta in D1.
    pose proof (clock_ticks (kern p1)) as Tick. unfold CALL_TIME in *. change (2 ^ 28) with 268435456 in *.
    replace (clock (kern p1) / us - tv_sec timer) with (s0 - tv_sec timer + (clock (kern p1) / us - s0)) by ring.
    rewrite s32_add. fold e0.
    rewrite swrap_small by (change (2 ^ (32 - 1)) with 2147483648; lia).
    destruct (Z.leb_spec (e0 + (clock (kern p1) / us - s0)) (poll_wait c_set)) as [Hle|Hgt]; [|by apply HQ].
    split; [split; [done|]|]; cbn [kern]; lia.
  - split; [done|]. unfold CALL_TIME. lia.
  - unfold WAIT_ROUNDS in Hf. change (2 ^ 32) with 4294967296 in Hf. lia.
Qed.
End Wait.

(** ** Repeated updates *)

Section Repeat.
Context {K : Type} `{Clock K}.
Implicit Types (p : proc K).
Context (c_set : client_settings).

(** Exchanges that ended, one after the other, with what each computed: nothing
    when it failed. *)
Inductive exchanges p : list (option (spec_float * spec_float)) -> proc K -> Prop :=
  | exchanges_none p' : io (trace p') = io (trace p) -> exchanges p [] p'
  | exchanges_more rs p1 code timer r p2 p' : exchanges p rs p1 ->
      unicast_post c_set p1 (Ret (code, timer, r)) p2 -> io (trace p') = io (trace p2) ->
      exchanges p (rs ++ [r]) p'.

(** The sums that the loop keeps. *)
Definition samples (rs : list (option (spec_float * spec_float))) : list (spec_float * spec_float) := omap id rs.
Definition total (start : spec_float) (ds : list spec_float) : spec_float := fold_left dadd ds start.

Lemma unicast_post_from p p1 o p' : io (trace p1) = io (trace p) -> unicast_post c_set p1 o p' ->
  unicast_post c_set p o p'.
Proof. intros E Hp. unfold unicast_post in *. by rewrite E in Hp. Qed.

(** The exit code tells whether there is a sample. *)
Lemma unicast_code p code timer r p' : unicast_post c_set p (Ret (code, timer, r)) p' ->
  code = 0 <-> is_Some r.
Proof.
  intros (? & ? & ? & ? & _ & _ & Ho). destruct r as [[offset bound]|].
  - destruct Ho as [-> _]. split; [by eexists|done].
  - destruct Ho as [_ [[Hc _]|[-> _]]]; (split; [lia|by intros []]).
Qed.

Lemma exchanges_io p rs p1 p2 : exchanges p rs p1 -> io (trace p2) = io (trace p1) -> exchanges p rs p2.
Proof.
  intros He E. destruct He as [p1 E1|rs p0 code timer r p1 p3 He Hu E1].
  - apply exchanges_none. congruence.
  - eapply exchanges_more; [done|done|congruence].
Qed.

Definition repeat_inv (u : uninitialised) p (v : repeat_vars) p' : Prop :=
  exists rs, exchanges p rs p' /\ counter v = Z.of_nat (length rs) /\
    s_counter v = Z.of_nat (length (samples rs)) /\
    counter v <= Z.max 0 (timed_repeat_updates_limit c_set) /\
    offset_total v = total (u_offset u) (fst <$> samples rs) /\
    error_bound_total v = total (u_error u) (snd <$> samples rs).

(** A run that was cut short, in the exchange after those that ended. *)
Definition cut_short p (w : ub) p' : Prop := exists rs p1, exchanges p rs p1 /\
  Z.of_nat (length rs) < timed_repeat_updates_limit c_set /\ unicast_post c_set p1 (Undef w) p'.

Hypothesis Hw : 0 <= poll_wait c_set < 2 ^ 30.
Hypothesis Hm : max_unicast_retries c_set < INT_MAX.
Hypothesis Hh : loadable (PPtr (server_host c_set)).

Lemma wp_print_error_message code Q p : (forall p', quiet p p' -> Q (Ret tt) p') ->
  wp (print_error_message code) Q p.
Proof.
  intros HQ. unfold print_error_message. cbv zeta.
  repeat match goal with |- wp (if ?b then _ else _) _ _ => destruct b end; by apply wp_printf_to.
Qed.

Lemma repeat_round_ok fuel u p v p' : (Z.to_nat WAIT_ROUNDS < fuel)%nat ->
  (Z.to_nat (Z.max 0 (max_unicast_retries c_set) * patience c_set) < fuel)%nat -> repeat_inv u p v p' ->
  wp (repeat_round fuel c_set v) (fun o p2 =>
    match o with
    | Ret (inl v') => repeat_inv u p v' p2 /\ counter v' = counter v + 1 /\
        counter v < timed_repeat_updates_limit c_set
    | Ret (inr v') => v' = v /\ p2 = p' /\ timed_repeat_updates_limit c_set <= counter v
    | Undef w => cut_short p w p2
    | _ => False
    end) p'.
Proof.
  intros Hf1 Hf2 (rs & He & Hc & Hs & Hl & Ho & Hb). unfold repeat_round.
  destruct (Z.ltb_spec (counter v) (timed_repeat_updates_limit c_set)) as [Hlt|Hge]; cbn [negb];
    [|by apply wp_ret].
  wnext. apply wait_to_poll_ok; [done|done|]. intros p1 H1. wnext. wnext.
  eapply wp_mono; [|by apply (unicast_mode_ok fuel c_set (rp_timer v) p1)].
  intros o p2 Hu. pose proof (exchanges_io p rs p' p1 He H1) as He1.
  destruct o as [[[code timer] r]|z| |w|]; cbn [then_];
    try (by destruct Hu as (? & ? & ? & ? & _ & _ & [])).
  - pose proof (unicast_code p1 code timer r p2 Hu) as Hcode.
    assert (forall p3, io (trace p3) = io (trace p2) -> exchanges p (rs ++ [r]) p3) as Hmore
      by (intros p3 E; by eapply exchanges_more).
    destruct (Z.eqb_spec code 0) as [->|Hne]; cbn [negb].
    + destruct (proj1 Hcode eq_refl) as [[offset bound] ->]. cbn [default]. unfold id. apply wp_ret.
      split; [|by split]. exists (rs ++ [Some (offset, bound)]).
      assert (samples (rs ++ [Some (offset, bound)]) = samples rs ++ [(offset, bound)]) as Es
        by (unfold samples; by rewrite omap_app).
      rewrite Es, !fmap_app, !length_app. cbn [counter s_counter offset_total error_bound_total].
      unfold total in *. rewrite !fold_left_app. cbn [fold_left fmap list_fmap fst snd].
      split_and!; [by apply Hmore|simpl; lia|simpl; lia|lia|congruence|congruence].
    + apply wp_bind, wp_print_error_message. intros p3 (_ & _ & H3). wnext. apply wp_ret.
      split; [|by split]. exists (rs ++ [r]).
      destruct r as [r|]; [destruct (Hne (proj2 Hcode (mk_is_Some _ _ eq_refl)))|].
      assert (samples (rs ++ [None]) = samples rs) as Es by (unfold samples; rewrite omap_app; apply app_nil_r).
      rewrite Es, !length_app. cbn [counter s_counter offset_total error_bound_total].
      split_and!; [by apply Hmore|simpl; lia|done|lia|done|done].
  - exists rs, p1. split_and!; [done|lia|done].
Qed.

(** The line printed at the end. *)
Definition statistics (u : uninitialised) (rs : list (option (spec_float * spec_float))) : event :=
  match samples rs with
  | [] => EPrint Stderr "unable to collect any time samples\n" []
  | _ =>
      let n := double_of_Z (Z.of_nat (length (samples rs))) in
      EPrint Stdout "\nStatistics -> offset average: %f, error bound average: +/- %f\n"
        [ADbl (ddiv (total (u_offset u) (fst <$> samples rs)) n);
         ADbl (ddiv (total (u_error u) (snd <$> samples rs)) n)]
  end.

Definition repeat_post (u : uninitialised) p (o : outcome unit) p' : Prop :=
  match o with
  | Ret _ => exists rs p1, exchanges p rs p1 /\
      Z.of_nat (length rs) = Z.max 0 (timed_repeat_updates_limit c_set) /\
      trace p' = trace p1 ++ [statistics u rs] /\ kern p' = kern p1
  | Undef w => cut_short p w p'
  | _ => False
  end.

Lemma repeat_updates_ok fuel u p : (Z.to_nat WAIT_ROUNDS < fuel)%nat ->
  (Z.to_nat (Z.max 0 (max_unicast_retries c_set) * patience c_set) < fuel)%nat ->
  (Z.to_nat (timed_repeat_updates_limit c_set) < fuel)%nat ->
  wp (repeat_updates fuel c_set u) (repeat_post u p) p.
Proof.
  intros Hf1 Hf2 Hf3. unfold repeat_updates. wnext.
  eapply (wp_iter _ (repeat_inv u p) (fun v _ => Z.to_nat (timed_repeat_updates_limit c_set - counter v))).
  - intros v p1 Hinv. eapply wp_mono; [|by apply (repeat_round_ok fuel u p v p1)].
    intros o p2 Hr. destruct o as [[v'|v']|z| |w|]; try done.
    + destruct Hr as (Hi & Ec & Hlt). split; [done|]. rewrite Ec. lia.
    + destruct Hr as (-> & -> & Hge). destruct Hinv as (rs & He & Hc & Hs & Hl & Ho & Hb). wnext.
      destruct (Z.ltb_spec 0 (s_counter v)) as [Hp|Hz].
      * unfold printf_to. cbn [load_args load_arg]. exists rs, p1. split_and!; [done|lia| |done].
        cbn. unfold statistics. rewrite Ho, Hb, Hs. destruct (samples rs); [simpl in Hs; lia|done].
      * exists rs, p1. split_and!; [done|lia| |done]. cbn. unfold statistics.
        destruct (samples rs); [done|simpl in Hs; lia].
  - exists []. split_and!; [by apply exchanges_none|done|done|cbn [counter]; lia|done|done].
  - cbn [counter]. lia.
Qed.
End Repeat.

(** ** main *)

Section Main.
Context {K : Type} `{Clock K}.
Implicit Types (p : proc K).

(** After a server is chosen: one exchange, or the repeated updates.  The exit
    status is 0 in either case. *)
Definition run_post (c_set : client_settings) (u : uninitialised) p (o : outcome Z) p' : Prop :=
  if timed_repeat_updates_enabled c_set =? 1 then
    match o with
    | Ret z => z = 0 /\ repeat_post c_set u p (Ret tt) p'
    | Undef w => repeat_post c_set u p (Undef w) p'
    | _ => False
    end
  else
    match o with
    | Ret z => z = 0 /\ exists code timer r p1, unicast_post c_set p (Ret (code, timer, r)) p1 /\
        io (trace p') = io (trace p1)
    | Undef w => unicast_post c_set p (Undef w) p'
    | _ => False
    end.

(** The whole run, from the settings. *)
Definition client_post (c_set : client_settings) (u : uninitialised) p (o : outcome Z) p' : Prop :=
  if i2b (manycast_enabled c_set) then
    exists od pd, discover_post c_set p od pd /\
    match od with
    | Ret (code, servers) =>
        if code =? 0 then exists pd', io (trace pd') = io (trace pd) /\ head servers = Some Ntoa /\
          run_post (set_host Ntoa c_set) u pd' o p'
        else o = Exited 1 /\ io (trace p') = io (trace pd)
    | Undef w => o = Undef w /\ p' = pd
    | _ => False
    end
  else run_post c_set u p o p'.

(** What the settings must satisfy, and fuel for every loop. *)
Record settings_fit (c_set : client_settings) (fuel : nat) : Prop := {
  sf_wait : 0 <= poll_wait c_set < 2 ^ 30;
  sf_many : 0 <= manycast_wait_time c_set < 2 ^ 30;
  sf_retries : max_unicast_retries c_set < INT_MAX;
  sf_host : i2b (manycast_enabled c_set) = false -> loadable (PPtr (server_host c_set));
  sf_group : loadable (PPtr (manycast_address c_set));
  sf_fuel_wait : (Z.to_nat WAIT_ROUNDS < fuel)%nat;
  sf_fuel_retry : (Z.to_nat (Z.max 0 (max_unicast_retries c_set) * patience c_set) < fuel)%nat;
  sf_fuel_repeat : (Z.to_nat (timed_repeat_updates_limit c_set) < fuel)%nat;
  sf_fuel_many : (Z.to_nat ((manycast_wait_time c_set + 1) * us) < fuel)%nat
}.

Definition run_client (fuel : nat) (c_set : client_settings) (u : uninitialised) : M (proc K) Z :=
  if negb (c_set.(timed_repeat_updates_enabled) =? 1) then
    r ← unicast_mode fuel c_set u.(u_timer);
    let '(exit_code, _, _) := r in
    (if negb (exit_code =? 0) then print_error_message exit_code else mret tt);;
    mret 0
  else repeat_updates fuel c_set u;; mret 0.

Lemma run_client_ok fuel c_set u p : settings_fit c_set fuel -> loadable (PPtr (server_host c_set)) ->
  wp (run_client fuel c_set u) (run_post c_set u p) p.
Proof.
  intros Hs Hh. destruct Hs. unfold run_client, run_post.
  destruct (timed_repeat_updates_enabled c_set =? 1); cbn [negb].
  - apply wp_bind. eapply wp_mono; [|by apply repeat_updates_ok].
    intros o p' Hp. by destruct o as [[]|z| |w|].
  - apply wp_bind. eapply wp_mono; [|by apply unicast_mode_ok].
    intros o p1 Hp. destruct o as [[[code timer] r]|z| |w|]; cbn [then_]; try done;
      try (by destruct Hp as (? & ? & ? & ? & _ & _ & [])).
    destruct (code =? 0); cbn [negb].
    + apply wp_bind, wp_ret. wnext. apply wp_ret. split; [done|]. by exists code, timer, r, p1.
    + apply wp_bind, wp_print_error_message. intros p2 (_ & _ & H2). wnext. apply wp_ret. split; [done|].
      by exists code, timer, r, p1.
Qed.

Lemma discover_head c_set p code servers p' : discover_post c_set p (Ret (code, servers)) p' -> code = 0 ->
  head servers = Some Ntoa.
Proof.
  intros (sockfd & to & xt & n & rs & es & _ & Ho) ->. cbn in Ho.
  destruct Ho as [[? _]|[[? _]|[[? _]|(_ & _ & _ & _ & Hc & -> & _)]]]; try lia.
  by destruct (count_approved xt rs); [lia|].
Qed.

Lemma client_main_ok fuel argv u c_set p p1 : get_client_settings fuel argv (u_enabled u) p = (Ret c_set, p1) ->
  settings_fit c_set fuel -> wp (main fuel argv u) (client_post c_set u p1) p.
Proof.
  intros Eset Hs. unfold main, wp. rewrite (bind_ret _ _ _ _ _ Eset).
  match goal with |- let (o, s') := ?m p1 in @?Q o s' => change (wp m Q p1) end.
  unfold client_post. destruct (i2b (manycast_enabled c_set)) eqn:Hmany.
  - apply wp_bind, wp_bind. destruct Hs as [Hw Hww Hm _ Hg F1 F2 F3 F4].
    eapply wp_mono; [|by apply (discover_ok fuel c_set p1)].
    intros o p2 Hd. destruct o as [[code servers]|z| |w|]; cbn [then_];
      try (by destruct Hd as (? & ? & ? & ? & ? & ? & _ & [])).
    + destruct (Z.eqb_spec code 0) as [->|Hne].
      * pose proof (discover_head _ _ _ _ _ Hd eq_refl) as Hhead. rewrite Hhead. wnext. wnext.
        apply wp_lift_opt. wnext. wnext. apply wp_print_debug; [done|]. intros p3 (_ & _ & H3).
        wnext. apply wp_ret. wnext.
        eapply wp_mono; [|exact (run_client_ok fuel (set_host Ntoa c_set) u p3
          ltac:(by split) I)].
        intros o p4 Hr. exists (Ret (0, servers)), p2. split; [done|]. cbn [Z.eqb]. by exists p3.
      * apply wp_bind, wp_print_error_message. intros p3 (_ & _ & H3). wnext.
        exists (Ret (code, servers)), p2. split; [done|]. by rewrite (proj2 (Z.eqb_neq _ _)).
    + by exists (Undef w), p2.
  - apply wp_bind, wp_ret. wnext. apply (run_client_ok fuel c_set u p1 Hs). by apply sf_host with fuel.
Qed.
End Main.

(** ** The claims *)

(** C8: Repeated updates end and are what the settings ask for: exactly
    [timed_repeat_updates_limit] exchanges are made, each one that the unicast
    specification allows, whatever became of those before; the statistics are
    the sums over the exchanges that succeeded, divided by their number, and
    when none did the program says so.  (The sums start from what the two
    uninitialised variables hold.)  Only an exchange that is undefined cuts the
    run short. *)
Theorem repeat_updates_refines {K : Type} `{Clock K} fuel c_set u (p : proc K) :
  settings_fit c_set fuel -> loadable (PPtr (server_host c_set)) ->
  let (o, p') := repeat_updates fuel c_set u p in repeat_post c_set u p o p'.
Proof. intros [] Hh. exact (repeat_updates_ok c_set sf_wait0 sf_retries0 Hh fuel u p sf_fuel_wait0 sf_fuel_retry0 sf_fuel_repeat0). Qed.


(** Enough for the waits of the defaults. *)
Definition ample : nat := S (Z.to_nat (WAIT_ROUNDS + 200 * us)).

Lemma ample_fits c_set : poll_wait c_set = 15 -> manycast_wait_time c_set = 2 -> max_unicast_retries c_set = 2 ->
  timed_repeat_updates_limit c_set <= 4 ->
  (i2b (manycast_enabled c_set) = false -> loadable (PPtr (server_host c_set))) ->
  loadable (PPtr (manycast_address c_set)) -> settings_fit c_set ample.
Proof.
  intros E1 E2 E3 E4 Hh Hg. split; rewrite ?E1, ?E2, ?E3; try done; unfold ample, patience, WAIT_ROUNDS;
    rewrite ?E1; change (2 ^ 32) with 4294967296; lia.
Qed.

Definition sample_junk : uninitialised :=
  {| u_enabled := 0; u_offset := d0; u_error := d0; u_timer := {| tv_sec := 0; tv_usec := 0 |} |}.

Lemma repeat_updates_refines_witness :
  let (o, p') := repeat_updates ample (set_repeat 3 sample_settings) sample_junk (boot (sample_kernel [])) in
  repeat_post (set_repeat 3 sample_settings) sample_junk (boot (sample_kernel [])) o p'.
Proof. apply repeat_updates_refines; [|exact I]. apply ample_fits; [reflexivity..| |done|exact I]. vm_compute. congruence. Defined.

